(* ===== verification/_CoqProject ===== *)
-Q . S2P
Prelude.v
Memory.v
MathUtil.v
Bitmap.v
Pmm.v
Vfs.v
Vmm.v
Slab.v
Disk.v
Ext2.v
Ext2Alloc.v
Ext2Dir.v
Partitions.v
Io.v
Pci.v
Ahci.v
Storage.v
Acpi.v
Hpet.v
Interrupts.v
Cpu.v
Start.v
Apic.v
Process.v
Console.v
Spinlock.v
Boot.v
