(* ===== verification/Prelude.v ===== *)
(** * Griffin: a verification library for the griffin kernel

    Griffin is an x86-64 kernel in Rust ([src/src/], started by [main.rs]).  On
    entry it sets up descriptor tables and interrupts, takes the memory map of
    the bootloader to build a page allocator, builds the kernel heap on it, reads
    ACPI tables, starts the AHCI driver, looks for GPT partitions and mounts EXT2
    file systems under a VFS.  This library models that code as functions of a
    state and fault monad and proves what makes it correct, or where it is not.

    ** How the code is read

    A stateful Rust function becomes a definition in [M S A], from a state to an
    outcome and a state: explicit state passing, where a panic, a failed
    [expect], [todo!], an arithmetic overflow (the kernel is built in the dev
    profile, so arithmetic is checked), an index out of bounds or a use of a
    pointer to no object ends the run with a [fault].  A [u8], [u16], [u32], [u64]
    or [usize] is a [Z] whose checked operations ([uadd], [usub], [umul], [ushl])
    fault out of range and whose casts ([as_u]) wrap.  Bytes live in one memory,
    [gmap Z Z] from physical address to byte, read through the two maps the
    bootloader makes ([phys_of]).  Structs whose layout is Rust's own (the heap's
    [Cache] and [Slab]) live in typed maps from address to record.  Definitions
    keep the names of the source and are executable; a loop over a range is
    recursion on its length, a loop over a linked list has as fuel one more than
    the number of nodes that exist, so that running out means a cycle, on which
    the code does not end.

    Statements use [m s = (Ret a, s')] for a result, and [wp m s Q E] for "ends
    with [Q], or faults with [E]"; [total] is [wp] without faults.

    ** Files

    - [Prelude.v]: faults, outcomes, the monad with its notations and equivalence,
      checked integers, [wp] and its rules, loops, the tactics and the lemmas on
      integers, searches and counts the components share.
    - [Memory.v]: memory, loads and stores, [phys_of] (of [PHYS_BASE] and
      [PAGE_SIZE] in [arch/x86_64/mm/pmm.rs]).
    - [MathUtil.v]: [utils/math.rs].
    - [Bitmap.v]: [utils/bitmap.rs], [Module bitmap]; [test] is the set of bits a
      bitmap stands for, [upd] its update.
    - [Pmm.v]: [arch/x86_64/mm/pmm.rs], [Module pmm] ([alloc], [calloc], [free],
      [init] with its three loops), [PhysAddr], [PmmBox], and the page-backed
      constructor and [Drop] of [Bitmap].  State: [pstate], memory and
      [PAGE_ALLOCATOR].
    - [Vfs.v]: [fs/vfs.rs], [Module vfs]; the trait [Filesystem] is a class.
      State: [fstate], [MOUNT_POINTS] and the file systems' own state.
    - [Vmm.v]: [mm/vmm.rs], [Module vmm]; state [vstate] over [pstate].  [walk] is
      the translation that page tables in memory stand for.
    - [Slab.v]: [mm/slab.rs], [Module slab]; state [kheap] over [pstate].
    - [Disk.v]: the class [Disk] ([ahci::read] and [ahci::write]) with its laws
      [DiskLaws], an instance in memory, and the layout of packed structs.
    - [Ext2.v]: [fs/ext2.rs], [Module ext2], over any [Disk]; an instance of
      [Filesystem].  State: [estate], page allocator, disk, [EXT2_FS] and
      [INODE_TABLE].  Its read and write loops have one round per block of the
      request plus one, its directory loops one per byte of the directory.
    - [Ext2Alloc.v], [Ext2Dir.v]: no code of their own; the theorems on
      [alloc_inode] and [alloc_block], and on directories and [open], of [Ext2.v].
    - [Partitions.v]: [fs/partitions.rs], [Module partitions], over any [Disk].
    - [Io.v]: [arch/x86_64/io.rs]; the classes [PortBus] and [MmioBus] stand for the
      hardware behind ports and device registers.
    - [Pci.v]: [arch/x86_64/pci.rs], [Module pci].
    - [Ahci.v]: [drivers/ahci.rs], [Module ahci]; state [astate].  The classes of
      controllers that obey the AHCI specification, [Hba] for commands that succeed
      and [FaultyHba] for task file errors, are parameters, with simulated ones as
      their instances.
    - [Storage.v]: the AHCI driver as the [Disk] the file system uses.
    - [Acpi.v], [Hpet.v], [Apic.v]: [arch/x86_64/acpi/mod.rs], [drivers/hpet.rs],
      [arch/x86_64/apic.rs]; states [cstate], [tstate], [lstate].  The timer, the
      8259s and the local APIC are parameters described by classes.
    - [Interrupts.v]: [arch/x86_64/interrupts.rs], [Module interrupts] and the
      stub macros as programs of a stack machine; [InterruptContext] of [cpu.rs].
    - [Cpu.v]: [arch/x86_64/gdt.rs] ([Module gdt]) and [arch/x86_64/cpu.rs].
    - [Start.v]: [cpu::start], the TSS; state [ustate] over [kheap].
    - [Process.v]: [proc/process.rs], [Module process].
    - [Console.v]: [serial.rs] and [video/], [Module serial] and [Module video].
    - [Spinlock.v]: [spinlock.rs], [Module spinlock], and its interleavings as a
      step relation.
    - [Boot.v]: [main.rs], [Module kernel]; [_start] on [kstate], which holds the
      states of all components.

    ** What is shown

    - The page allocator ([Pmm.v]): its scan equals the first-fit search;
      [pmm_inv] (the bitmap's storage is in no free frame, frame 0 is in use) is
      kept by [alloc], [calloc] and [free]; over every history of clients that
      write only to what they own, each frame is free or in exactly one live
      block; [init] marks exactly the usable pages and establishes [pmm_inv] on a
      map of whole pages, without frame 0, whose bitmap fills whole pages; when
      the bitmap ends inside a page, [init] frees that page.
    - Address spaces ([Vmm.v]): with [pt_inv] (tables are pages in use, no table
      is reached twice, no large pages), [map_page] changes one translation and
      nothing else, [get_mapping] reads it back, new spaces share the kernel's two
      entries, [mmap] maps its region; the failures of each are characterised.
    - The heap ([Slab.v]): [heap_inv] describes caches, slabs and bitmaps, whose
      pages are live blocks of the page allocator; allocations are fresh, objects
      are disjoint, [dealloc] undoes [alloc], [init] succeeds with enough frames
      and leaves the ten classes.
    - The VFS ([Vfs.v]): the mount table's invariant, longest match, dispatch.
    - EXT2 ([Ext2.v], [Ext2Alloc.v], [Ext2Dir.v]): [get_block_address] computes the block map;
      inodes stored by [flush] are read back by [get]; reads inside the first block
      of a file, and writes to a file of at most one block, are right and touch
      nothing else, and what larger reads do instead; allocation takes the lowest clear bit and changes that bit
      and the group's count, and where the number it returns is wrong; [open] is
      the lookup in the tree of names that one-block directories stand for, and
      what is read through the VFS from the description is the file's bytes.
    - The disk ([Ahci.v], [Storage.v], [Partitions.v]): on a controller that obeys
      its specification reads and writes, aligned or not, of at most 8192 sectors
      that fit in the driver's temporary pages ([fits_box]) have exactly the effect
      asked for, so that the driver simulates the [Disk] interface, on which the
      file system is verified, for sequences of such requests ([op_ok]); a read
      whose sectors do not fit writes one sector past the temporary pages; a task
      file error is reported and leaves the buffer alone; a scan tries the
      partitions in order.
      The file system makes requests outside [op_ok] too (a page at an offset
      inside a sector): for these its theorems are about the [Disk] interface
      only.
    - Platform ([Pci.v], [Acpi.v], [Hpet.v], [Apic.v]): the enumeration lists exactly
      the functions present, base addresses are decoded, capability lists are
      walked to their end, tables are found by signature, [sleep] takes the time
      asked for, panics or, when a 32-bit counter cannot reach its target, never
      ends, the legacy controllers end up remapped and masked.
    - Interrupts, segments, threads: the stubs are transparent to the interrupted
      program, vectors and identifiers are allocated lowest first, the selectors
      fit the GDT.
    - Output ([Console.v]): what the serial port sends, what a glyph draws.
    - The lock ([Spinlock.v]): mutual exclusion, no lost update and no deadlock over
      every interleaving.
    - The whole ([Boot.v]): the calls from [pmm::init] to [cpu::start] compose: from
      a memory map as [pmm::init] needs it they reach a state in which each frame
      the map gives out is free or in one block of the heap or the TSS, and the
      invariants of allocator, heap, segments, interrupts and address space hold
      together.
    - Deviations from what the code means to do are theorems as well (the
      [contains] in the mount point search, the protection that is ignored, the
      overlap test, the full cache, the shifted context of [isr_err!], the block
      that is handed out although in use, the stacks given by their low end).

    ** Bounds

    Loops that wait for hardware (the AHCI port, the HPET, the serial port) take a
    [fuel]; their theorems give the fuel that is enough from what the hardware
    promises.  The capability walk of [Pci.v] has 256, the number of offsets a list
    without a cycle can visit.  [Slab.v] and what builds on it assume less than
    64 TiB of memory, so that no address computation wraps.

    ** Not modelled

    Locks ([spin::Mutex]) are taken and released within one call and the kernel
    runs on one processor, so a call is one step; [Spinlock.v] alone has several.
    [_start] of [Boot.v] runs partitions and file system over the class [Disk] on
    the hardware; [Storage.v] is the link from it to the driver.
    The boxes, vectors and strings the components hold are values, not heap
    blocks.  [size_of::<Slab>()], the processor's [cpuid], the font file and the
    handlers called by the stubs are parameters; so is the hardware.  Formatting
    is modelled as far as [_start] uses it.  [proc/scheduler.rs] and the page
    fault handler are commented out in the source; [halt], the panic handler's
    message and [SlabAllocator::dump] are output only.

    ** Plan

    Next, in this order: [add_entry], [resize] and [set_block_address] of [Ext2.v],
    and with them [open] with [O_CREAT];
    the frame conditions of the bring-up that let [Boot.v] go on through
    [hpet::init] and [apic::init] (firmware tables and the bootloader's page tables
    keep their contents); several files open at once. *)

From Stdlib Require Export ZArith Lia Bool.
From stdpp Require Export base gmap list numbers.

#[global] Open Scope Z_scope.

(** ** Faults and outcomes

    The kernel is built with [cargo build], the dev profile, so integer
    arithmetic is checked: an overflow, a division by zero or an index out of
    bounds panics, and [panic-strategy] is [abort].  A fault ends the run. *)

Inductive fault :=
| Overflow      (* checked arithmetic or shift *)
| DivZero       (* division or remainder by zero *)
| OutOfBounds   (* slice or array index *)
| Expect        (* unwrap / expect on None or Err *)
| Panicked      (* panic! *)
| Todo          (* todo! *)
| BadPointer    (* use of a pointer to no object (null) *)
| OutOfFuel.    (* the bound given to an unbounded loop was reached *)

#[export] Instance fault_eq_dec : EqDecision fault.
Proof. solve_decision. Defined.

Inductive outcome (A : Type) :=
| Ret (a : A)
| Fault (f : fault).
Arguments Ret {A} a.
Arguments Fault {A} f.

(** ** The state and fault monad *)

Definition M (S A : Type) : Type := S -> outcome A * S.

Definition ret {S A} (a : A) : M S A := fun s => (Ret a, s).

Definition bind {S A B} (m : M S A) (k : A -> M S B) : M S B := fun s =>
  match m s with
  | (Ret a, s') => k a s'
  | (Fault f, s') => (Fault f, s')
  end.

Definition throw {S A} (f : fault) : M S A := fun s => (Fault f, s).

Definition gets {S A} (f : S -> A) : M S A := fun s => (Ret (f s), s).

Definition modify {S} (f : S -> S) : M S unit := fun s => (Ret tt, f s).

(** [expect] and [unwrap] on an [Option]. *)
Definition expect {S A} (o : option A) : M S A :=
  match o with Some a => ret a | None => throw Expect end.

(** Run a computation on a part of the state. *)
Definition zoom {S T A} (get : S -> T) (put : T -> S -> S) (m : M T A) : M S A :=
  fun s => let '(o, t) := m (get s) in (o, put t s).

Declare Scope griffin_scope.
Delimit Scope griffin_scope with griffin.
Notation "'let!' x := c 'in' k" := (bind c (fun x => k))
  (at level 10, x pattern, c at level 100, k at level 200,
   format "'[hv' 'let!'  x  :=  '[' c ']'  'in'  '/' k ']'") : griffin_scope.
Notation "'do!' c 'in' k" := (bind c (fun _ => k))
  (at level 10, c at level 100, k at level 200,
   format "'[hv' 'do!'  '[' c ']'  'in'  '/' k ']'") : griffin_scope.
#[global] Open Scope griffin_scope.

(** ** Machine integers

    A w-bit unsigned integer is a [Z]; [as] casts truncate, operators are
    checked. *)

Definition u8 : Z := 8.
Definition u16 : Z := 16.
Definition u32 : Z := 32.
Definition u64 : Z := 64.
Definition usize : Z := 64.

Definition as_u (w x : Z) : Z := x mod 2 ^ w.
Definition fits (w x : Z) : bool := (0 <=? x) && (x <? 2 ^ w).

Definition chk {S} (w x : Z) : M S Z :=
  if fits w x then ret x else throw Overflow.
Definition uadd {S} (w a b : Z) : M S Z := chk w (a + b).
Definition usub {S} (w a b : Z) : M S Z := chk w (a - b).
Definition umul {S} (w a b : Z) : M S Z := chk w (a * b).
Definition udiv {S} (a b : Z) : M S Z :=
  if b =? 0 then throw DivZero else ret (a / b).
Definition urem {S} (a b : Z) : M S Z :=
  if b =? 0 then throw DivZero else ret (a mod b).
(** [a << k] on a w-bit integer: the shift amount is checked, the bits shifted
    out are lost. *)
Definition ushl {S} (w a k : Z) : M S Z :=
  if fits 32 k && (k <? w) then ret (Z.shiftl a k mod 2 ^ w) else throw Overflow.

(** ** Loops: [for i in lo..hi] *)

Fixpoint for_loop {S} (n : nat) (i : Z) (body : Z -> M S unit) : M S unit :=
  match n with
  | O => ret tt
  | S n' => do! body i in for_loop n' (i + 1) body
  end.

Definition for_range {S} (lo hi : Z) (body : Z -> M S unit) : M S unit :=
  for_loop (Z.to_nat (hi - lo)) lo body.

(** ** Pointwise equality of computations *)

Definition meq {S A} (m1 m2 : M S A) : Prop := forall s, m1 s = m2 s.
Infix "≈ₘ" := meq (at level 70, no associativity) : griffin_scope.

#[export] Instance meq_equivalence S A : Equivalence (@meq S A).
Proof. split; intros; intros s; congruence. Qed.

#[export] Instance bind_proper S A B :
  Proper (meq ==> pointwise_relation A meq ==> meq) (@bind S A B).
Proof.
  intros m1 m2 Hm k1 k2 Hk s. unfold bind. rewrite (Hm s).
  destruct (m2 s) as [[a|f] s']; [apply Hk | done].
Qed.

Lemma bind_run {S A B} (m : M S A) (k : A -> M S B) s a s' :
  m s = (Ret a, s') -> bind m k s = k a s'.
Proof. unfold bind. by intros ->. Qed.

Lemma bind_ret_l {S A B} (a : A) (k : A -> M S B) : bind (ret a) k ≈ₘ k a.
Proof. done. Qed.

Lemma bind_ret_r {S A} (m : M S A) : bind m ret ≈ₘ m.
Proof. intros s. unfold bind, ret. by destruct (m s) as [[] ?]. Qed.

Lemma bind_assoc {S A B C} (m : M S A) (k : A -> M S B) (h : B -> M S C) :
  bind (bind m k) h ≈ₘ bind m (fun a => bind (k a) h).
Proof. intros s. unfold bind. by destruct (m s) as [[] ?]. Qed.

(** ** Weakest preconditions

    [wp m s Q E]: run from [s], [m] either returns [a] in a state with [Q], or
    faults in a state with [E].  [total m s Q] rules faults out. *)

Definition wp {S A} (m : M S A) (s : S)
    (Q : A -> S -> Prop) (E : fault -> S -> Prop) : Prop :=
  match m s with
  | (Ret a, s') => Q a s'
  | (Fault f, s') => E f s'
  end.

Definition nofault {S} : fault -> S -> Prop := fun _ _ => False.
Abbreviation total m s Q := (wp m s Q nofault).

Section wp_rules.
Context {S : Type}.
Implicit Types s : S.

Lemma wp_ret {A} (a : A) s Q E : Q a s -> wp (ret a) s Q E.
Proof. done. Qed.

Lemma wp_throw {A} f s (Q : A -> S -> Prop) (E : fault -> S -> Prop) :
  E f s -> wp (throw f) s Q E.
Proof. done. Qed.

Lemma wp_gets {A} (f : S -> A) s (Q : A -> S -> Prop) E : Q (f s) s -> wp (gets f) s Q E.
Proof. done. Qed.

Lemma wp_modify f s (Q : unit -> S -> Prop) E : Q tt (f s) -> wp (modify f) s Q E.
Proof. done. Qed.

Lemma wp_bind {A B} (m : M S A) (k : A -> M S B) s Q E :
  wp m s (fun a s' => wp (k a) s' Q E) E -> wp (bind m k) s Q E.
Proof. unfold wp, bind. by destruct (m s) as [[] ?]. Qed.

Lemma wp_bind_inv {A B} (m : M S A) (k : A -> M S B) s Q E :
  wp (bind m k) s Q E -> wp m s (fun a s' => wp (k a) s' Q E) E.
Proof. unfold wp, bind. by destruct (m s) as [[] ?]. Qed.

Lemma wp_mono {A} (m : M S A) s (Q Q' : A -> S -> Prop) (E E' : fault -> S -> Prop) :
  wp m s Q E ->
  (forall a s', Q a s' -> Q' a s') ->
  (forall f s', E f s' -> E' f s') -> wp m s Q' E'.
Proof. unfold wp. destruct (m s) as [[] ?]; auto. Qed.

Lemma wp_total {A} (m : M S A) s (Q Q' : A -> S -> Prop) E :
  total m s Q -> (forall a s', Q a s' -> Q' a s') -> wp m s Q' E.
Proof. intros H HQ. eapply wp_mono; eauto. done. Qed.

Lemma wp_eq {A} (m : M S A) s a s' (Q : A -> S -> Prop) E :
  m s = (Ret a, s') -> Q a s' -> wp m s Q E.
Proof. unfold wp. by intros ->. Qed.

Lemma total_inv {A} (m : M S A) s (Q : A -> S -> Prop) :
  total m s Q -> exists a s', m s = (Ret a, s') /\ Q a s'.
Proof. unfold wp. destruct (m s) as [[a|f] s'] eqn:E; [eauto | done]. Qed.

Lemma wp_expect {A} (o : option A) (a : A) s (Q : A -> S -> Prop) E :
  o = Some a -> Q a s -> wp (expect o) s Q E.
Proof. by intros ->. Qed.

Lemma fits_true w x : 0 <= x < 2 ^ w -> fits w x = true.
Proof. intros. unfold fits. lia. Qed.

Lemma fits_false w x : ~ (0 <= x < 2 ^ w) -> fits w x = false.
Proof. intros. unfold fits. lia. Qed.

Lemma chk_ok w x s : 0 <= x < 2 ^ w -> @chk S w x s = (Ret x, s).
Proof. intros H. unfold chk. by rewrite fits_true. Qed.

Lemma chk_overflow w x s : ~ (0 <= x < 2 ^ w) -> @chk S w x s = (Fault Overflow, s).
Proof. intros H. unfold chk. by rewrite fits_false. Qed.

Lemma wp_chk w x s (Q : Z -> S -> Prop) E :
  0 <= x < 2 ^ w -> Q x s -> wp (chk w x) s Q E.
Proof. intros. by eapply wp_eq; [apply chk_ok|]. Qed.

Lemma wp_uadd w a b s (Q : Z -> S -> Prop) E :
  0 <= a + b < 2 ^ w -> Q (a + b) s -> wp (uadd w a b) s Q E.
Proof. apply wp_chk. Qed.

Lemma wp_usub w a b s (Q : Z -> S -> Prop) E :
  0 <= a - b < 2 ^ w -> Q (a - b) s -> wp (usub w a b) s Q E.
Proof. apply wp_chk. Qed.

Lemma wp_umul w a b s (Q : Z -> S -> Prop) E :
  0 <= a * b < 2 ^ w -> Q (a * b) s -> wp (umul w a b) s Q E.
Proof. apply wp_chk. Qed.

Lemma wp_udiv a b s (Q : Z -> S -> Prop) E :
  b <> 0 -> Q (a / b) s -> wp (udiv a b) s Q E.
Proof. intros H. unfold udiv. rewrite (proj2 (Z.eqb_neq b 0) H). done. Qed.

Lemma wp_urem a b s (Q : Z -> S -> Prop) E :
  b <> 0 -> Q (a mod b) s -> wp (urem a b) s Q E.
Proof. intros H. unfold urem. rewrite (proj2 (Z.eqb_neq b 0) H). done. Qed.

Lemma wp_for_loop (I : Z -> S -> Prop) E body n : forall i s,
  I i s ->
  (forall j t, i <= j < i + Z.of_nat n -> I j t ->
     wp (body j) t (fun _ t' => I (j + 1) t') E) ->
  wp (for_loop n i body) s (fun _ t => I (i + Z.of_nat n) t) E.
Proof.
  induction n as [|n IH]; intros i s Hi Hb; simpl for_loop.
  { apply wp_ret. by replace (i + Z.of_nat 0) with i by lia. }
  apply wp_bind. eapply wp_mono; [apply Hb; [lia | done] | | done].
  intros [] t Ht. cbn beta. eapply wp_mono; [apply IH; [exact Ht|] | | done].
  - intros j u Hj. apply Hb. lia.
  - intros [] u. cbn beta. by replace (i + 1 + Z.of_nat n) with (i + Z.of_nat (Datatypes.S n)) by lia.
Qed.

Lemma wp_for_range (I : Z -> S -> Prop) E body lo hi s :
  lo <= hi -> I lo s ->
  (forall j t, lo <= j < hi -> I j t -> wp (body j) t (fun _ t' => I (j + 1) t') E) ->
  wp (for_range lo hi body) s (fun _ t => I hi t) E.
Proof.
  intros Hle Hlo Hb. unfold for_range.
  eapply wp_mono; [apply wp_for_loop with (I := I); [done|] | | done].
  - intros j t Hj. apply Hb. lia.
  - intros [] t. cbn beta. by replace (lo + Z.of_nat (Z.to_nat (hi - lo))) with hi by lia.
Qed.

End wp_rules.

Lemma wp_zoom {S T A} (get : S -> T) put (m : M T A) s (Q : A -> S -> Prop) E :
  wp m (get s) (fun a t => Q a (put t s)) (fun f t => E f (put t s)) ->
  wp (zoom get put m) s Q E.
Proof. unfold wp, zoom. by destruct (m (get s)) as [[] ?]. Qed.

Lemma zoom_ret {S T A} (get : S -> T) put (m : M T A) s a t :
  m (get s) = (Ret a, t) -> zoom get put m s = (Ret a, put t s).
Proof. unfold zoom. by intros ->. Qed.

(** ** Automation *)

Create HintDb griffin.
#[export] Hint Resolve wp_ret : griffin.

(** One step of symbolic execution. *)
Ltac wp_step :=
  match goal with
  | |- wp (bind _ _) _ _ _ => apply wp_bind
  | |- wp (ret _) _ _ _ => apply wp_ret
  | |- wp (gets _) _ _ _ => apply wp_gets
  | |- wp (modify _) _ _ _ => apply wp_modify
  | |- wp (zoom _ _ _) _ _ _ => apply wp_zoom
  | |- wp (uadd _ _ _) _ _ _ => apply wp_uadd; [try lia|]
  | |- wp (usub _ _ _) _ _ _ => apply wp_usub; [try lia|]
  | |- wp (umul _ _ _) _ _ _ => apply wp_umul; [try lia|]
  | |- wp (udiv _ _) _ _ _ => apply wp_udiv; [try lia|]
  | |- wp (urem _ _) _ _ _ => apply wp_urem; [try lia|]
  | |- wp (expect (Some _)) _ _ _ => eapply wp_expect; [reflexivity|]
  end; cbn beta.
Ltac wp_steps := repeat wp_step.

(** Split a chain of boolean tests in the goal. *)
Ltac case_bool :=
  match goal with
  | |- context [if ?b then _ else _] => destruct b eqn:?
  end.

(** ** Arithmetic shared by the components *)

Lemma pow64 : 2 ^ 64 = 18446744073709551616.
Proof. reflexivity. Qed.

Lemma land_ones_mod a n : 0 <= n -> Z.land a (2 ^ n - 1) = a mod 2 ^ n.
Proof. intros. rewrite <- Z.land_ones by lia. by rewrite Z.ones_equiv, <- Z.sub_1_r. Qed.

Lemma testbit_above n p i : 0 <= n < 2 ^ p -> 0 <= p <= i -> Z.testbit n i = false.
Proof.
  intros Hn Hp. rewrite <- (Z.mod_small n (2 ^ p)) by lia.
  by apply Z.mod_pow2_bits_high.
Qed.

Lemma land_bit_testbit b k :
  0 <= k -> negb (Z.land b (Z.shiftl 1 k) =? 0) = Z.testbit b k.
Proof.
  intros Hk. rewrite Z.shiftl_1_l.
  destruct (Z.testbit b k) eqn:E.
  - destruct (Z.eqb_spec (Z.land b (2 ^ k)) 0) as [H|]; [|done].
    assert (Z.testbit (Z.land b (2 ^ k)) k = false) as F by (rewrite H; apply Z.bits_0).
    rewrite Z.land_spec, E, Z.pow2_bits_true in F by lia. done.
  - destruct (Z.eqb_spec (Z.land b (2 ^ k)) 0) as [|H]; [done|].
    exfalso. apply H, Z.bits_inj'. intros i Hi. rewrite Z.land_spec, Z.bits_0.
    destruct (decide (i = k)) as [->|Hne]; [by rewrite E|].
    by rewrite Z.pow2_bits_false, andb_false_r by lia.
Qed.

Lemma lor_disjoint_add a b : Z.land a b = 0 -> Z.lor a b = a + b.
Proof. intros H. rewrite <- Z.lxor_lor, <- Z.add_nocarry_lxor by done. done. Qed.

Lemma land_mul_pow2_small a b n : 0 <= n -> 0 <= b < 2 ^ n -> Z.land (a * 2 ^ n) b = 0.
Proof.
  intros Hn Hb. apply Z.bits_inj'. intros i Hi.
  rewrite Z.land_spec, Z.bits_0, <- Z.shiftl_mul_pow2 by lia.
  destruct (decide (i < n)).
  - by rewrite Z.shiftl_spec_low by lia.
  - by rewrite (testbit_above b n i), andb_false_r by lia.
Qed.

Lemma lor_mul_pow2_small a b n :
  0 <= n -> 0 <= b < 2 ^ n -> Z.lor (a * 2 ^ n) b = a * 2 ^ n + b.
Proof. intros. by apply lor_disjoint_add, land_mul_pow2_small. Qed.

Lemma lor_range a b n : 0 <= a < 2 ^ n -> 0 <= n -> 0 <= b < 2 ^ n -> 0 <= Z.lor a b < 2 ^ n.
Proof.
  intros Ha Hn Hb. split; [apply Z.lor_nonneg; lia|].
  replace (Z.lor a b) with (Z.lor a b mod 2 ^ n); [apply Z.mod_pos_bound; lia|].
  apply Z.bits_inj'. intros i Hi. destruct (decide (i < n)).
  - by rewrite Z.mod_pow2_bits_low by lia.
  - rewrite Z.mod_pow2_bits_high, Z.lor_spec by lia.
    by rewrite (testbit_above a n), (testbit_above b n) by lia.
Qed.

Lemma decide_range_orb (a p b : Z) (t : bool) :
  (if decide (a <= p < b) then true else t) = (a <=? p) && (p <? b) || t.
Proof. case_decide; destruct (Z.leb_spec a p), (Z.ltb_spec p b); done || lia. Qed.

(** ** Searching and counting *)

Lemma find_seqZ_Some g k : forall a p,
  List.find g (seqZ a (Z.of_nat k)) = Some p <->
  (a <= p < a + Z.of_nat k /\ g p = true /\ forall q, a <= q < p -> g q = false).
Proof.
  induction k as [|k IH]; intros a p.
  { simpl. split; [done | lia]. }
  rewrite seqZ_cons by lia. simpl List.find.
  replace (Z.pred (Z.of_nat (S k))) with (Z.of_nat k) by lia.
  destruct (g a) eqn:Ha.
  - split.
    + intros [= <-]. split; [lia|]. split; [done|]. intros; lia.
    + intros (Hp & Hg & Hq). destruct (decide (p = a)) as [->|]; [done|].
      rewrite Hq in Ha by lia. done.
  - rewrite IH. split.
    + intros (Hp & Hg & Hq). split; [lia|]. split; [done|].
      intros q ?. destruct (decide (q = a)) as [->|]; [done|]. apply Hq. lia.
    + intros (Hp & Hg & Hq). assert (p <> a) by congruence.
      split; [lia|]. split; [done|]. intros. apply Hq. lia.
Qed.

Lemma find_seqZ_None g k a :
  (forall q, a <= q < a + Z.of_nat k -> g q = false) ->
  List.find g (seqZ a (Z.of_nat k)) = None.
Proof.
  intros H. destruct (List.find _ _) as [p|] eqn:E; [|done].
  apply find_seqZ_Some in E as (Hp & Hg & _). by rewrite H in Hg.
Qed.


Lemma filter_bool_ext (f g : Z -> bool) (l : list Z) :
  (forall q, q ∈ l -> g q = f q) ->
  filter (fun q => f q = true) l = filter (fun q => g q = true) l.
Proof.
  induction l as [|q l IH]; intros H; [done|]. rewrite !filter_cons.
  rewrite (H q) by (by left). rewrite IH; [done|]. intros r Hr. apply H. by right.
Qed.

(** Clearing one member of a predicate. *)
Lemma length_filter_flip (f g : Z -> bool) n (l : list Z) :
  NoDup l -> (forall q, q ∈ l -> g q = if decide (q = n) then false else f q) ->
  n ∈ l -> f n = true ->
  length (filter (fun q => f q = true) l) = S (length (filter (fun q => g q = true) l)).
Proof.
  induction 1 as [|q l Hq Hnd IH]; intros H Hin Hf; [by apply not_elem_of_nil in Hin|].
  assert (Hl : forall q, q ∈ l -> g q = if decide (q = n) then false else f q).
  { intros r Hr. apply H. by right. }
  rewrite !filter_cons. pose proof (H q ltac:(by left)) as Hg.
  destruct (decide (q = n)) as [->|Hne].
  - assert (filter (fun q => f q = true) l = filter (fun q => g q = true) l) as E.
    { apply filter_bool_ext. intros r Hr.
      rewrite (Hl r Hr), decide_False by (by intros ->). done. }
    rewrite Hf, Hg, decide_True, decide_False by done. simpl. by rewrite E.
  - apply elem_of_cons in Hin as [->|Hin]; [done|]. rewrite Hg. pose proof (IH Hl Hin Hf).
    case_decide; simpl; lia.
Qed.

Lemma length_filter_flip_le (f g : Z -> bool) n (l : list Z) :
  NoDup l -> (forall q, q ∈ l -> g q = if decide (q = n) then false else f q) ->
  (length (filter (fun q => f q = true) l) <= length (filter (fun q => g q = true) l) + 1)%nat.
Proof.
  intros Hnd H. destruct (decide (n ∈ l)) as [Hn|Hn]; [destruct (f n) eqn:E|].
  - rewrite (length_filter_flip f g n) by done. lia.
  - rewrite (filter_bool_ext f g); [lia|]. intros q Hq. rewrite H by done.
    case_decide; [by subst|done].
  - rewrite (filter_bool_ext f g); [lia|]. intros q Hq. rewrite H by done.
    rewrite decide_False by (by intros ->). done.
Qed.

(** For runs of the model on concrete data: only the result is computed. *)
Lemma run_result {A B} (p : A * B) (a : A) : fst p = a -> exists b, p = (a, b).
Proof. destruct p as [x b]. simpl. intros ->. by exists b. Qed.
