(* ===== verification/Memory.v ===== *)
(** * Physical memory

    Byte-addressed memory shared by every component, with the little-endian
    loads and stores, [write_bytes] and [copy_from] of [core::ptr], and the
    direct map through which the kernel reaches it.

    The bootloader maps physical memory twice, at its own address and at
    [PHYS_BASE]; the kernel uses both (a [PhysAddr] cast to a pointer as it is,
    or after [higher_half]).  [phys_of] is that translation: the physical
    address behind a kernel pointer. *)

From S2P Require Import Prelude.

Abbreviation mem := (gmap Z Z).

(** [pub const PHYS_BASE] and [PAGE_SIZE] of [arch/x86_64/mm/pmm.rs]. *)
Definition PHYS_BASE : Z := 0xffff800000000000.
Definition PAGE_SIZE : Z := 4096.

Definition phys_of (p : Z) : Z := p mod 2 ^ 47.

(** ** Bytes

    Memory that the model has not written reads as 0; a theorem quantifies over
    every memory, so it says nothing about initial contents. *)

Definition rd8 (m : mem) (a : Z) : Z := default 0 (m !! a) mod 256.
Definition wr8 (m : mem) (a v : Z) : mem := <[a := v mod 256]> m.

(** ** Little-endian words of [n] bytes *)

Fixpoint rdn (n : nat) (m : mem) (a : Z) : Z :=
  match n with
  | O => 0
  | S n' => rd8 m a + 256 * rdn n' m (a + 1)
  end.

Fixpoint wrn (n : nat) (m : mem) (a v : Z) : mem :=
  match n with
  | O => m
  | S n' => wrn n' (wr8 m a v) (a + 1) (v / 256)
  end.

Abbreviation rd16 := (rdn 2).
Abbreviation rd32 := (rdn 4).
Abbreviation rd64 := (rdn 8).
Abbreviation wr16 := (wrn 2).
Abbreviation wr32 := (wrn 4).
Abbreviation wr64 := (wrn 8).

(** ** Blocks: [ptr.write_bytes(v, n)] and [ptr.copy_from(src, n)] *)

Fixpoint fill (n : nat) (m : mem) (a v : Z) : mem :=
  match n with
  | O => m
  | S n' => fill n' (wr8 m a v) (a + 1) v
  end.

Fixpoint rd_bytes (n : nat) (m : mem) (a : Z) : list Z :=
  match n with
  | O => []
  | S n' => rd8 m a :: rd_bytes n' m (a + 1)
  end.

Fixpoint wr_bytes (m : mem) (a : Z) (bs : list Z) : mem :=
  match bs with
  | [] => m
  | b :: bs' => wr_bytes (wr8 m a b) (a + 1) bs'
  end.

Definition copy (n : nat) (m : mem) (dst src : Z) : mem :=
  wr_bytes m dst (rd_bytes n m src).

(** The bytes of a little-endian word. *)
Fixpoint le_bytes (n : nat) (v : Z) : list Z :=
  match n with
  | O => []
  | S n' => v mod 256 :: le_bytes n' (v / 256)
  end.

Fixpoint le_val (bs : list Z) : Z :=
  match bs with
  | [] => 0
  | b :: bs' => b mod 256 + 256 * le_val bs'
  end.

(** Two memories agree on [[a, a+n)]. *)
Definition agree (m m' : mem) (a n : Z) : Prop :=
  forall x, a <= x < a + n -> rd8 m' x = rd8 m x.

(** Two memories agree everywhere but on [[a, a+n)]. *)
Definition only (m m' : mem) (a n : Z) : Prop :=
  forall x, ~ (a <= x < a + n) -> rd8 m' x = rd8 m x.

(** The ranges [[a, a+n)] and [[b, b+k)] do not overlap. *)
Definition far (a n b k : Z) : Prop := a + n <= b \/ b + k <= a.

Section memory_lemmas.
Implicit Types m : mem.

Lemma phys_of_range p : 0 <= phys_of p < 2 ^ 47.
Proof. apply Z.mod_pos_bound. lia. Qed.

Lemma phys_of_small p : 0 <= p < 2 ^ 47 -> phys_of p = p.
Proof. apply Z.mod_small. Qed.

Lemma phys_of_add p i :
  0 <= i -> phys_of p + i < 2 ^ 47 -> phys_of (p + i) = phys_of p + i.
Proof.
  intros Hi Hlt. unfold phys_of in *. rewrite <- Zplus_mod_idemp_l.
  apply Z.mod_small. pose proof (Z.mod_pos_bound p (2 ^ 47)). lia.
Qed.

Lemma phys_of_base p : 0 <= p < 2 ^ 47 -> phys_of (p + PHYS_BASE) = p.
Proof.
  intros. unfold phys_of, PHYS_BASE.
  replace 0xffff800000000000 with (131071 * 2 ^ 47) by reflexivity.
  rewrite Z_mod_plus_full. by apply Z.mod_small.
Qed.

Lemma phys_of_base_add p i :
  0 <= p -> 0 <= i -> p + i < 2 ^ 47 -> phys_of (p + PHYS_BASE + i) = p + i.
Proof. intros. replace (p + PHYS_BASE + i) with (p + i + PHYS_BASE) by lia. apply phys_of_base. lia. Qed.

Lemma rd8_range m a : 0 <= rd8 m a < 256.
Proof. apply Z.mod_pos_bound. lia. Qed.

Lemma rd8_wr8 m a v b :
  rd8 (wr8 m a v) b = if decide (a = b) then v mod 256 else rd8 m b.
Proof.
  unfold rd8, wr8. rewrite lookup_insert. case_decide; [|done].
  simpl. by rewrite Z.mod_mod by lia.
Qed.

Lemma rd8_wr8_eq m a v : rd8 (wr8 m a v) a = v mod 256.
Proof. rewrite rd8_wr8. by case_decide. Qed.

Lemma rd8_wr8_ne m a v b : a <> b -> rd8 (wr8 m a v) b = rd8 m b.
Proof. intros. rewrite rd8_wr8. by case_decide. Qed.

Lemma rdn_one m a : rdn 1 m a = rd8 m a.
Proof. simpl. lia. Qed.

Lemma rdn_range n m : forall a, 0 <= rdn n m a < 256 ^ Z.of_nat n.
Proof.
  induction n as [|n IH]; intros a; simpl rdn; [simpl; lia|].
  rewrite Nat2Z.inj_succ, Z.pow_succ_r by lia.
  pose proof (IH (a + 1)). pose proof (rd8_range m a). nia.
Qed.

Lemma rdn_agree n m m' : forall a,
  agree m m' a (Z.of_nat n) -> rdn n m' a = rdn n m a.
Proof.
  induction n as [|n IH]; intros a H; simpl rdn; [done|].
  rewrite (H a) by lia. rewrite IH; [done|]. intros x Hx. apply H. lia.
Qed.

Lemma rd8_wrn_frame n : forall m a v x,
  ~ (a <= x < a + Z.of_nat n) -> rd8 (wrn n m a v) x = rd8 m x.
Proof.
  induction n as [|n IH]; intros m a v x Hx; simpl wrn; [done|].
  rewrite IH by lia. apply rd8_wr8_ne. lia.
Qed.

Lemma wrn_only n m a v : only m (wrn n m a v) a (Z.of_nat n).
Proof. intros x Hx. by apply rd8_wrn_frame. Qed.

Lemma rdn_wrn_eq n : forall m a v,
  rdn n (wrn n m a v) a = v mod 256 ^ Z.of_nat n.
Proof.
  induction n as [|n IH]; intros m a v; simpl; [by rewrite Z.mod_1_r|].
  rewrite rd8_wrn_frame, rd8_wr8_eq, IH by lia.
  rewrite Nat2Z.inj_succ, Z.pow_succ_r by lia.
  rewrite Z.rem_mul_r by lia. done.
Qed.

Lemma rdn_wrn_ne n k m a v b :
  a + Z.of_nat k <= b \/ b + Z.of_nat n <= a ->
  rdn n (wrn k m a v) b = rdn n m b.
Proof. intros H. apply rdn_agree. intros x Hx. apply rd8_wrn_frame. lia. Qed.

Lemma rd64_wr64_eq m a v : 0 <= v < 2 ^ 64 -> rd64 (wr64 m a v) a = v.
Proof. intros. rewrite rdn_wrn_eq. by apply Z.mod_small. Qed.

Lemma rd32_wr32_eq m a v : 0 <= v < 2 ^ 32 -> rd32 (wr32 m a v) a = v.
Proof. intros. rewrite rdn_wrn_eq. by apply Z.mod_small. Qed.

Lemma rd64_range m a : 0 <= rd64 m a < 2 ^ 64.
Proof. apply (rdn_range 8). Qed.

Lemma rd32_range m a : 0 <= rd32 m a < 2 ^ 32.
Proof. apply (rdn_range 4). Qed.

Lemma rd8_fill n : forall m a v x,
  rd8 (fill n m a v) x =
    if decide (a <= x < a + Z.of_nat n) then v mod 256 else rd8 m x.
Proof.
  induction n as [|n IH]; intros m a v x; simpl fill.
  { rewrite decide_False by lia. done. }
  rewrite IH, rd8_wr8. repeat case_decide; try lia; done.
Qed.

Lemma rdn_zero n m a :
  (forall x, a <= x < a + Z.of_nat n -> rd8 m x = 0) -> rdn n m a = 0.
Proof.
  revert a. induction n as [|n IH]; intros a H; simpl; [done|].
  rewrite H, IH; [done| |lia]. intros x Hx. apply H. lia.
Qed.

Lemma rd_bytes_length n m : forall a, length (rd_bytes n m a) = n.
Proof. induction n as [|n IH]; intros a; simpl; [done|]. by rewrite IH. Qed.

Lemma rd_bytes_agree n m m' : forall a,
  agree m m' a (Z.of_nat n) -> rd_bytes n m' a = rd_bytes n m a.
Proof.
  induction n as [|n IH]; intros a H; simpl; [done|].
  rewrite (H a), IH; [done| |lia]. intros x Hx. apply H. lia.
Qed.

Lemma rd8_wr_bytes bs : forall m a x,
  rd8 (wr_bytes m a bs) x =
    if decide (a <= x < a + Z.of_nat (length bs))
    then default 0 (bs !! Z.to_nat (x - a)) mod 256 else rd8 m x.
Proof.
  induction bs as [|b bs IH]; intros m a x; simpl wr_bytes.
  { simpl. rewrite decide_False by lia. done. }
  rewrite IH, rd8_wr8. simpl length. repeat case_decide; try lia; try done.
  - replace (Z.to_nat (x - a)) with (S (Z.to_nat (x - (a + 1)))) by lia. done.
  - subst. by rewrite Z.sub_diag.
Qed.

Lemma wr_bytes_only m a bs : only m (wr_bytes m a bs) a (Z.of_nat (length bs)).
Proof. intros x Hx. rewrite rd8_wr_bytes. by rewrite decide_False. Qed.

Lemma rd_wr_bytes bs : forall m a,
  rd_bytes (length bs) (wr_bytes m a bs) a = map (fun b => b mod 256) bs.
Proof.
  induction bs as [|b bs IH]; intros m a; simpl; [done|].
  rewrite IH. f_equal. rewrite rd8_wr_bytes, decide_False by lia.
  apply rd8_wr8_eq.
Qed.

Lemma lookup_rd_bytes n m : forall a i,
  (i < n)%nat -> rd_bytes n m a !! i = Some (rd8 m (a + Z.of_nat i)).
Proof.
  induction n as [|n IH]; intros a i Hi; [lia|].
  destruct i as [|i]; simpl; [by rewrite Z.add_0_r|].
  rewrite IH by lia. do 2 f_equal. lia.
Qed.

Lemma rd8_copy n m dst src x :
  rd8 (copy n m dst src) x =
    if decide (dst <= x < dst + Z.of_nat n) then rd8 m (src + (x - dst)) else rd8 m x.
Proof.
  unfold copy. rewrite rd8_wr_bytes, rd_bytes_length. case_decide as H; [|done].
  rewrite lookup_rd_bytes by lia. simpl. rewrite Z2Nat.id by lia.
  apply Z.mod_small, rd8_range.
Qed.

Lemma le_bytes_length n : forall v, length (le_bytes n v) = n.
Proof. induction n as [|n IH]; intros v; simpl; [done|]. by rewrite IH. Qed.

Lemma le_val_bytes n : forall v, le_val (le_bytes n v) = v mod 256 ^ Z.of_nat n.
Proof.
  induction n as [|n IH]; intros v; simpl; [by rewrite Z.mod_1_r|].
  rewrite IH, Z.mod_mod, Nat2Z.inj_succ, Z.pow_succ_r, Z.rem_mul_r by lia. done.
Qed.

Lemma le_val_range bs : 0 <= le_val bs < 256 ^ Z.of_nat (length bs).
Proof.
  induction bs as [|b bs IH]; simpl length; [simpl; lia|].
  rewrite Nat2Z.inj_succ, Z.pow_succ_r by lia. simpl le_val.
  pose proof (Z.mod_pos_bound b 256). nia.
Qed.

Lemma le_bytes_val bs :
  le_bytes (length bs) (le_val bs) = map (fun b => b mod 256) bs.
Proof.
  induction bs as [|b bs IH]; simpl; [done|].
  rewrite <- IH. f_equal.
  - rewrite Z.mul_comm, Z_mod_plus_full. apply Z.mod_mod. lia.
  - rewrite Z.mul_comm, Z.div_add by lia.
    by rewrite (Z.div_small (b mod 256)) by (apply Z.mod_pos_bound; lia).
Qed.

Lemma wrn_wr_bytes n : forall m a v, wrn n m a v = wr_bytes m a (le_bytes n v).
Proof.
  induction n as [|n IH]; intros m a v; simpl; [done|].
  rewrite IH. unfold wr8. by rewrite Z.mod_mod by lia.
Qed.

Lemma rdn_rd_bytes n m : forall a, rdn n m a = le_val (rd_bytes n m a).
Proof.
  induction n as [|n IH]; intros a; simpl; [done|].
  rewrite IH, (Z.mod_small (rd8 m a)); [done | apply rd8_range].
Qed.

Lemma rd_bytes_app n k m : forall a,
  rd_bytes (n + k) m a = rd_bytes n m a ++ rd_bytes k m (a + Z.of_nat n).
Proof.
  induction n as [|n IH]; intros a; simpl; [by rewrite Z.add_0_r|].
  rewrite IH. do 3 f_equal. lia.
Qed.

(** A word in front of other bytes. *)
Lemma rd_bytes_word w k m a e bs :
  0 <= e < 256 ^ Z.of_nat w -> rd_bytes (w + k) m a = le_bytes w e ++ bs ->
  rdn w m a = e /\ rd_bytes k m (a + Z.of_nat w) = bs.
Proof.
  intros He H. rewrite rd_bytes_app in H.
  apply app_inj_1 in H as [H1 H2]; [|by rewrite rd_bytes_length, le_bytes_length].
  split; [|done]. rewrite rdn_rd_bytes, H1, le_val_bytes. by apply Z.mod_small.
Qed.

Lemma only_trans m1 m2 m3 a n : only m1 m2 a n -> only m2 m3 a n -> only m1 m3 a n.
Proof. intros H1 H2 x Hx. by rewrite H2, H1. Qed.

Lemma only_refl m a n : only m m a n.
Proof. done. Qed.

Lemma only_wider m m' a n b k :
  only m m' a n -> b <= a -> a + n <= b + k -> only m m' b k.
Proof. intros H ?? x Hx. apply H. lia. Qed.

End memory_lemmas.

#[global] Arguments rdn : simpl never.
#[global] Arguments wrn : simpl never.
#[global] Arguments fill : simpl never.

#[export] Hint Resolve only_trans only_refl wrn_only wr_bytes_only : griffin.

(** ** Memory accesses through kernel pointers *)

Definition load8 (p : Z) : M mem Z := gets (fun m => rd8 m (phys_of p)).
Definition store8 (p v : Z) : M mem unit := modify (fun m => wr8 m (phys_of p) v).
Definition load64 (p : Z) : M mem Z := gets (fun m => rd64 m (phys_of p)).
Definition store64 (p v : Z) : M mem unit := modify (fun m => wr64 m (phys_of p) v).
Definition load32 (p : Z) : M mem Z := gets (fun m => rd32 m (phys_of p)).
Definition store32 (p v : Z) : M mem unit := modify (fun m => wr32 m (phys_of p) v).
Definition load16 (p : Z) : M mem Z := gets (fun m => rd16 m (phys_of p)).
Definition store16 (p v : Z) : M mem unit := modify (fun m => wr16 m (phys_of p) v).

(** [p.write_bytes(v, n)]. *)
Definition write_bytes (p v n : Z) : M mem unit :=
  modify (fun m => fill (Z.to_nat n) m (phys_of p) v).

(** [dst.copy_from(src, n)]. *)
Definition copy_from (dst src n : Z) : M mem unit :=
  modify (fun m => copy (Z.to_nat n) m (phys_of dst) (phys_of src)).
