(* ===== verification/MathUtil.v ===== *)
(** * [utils/math.rs]: rounding divisions on [usize] *)

From S2P Require Import Prelude.

(** [(x + y - 1) / y]. *)
Definition div_ceil {S} (x y : Z) : M S Z :=
  let! a := uadd usize x y in
  let! b := usub usize a 1 in
  udiv b y.

(** [((number + multiple - 1) / multiple) * multiple]. *)
Definition round_up {S} (number multiple : Z) : M S Z :=
  let! a := uadd usize number multiple in
  let! b := usub usize a 1 in
  let! q := udiv b multiple in
  umul usize q multiple.

(** The quotient rounded up, on unbounded integers. *)
Definition cdiv (x y : Z) : Z := (x + y - 1) / y.

Lemma cdiv_bounds x y : 0 < y -> x <= cdiv x y * y < x + y.
Proof.
  intros Hy. unfold cdiv. pose proof (Z.div_mod (x + y - 1) y).
  pose proof (Z.mod_pos_bound (x + y - 1) y). nia.
Qed.

Lemma cdiv_nonneg x y : 0 <= x -> 0 < y -> 0 <= cdiv x y.
Proof. intros. apply Z.div_pos; lia. Qed.

Lemma cdiv_pos x y : 0 < x -> 0 < y -> 0 < cdiv x y.
Proof. intros. pose proof (cdiv_bounds x y). nia. Qed.

Lemma cdiv_le x y k : 0 < y -> x <= k * y -> cdiv x y <= k.
Proof. intros Hy H. pose proof (cdiv_bounds x y). nia. Qed.

Section math_specs.
Context {S : Type}.
Implicit Types s : S.

Lemma div_ceil_eq x y s :
  0 <= x -> 0 < y -> x + y < 2 ^ 64 -> div_ceil x y s = (Ret (cdiv x y), s).
Proof.
  intros Hx Hy Hlt. unfold div_ceil, uadd, usub, udiv, usize, bind.
  rewrite chk_ok by lia. rewrite chk_ok by lia.
  by destruct (Z.eqb_spec y 0); [lia|].
Qed.

Lemma wp_div_ceil x y s (Q : Z -> S -> Prop) E :
  0 <= x -> 0 < y -> x + y < 2 ^ 64 -> Q (cdiv x y) s -> wp (div_ceil x y) s Q E.
Proof. intros. by eapply wp_eq; [apply div_ceil_eq|]. Qed.

Lemma round_up_eq x y s :
  0 <= x -> 0 < y -> x + y <= 2 ^ 64 -> x + y < 2 ^ 64 ->
  round_up x y s = (Ret (cdiv x y * y), s).
Proof.
  intros Hx Hy Hle Hlt. unfold round_up, uadd, usub, umul, udiv, usize, bind.
  rewrite chk_ok by lia. rewrite chk_ok by lia.
  destruct (Z.eqb_spec y 0); [lia|]. unfold ret. fold (cdiv x y).
  rewrite chk_ok; [done|]. pose proof (cdiv_bounds x y). pose proof (cdiv_nonneg x y). lia.
Qed.

Lemma wp_round_up x y s (Q : Z -> S -> Prop) E :
  0 <= x -> 0 < y -> x + y < 2 ^ 64 -> Q (cdiv x y * y) s -> wp (round_up x y) s Q E.
Proof. intros. by eapply wp_eq; [apply round_up_eq; lia|]. Qed.

End math_specs.
