(* ===== verification/Bitmap.v ===== *)
(** * [utils/bitmap.rs]: a bit set in memory

    A [Bitmap] is a slice of bytes in memory and a size.  The bits are read and
    written through the slice, so a [Bitmap] whose storage someone else writes
    changes: the allocator's theorems depend on who owns that storage. *)

From S2P Require Import Prelude Memory.

(** [pub struct Bitmap(&'static mut [u8], pub usize)]: the slice's pointer and
    length, and the size field. *)
Record Bitmap := mkBitmap { bm_ptr : Z; bm_len : Z; bm_size : Z }.

#[export] Instance Bitmap_eq_dec : EqDecision Bitmap.
Proof. solve_decision. Defined.

Module bitmap.

Definition from_raw_ptr (ptr len : Z) : Bitmap := mkBitmap ptr len len.

Definition size (bm : Bitmap) : Z := bm_size bm.

(** [self.0[i]] as a place: the bounds check of a slice index. *)
Definition slot (bm : Bitmap) (i : Z) : M mem Z :=
  if i <? bm_len bm then ret (bm_ptr bm + i) else throw OutOfBounds.

Definition set (bm : Bitmap) (bit : Z) : M mem unit :=
  let! p := slot bm (bit / 8) in
  let! b := load8 p in
  store8 p (Z.lor b (Z.shiftl 1 (bit mod 8))).

Definition toggle (bm : Bitmap) (bit : Z) : M mem unit :=
  let! p := slot bm (bit / 8) in
  let! b := load8 p in
  store8 p (Z.lxor b (Z.shiftl 1 (bit mod 8))).

Definition clear (bm : Bitmap) (bit : Z) : M mem unit :=
  let! p := slot bm (bit / 8) in
  let! b := load8 p in
  store8 p (Z.land b (Z.lxor 255 (Z.shiftl 1 (bit mod 8)))).

Definition is_set (bm : Bitmap) (bit : Z) : M mem bool :=
  let! p := slot bm (bit / 8) in
  let! b := load8 p in
  ret (negb (Z.land b (Z.shiftl 1 (bit mod 8)) =? 0)).

End bitmap.

(** ** The set of bits a bitmap stands for *)

Definition bit_addr (bm : Bitmap) (bit : Z) : Z := phys_of (bm_ptr bm + bit / 8).

Definition test (m : mem) (bm : Bitmap) (bit : Z) : bool :=
  Z.testbit (rd8 m (bit_addr bm bit)) (bit mod 8).

(** The storage of a bitmap is a range of physical memory. *)
Definition bm_base (bm : Bitmap) : Z := phys_of (bm_ptr bm).

Record bm_wf (bm : Bitmap) : Prop := {
  bm_len_nonneg : 0 <= bm_len bm;
  bm_size_len : bm_size bm = bm_len bm;
  bm_fits : bm_base bm + bm_len bm <= 2 ^ 47;
}.

(** Set one bit to [v]. *)
Definition upd (m : mem) (bm : Bitmap) (bit : Z) (v : bool) : mem :=
  let b := rd8 m (bit_addr bm bit) in
  wr8 m (bit_addr bm bit)
    (if v then Z.lor b (Z.shiftl 1 (bit mod 8))
     else Z.land b (Z.lxor 255 (Z.shiftl 1 (bit mod 8)))).

Section bitmap_lemmas.
Implicit Types (m : mem) (bm : Bitmap).

Lemma bits_bound bm i : 0 <= i < 8 * bm_len bm -> 0 <= i / 8 < bm_len bm.
Proof. intros. split; [apply Z.div_pos; lia | apply Z.div_lt_upper_bound; lia]. Qed.

Lemma bit_addr_eq bm i :
  bm_wf bm -> 0 <= i < 8 * bm_len bm -> bit_addr bm i = bm_base bm + i / 8.
Proof.
  intros [H1 H2 H3] Hi. apply bits_bound in Hi. unfold bit_addr, bm_base in *.
  apply phys_of_add; lia.
Qed.

Lemma slot_ok bm i m : i < bm_len bm -> bitmap.slot bm i m = (Ret (bm_ptr bm + i), m).
Proof. intros H. unfold bitmap.slot. by rewrite (proj2 (Z.ltb_lt _ _) H). Qed.

Lemma slot_oob bm i m : bm_len bm <= i -> bitmap.slot bm i m = (Fault OutOfBounds, m).
Proof. intros H. unfold bitmap.slot. by rewrite (proj2 (Z.ltb_ge _ _) H). Qed.

Lemma is_set_ok bm bit m :
  0 <= bit < 8 * bm_len bm -> bitmap.is_set bm bit m = (Ret (test m bm bit), m).
Proof.
  intros H. pose proof (bits_bound _ _ H). unfold bitmap.is_set, bind. rewrite slot_ok by lia.
  unfold load8, gets, ret, test, bit_addr. rewrite land_bit_testbit; [done|].
  by apply Z.mod_pos_bound.
Qed.

Lemma set_ok bm bit m :
  0 <= bit < 8 * bm_len bm -> bitmap.set bm bit m = (Ret tt, upd m bm bit true).
Proof.
  intros H. pose proof (bits_bound _ _ H). unfold bitmap.set, bind. by rewrite slot_ok by lia.
Qed.

Lemma clear_ok bm bit m :
  0 <= bit < 8 * bm_len bm -> bitmap.clear bm bit m = (Ret tt, upd m bm bit false).
Proof.
  intros H. pose proof (bits_bound _ _ H). unfold bitmap.clear, bind. by rewrite slot_ok by lia.
Qed.

Lemma bitmap_oob {A} bm bit m (k : Z -> M mem A) :
  8 * bm_len bm <= bit ->
  bind (bitmap.slot bm (bit / 8)) k m = (Fault OutOfBounds, m).
Proof.
  intros H. unfold bind. rewrite slot_oob; [done|]. apply Z.div_le_lower_bound; lia.
Qed.

Lemma pow2_small k : 0 <= k < 8 -> 0 < 2 ^ k < 256.
Proof.
  intros Hk. split; [apply Z.pow_pos_nonneg; lia|].
  change 256 with (2 ^ 8). apply Z.pow_lt_mono_r; lia.
Qed.

(** The value of every bit of the byte after an update. *)
Lemma upd_byte_testbit b k (v : bool) j :
  0 <= b < 256 -> 0 <= k < 8 -> 0 <= j < 8 ->
  Z.testbit ((if v then Z.lor b (Z.shiftl 1 k)
              else Z.land b (Z.lxor 255 (Z.shiftl 1 k))) mod 256) j
  = if decide (j = k) then v else Z.testbit b j.
Proof.
  intros Hb Hk Hj. change 256 with (2 ^ 8).
  rewrite Z.mod_pow2_bits_low by lia. rewrite Z.shiftl_1_l.
  destruct v.
  - rewrite Z.lor_spec, Z.pow2_bits_eqb by lia. case_decide.
    + subst. by rewrite Z.eqb_refl, orb_true_r.
    + destruct (Z.eqb_spec k j); [lia|]. by rewrite orb_false_r.
  - rewrite Z.land_spec, Z.lxor_spec, Z.pow2_bits_eqb by lia.
    change 255 with (Z.ones 8). rewrite Z.ones_spec_low by lia. case_decide.
    + subst. by rewrite Z.eqb_refl, andb_false_r.
    + destruct (Z.eqb_spec k j); [lia|]. by rewrite andb_true_r.
Qed.

Lemma test_upd m bm i j v :
  bm_wf bm -> 0 <= i < 8 * bm_len bm -> 0 <= j < 8 * bm_len bm ->
  test (upd m bm i v) bm j = if decide (j = i) then v else test m bm j.
Proof.
  intros Hwf Hi Hj. unfold test, upd. cbn zeta. rewrite rd8_wr8.
  rewrite !bit_addr_eq by done.
  pose proof (Z.div_mod i 8). pose proof (Z.div_mod j 8).
  pose proof (Z.mod_pos_bound i 8). pose proof (Z.mod_pos_bound j 8).
  destruct (decide (bm_base bm + i / 8 = bm_base bm + j / 8)) as [E|E].
  - rewrite upd_byte_testbit by (try apply rd8_range; lia).
    replace (j / 8) with (i / 8) by lia. repeat case_decide; try done; lia.
  - rewrite decide_False; [done|]. intros ->. lia.
Qed.

Lemma upd_frame m bm i v x :
  bm_wf bm -> 0 <= i < 8 * bm_len bm ->
  x <> bm_base bm + i / 8 -> rd8 (upd m bm i v) x = rd8 m x.
Proof. intros. unfold upd. rewrite bit_addr_eq by done. by apply rd8_wr8_ne. Qed.

Lemma upd_only m bm i v :
  bm_wf bm -> 0 <= i < 8 * bm_len bm ->
  only m (upd m bm i v) (bm_base bm) (bm_len bm).
Proof.
  intros Hwf Hi x Hx. apply upd_frame; [done..|]. pose proof (bits_bound _ _ Hi). lia.
Qed.

(** A byte is determined by its bits, so a bitmap's storage is determined by the
    bits it stands for. *)
Lemma byte_ext b c :
  0 <= b < 256 -> 0 <= c < 256 ->
  (forall j, 0 <= j < 8 -> Z.testbit b j = Z.testbit c j) -> b = c.
Proof.
  intros Hb Hc H. apply Z.bits_inj'. intros j Hj.
  destruct (decide (j < 8)); [apply H; lia|].
  rewrite !(testbit_above _ 8) by lia. done.
Qed.

Lemma test_ext m m' bm :
  bm_wf bm ->
  (forall i, 0 <= i < 8 * bm_len bm -> test m' bm i = test m bm i) ->
  agree m m' (bm_base bm) (bm_len bm).
Proof.
  intros Hwf H x Hx. apply byte_ext; [apply rd8_range..|]. intros j Hj.
  specialize (H (8 * (x - bm_base bm) + j) ltac:(lia)). unfold test in H.
  rewrite !bit_addr_eq in H by (auto; lia).
  replace ((8 * (x - bm_base bm) + j) / 8) with (x - bm_base bm) in H
    by (apply Z.div_unique with j; lia).
  replace ((8 * (x - bm_base bm) + j) mod 8) with j in H
    by (apply Z.mod_unique with (x - bm_base bm); lia).
  by replace (bm_base bm + (x - bm_base bm)) with x in H by lia.
Qed.

Lemma test_agree m m' bm i :
  bm_wf bm -> 0 <= i < 8 * bm_len bm ->
  agree m m' (bm_base bm) (bm_len bm) -> test m' bm i = test m bm i.
Proof.
  intros Hwf Hi H. unfold test. rewrite bit_addr_eq by done.
  rewrite H; [done|]. pose proof (bits_bound _ _ Hi). lia.
Qed.

End bitmap_lemmas.
