(* ===== verification/Pmm.v ===== *)
(** * [arch/x86_64/mm/pmm.rs]: the physical page allocator

    One bit per page frame, 1 for a free frame; the bitmap lives in the memory it
    manages.  [alloc] is a single scan with a run counter; [alloc_first_fit]
    shows that it is the first-fit search [first_fit]. *)

From S2P Require Import Prelude Memory MathUtil Bitmap.

(** ** [PhysAddr]: a transparent [u64] *)

Module PhysAddr.

Definition higher_half (a : Z) : Z := Z.lor a PHYS_BASE.

Definition lower_half (a : Z) : Z := Z.land a (Z.lxor (2 ^ 64 - 1) PHYS_BASE).

Definition remove_flags (a : Z) : Z := Z.land a 0x000ffffffffff000.

End PhysAddr.

(** ** State: memory and [static mut PAGE_ALLOCATOR: Option<Pmm>] *)

Record pstate := mkP { p_mem : mem; p_alloc : option Bitmap }.

Definition set_mem (m : mem) (s : pstate) : pstate := mkP m (p_alloc s).

Definition on_mem {A} : M mem A -> M pstate A := zoom p_mem set_mem.

(** ** The bootloader's memory map

    The kinds of entries that [init] tells apart; every other kind is
    [OtherEntry]. *)

Inductive EntryType := Usable | BootloaderReclaimable | Kernel | OtherEntry.

#[export] Instance EntryType_eq_dec : EqDecision EntryType.
Proof. solve_decision. Defined.

Record MemEntry := mkEntry { e_base : Z; e_length : Z; e_type : EntryType }.

Module pmm.

(** The scan of [alloc]: [n] bits left, the next is [i], and the last [count]
    bits were set. *)
Fixpoint alloc_loop (bm : Bitmap) (pages : Z) (n : nat) (i count : Z) : M mem (option Z) :=
  match n with
  | O => ret None
  | S n' =>
      let! b := bitmap.is_set bm i in
      if b : bool then
        let! count := uadd usize count 1 in
        if count =? pages then
          let! t := usub usize i pages in
          let! page := uadd usize t 1 in
          let! hi := uadd usize page pages in
          do! for_range page hi (bitmap.clear bm) in
          let! addr := umul u64 page PAGE_SIZE in
          ret (Some addr)
        else alloc_loop bm pages n' (i + 1) count
      else alloc_loop bm pages n' (i + 1) 0
  end.

Definition alloc (bm : Bitmap) (pages : Z) : M mem (option Z) :=
  let! n := umul usize (bitmap.size bm) 8 in
  alloc_loop bm pages (Z.to_nat n) 0 0.

Definition calloc (bm : Bitmap) (pages : Z) : M mem (option Z) :=
  let! r := alloc bm pages in
  match r with
  | Some a =>
      let! n := umul usize pages PAGE_SIZE in
      do! write_bytes a 0 n in
      ret (Some a)
  | None => ret None
  end.

Definition free (bm : Bitmap) (ptr pages_amnt : Z) : M mem unit :=
  let page := PhysAddr.lower_half ptr / PAGE_SIZE in
  let! hi := uadd u64 page pages_amnt in
  for_range page hi (bitmap.set bm).

(** *** [init] *)

(** First loop: the end of the highest entry the kernel may use. *)
Fixpoint biggest_peak (es : list MemEntry) (biggest : Z) : M mem Z :=
  match es with
  | [] => ret biggest
  | e :: es' =>
      match e_type e with
      | BootloaderReclaimable | Usable | Kernel =>
          let! peak := uadd u64 (e_base e) (e_length e) in
          biggest_peak es' (if biggest <? peak then peak else biggest)
      | OtherEntry => biggest_peak es' biggest
      end
  end.

(** Second loop: the first usable entry that is long enough holds the bitmap.
    Gives the bitmap's pointer (0, null, if there is none) and the entries. *)
Fixpoint place_bitmap (es : list MemEntry) (bitmap_size : Z) : M mem (Z * list MemEntry) :=
  match es with
  | [] => ret (0, [])
  | e :: es' =>
      if negb (bool_decide (e_type e = Usable)) then
        let! (p, r) := place_bitmap es' bitmap_size in ret (p, e :: r)
      else if e_length e <? bitmap_size then
        let! (p, r) := place_bitmap es' bitmap_size in ret (p, e :: r)
      else
        let! ptr := uadd u64 (e_base e) PHYS_BASE in
        do! write_bytes ptr 0 bitmap_size in
        let! base := uadd u64 (e_base e) bitmap_size in
        let! length := usub u64 (e_length e) bitmap_size in
        ret (ptr, mkEntry base length (e_type e) :: es')
  end.

(** Third loop: the pages of the usable entries are free. *)
Fixpoint mark_usable (bm : Bitmap) (es : list MemEntry) : M mem unit :=
  match es with
  | [] => ret tt
  | e :: es' =>
      if negb (bool_decide (e_type e = Usable)) then mark_usable bm es'
      else
        let page := e_base e / PAGE_SIZE in
        let length := e_length e / PAGE_SIZE in
        let! hi := uadd u64 page length in
        do! for_range page hi (bitmap.set bm) in
        mark_usable bm es'
  end.

Definition init (entries : list MemEntry) : M pstate unit :=
  let! biggest := on_mem (biggest_peak entries 0) in
  let! bitmap_size := div_ceil (biggest / PAGE_SIZE) 8 in
  let! (bitmap_ptr, entries) := on_mem (place_bitmap entries bitmap_size) in
  if bitmap_ptr =? 0 then throw Panicked
  else
    let bm := bitmap.from_raw_ptr bitmap_ptr bitmap_size in
    do! on_mem (mark_usable bm entries) in
    modify (fun s => mkP (p_mem s) (Some bm)).

(** [pmm::get()], and the calls of other components through it. *)
Definition get : M pstate Bitmap :=
  let! o := gets p_alloc in expect o.

Definition get_calloc (pages : Z) : M pstate (option Z) :=
  let! bm := get in on_mem (calloc bm pages).

Definition get_free (ptr pages_amnt : Z) : M pstate unit :=
  let! bm := get in on_mem (free bm ptr pages_amnt).

End pmm.

(** ** Owners of pages: [PmmBox<T>] and the heap side of [Bitmap] *)

Record PmmBox := mkBox { pb_data : Z; pb_page_cnt : Z }.

Module pmmbox.

Definition new (size : Z) : M pstate PmmBox :=
  let! alloc_size := div_ceil size PAGE_SIZE in
  let! r := pmm.get_calloc alloc_size in
  let! a := expect r in
  ret (mkBox (PhysAddr.higher_half a) alloc_size).

Definition drop (b : PmmBox) : M pstate unit :=
  pmm.get_free (pb_data b) (pb_page_cnt b).

End pmmbox.

Module bitmap_alloc.

Definition new (size : Z) : M pstate Bitmap :=
  let! n := div_ceil size PAGE_SIZE in
  let! r := pmm.get_calloc n in
  let! a := expect r in
  ret (mkBitmap (PhysAddr.higher_half a) size size).

Definition drop (bm : Bitmap) : M pstate unit :=
  let! n := div_ceil (bm_size bm) PAGE_SIZE in
  pmm.get_free (bm_ptr bm) n.

End bitmap_alloc.

(** ** The reference search *)

Definition run_free (f : Z -> bool) (p n : Z) : bool := forallb f (seqZ p n).

(** The lowest start of a run of [n] free pages below [total]. *)
Definition first_fit (f : Z -> bool) (total n : Z) : option Z :=
  List.find (fun p => run_free f p n) (seqZ 0 (total - n + 1)).

Lemma run_free_iff f p n :
  run_free f p n = true <-> forall j, p <= j < p + n -> f j = true.
Proof.
  unfold run_free. rewrite forallb_forall. split.
  - intros H j Hj. apply H, list_elem_of_In, elem_of_seqZ. lia.
  - intros H j Hj. apply H. apply list_elem_of_In, elem_of_seqZ in Hj. lia.
Qed.

Lemma run_free_false f p n j : p <= j < p + n -> f j = false -> run_free f p n = false.
Proof.
  intros Hj Hf. apply not_true_iff_false. rewrite run_free_iff. intros H.
  by rewrite H in Hf.
Qed.

Lemma first_fit_Some f total n p :
  first_fit f total n = Some p <->
  0 <= p <= total - n /\ run_free f p n = true /\
  forall q, 0 <= q < p -> run_free f q n = false.
Proof.
  unfold first_fit. destruct (decide (0 <= total - n + 1)).
  - rewrite <- (Z2Nat.id (total - n + 1)), find_seqZ_Some by lia.
    rewrite Z2Nat.id by lia. split; intros (?&?&?); repeat split; auto; lia.
  - replace (seqZ 0 (total - n + 1)) with (@nil Z); [simpl; split; [done|lia]|].
    symmetry. apply seqZ_nil. lia.
Qed.

Lemma first_fit_None f total n :
  (forall q, 0 <= q <= total - n -> run_free f q n = false) ->
  first_fit f total n = None.
Proof.
  intros H. destruct (first_fit f total n) as [p|] eqn:E; [|done].
  apply first_fit_Some in E as (? & Hr & _). by rewrite H in Hr.
Qed.

Lemma first_fit_None_inv f total n q :
  first_fit f total n = None -> 0 <= q <= total - n -> run_free f q n = false.
Proof.
  unfold first_fit. intros H Hq. eapply List.find_none in H; [exact H|].
  apply list_elem_of_In, elem_of_seqZ. lia.
Qed.

(** ** Runs of bits *)

Fixpoint upd_run (n : nat) (m : mem) (bm : Bitmap) (i : Z) (v : bool) : mem :=
  match n with
  | O => m
  | S n' => upd_run n' (upd m bm i v) bm (i + 1) v
  end.

Section runs.
Implicit Types (m : mem) (bm : Bitmap).

Lemma for_loop_upd bm (op : Z -> M mem unit) v n :
  (forall i m, 0 <= i < 8 * bm_len bm -> op i m = (Ret tt, upd m bm i v)) ->
  forall i m, 0 <= i -> i + Z.of_nat n <= 8 * bm_len bm ->
  for_loop n i op m = (Ret tt, upd_run n m bm i v).
Proof.
  intros Hop. induction n as [|n IH]; intros i m Hi Hn; simpl; [done|].
  unfold bind. rewrite Hop by lia. apply IH; lia.
Qed.

Lemma for_range_upd bm (op : Z -> M mem unit) v lo hi m :
  (forall i m, 0 <= i < 8 * bm_len bm -> op i m = (Ret tt, upd m bm i v)) ->
  0 <= lo <= hi -> hi <= 8 * bm_len bm ->
  for_range lo hi op m = (Ret tt, upd_run (Z.to_nat (hi - lo)) m bm lo v).
Proof. intros Hop Hlo Hhi. unfold for_range. apply for_loop_upd; [done|lia..]. Qed.

Lemma test_upd_run bm v j :
  bm_wf bm -> 0 <= j < 8 * bm_len bm ->
  forall n i m, 0 <= i -> i + Z.of_nat n <= 8 * bm_len bm ->
  test (upd_run n m bm i v) bm j =
    if decide (i <= j < i + Z.of_nat n) then v else test m bm j.
Proof.
  intros Hwf Hj n. induction n as [|n IH]; intros i m Hi Hn; simpl upd_run.
  { by rewrite decide_False by lia. }
  rewrite IH, test_upd by (auto; lia). repeat case_decide; try done; lia.
Qed.

Lemma upd_run_only bm v :
  bm_wf bm -> forall n i m, 0 <= i -> i + Z.of_nat n <= 8 * bm_len bm ->
  only m (upd_run n m bm i v) (bm_base bm) (bm_len bm).
Proof.
  intros Hwf n. induction n as [|n IH]; intros i m Hi Hn; simpl; [apply only_refl|].
  apply only_trans with (upd m bm i v); [apply upd_only; [done|lia] | apply IH; lia].
Qed.

End runs.

(** ** [alloc] is first fit *)

(** What [alloc] does when the search answers [r]: a run at frame 0 makes the
    subtraction in [i - pages + 1] underflow. *)
Definition alloc_result (m : mem) (bm : Bitmap) (n : Z) (r : option Z)
    : outcome (option Z) * mem :=
  match r with
  | None => (Ret None, m)
  | Some p =>
      if p =? 0 then (Fault Overflow, m)
      else (Ret (Some (p * PAGE_SIZE)), upd_run (Z.to_nat n) m bm p false)
  end.

Section alloc.
Implicit Types (m : mem) (bm : Bitmap).

(** The invariant of the scan at bit [i]. *)
Record scan_inv (f : Z -> bool) (n i count : Z) : Prop := {
  si_count : 0 <= count < n;
  si_le : count <= i;
  si_run : forall j, i - count <= j < i -> f j = true;
  si_max : i - count = 0 \/ f (i - count - 1) = false;
  si_none : forall q, 0 <= q -> q + n <= i -> run_free f q n = false;
}.

Lemma scan_inv_start f n : 0 < n -> scan_inv f n 0 0.
Proof. split; intros; lia. Qed.

Lemma scan_inv_clear f n i count :
  scan_inv f n i count -> f i = false -> scan_inv f n (i + 1) 0.
Proof.
  intros [H1 H2 H3 H4 H5] Hf. split; try lia.
  - right. by replace (i + 1 - 0 - 1) with i by lia.
  - intros q Hq Hle. destruct (decide (q + n <= i)); [by apply H5|].
    apply (run_free_false _ _ _ i); [lia | done].
Qed.

Lemma scan_inv_set f n i count :
  scan_inv f n i count -> f i = true -> count + 1 <> n -> scan_inv f n (i + 1) (count + 1).
Proof.
  intros [H1 H2 H3 H4 H5] Hf Hne. split; try lia.
  - intros j Hj. destruct (decide (j = i)) as [->|]; [done|]. apply H3. lia.
  - destruct H4 as [H4|H4]; [left; lia|right].
    by replace (i + 1 - (count + 1) - 1) with (i - count - 1) by lia.
  - intros q Hq Hle. destruct (decide (q + n <= i)); [by apply H5|].
    destruct H4 as [H4|H4]; [lia|].
    apply (run_free_false _ _ _ (i - count - 1)); [lia | done].
Qed.

Lemma scan_inv_found f n i count total :
  scan_inv f n i count -> f i = true -> count + 1 = n -> i < total ->
  first_fit f total n = Some (i - count).
Proof.
  intros [H1 H2 H3 H4 H5] Hf He Hi. apply first_fit_Some.
  split; [lia|]. split.
  - apply run_free_iff. intros j Hj.
    destruct (decide (j = i)) as [->|]; [done|]. apply H3. lia.
  - intros q Hq. apply H5; lia.
Qed.

Lemma alloc_loop_first_fit bm m n k : forall i count,
  bm_wf bm -> 0 < n -> 0 <= i -> i + Z.of_nat k = 8 * bm_len bm ->
  scan_inv (test m bm) n i count ->
  pmm.alloc_loop bm n k i count m =
    alloc_result m bm n (first_fit (test m bm) (8 * bm_len bm) n).
Proof.
  induction k as [|k IH]; intros i count Hwf Hn Hi Hk Hinv; simpl pmm.alloc_loop.
  { rewrite first_fit_None; [done|]. intros q Hq. apply (si_none _ _ _ _ Hinv); lia. }
  pose proof (bm_fits _ Hwf). pose proof (phys_of_range (bm_ptr bm)).
  unfold bm_base in *. pose proof (si_count _ _ _ _ Hinv). pose proof (si_le _ _ _ _ Hinv).
  unfold bind at 1. rewrite is_set_ok by lia.
  destruct (test m bm i) eqn:Hf.
  - unfold bind at 1, uadd, usize. rewrite chk_ok by lia.
    destruct (Z.eqb_spec (count + 1) n) as [He|Hne].
    + rewrite (scan_inv_found _ _ _ _ _ Hinv) by (done || lia).
      unfold bind at 1, usub. unfold alloc_result.
      destruct (Z.eqb_spec (i - count) 0) as [Hz|Hz].
      { by rewrite chk_overflow by lia. }
      rewrite chk_ok by lia. unfold bind at 1. rewrite chk_ok by lia.
      unfold bind at 1. rewrite chk_ok by lia. unfold bind at 1.
      rewrite (for_range_upd bm _ false) by (auto using clear_ok; lia).
      unfold bind, umul, u64. rewrite chk_ok by (unfold PAGE_SIZE; lia).
      unfold ret. repeat f_equal; lia.
    + apply IH; auto; try lia. by apply scan_inv_set.
  - apply IH; auto; try lia. by eapply scan_inv_clear.
Qed.

Lemma alloc_eq bm n m :
  bm_wf bm -> 0 < n ->
  pmm.alloc bm n m =
    alloc_result m bm n (first_fit (test m bm) (8 * bm_len bm) n).
Proof.
  intros Hwf Hn. pose proof (bm_fits _ Hwf) as H. pose proof (phys_of_range (bm_ptr bm)).
  pose proof (bm_len_nonneg _ Hwf). unfold bm_base in *.
  unfold pmm.alloc, bitmap.size. rewrite (bm_size_len _ Hwf).
  unfold bind, umul, usize. rewrite chk_ok by lia.
  apply alloc_loop_first_fit; auto; try lia. by apply scan_inv_start.
Qed.

(** Asking for no page never succeeds: the counter is compared after it has been
    incremented. *)
Lemma alloc_loop_zero bm m k : forall i count,
  0 <= i -> i + Z.of_nat k <= 8 * bm_len bm -> 8 * bm_len bm < 2 ^ 64 ->
  0 <= count <= i ->
  pmm.alloc_loop bm 0 k i count m = (Ret None, m).
Proof.
  induction k as [|k IH]; intros i count Hi Hk Hlt Hc; simpl; [done|].
  unfold bind at 1. rewrite is_set_ok by lia. destruct (test m bm i).
  - unfold bind, uadd, usize. rewrite chk_ok by lia.
    destruct (Z.eqb_spec (count + 1) 0); [lia|]. apply IH; lia.
  - apply IH; lia.
Qed.

End alloc.

(** ** Addresses *)

Section phys_addr.

Lemma lower_half_mod a : PhysAddr.lower_half a = a mod 2 ^ 47.
Proof.
  unfold PhysAddr.lower_half, PHYS_BASE.
  change (Z.lxor (2 ^ 64 - 1) 0xffff800000000000) with (2 ^ 47 - 1).
  by apply land_ones_mod.
Qed.

Lemma lower_half_phys a : PhysAddr.lower_half a = phys_of a.
Proof. apply lower_half_mod. Qed.

Lemma higher_half_add a : 0 <= a < 2 ^ 47 -> PhysAddr.higher_half a = a + PHYS_BASE.
Proof.
  intros Ha. unfold PhysAddr.higher_half, PHYS_BASE.
  replace 0xffff800000000000 with (131071 * 2 ^ 47) by reflexivity.
  rewrite Z.lor_comm, lor_mul_pow2_small by lia. lia.
Qed.

Lemma phys_higher_half a : 0 <= a < 2 ^ 47 -> phys_of (PhysAddr.higher_half a) = a.
Proof. intros. by rewrite higher_half_add, phys_of_base. Qed.

Lemma higher_half_range a :
  0 <= a < 2 ^ 47 -> 0 <= PhysAddr.higher_half a < 2 ^ 64.
Proof. intros. rewrite higher_half_add by done. unfold PHYS_BASE. lia. Qed.

Lemma remove_flags_range a : 0 <= PhysAddr.remove_flags a < 2 ^ 52.
Proof.
  unfold PhysAddr.remove_flags. split; [apply Z.land_nonneg; lia|].
  change 0x000ffffffffff000 with (Z.shiftl (Z.ones 40) 12).
  enough (Z.land a (Z.shiftl (Z.ones 40) 12) = Z.land (Z.land a (Z.shiftl (Z.ones 40) 12)) (2 ^ 52 - 1)) as ->.
  { rewrite land_ones_mod by lia. apply Z.mod_pos_bound. lia. }
  rewrite <- Z.land_assoc. reflexivity.
Qed.

Lemma remove_flags_aligned a : PhysAddr.remove_flags a mod PAGE_SIZE = 0.
Proof.
  unfold PhysAddr.remove_flags, PAGE_SIZE. change 4096 with (2 ^ 12).
  rewrite <- Z.land_ones by lia. rewrite <- Z.land_assoc.
  replace (Z.land 0xffffffffff000 (Z.ones 12)) with 0 by reflexivity.
  apply Z.land_0_r.
Qed.

(** The address of an entry made from a page-aligned address and flag bits. *)
Lemma remove_flags_entry a fl :
  0 <= a < 2 ^ 52 -> a mod PAGE_SIZE = 0 -> Z.land fl 0x000ffffffffff000 = 0 ->
  PhysAddr.remove_flags (Z.lor a fl) = a.
Proof.
  intros Ha Hal Hfl. unfold PhysAddr.remove_flags.
  rewrite Z.land_lor_distr_l, Hfl, Z.lor_0_r.
  change 0xffffffffff000 with (Z.ldiff (Z.ones 52) (Z.ones 12)).
  rewrite Z.ldiff_land, Z.land_assoc, Z.land_ones by lia.
  rewrite Z.mod_small by lia. rewrite <- Z.ldiff_land, Z.ldiff_ones_r by lia.
  rewrite Z.shiftl_mul_pow2, Z.shiftr_div_pow2 by lia.
  unfold PAGE_SIZE in Hal. change (2 ^ 12) with 4096. pose proof (Z.div_mod a 4096). lia.
Qed.

End phys_addr.

(** ** The allocator's invariant

    The bitmap's storage lies in no free frame, the frames are addressable
    through the direct map, and frame 0 is in use. *)

Definition frames (bm : Bitmap) : Z := 8 * bm_len bm.

Record pmm_inv (m : mem) (bm : Bitmap) : Prop := {
  pi_wf : bm_wf bm;
  pi_addr : frames bm * PAGE_SIZE <= 2 ^ 47;
  pi_zero : 0 < frames bm -> test m bm 0 = false;
  pi_own : forall p, 0 <= p < frames bm -> test m bm p = true ->
    (p + 1) * PAGE_SIZE <= bm_base bm \/ bm_base bm + bm_len bm <= p * PAGE_SIZE;
}.

(** The effect of handing out frames [[p, p+n)] and clearing them. *)
Record taken (m m' : mem) (bm : Bitmap) (p n : Z) : Prop := {
  tk_bits : forall j, 0 <= j < frames bm ->
    test m' bm j = if decide (p <= j < p + n) then false else test m bm j;
  tk_zero : forall x, p * PAGE_SIZE <= x < (p + n) * PAGE_SIZE -> rd8 m' x = 0;
  tk_frame : forall x,
    ~ (p * PAGE_SIZE <= x < (p + n) * PAGE_SIZE) ->
    ~ (bm_base bm <= x < bm_base bm + bm_len bm) -> rd8 m' x = rd8 m x;
}.

(** The effect of releasing frames [[p, p+n)]. *)
Record released (m m' : mem) (bm : Bitmap) (p n : Z) : Prop := {
  rl_bits : forall j, 0 <= j < frames bm ->
    test m' bm j = if decide (p <= j < p + n) then true else test m bm j;
  rl_frame : only m m' (bm_base bm) (bm_len bm);
}.

Section inv.
Implicit Types (m : mem) (bm : Bitmap).

Lemma first_fit_bounds m bm n p :
  0 < n -> first_fit (test m bm) (frames bm) n = Some p ->
  0 <= p /\ p + n <= frames bm /\
  (forall j, p <= j < p + n -> test m bm j = true) /\
  (forall q, 0 <= q < p -> ~ forall j, q <= j < q + n -> test m bm j = true).
Proof.
  intros Hn H. apply first_fit_Some in H as (Hp & Hr & Hq).
  repeat split; try lia; [by apply run_free_iff|].
  intros q ? Hall. apply run_free_iff in Hall. by rewrite Hq in Hall.
Qed.

(** A run of free frames keeps clear of the bitmap's storage. *)
Lemma run_off_storage m bm p n x :
  pmm_inv m bm -> 0 <= p -> p + n <= frames bm ->
  (forall j, p <= j < p + n -> test m bm j = true) ->
  p * PAGE_SIZE <= x < (p + n) * PAGE_SIZE ->
  ~ (bm_base bm <= x < bm_base bm + bm_len bm).
Proof.
  intros Hinv Hp Hn Hr Hx. unfold PAGE_SIZE in *.
  pose proof (Z.div_mod x 4096). pose proof (Z.mod_pos_bound x 4096).
  assert (p <= x / 4096 < p + n).
  { split; [apply Z.div_le_lower_bound; lia | apply Z.div_lt_upper_bound; lia]. }
  pose proof (pi_own _ _ Hinv (x / 4096) ltac:(lia) (Hr (x / 4096) ltac:(lia))) as Hown.
  unfold PAGE_SIZE in Hown. lia.
Qed.

Lemma taken_inv m m' bm p n :
  pmm_inv m bm -> taken m m' bm p n -> pmm_inv m' bm.
Proof.
  intros Hinv Ht. split; [apply Hinv | apply Hinv | |].
  - intros ?. rewrite (tk_bits _ _ _ _ _ Ht) by lia. case_decide; [done|]. by apply Hinv.
  - intros q Hq. rewrite (tk_bits _ _ _ _ _ Ht) by lia. case_decide; [done|].
    by apply Hinv.
Qed.

Lemma pmm_inv_agree m m' bm :
  agree m m' (bm_base bm) (bm_len bm) -> pmm_inv m bm -> pmm_inv m' bm.
Proof.
  intros Ha [H1 H2 H3 H4]. unfold frames in *.
  split; [done|done| |]; unfold frames; intros; rewrite (test_agree m) in * by (auto; lia); auto.
Qed.

Lemma calloc_eq bm n m :
  pmm_inv m bm -> 0 < n ->
  match first_fit (test m bm) (frames bm) n with
  | None => pmm.calloc bm n m = (Ret None, m)
  | Some p => exists m', pmm.calloc bm n m = (Ret (Some (p * PAGE_SIZE)), m') /\
      taken m m' bm p n /\ pmm_inv m' bm
  end.
Proof.
  intros Hinv Hn. pose proof (pi_wf _ _ Hinv) as Hwf.
  pose proof (alloc_eq bm n m Hwf Hn) as Hal. fold (frames bm) in Hal.
  destruct (first_fit _ _ _) as [p|] eqn:E; unfold pmm.calloc, bind at 1;
    rewrite Hal; [|done].
  pose proof (first_fit_bounds _ _ _ _ Hn E) as (Hp & Hle & Hr & _).
  pose proof (pi_addr _ _ Hinv) as Ha. unfold alloc_result.
  destruct (Z.eqb_spec p 0) as [->|Hp0].
  { exfalso. pose proof (pi_zero _ _ Hinv ltac:(lia)). by rewrite Hr in * by lia. }
  unfold bind at 1, umul, usize. rewrite chk_ok by (unfold PAGE_SIZE in *; lia).
  set (m1 := upd_run (Z.to_nat n) m bm p false).
  assert (Hoff : forall x, p * PAGE_SIZE <= x < (p + n) * PAGE_SIZE ->
            ~ (bm_base bm <= x < bm_base bm + bm_len bm)).
  { intros x. by apply (run_off_storage m). }
  eexists. split; [reflexivity|].
  unfold write_bytes, modify, bind.
  rewrite phys_of_small by (unfold PAGE_SIZE in *; lia).
  cut (taken m (fill (Z.to_nat (n * PAGE_SIZE)) m1 (p * PAGE_SIZE) 0) bm p n).
  { intros Ht. split; [done|]. by eapply taken_inv. }
  unfold frames in *. split.
  - intros j Hj. rewrite test_agree with (m := m1); auto.
    + unfold m1. rewrite test_upd_run by (auto; lia). by rewrite Z2Nat.id by lia.
    + intros x Hx. rewrite rd8_fill, decide_False; [done|].
      intros Hx'. eapply Hoff; [|exact Hx]. unfold PAGE_SIZE in *. lia.
  - intros x Hx. rewrite rd8_fill, decide_True; [done|]. unfold PAGE_SIZE in *. lia.
  - intros x Hx Hb. rewrite rd8_fill, decide_False by (unfold PAGE_SIZE in *; lia).
    unfold m1. apply upd_run_only with (n := Z.to_nat n) (i := p); auto; lia.
Qed.

(** The rule for calls of [pmm::get().calloc]. *)
Lemma wp_get_calloc n s bm (Q : option Z -> pstate -> Prop) E :
  p_alloc s = Some bm -> pmm_inv (p_mem s) bm -> 0 < n ->
  (forall p m', first_fit (test (p_mem s) bm) (frames bm) n = Some p ->
     taken (p_mem s) m' bm p n -> pmm_inv m' bm -> Q (Some (p * PAGE_SIZE)) (mkP m' (Some bm))) ->
  (first_fit (test (p_mem s) bm) (frames bm) n = None -> Q None s) ->
  wp (pmm.get_calloc n) s Q E.
Proof.
  destruct s as [m al]. simpl. intros -> Hinv Hn Hsome Hnone.
  unfold pmm.get_calloc, pmm.get. apply wp_bind, wp_bind, wp_gets.
  eapply wp_expect; [reflexivity|]. apply wp_zoom. simpl p_mem.
  pose proof (calloc_eq bm n m Hinv Hn) as Hc. unfold wp.
  destruct (first_fit _ _ _) as [p|].
  - destruct Hc as (m' & -> & Ht & Hi). by apply Hsome.
  - rewrite Hc. by apply Hnone.
Qed.

Lemma calloc_zero bm m : pmm_inv m bm -> pmm.calloc bm 0 m = (Ret None, m).
Proof.
  intros Hp. pose proof (pi_wf _ _ Hp) as Hwf. pose proof (pi_addr _ _ Hp).
  pose proof (bm_len_nonneg _ Hwf). unfold frames, PAGE_SIZE in *.
  unfold pmm.calloc, pmm.alloc, bitmap.size, bind, umul, usize.
  rewrite (bm_size_len _ Hwf), chk_ok, alloc_loop_zero by lia. done.
Qed.

Lemma free_eq bm ptr n m :
  pmm_inv m bm -> 0 <= n -> phys_of ptr / PAGE_SIZE + n <= frames bm ->
  let p := phys_of ptr / PAGE_SIZE in
  exists m', pmm.free bm ptr n m = (Ret tt, m') /\ released m m' bm p n.
Proof.
  intros Hinv Hn Hle p. pose proof (pi_wf _ _ Hinv) as Hwf.
  pose proof (pi_addr _ _ Hinv) as Ha. pose proof (phys_of_range ptr).
  assert (0 <= p) by (apply Z.div_pos; unfold PAGE_SIZE; lia).
  unfold pmm.free. rewrite lower_half_phys. fold p.
  unfold bind, uadd, u64. rewrite chk_ok by (unfold PAGE_SIZE in *; lia).
  rewrite (for_range_upd bm _ true) by (auto using set_ok; unfold frames in *; lia).
  eexists. split; [reflexivity|]. unfold frames in *.
  replace (p + n - p) with n by lia. split.
  - intros j Hj. rewrite test_upd_run by (auto; lia). by rewrite Z2Nat.id by lia.
  - apply upd_run_only; auto; lia.
Qed.

Lemma released_inv m m' bm p n :
  pmm_inv m bm -> released m m' bm p n -> 0 < p ->
  (p + n) * PAGE_SIZE <= bm_base bm \/ bm_base bm + bm_len bm <= p * PAGE_SIZE ->
  pmm_inv m' bm.
Proof.
  intros Hinv Hr Hp Hoff. split; [apply Hinv | apply Hinv | |].
  - intros ?. rewrite (rl_bits _ _ _ _ _ Hr) by lia. rewrite decide_False by lia. by apply Hinv.
  - intros q Hq. rewrite (rl_bits _ _ _ _ _ Hr) by lia. case_decide.
    + intros _. unfold PAGE_SIZE in *. lia.
    + by apply Hinv.
Qed.

End inv.

(** ** Room for allocations

    A run of free frames serves every allocation that fits in it: first fit may
    take frames before the run, but never more than asked from its front. *)

Definition room (m : mem) (bm : Bitmap) (a n : Z) : Prop :=
  0 <= a /\ a + n <= frames bm /\ forall j, a <= j < a + n -> test m bm j = true.

Lemma calloc_room s bm a r n :
  p_alloc s = Some bm -> pmm_inv (p_mem s) bm -> room (p_mem s) bm a r -> 0 < n <= r ->
  exists p m', pmm.get_calloc n s = (Ret (Some (p * PAGE_SIZE)), mkP m' (Some bm)) /\
    first_fit (test (p_mem s) bm) (frames bm) n = Some p /\
    taken (p_mem s) m' bm p n /\ pmm_inv m' bm /\ room m' bm (a + n) (r - n).
Proof.
  intros Hal Hinv (Ha & Hr & Hf) Hn.
  assert (Hrun : run_free (test (p_mem s) bm) a n = true).
  { apply run_free_iff. intros j Hj. apply Hf. lia. }
  destruct (first_fit (test (p_mem s) bm) (frames bm) n) as [p|] eqn:E.
  2:{ rewrite (first_fit_None_inv _ _ _ a E) in Hrun by lia. done. }
  assert (p <= a) as Hp.
  { destruct (decide (p <= a)); [done|]. apply first_fit_Some in E as (_ & _ & Hq).
    rewrite Hq in Hrun by lia. done. }
  destruct (total_inv (pmm.get_calloc n) s (fun r s' => exists m',
    r = Some (p * PAGE_SIZE) /\ s' = mkP m' (Some bm) /\ taken (p_mem s) m' bm p n /\ pmm_inv m' bm))
    as (x & s' & Hc & m' & -> & -> & Ht & Hi).
  { apply wp_get_calloc with (bm := bm); auto; [lia| |congruence].
    intros p' m' Ep Ht Hi. rewrite E in Ep. injection Ep as <-. eauto 10. }
  exists p, m'. split_and!; auto. split_and!; [lia..|].
  intros j Hj. rewrite (tk_bits _ _ _ _ _ Ht) by lia. rewrite decide_False by lia. apply Hf. lia.
Qed.

Definition room_check (m : mem) (bm : Bitmap) (a n : Z) : bool :=
  (0 <=? a) && (a + n <=? frames bm) && forallb (test m bm) (seqZ a n).

Lemma room_check_sound m bm a n : room_check m bm a n = true -> room m bm a n.
Proof.
  intros H. apply andb_true_iff in H as [H Hf]. apply andb_true_iff in H as [Ha Hb].
  split_and!; [lia..|]. intros j Hj. rewrite forallb_forall in Hf.
  apply Hf, list_elem_of_In, elem_of_seqZ. lia.
Qed.

(** ** Temporary pages

    Pages taken for the time of a call ([PmmBox], [Bitmap::new]) and given back at
    its end leave the allocator as it was. *)

Lemma box_new s bm size p :
  p_alloc s = Some bm -> pmm_inv (p_mem s) bm -> 0 < size < 2 ^ 63 ->
  first_fit (test (p_mem s) bm) (frames bm) (cdiv size PAGE_SIZE) = Some p ->
  exists m', pmmbox.new size s =
      (Ret (mkBox (PhysAddr.higher_half (p * PAGE_SIZE)) (cdiv size PAGE_SIZE)), mkP m' (Some bm)) /\
    taken (p_mem s) m' bm p (cdiv size PAGE_SIZE) /\ pmm_inv m' bm.
Proof.
  intros Hal Hinv Hs Hf. unfold pmmbox.new, bind at 1.
  rewrite div_ceil_eq by (unfold PAGE_SIZE; lia).
  pose proof (cdiv_pos size PAGE_SIZE ltac:(lia) ltac:(unfold PAGE_SIZE; lia)) as Hn.
  pose proof (calloc_eq bm _ (p_mem s) Hinv Hn) as Hc. rewrite Hf in Hc.
  destruct Hc as (m' & E & Ht & Hi). exists m'. split; [|done].
  destruct s as [m al]. simpl in *. subst al.
  unfold bind at 1, pmm.get_calloc, pmm.get, bind, gets, expect, ret, on_mem, zoom. simpl.
  by rewrite E.
Qed.

Lemma first_fit_pos m bm n p :
  pmm_inv m bm -> 0 < n -> first_fit (test m bm) (frames bm) n = Some p -> 0 < p.
Proof.
  intros Hi Hn Hf. pose proof (first_fit_bounds _ _ _ _ Hn Hf) as (Hp & Hle & Hr & _).
  destruct (decide (p = 0)) as [->|]; [|lia].
  pose proof (pi_zero _ _ Hi ltac:(lia)) as H0. by rewrite Hr in H0 by lia.
Qed.

Lemma box_drop m m1 m2 bm p n :
  pmm_inv m bm -> 0 < n -> first_fit (test m bm) (frames bm) n = Some p ->
  taken m m1 bm p n -> agree m1 m2 (bm_base bm) (bm_len bm) ->
  exists m3, pmmbox.drop (mkBox (PhysAddr.higher_half (p * PAGE_SIZE)) n) (mkP m2 (Some bm)) =
      (Ret tt, mkP m3 (Some bm)) /\
    (forall q, 0 <= q < frames bm -> test m3 bm q = test m bm q) /\
    only m2 m3 (bm_base bm) (bm_len bm) /\ pmm_inv m3 bm.
Proof.
  intros Hi Hn Hf Ht Ha. pose proof (first_fit_bounds _ _ _ _ Hn Hf) as (Hp & Hle & Hr & _).
  pose proof (first_fit_pos _ _ _ _ Hi Hn Hf) as Hpos. pose proof (pi_addr _ _ Hi) as Had.
  assert (Hi2 : pmm_inv m2 bm).
  { eapply pmm_inv_agree; [exact Ha|]. eapply taken_inv; eauto. }
  assert (Ep : phys_of (PhysAddr.higher_half (p * PAGE_SIZE)) / PAGE_SIZE = p).
  { rewrite phys_higher_half by (unfold PAGE_SIZE in *; lia). apply Z.div_mul. done. }
  destruct (free_eq bm (PhysAddr.higher_half (p * PAGE_SIZE)) n m2 Hi2 ltac:(lia)) as (m3 & E & Hrl).
  { rewrite Ep. lia. }
  rewrite Ep in Hrl. exists m3. split; [|split; [|split]].
  - unfold pmmbox.drop, pmm.get_free, pmm.get, bind, gets, expect, ret, on_mem, zoom. simpl.
    by rewrite E.
  - intros q Hq. rewrite (rl_bits _ _ _ _ _ Hrl) by done. case_decide; [by rewrite Hr|].
    rewrite (test_agree m1) by (auto; apply Hi). rewrite (tk_bits _ _ _ _ _ Ht) by done.
    by rewrite decide_False.
  - apply Hrl.
  - eapply released_inv; [exact Hi2|exact Hrl|done|].
    destruct (decide (bm_len bm <= 0)); [right|].
    + pose proof (bm_len_nonneg _ (pi_wf _ _ Hi)). unfold frames in *. lia.
    + destruct (decide ((p + n) * PAGE_SIZE <= bm_base bm)); [by left|right].
      destruct (decide (bm_base bm + bm_len bm <= p * PAGE_SIZE)); [done|exfalso].
      apply (run_off_storage m bm p n (Z.max (p * PAGE_SIZE) (bm_base bm)) Hi Hp Hle Hr);
        unfold PAGE_SIZE in *; lia.
Qed.

(** Memory that the allocator will not hand out: in no free frame, and clear of
    the bitmap. *)
Record kept (m : mem) (bm : Bitmap) (a n : Z) : Prop := {
  kp_range : 0 <= a /\ a + n <= 2 ^ 47;
  kp_used : forall x, a <= x < a + n -> x / PAGE_SIZE < frames bm -> test m bm (x / PAGE_SIZE) = false;
  kp_off : far a n (bm_base bm) (bm_len bm);
}.

Lemma kept_bits m m' bm a n :
  (forall q, 0 <= q < frames bm -> test m' bm q = test m bm q) -> kept m bm a n -> kept m' bm a n.
Proof.
  intros Hb [H1 H2 H3]. split; [done| |done]. intros x Hx Hf.
  rewrite Hb; [by apply H2|]. split; [|done]. apply Z.div_pos; unfold PAGE_SIZE; lia.
Qed.

(** A run of free frames is clear of kept memory. *)
Lemma kept_run m bm a n p k :
  kept m bm a n -> 0 < n -> 0 <= p -> 0 < k -> p + k <= frames bm ->
  (forall j, p <= j < p + k -> test m bm j = true) ->
  far (p * PAGE_SIZE) (k * PAGE_SIZE) a n.
Proof.
  intros [H1 H2 _] Hn Hp Hk Hle Hr. unfold far.
  destruct (decide ((p + k) * PAGE_SIZE <= a)); [left; lia|].
  destruct (decide (a + n <= p * PAGE_SIZE)); [by right|exfalso].
  set (x := Z.max a (p * PAGE_SIZE)).
  assert (Hx : p <= x / PAGE_SIZE < p + k).
  { unfold x, PAGE_SIZE in *. split; [apply Z.div_le_lower_bound; lia | apply Z.div_lt_upper_bound; lia]. }
  pose proof (Hr _ Hx) as Ht. rewrite H2 in Ht; [done| |lia]. unfold x, PAGE_SIZE in *. lia.
Qed.

(** A bitmap in a page that was just handed out has every bit clear. *)
Lemma new_bitmap_clear m m' bm p i :
  pmm_inv m bm -> 0 <= p -> p + 1 <= frames bm -> taken m m' bm p 1 -> 0 <= i < 8 * PAGE_SIZE ->
  test m' (mkBitmap (PhysAddr.higher_half (p * PAGE_SIZE)) PAGE_SIZE PAGE_SIZE) i = false.
Proof.
  intros Hi Hp Hle Ht Hr. pose proof (pi_addr _ _ Hi).
  set (b := mkBitmap _ _ _). assert (Eb : bm_base b = p * PAGE_SIZE).
  { unfold bm_base, b. simpl. apply phys_higher_half. unfold PAGE_SIZE in *. lia. }
  assert (Hwf : bm_wf b). { split; [done|done|]. rewrite Eb. simpl. unfold PAGE_SIZE in *. lia. }
  unfold test. rewrite bit_addr_eq, Eb by done.
  rewrite (tk_zero _ _ _ _ _ Ht); [apply Z.bits_0|].
  pose proof (bits_bound b i Hr) as Hx. simpl in Hx. unfold PAGE_SIZE in *. lia.
Qed.

(** [Bitmap::new] of one page. *)
Lemma bitmap_new_page s s' a :
  pmm.get_calloc 1 s = (Ret (Some a), s') ->
  bitmap_alloc.new PAGE_SIZE s = (Ret (mkBitmap (PhysAddr.higher_half a) PAGE_SIZE PAGE_SIZE), s').
Proof.
  intros E. unfold bitmap_alloc.new, bind. rewrite div_ceil_eq by (unfold PAGE_SIZE; lia).
  change (cdiv PAGE_SIZE PAGE_SIZE) with 1. by rewrite E.
Qed.

(** ** Histories of the allocator

    Clients allocate, write to what they own and free what they own, in any
    order.  [cover L q] counts the live blocks that contain frame [q]. *)

Fixpoint cover (L : list (Z * Z)) (q : Z) : Z :=
  match L with
  | [] => 0
  | (p, n) :: L' => (if decide (p <= q < p + n) then 1 else 0) + cover L' q
  end.

Definition hstate : Type := mem * list (Z * Z).

Inductive hstep (bm : Bitmap) : hstate -> hstate -> Prop :=
| hs_calloc m L n a m' :
    0 <= n -> pmm.calloc bm n m = (Ret (Some a), m') ->
    hstep bm (m, L) (m', (a / PAGE_SIZE, n) :: L)
| hs_calloc_none m L n m' :
    0 <= n -> pmm.calloc bm n m = (Ret None, m') -> hstep bm (m, L) (m', L)
| hs_write m L p n x v :
    (p, n) ∈ L -> p * PAGE_SIZE <= x < (p + n) * PAGE_SIZE ->
    hstep bm (m, L) (wr8 m x v, L)
| hs_free m L p n L' m' :
    L ≡ₚ (p, n) :: L' ->
    pmm.free bm (PhysAddr.higher_half (p * PAGE_SIZE)) n m = (Ret tt, m') ->
    hstep bm (m, L) (m', L').

(** Every frame that was free is free or in exactly one live block; every other
    frame is in none. *)
Record hist_inv (m0 : mem) (bm : Bitmap) (s : hstate) : Prop := {
  hi_pmm : pmm_inv (fst s) bm;
  hi_blocks : forall p n, (p, n) ∈ snd s -> 0 < p /\ 0 < n /\ p + n <= frames bm;
  hi_count : forall q, 0 <= q < frames bm ->
    Z.b2z (test (fst s) bm q) + cover (snd s) q = Z.b2z (test m0 bm q);
}.

Section history.
Implicit Types (m : mem) (bm : Bitmap) (L : list (Z * Z)).

Lemma cover_nonneg L q : 0 <= cover L q.
Proof. induction L as [|[p n] L IH]; simpl; [lia|]. case_decide; lia. Qed.

#[export] Instance cover_proper : Proper ((≡ₚ) ==> eq ==> eq) cover.
Proof.
  intros L1 L2 H q ? <-. induction H as [|[] ???|[] []|]; simpl; lia.
Qed.

Lemma cover_elem L p n q : (p, n) ∈ L -> p <= q < p + n -> 1 <= cover L q.
Proof.
  intros H Hq. induction L as [|[p' n'] L IH]; [by apply not_elem_of_nil in H|].
  simpl. pose proof (cover_nonneg L q).
  apply elem_of_cons in H as [[= <- <-]|H]; [rewrite decide_True by done; lia|].
  specialize (IH H). case_decide; lia.
Qed.

(** A frame of a live block was free at the start, and is not free now. *)
Lemma live_frame m0 bm m L p n q :
  hist_inv m0 bm (m, L) -> (p, n) ∈ L -> p <= q < p + n ->
  test m0 bm q = true /\ test m bm q = false /\ cover L q = 1.
Proof.
  intros [H1 H2 H3] Hin Hq. simpl in *. destruct (H2 _ _ Hin) as (?&?&?).
  specialize (H3 q ltac:(lia)). pose proof (cover_elem _ _ _ _ Hin Hq).
  destruct (test m bm q), (test m0 bm q); simpl in *; lia.
Qed.

Lemma live_off_storage m0 bm m L p n x :
  pmm_inv m0 bm -> hist_inv m0 bm (m, L) -> (p, n) ∈ L ->
  p * PAGE_SIZE <= x < (p + n) * PAGE_SIZE ->
  ~ (bm_base bm <= x < bm_base bm + bm_len bm).
Proof.
  intros H0 Hh Hin Hx. destruct (hi_blocks _ _ _ Hh _ _ Hin) as (?&?&?).
  apply (run_off_storage m0 bm p n); auto; try lia.
  intros j Hj. by destruct (live_frame _ _ _ _ _ _ j Hh Hin Hj).
Qed.

Lemma hist_inv_alloc m0 bm m L n p m' :
  hist_inv m0 bm (m, L) -> 0 < n ->
  first_fit (test m bm) (frames bm) n = Some p ->
  taken m m' bm p n -> pmm_inv m' bm -> hist_inv m0 bm (m', (p, n) :: L).
Proof.
  intros [H1 H2 H3] Hn Hff Ht Hi. simpl in *.
  destruct (first_fit_bounds _ _ _ _ Hn Hff) as (Hp & Hle & Hr & _).
  split; simpl; [done| |].
  - intros p' n' [[= -> ->]|Hin]%elem_of_cons; [|by apply H2].
    destruct (decide (p = 0)) as [->|]; [|lia].
    pose proof (pi_zero _ _ H1 ltac:(lia)). rewrite Hr in * by lia. done.
  - intros q Hq. rewrite (tk_bits _ _ _ _ _ Ht), <- H3 by done.
    case_decide; [rewrite Hr by lia|]; simpl; lia.
Qed.

Lemma hist_inv_write m0 bm m L p n x v :
  pmm_inv m0 bm -> hist_inv m0 bm (m, L) -> (p, n) ∈ L ->
  p * PAGE_SIZE <= x < (p + n) * PAGE_SIZE -> hist_inv m0 bm (wr8 m x v, L).
Proof.
  intros H0 Hh Hin Hx. pose proof (live_off_storage _ _ _ _ _ _ _ H0 Hh Hin Hx) as Hoff.
  destruct Hh as [H1 H2 H3]. simpl in *. pose proof (pi_wf _ _ H1) as Hwf.
  assert (Hbits : forall q, 0 <= q < frames bm -> test (wr8 m x v) bm q = test m bm q).
  { intros q Hq. apply test_agree; [done|done|]. intros y Hy. apply rd8_wr8_ne. lia. }
  assert (0 < frames bm) by (destruct (H2 _ _ Hin); lia).
  split; simpl; [|done|].
  - split; [done| apply H1 | intros; rewrite Hbits by lia; by apply H1 |].
    intros q Hq. rewrite Hbits by lia. by apply H1.
  - intros q Hq. rewrite Hbits by lia. by apply H3.
Qed.

Lemma free_live m0 bm m L p n :
  hist_inv m0 bm (m, L) -> (p, n) ∈ L ->
  exists m', pmm.free bm (PhysAddr.higher_half (p * PAGE_SIZE)) n m = (Ret tt, m') /\
    released m m' bm p n.
Proof.
  intros [H1 H2 _] Hin. simpl in *. destruct (H2 _ _ Hin) as (?&?&?).
  pose proof (pi_addr _ _ H1). unfold PAGE_SIZE in *.
  pose proof (free_eq bm (PhysAddr.higher_half (p * 4096)) n m H1) as Hf.
  rewrite phys_higher_half in Hf by lia. unfold PAGE_SIZE in Hf.
  rewrite Z.div_mul in Hf by lia. apply Hf; lia.
Qed.

Lemma hist_inv_free m0 bm m L p n L' m' :
  pmm_inv m0 bm -> hist_inv m0 bm (m, L) -> L ≡ₚ (p, n) :: L' ->
  released m m' bm p n -> hist_inv m0 bm (m', L').
Proof.
  intros H0 Hh HL Hr. assert (Hin : (p, n) ∈ L) by (rewrite HL; by left).
  pose proof (live_off_storage m0 bm m L p n) as Hoff.
  assert (Hlive := live_frame m0 bm m L p n).
  pose proof Hh as [H1 H2 H3]. simpl in *. destruct (H2 _ _ Hin) as (?&?&?).
  split; simpl.
  - eapply released_inv; eauto; try lia.
    pose proof (Hoff (p * PAGE_SIZE) H0 Hh Hin). pose proof (Hoff (bm_base bm) H0 Hh Hin).
    pose proof (bm_len_nonneg _ (pi_wf _ _ H1)).
    unfold PAGE_SIZE, frames in *. lia.
  - intros p' n' Hin'. apply H2. rewrite HL. by right.
  - intros q Hq. rewrite (rl_bits _ _ _ _ _ Hr), <- H3 by done.
    pose proof (cover_proper _ _ HL q q eq_refl) as ->. simpl.
    case_decide; [|lia]. destruct (Hlive q Hh Hin) as (_ & -> & _); [lia|]. simpl. lia.
Qed.

Lemma hstep_inv m0 bm s s' :
  pmm_inv m0 bm -> hist_inv m0 bm s -> hstep bm s s' -> hist_inv m0 bm s'.
Proof.
  intros H0 Hh Hst. destruct Hst as [m L n a m' Hn Hc|m L n m' Hn Hc|m L p n x v Hin Hx|m L p n L' m' HL Hf].
  - pose proof (hi_pmm _ _ _ Hh) as Hp. simpl in Hp.
    destruct (decide (n = 0)) as [->|]; [by rewrite calloc_zero in Hc|].
    pose proof (calloc_eq bm n m Hp ltac:(lia)) as He.
    destruct (first_fit _ _ _) as [p|] eqn:E.
    + destruct He as (m2 & He & Ht & Hi). rewrite Hc in He. injection He as -> ->.
      unfold PAGE_SIZE. rewrite Z.div_mul by lia. eapply hist_inv_alloc; eauto. lia.
    + by rewrite Hc in He.
  - pose proof (hi_pmm _ _ _ Hh) as Hp. simpl in Hp.
    destruct (decide (n = 0)) as [->|].
    { rewrite calloc_zero in Hc by done. by injection Hc as <-. }
    pose proof (calloc_eq bm n m Hp ltac:(lia)) as He.
    destruct (first_fit _ _ _) as [p|] eqn:E.
    + destruct He as (m2 & He & _). by rewrite Hc in He.
    + rewrite Hc in He. by injection He as ->.
  - by eapply hist_inv_write.
  - assert (Hin : (p, n) ∈ L) by (rewrite HL; by left).
    destruct (free_live _ _ _ _ _ _ Hh Hin) as (m2 & He & Hr).
    rewrite Hf in He. injection He as ->. by eapply hist_inv_free.
Qed.

Lemma hist_inv_start m0 bm : pmm_inv m0 bm -> hist_inv m0 bm (m0, []).
Proof.
  intros H. split; simpl; [done| |lia]. intros ?? Hin. by apply not_elem_of_nil in Hin.
Qed.

Lemma reachable_inv m0 bm s :
  pmm_inv m0 bm -> rtc (hstep bm) (m0, []) s -> hist_inv m0 bm s.
Proof.
  intros H0 Hr. assert (Hs := hist_inv_start _ _ H0). remember (m0, []) as s0 eqn:E.
  clear E. induction Hr as [|s1 s2 s3 H1 _ IH]; [done|]. apply IH. by eapply hstep_inv.
Qed.

End history.

(** ** [init] *)

(** The entries [init] reads are inside the direct map. *)
Definition entry_ok (e : MemEntry) : Prop :=
  0 <= e_base e /\ 0 <= e_length e /\ e_base e + e_length e < 2 ^ 47.

Definition counted (e : MemEntry) : bool :=
  match e_type e with BootloaderReclaimable | Usable | Kernel => true | OtherEntry => false end.

Definition is_usable (e : MemEntry) : bool := bool_decide (e_type e = Usable).

(** The end of the memory that the bitmap has to describe. *)
Definition peak_of (es : list MemEntry) : Z :=
  foldr (fun e r => if counted e then Z.max (e_base e + e_length e) r else r) 0 es.

(** The bitmap has one byte per eight frames. *)
Definition bitmap_bytes (es : list MemEntry) : Z := cdiv (peak_of es / PAGE_SIZE) 8.

Definition suits (bytes : Z) (e : MemEntry) : bool :=
  is_usable e && (bytes <=? e_length e).

Definition shrink (bytes : Z) (e : MemEntry) : MemEntry :=
  mkEntry (e_base e + bytes) (e_length e - bytes) (e_type e).

(** Frame [p] is one of the frames that the third loop marks for [e]. *)
Definition marks (p : Z) (e : MemEntry) : bool :=
  is_usable e && (e_base e / PAGE_SIZE <=? p)
    && (p <? e_base e / PAGE_SIZE + e_length e / PAGE_SIZE).

Section init.
Implicit Types (m : mem) (bm : Bitmap) (es : list MemEntry).

Lemma peak_of_range es : Forall entry_ok es -> 0 <= peak_of es < 2 ^ 47.
Proof.
  induction 1 as [|e es He _ IH]; simpl; [lia|].
  destruct He as (?&?&?). destruct (counted e); lia.
Qed.

Lemma peak_of_elem es e : e ∈ es -> is_usable e = true -> e_base e + e_length e <= peak_of es.
Proof.
  intros Hin Hu. induction es as [|e' es IH]; [by apply not_elem_of_nil in Hin|].
  apply elem_of_cons in Hin as [<-|Hin]; simpl.
  - apply bool_decide_eq_true in Hu. unfold counted. rewrite Hu. lia.
  - specialize (IH Hin). destruct (counted e'); lia.
Qed.

Lemma biggest_peak_ok es m : forall b,
  0 <= b -> Forall entry_ok es ->
  pmm.biggest_peak es b m = (Ret (Z.max b (peak_of es)), m).
Proof.
  induction es as [|e es IH]; intros b Hb Hes; simpl.
  { unfold ret. by rewrite Z.max_l by lia. }
  apply list.Forall_cons in Hes as [(?&?&?) Hes]. assert (Hp := peak_of_range es Hes).
  assert (Hstep : forall b', b' = Z.max b (e_base e + e_length e) ->
    pmm.biggest_peak es b' m = (Ret (Z.max b (Z.max (e_base e + e_length e) (peak_of es))), m)).
  { intros b' ->. rewrite IH by (done || lia). do 2 f_equal. lia. }
  unfold counted. destruct (e_type e);
    try (unfold bind, uadd, u64; rewrite chk_ok by lia; apply Hstep;
         destruct (Z.ltb_spec b (e_base e + e_length e)); lia).
  by apply IH.
Qed.

Lemma place_bitmap_skip bytes es2 m : forall es1,
  Forall (fun e => suits bytes e = false) es1 ->
  pmm.place_bitmap (es1 ++ es2) bytes m =
    bind (pmm.place_bitmap es2 bytes) (fun '(p, r) => ret (p, es1 ++ r)) m.
Proof.
  induction es1 as [|e es1 IH]; intros Hes; simpl.
  { unfold bind, ret. by destruct (pmm.place_bitmap es2 bytes m) as [[[]|] ?]. }
  apply list.Forall_cons in Hes as [He Hes]. specialize (IH Hes).
  unfold suits, is_usable in He.
  destruct (bool_decide (e_type e = Usable)) eqn:Hu; simpl in *.
  - destruct (Z.ltb_spec (e_length e) bytes); [|lia].
    unfold bind in *. rewrite IH.
    by destruct (pmm.place_bitmap es2 bytes m) as [[[]|] ?].
  - unfold bind in *. rewrite IH.
    by destruct (pmm.place_bitmap es2 bytes m) as [[[]|] ?].
Qed.

Lemma place_bitmap_none bytes es m :
  Forall (fun e => suits bytes e = false) es ->
  pmm.place_bitmap es bytes m = (Ret (0, es), m).
Proof.
  intros H. rewrite <- (app_nil_r es) at 1. rewrite place_bitmap_skip by done.
  unfold bind, ret. simpl. by rewrite app_nil_r.
Qed.

Lemma place_bitmap_some bytes es1 e es2 m :
  Forall (fun e => suits bytes e = false) es1 -> suits bytes e = true ->
  entry_ok e -> 0 <= bytes ->
  pmm.place_bitmap (es1 ++ e :: es2) bytes m =
    (Ret (e_base e + PHYS_BASE, es1 ++ shrink bytes e :: es2),
     fill (Z.to_nat bytes) m (e_base e) 0).
Proof.
  intros Hes1 He (?&?&?) Hb. rewrite place_bitmap_skip by done.
  unfold suits, is_usable in He. apply andb_true_iff in He as [Hu Hl].
  unfold bind at 1. simpl. rewrite Hu. simpl.
  destruct (Z.ltb_spec (e_length e) bytes); [lia|].
  assert (PHYS_BASE = 2 ^ 64 - 2 ^ 47) as Hpb by reflexivity.
  unfold bind, uadd, usub, u64, write_bytes, modify, ret.
  rewrite !chk_ok by lia. rewrite phys_of_base by lia. done.
Qed.

Lemma mark_usable_ok bm es : forall m,
  bm_wf bm -> frames bm <= 2 ^ 60 ->
  Forall (fun e => is_usable e = true ->
    0 <= e_base e /\ 0 <= e_length e /\
    e_base e / PAGE_SIZE + e_length e / PAGE_SIZE <= frames bm) es ->
  exists m', pmm.mark_usable bm es m = (Ret tt, m') /\
    only m m' (bm_base bm) (bm_len bm) /\
    forall p, 0 <= p < frames bm ->
      test m' bm p = existsb (marks p) es || test m bm p.
Proof.
  induction es as [|e es IH]; intros m Hwf Hfr Hes; simpl.
  { exists m. done. }
  apply list.Forall_cons in Hes as [He Hes].
  destruct (bool_decide (e_type e = Usable)) eqn:Hu; simpl.
  2:{ destruct (IH m Hwf Hfr Hes) as (m' & ? & ? & Ht). exists m'. repeat split; auto.
      intros p Hp. rewrite Ht by done. unfold marks, is_usable. by rewrite Hu. }
  destruct (He Hu) as (Hb & Hl & Hle).
  pose proof (Z.div_pos (e_base e) PAGE_SIZE). pose proof (Z.div_pos (e_length e) PAGE_SIZE).
  assert (0 < PAGE_SIZE) by (unfold PAGE_SIZE; lia).
  unfold bind at 1, uadd, u64. rewrite chk_ok by lia.
  unfold bind. rewrite (for_range_upd bm _ true) by (auto using set_ok; unfold frames in *; lia).
  replace (e_base e / PAGE_SIZE + e_length e / PAGE_SIZE - e_base e / PAGE_SIZE)
    with (e_length e / PAGE_SIZE) by lia.
  match goal with |- context [pmm.mark_usable bm es ?m1] => set (m1' := m1) end.
  destruct (IH m1' Hwf Hfr Hes) as (m' & ? & Honly & Ht). exists m'. split; [done|]. split.
  - eapply only_trans; [|exact Honly]. apply upd_run_only; unfold frames in *; auto; lia.
  - intros p Hp. rewrite Ht by done. unfold m1'. unfold frames in *.
    rewrite test_upd_run by (auto; lia). unfold marks, is_usable. rewrite Hu. simpl.
    rewrite Z2Nat.id by lia.
    rewrite decide_range_orb, orb_assoc. f_equal. apply orb_comm.
Qed.

(** The frames of the usable entries are inside the bitmap, also after the entry
    that holds the bitmap has been shortened. *)
Lemma marks_in_frames es e bytes :
  Forall entry_ok es -> e ∈ es -> is_usable e = true ->
  0 <= bytes <= e_length e ->
  (e_base e + bytes) / PAGE_SIZE + (e_length e - bytes) / PAGE_SIZE <= 8 * bitmap_bytes es.
Proof.
  intros Hes Hin Hu Hb. pose proof (peak_of_elem _ _ Hin Hu) as Hp.
  unfold bitmap_bytes. pose proof (cdiv_bounds (peak_of es / PAGE_SIZE) 8 ltac:(lia)).
  unfold PAGE_SIZE in *.
  pose proof (Z.div_mod (e_base e + bytes) 4096). pose proof (Z.mod_pos_bound (e_base e + bytes) 4096).
  pose proof (Z.div_mod (e_length e - bytes) 4096). pose proof (Z.mod_pos_bound (e_length e - bytes) 4096).
  pose proof (Z.div_mod (peak_of es) 4096). pose proof (Z.mod_pos_bound (peak_of es) 4096).
  lia.
Qed.

Lemma init_ok es1 e es2 s :
  let es := es1 ++ e :: es2 in
  let bytes := bitmap_bytes es in
  let bm := bitmap.from_raw_ptr (e_base e + PHYS_BASE) bytes in
  Forall entry_ok es ->
  Forall (fun e => suits bytes e = false) es1 -> suits bytes e = true ->
  exists m', pmm.init es s = (Ret tt, mkP m' (Some bm)) /\ bm_wf bm /\
    bm_base bm = e_base e /\
    only (p_mem s) m' (e_base e) bytes /\
    forall p, 0 <= p < frames bm ->
      test m' bm p = existsb (marks p) (es1 ++ shrink bytes e :: es2).
Proof.
  intros es bytes bm Hes Hes1 He.
  assert (Hpk := peak_of_range es Hes).
  assert (Hin : e ∈ es) by (apply elem_of_app; right; by left).
  assert (Heok : entry_ok e) by (rewrite list.Forall_forall in Hes; by apply Hes).
  assert (Hbytes : 0 <= bytes).
  { apply cdiv_nonneg; [apply Z.div_pos; unfold PAGE_SIZE; lia | lia]. }
  assert (Hsuit := He). unfold suits in Hsuit. apply andb_true_iff in Hsuit as [Hu Hl].
  assert (Hbase : bm_base bm = e_base e).
  { unfold bm_base, bm, bitmap.from_raw_ptr. simpl. destruct Heok as (?&?&?).
    apply phys_of_base. lia. }
  assert (Hwf : bm_wf bm).
  { split; [done|done|]. rewrite Hbase. simpl. destruct Heok as (?&?&?). lia. }
  assert (Hpage : peak_of es / PAGE_SIZE < 2 ^ 35).
  { apply Z.div_lt_upper_bound; unfold PAGE_SIZE; lia. }
  assert (0 <= peak_of es / PAGE_SIZE) by (apply Z.div_pos; unfold PAGE_SIZE; lia).
  assert (Hfr : frames bm <= 2 ^ 60).
  { unfold frames, bm. simpl. unfold bytes, bitmap_bytes.
    pose proof (cdiv_bounds (peak_of es / PAGE_SIZE) 8). lia. }
  set (m1 := fill (Z.to_nat bytes) (p_mem s) (e_base e) 0).
  assert (Hmark : Forall (fun e => is_usable e = true ->
    0 <= e_base e /\ 0 <= e_length e /\
    e_base e / PAGE_SIZE + e_length e / PAGE_SIZE <= frames bm)
      (es1 ++ shrink bytes e :: es2)).
  { apply list.Forall_forall. intros x Hx Hux. unfold frames, bm. simpl.
    assert (x = shrink bytes e \/ x ∈ es) as [->|Hxin].
    { subst es. revert Hx. rewrite !elem_of_app, !elem_of_cons. tauto. }
    - destruct Heok as (?&?&?). simpl. split; [lia|]. split; [lia|].
      apply marks_in_frames; auto. lia.
    - assert (Hxok : entry_ok x) by (rewrite list.Forall_forall in Hes; by apply Hes).
      destruct Hxok as (?&?&?). split; [lia|]. split; [lia|].
      pose proof (marks_in_frames es x 0 Hes Hxin Hux) as Hm.
      rewrite Z.add_0_r, Z.sub_0_r in Hm. apply Hm. lia. }
  destruct (mark_usable_ok bm _ m1 Hwf Hfr Hmark) as (m' & Hmk & Honly & Htest).
  exists m'. split; [|split; [done|split; [done|split]]].
  - unfold pmm.init, on_mem, zoom, bind.
    rewrite biggest_peak_ok by done.
    rewrite Z.max_r by lia. rewrite div_ceil_eq by lia.
    fold (bitmap_bytes es). fold bytes. unfold es at 1.
    simpl p_mem. rewrite place_bitmap_some by done. fold m1.
    destruct Heok as (?&?&?). assert (PHYS_BASE = 2 ^ 64 - 2 ^ 47) by reflexivity.
    destruct (Z.eqb_spec (e_base e + PHYS_BASE) 0); [lia|].
    simpl p_mem. fold bm. rewrite Hmk. done.
  - eapply only_trans with m1.
    + intros x Hx. unfold m1. rewrite rd8_fill, decide_False by lia. done.
    + by rewrite Hbase in Honly.
  - intros p Hp. rewrite Htest by done.
    enough (test m1 bm p = false) as ->; [by rewrite orb_false_r|].
    unfold test. rewrite bit_addr_eq by done. unfold frames in Hp.
    rewrite Hbase. unfold m1. pose proof (bits_bound _ _ Hp).
    rewrite rd8_fill, decide_True; [apply Z.bits_0|]. unfold bm in *. simpl in *. lia.
Qed.

End init.

(** A memory map as the bootloader documents it: usable entries are made of
    whole pages and no two of them overlap. *)
Definition paged (e : MemEntry) : Prop :=
  e_base e mod PAGE_SIZE = 0 /\ e_length e mod PAGE_SIZE = 0.

Definition apart (e f : MemEntry) : Prop :=
  e_base e + e_length e <= e_base f \/ e_base f + e_length f <= e_base e.

Section init_inv.
Implicit Types (m : mem) (bm : Bitmap) (es : list MemEntry).

Lemma existsb_marks p es :
  existsb (marks p) es = true <-> exists e, e ∈ es /\ marks p e = true.
Proof.
  rewrite existsb_exists. split; intros (e & He & ?); exists e; split; auto;
    by apply list_elem_of_In.
Qed.

Lemma marks_iff p e :
  marks p e = true <->
  is_usable e = true /\ e_base e / PAGE_SIZE <= p < e_base e / PAGE_SIZE + e_length e / PAGE_SIZE.
Proof. unfold marks. rewrite !andb_true_iff, Z.leb_le, Z.ltb_lt. tauto. Qed.

(** The frames marked for a paged entry lie inside it. *)
Lemma marks_inside p e :
  paged e -> marks p e = true ->
  e_base e <= p * PAGE_SIZE /\ (p + 1) * PAGE_SIZE <= e_base e + e_length e.
Proof.
  intros [Hb Hl] (_ & Hp)%marks_iff. unfold PAGE_SIZE in *.
  pose proof (Z.div_mod (e_base e) 4096). pose proof (Z.div_mod (e_length e) 4096). lia.
Qed.

Lemma frames_peak es : 0 <= peak_of es < 2 ^ 47 -> 8 * bitmap_bytes es * PAGE_SIZE <= 2 ^ 47.
Proof.
  intros H. unfold bitmap_bytes, PAGE_SIZE.
  assert (cdiv (peak_of es / 4096) 8 <= 2 ^ 32); [|lia].
  apply cdiv_le; [lia|]. apply Z.lt_le_incl, Z.div_lt_upper_bound; lia.
Qed.

(** A frame marked after the bitmap has been placed, on a well-formed map with a
    bitmap of whole pages, is not frame 0 and holds no byte of the bitmap. *)
Lemma marked_off_bitmap es1 e es2 bytes p :
  Forall (fun f => is_usable f = true -> paged f /\ 0 < e_base f) (es1 ++ e :: es2) ->
  Forall (fun f => is_usable f = true -> apart e f) (es1 ++ es2) ->
  is_usable e = true -> 0 <= bytes <= e_length e -> bytes mod PAGE_SIZE = 0 ->
  existsb (marks p) (es1 ++ shrink bytes e :: es2) = true ->
  0 < p /\ ((p + 1) * PAGE_SIZE <= e_base e \/ e_base e + bytes <= p * PAGE_SIZE).
Proof.
  intros Hpg Hap Hue Hle Hby (f & Hf & Hm)%existsb_marks.
  rewrite list.Forall_forall in Hpg, Hap. assert (Hu := proj1 (marks_iff _ _) Hm).
  assert (f = shrink bytes e \/ f ∈ es1 ++ es2) as [->|Hf'].
  { revert Hf. rewrite !elem_of_app, elem_of_cons. tauto. }
  - destruct (Hpg e) as [[Hpb Hpl] ?]; [apply elem_of_app; right; by left | done |].
    destruct (marks_inside p (shrink bytes e)) as [Hlo Hhi]; [|done|].
    + unfold paged, PAGE_SIZE, shrink in *; simpl in *. split.
      * rewrite Zplus_mod, Hpb, Hby. reflexivity.
      * rewrite Zminus_mod, Hpl, Hby. reflexivity.
    + simpl in *. unfold PAGE_SIZE in *. lia.
  - destruct (Hpg f) as [Hpf ?]; [|apply Hu|].
    { revert Hf'. rewrite !elem_of_app, elem_of_cons. tauto. }
    destruct (marks_inside p f Hpf Hm). destruct (Hap f Hf'); [apply Hu | |];
      unfold PAGE_SIZE in *; lia.
Qed.

Lemma bitmap_bytes_pos es e :
  e ∈ es -> is_usable e = true -> entry_ok e -> PAGE_SIZE <= e_base e + e_length e ->
  0 < bitmap_bytes es.
Proof.
  intros Hin Hu (?&?&?) Hb. pose proof (peak_of_elem es e Hin Hu).
  apply cdiv_pos; [|lia].
  assert (1 <= peak_of es / PAGE_SIZE); [|lia].
  apply Z.div_le_lower_bound; unfold PAGE_SIZE in *; lia.
Qed.

End init_inv.

(** A decision procedure for [pmm_inv], for concrete memories. *)
Definition pmm_check (m : mem) (bm : Bitmap) : bool :=
  (0 <=? bm_len bm) && (bm_size bm =? bm_len bm)
  && (bm_base bm + bm_len bm <? 2 ^ 47) && (frames bm * PAGE_SIZE <=? 2 ^ 47)
  && ((frames bm <=? 0) || negb (test m bm 0))
  && forallb (fun p => negb (test m bm p) || ((p + 1) * PAGE_SIZE <=? bm_base bm)
       || (bm_base bm + bm_len bm <=? p * PAGE_SIZE)) (seqZ 0 (frames bm)).

Lemma pmm_check_sound m bm : pmm_check m bm = true -> pmm_inv m bm.
Proof.
  unfold pmm_check. rewrite !andb_true_iff, forallb_forall.
  intros [[[[[H1 H2] H3] H4] H5] H6].
  split; [split; lia | lia | |].
  { intros Hf. destruct (test m bm 0); [|done]. simpl in H5. rewrite orb_false_r in H5. lia. }
  intros p Hp Ht. specialize (H6 p). rewrite Ht in H6. simpl in H6.
  apply orb_true_iff in H6; [lia|]. apply list_elem_of_In, elem_of_seqZ. lia.
Qed.

(** ** Properties *)

Section witness_data.

(** A bitmap of one byte in frame 1; frames 2, 3 and 5 are free. *)
Definition bm_w : Bitmap := bitmap.from_raw_ptr (PHYS_BASE + 0x1000) 1.
Definition mem_w : mem := {[ 0x1000 := 0x2c ]}.

Lemma mem_w_inv : pmm_inv mem_w bm_w.
Proof. apply pmm_check_sound. vm_compute. reflexivity. Qed.

(** One usable entry of 2 MiB at 1 MiB: 768 frames, a bitmap of 96 bytes. *)
Definition es_w : list MemEntry :=
  [mkEntry 0 0x1000 OtherEntry; mkEntry 0x100000 0x200000 Usable].

Lemma es_w_ok : Forall entry_ok es_w.
Proof. repeat constructor; simpl; lia. Qed.

End witness_data.

(** C1.  [alloc n] is first fit.  With no run of [n > 0] free frames it returns
    [None] and writes nothing.  Otherwise it takes the lowest run: it returns the
    address of the run and clears exactly its bits, and nothing outside the
    bitmap changes.  The one exception is a lowest run at frame 0, where
    [i - pages + 1] underflows and the kernel panics. *)
Theorem alloc_first_fit bm n m :
  bm_wf bm -> 0 < n ->
  match first_fit (test m bm) (frames bm) n with
  | None => pmm.alloc bm n m = (Ret None, m)
  | Some p =>
      if p =? 0 then pmm.alloc bm n m = (Fault Overflow, m)
      else exists m',
        pmm.alloc bm n m = (Ret (Some (p * PAGE_SIZE)), m') /\
        only m m' (bm_base bm) (bm_len bm) /\
        forall j, 0 <= j < frames bm ->
          test m' bm j = if decide (p <= j < p + n) then false else test m bm j
  end.
Proof.
  intros Hwf Hn. rewrite alloc_eq by done. fold (frames bm).
  destruct (first_fit _ _ _) as [p|] eqn:E; [|done]. unfold alloc_result.
  apply first_fit_bounds in E as (? & ? & _); [|done].
  destruct (p =? 0); [done|]. eexists. split; [done|]. unfold frames in *. split.
  - apply upd_run_only; auto; lia.
  - intros j Hj. rewrite test_upd_run by (auto; lia). by rewrite Z2Nat.id by lia.
Qed.

Lemma alloc_first_fit_witness :
  bm_wf bm_w /\ 0 < 2 /\
  exists m', pmm.alloc bm_w 2 mem_w = (Ret (Some 0x2000), m') /\ test m' bm_w 5 = true.
Proof.
  split; [apply mem_w_inv|]. split; [lia|].
  pose proof (alloc_first_fit bm_w 2 mem_w (pi_wf _ _ mem_w_inv) ltac:(lia)) as H.
  change (first_fit (test mem_w bm_w) (frames bm_w) 2) with (Some 2) in H.
  cbn iota in H. destruct H as (m' & He & _ & Ht).
  exists m'. split; [exact He|]. rewrite Ht by (vm_compute; split; congruence). reflexivity.
Defined.

(** C5.  Under the allocator's invariant [calloc n] never panics, and when it
    succeeds the frames it returns were free, are no longer free and hold
    zeros; every other frame keeps its bit, every other byte outside the bitmap
    its value, and the invariant holds again. *)
Theorem calloc_fresh_zeroed bm n m :
  pmm_inv m bm -> 0 < n ->
  total (pmm.calloc bm n) m (fun r m' =>
    pmm_inv m' bm /\
    match r with
    | None => m' = m /\ forall p, 0 <= p -> p + n <= frames bm ->
        exists j, p <= j < p + n /\ test m bm j = false
    | Some a => exists p, a = p * PAGE_SIZE /\ 0 < p /\ p + n <= frames bm /\
        (forall j, p <= j < p + n -> test m bm j = true) /\ taken m m' bm p n
    end).
Proof.
  intros Hinv Hn. pose proof (calloc_eq bm n m Hinv Hn) as He.
  destruct (first_fit _ _ _) as [p|] eqn:E.
  - destruct He as (m' & He & Ht & Hi). eapply wp_eq; [exact He|]. split; [done|].
    apply first_fit_bounds in E as (Hp & Hle & Hr & _); [|done].
    exists p. repeat split; auto; try apply Ht; try lia.
    destruct (decide (p = 0)) as [->|]; [|lia].
    pose proof (pi_zero _ _ Hinv ltac:(lia)). by rewrite Hr in * by lia.
  - eapply wp_eq; [exact He|]. split; [done|]. split; [done|]. intros p Hp Hle.
    destruct (run_free (test m bm) p n) eqn:Er.
    { exfalso. unfold first_fit in E. eapply find_none in E; [by rewrite Er in E|].
      apply list_elem_of_In, elem_of_seqZ. lia. }
    unfold run_free in Er. apply not_true_iff_false in Er. rewrite forallb_forall in Er.
    destruct (decide (Exists (fun j => test m bm j = false) (seqZ p n))) as [Hx|Hx].
    { apply Exists_exists in Hx as (j & Hj & ?). exists j.
      apply list_elem_of_In, elem_of_seqZ in Hj. done. }
    exfalso. apply Er. intros j Hj. destruct (test m bm j) eqn:?; [done|].
    exfalso. apply Hx, Exists_exists. eauto.
Qed.

Lemma calloc_fresh_zeroed_witness :
  pmm_inv mem_w bm_w /\ 0 < 2 /\
  exists a m', pmm.calloc bm_w 2 mem_w = (Ret (Some a), m') /\ pmm_inv m' bm_w.
Proof.
  split; [apply mem_w_inv|]. split; [lia|].
  destruct (total_inv _ _ _ (calloc_fresh_zeroed bm_w 2 mem_w mem_w_inv ltac:(lia)))
    as (r & m' & He & Hi & Hr).
  destruct r as [a|]; [exists a, m'; split; assumption|]. exfalso.
  destruct Hr as [_ Hr]. destruct (Hr 2) as (j & Hj & Ht); [lia|vm_compute; congruence|].
  assert (j = 2 \/ j = 3) as [-> | ->] by lia; vm_compute in Ht; discriminate.
Defined.

(**  Freeing what [calloc] returned, through the pointer the kernel keeps
    (the higher-half one), puts the free set back as it was: every bit of the
    bitmap has its old value, and so does every byte outside the block. *)
Theorem calloc_free_roundtrip bm n m a m1 :
  pmm_inv m bm -> 0 < n -> pmm.calloc bm n m = (Ret (Some a), m1) ->
  total (pmm.free bm (PhysAddr.higher_half a) n) m1 (fun _ m2 =>
    (forall j, 0 <= j < frames bm -> test m2 bm j = test m bm j) /\
    only m m2 a (n * PAGE_SIZE)).
Proof.
  intros Hinv Hn Hc. pose proof (calloc_eq bm n m Hinv Hn) as He.
  destruct (first_fit _ _ _) as [p|] eqn:E; [|by rewrite Hc in He].
  destruct He as (m' & He & Ht & Hi). rewrite Hc in He. injection He as -> ->.
  apply first_fit_bounds in E as (Hp & Hle & Hr & _); [|done].
  pose proof (pi_addr _ _ Hinv) as Ha. unfold PAGE_SIZE in *.
  destruct (free_eq bm (PhysAddr.higher_half (p * 4096)) n m' Hi) as (m2 & Hf & Hrel).
  { lia. } { rewrite phys_higher_half by lia. unfold PAGE_SIZE. rewrite Z.div_mul; lia. }
  rewrite phys_higher_half in Hrel by lia. unfold PAGE_SIZE in Hrel.
  rewrite Z.div_mul in Hrel by lia.
  assert (Hbits : forall j, 0 <= j < frames bm -> test m2 bm j = test m bm j).
  { intros j Hj. rewrite (rl_bits _ _ _ _ _ Hrel), (tk_bits _ _ _ _ _ Ht) by done.
    case_decide; [by rewrite Hr|done]. }
  eapply wp_eq; [exact Hf|]. split; [done|].
  intros x Hx. destruct (decide (bm_base bm <= x < bm_base bm + bm_len bm)) as [Hb|Hb].
  - apply (test_ext m m2 bm); [apply Hinv | done | done].
  - rewrite (rl_frame _ _ _ _ _ Hrel) by done. apply (tk_frame _ _ _ _ _ Ht); auto.
    unfold PAGE_SIZE. lia.
Qed.

Lemma calloc_free_roundtrip_witness :
  exists m1 m2, pmm.calloc bm_w 1 mem_w = (Ret (Some 0x2000), m1) /\
    pmm.free bm_w (PhysAddr.higher_half 0x2000) 1 m1 = (Ret tt, m2) /\
    only mem_w m2 0x2000 PAGE_SIZE.
Proof.
  destruct (run_result (pmm.calloc bm_w 1 mem_w) (Ret (Some 0x2000))) as [m1 E].
  { vm_compute. reflexivity. }
  destruct (total_inv _ _ _ (calloc_free_roundtrip bm_w 1 mem_w 0x2000 m1 mem_w_inv ltac:(lia) E))
    as ([] & m2 & Hf & _ & Ho).
  exists m1, m2. split; [exact E|]. split; [exact Hf | exact Ho].
Defined.

(** C3.  No frame has two owners.  In every history of allocations, writes by
    owners to what they own and frees of live blocks, each frame that was free
    at the start is either free or in exactly one live block, each other frame
    is neither, the invariant holds, and freeing a live block cannot panic. *)
Theorem frames_conserved bm m0 m L :
  pmm_inv m0 bm -> rtc (hstep bm) (m0, []) (m, L) ->
  pmm_inv m bm /\
  (forall q, 0 <= q < frames bm ->
     Z.b2z (test m bm q) + cover L q = Z.b2z (test m0 bm q)) /\
  (forall p n, (p, n) ∈ L -> exists m',
     pmm.free bm (PhysAddr.higher_half (p * PAGE_SIZE)) n m = (Ret tt, m')).
Proof.
  intros H0 Hr. pose proof (reachable_inv _ _ _ H0 Hr) as Hh.
  split; [apply Hh|]. split; [apply Hh|]. intros p n Hin.
  destruct (free_live _ _ _ _ _ _ Hh Hin) as (m' & ? & _). by exists m'.
Qed.

Lemma frames_conserved_witness :
  exists m, rtc (hstep bm_w) (mem_w, []) (m, [(2, 1)]) /\
    Z.b2z (test m bm_w 2) + 1 = Z.b2z (test mem_w bm_w 2).
Proof.
  destruct (run_result (pmm.calloc bm_w 1 mem_w) (Ret (Some 0x2000))) as [m1 E].
  { vm_compute. reflexivity. }
  assert (rtc (hstep bm_w) (mem_w, []) (m1, [(2, 1)])) as Hr.
  { apply rtc_once. change 2 with (0x2000 / PAGE_SIZE).
    apply (hs_calloc bm_w mem_w [] 1 0x2000 m1); [lia | exact E]. }
  exists m1. split; [exact Hr|].
  destruct (frames_conserved bm_w mem_w m1 [(2, 1)] mem_w_inv Hr) as (_ & Hc & _).
  apply (Hc 2). vm_compute. split; congruence.
Defined.

(** C25.  [init] on a memory map inside the direct map: with a usable entry long
    enough for the bitmap it succeeds, the bitmap is placed at the start of the
    first such entry, its bits are exactly the frames counted for the usable
    entries (that entry shortened by the bitmap), and only the bitmap's storage
    is written. *)
Theorem init_marks_usable es1 e es2 s :
  let es := es1 ++ e :: es2 in
  let bytes := bitmap_bytes es in
  Forall entry_ok es ->
  Forall (fun e => suits bytes e = false) es1 -> suits bytes e = true ->
  total (pmm.init es) s (fun _ s' => exists bm, p_alloc s' = Some bm /\
    bm_wf bm /\ bm_base bm = e_base e /\ bm_len bm = bytes /\
    only (p_mem s) (p_mem s') (e_base e) bytes /\
    forall p, 0 <= p < frames bm ->
      test (p_mem s') bm p = existsb (marks p) (es1 ++ shrink bytes e :: es2)).
Proof.
  intros es bytes Hes Hes1 He.
  destruct (init_ok es1 e es2 s Hes Hes1 He) as (m' & Hi & Hwf & Hb & Ho & Ht).
  eapply wp_eq; [exact Hi|]. simpl. eexists. split; [done|]. auto 6.
Qed.

Lemma init_marks_usable_witness :
  exists s' bm, pmm.init es_w (mkP ∅ None) = (Ret tt, s') /\
    p_alloc s' = Some bm /\ bm_base bm = 0x100000 /\ bm_len bm = 96.
Proof.
  destruct (total_inv _ _ _ (init_marks_usable [mkEntry 0 0x1000 OtherEntry]
    (mkEntry 0x100000 0x200000 Usable) [] (mkP ∅ None) es_w_ok
    ltac:(repeat constructor) ltac:(vm_compute; reflexivity)))
    as ([] & s' & Hi & bm & Ha & _ & Hb & Hl & _).
  exists s', bm. split; [exact Hi|]. split; [exact Ha|]. split; [exact Hb|].
  rewrite Hl. vm_compute. reflexivity.
Defined.

(** A memory map on which [init] works as it should: the usable entries are whole
    pages inside the direct map that do not overlap, frame 0 is not usable, and
    the bitmap, which goes to the entry [e], fills whole pages. *)
Record map_ok (es1 : list MemEntry) (e : MemEntry) (es2 : list MemEntry) : Prop := {
  mo_entries : Forall entry_ok (es1 ++ e :: es2);
  mo_before : Forall (fun f => suits (bitmap_bytes (es1 ++ e :: es2)) f = false) es1;
  mo_suits : suits (bitmap_bytes (es1 ++ e :: es2)) e = true;
  mo_paged : Forall (fun f => is_usable f = true -> paged f /\ 0 < e_base f) (es1 ++ e :: es2);
  mo_apart : Forall (fun f => is_usable f = true -> apart e f) (es1 ++ es2);
  mo_bitmap : bitmap_bytes (es1 ++ e :: es2) mod PAGE_SIZE = 0;
}.

Lemma init_inv_ok es1 e es2 s :
  let es := es1 ++ e :: es2 in
  let bytes := bitmap_bytes es in
  let bm := bitmap.from_raw_ptr (e_base e + PHYS_BASE) bytes in
  map_ok es1 e es2 ->
  exists m', pmm.init es s = (Ret tt, mkP m' (Some bm)) /\ pmm_inv m' bm /\
    forall p, 0 <= p < frames bm -> test m' bm p = existsb (marks p) (es1 ++ shrink bytes e :: es2).
Proof.
  intros es bytes bm [Hes Hes1 He Hpg Hap Hby]. fold es bytes in Hes, Hes1, He, Hpg, Hap, Hby.
  destruct (init_ok es1 e es2 s Hes Hes1 He) as (m' & Hi & Hwf & Hb & Ho & Ht).
  fold es bytes bm in Hi, Hwf, Hb, Ho, Ht. exists m'. split; [done|]. split; [|done].
  assert (Hbytes : 0 <= bytes) by apply Hwf.
  unfold suits in He. apply andb_true_iff in He as [Hu Hl].
  assert (Hle : 0 <= bytes <= e_length e) by lia.
  assert (Hin : e ∈ es) by (apply elem_of_app; right; by left).
  pose proof (marked_off_bitmap es1 e es2 bytes) as Hoff.
  assert (Hpos : 0 < bytes).
  { rewrite list.Forall_forall in Hes, Hpg. destruct (Hpg e Hin Hu) as [[Hpb _] ?].
    apply (bitmap_bytes_pos es e); auto. destruct (Hes e Hin) as (?&?&?).
    unfold PAGE_SIZE in *. pose proof (Z.div_mod (e_base e) 4096). lia. }
  split; simpl.
  - done.
  - unfold frames. simpl. apply frames_peak, peak_of_range, Hes.
  - intros _. rewrite Ht by (unfold frames; simpl; lia).
    apply not_true_iff_false. intros H. destruct (Hoff 0 Hpg Hap Hu Hle Hby H). lia.
  - intros p Hp Hm. rewrite Ht in Hm by done. rewrite Hb. by apply Hoff.
Qed.

(** C7.  [init] establishes the allocator's invariant on a well-formed memory
    map: usable entries are whole pages inside the direct map, frame 0 is not
    usable, the first usable entry that is large enough for the bitmap overlaps
    no other usable entry, and the bitmap fills whole pages. *)
Theorem init_establishes_inv es1 e es2 s :
  map_ok es1 e es2 ->
  total (pmm.init (es1 ++ e :: es2)) s (fun _ s' => exists bm,
    p_alloc s' = Some bm /\ pmm_inv (p_mem s') bm).
Proof.
  intros Hok. destruct (init_inv_ok es1 e es2 s Hok) as (m' & Hi & Hinv & _).
  eapply wp_eq; [exact Hi|]. simpl. by eexists.
Qed.

Lemma init_establishes_inv_witness :
  exists s' bm, pmm.init [mkEntry 0x100000 0x7f00000 Usable] (mkP ∅ None) = (Ret tt, s') /\
    p_alloc s' = Some bm /\ pmm_inv (p_mem s') bm.
Proof.
  assert (Hok : map_ok [] (mkEntry 0x100000 0x7f00000 Usable) []).
  { split; [repeat constructor; simpl; lia|constructor|vm_compute; reflexivity|
      repeat constructor; simpl; lia|constructor|vm_compute; reflexivity]. }
  destruct (total_inv _ _ _ (init_establishes_inv [] (mkEntry 0x100000 0x7f00000 Usable) []
    (mkP ∅ None) Hok)) as ([] & s' & Hi & bm & Ha & Hinv).
  exists s', bm. split; [exact Hi|]. split; [exact Ha | exact Hinv].
Defined.

(** C40.  When the bitmap does not fill whole pages [init] marks the frame that
    holds the bitmap's last bytes as free: the shortened entry starts inside that
    frame and [entry.base / PAGE_SIZE] rounds down. *)
Theorem init_frees_bitmap_frame es1 e es2 s :
  let es := es1 ++ e :: es2 in
  let bytes := bitmap_bytes es in
  let p := (e_base e + bytes) / PAGE_SIZE in
  Forall entry_ok es ->
  Forall (fun e => suits bytes e = false) es1 -> suits bytes e = true ->
  e_base e mod PAGE_SIZE = 0 -> bytes mod PAGE_SIZE <> 0 ->
  PAGE_SIZE <= e_length e - bytes ->
  total (pmm.init es) s (fun _ s' => exists bm, p_alloc s' = Some bm /\
    test (p_mem s') bm p = true /\
    bm_base bm <= p * PAGE_SIZE < bm_base bm + bm_len bm).
Proof.
  intros es bytes p Hes Hes1 He Hal Hby Hlen.
  destruct (init_ok es1 e es2 s Hes Hes1 He) as (m' & Hi & Hwf & Hb & Ho & Ht).
  eapply wp_eq; [exact Hi|]. eexists. split; [done|]. simpl p_mem.
  fold es in Hwf, Hb, Ht. fold bytes in Hwf, Hb, Ht. fold es. fold bytes.
  assert (Hbytes : 0 <= bytes) by apply Hwf.
  assert (Hin : e ∈ es) by (apply elem_of_app; right; by left).
  assert (Heok : entry_ok e) by (rewrite list.Forall_forall in Hes; by apply Hes).
  destruct Heok as (?&?&?). unfold suits in He. apply andb_true_iff in He as [Hu Hl].
  unfold PAGE_SIZE in *.
  pose proof (Z.div_mod (e_base e) 4096). pose proof (Z.div_mod (e_base e + bytes) 4096).
  pose proof (Z.mod_pos_bound (e_base e + bytes) 4096). pose proof (Z.mod_pos_bound bytes 4096).
  pose proof (Z.div_mod bytes 4096).
  assert (Hmod : (e_base e + bytes) mod 4096 = bytes mod 4096).
  { rewrite Zplus_mod, Hal, Z.add_0_l. apply Z.mod_mod. lia. }
  pose proof (marks_in_frames es e bytes Hes Hin Hu ltac:(lia)) as Hfr. unfold PAGE_SIZE in Hfr.
  assert (1 <= (e_length e - bytes) / 4096) by (apply Z.div_le_lower_bound; lia).
  split.
  - rewrite Ht by (unfold frames; simpl; fold bytes in Hfr; unfold p; lia).
    apply existsb_marks. exists (shrink bytes e). split; [apply elem_of_app; right; by left|].
    apply marks_iff. unfold PAGE_SIZE. simpl. split; [done|]. unfold p. lia.
  - rewrite Hb. simpl. unfold p. lia.
Qed.

Lemma init_frees_bitmap_frame_witness :
  exists s' bm, pmm.init es_w (mkP ∅ None) = (Ret tt, s') /\ p_alloc s' = Some bm /\
    test (p_mem s') bm 256 = true /\ bm_base bm <= 256 * PAGE_SIZE < bm_base bm + bm_len bm.
Proof.
  destruct (total_inv _ _ _ (init_frees_bitmap_frame [mkEntry 0 0x1000 OtherEntry]
    (mkEntry 0x100000 0x200000 Usable) [] (mkP ∅ None) es_w_ok
    ltac:(repeat constructor) ltac:(vm_compute; reflexivity)
    ltac:(vm_compute; reflexivity) ltac:(vm_compute; congruence) ltac:(vm_compute; congruence)))
    as ([] & s' & Hi & bm & Ha & Ht & Hb).
  exists s', bm. split; [exact Hi|]. split; [exact Ha|]. split; [exact Ht | exact Hb].
Defined.

(**  With no usable entry long enough for the bitmap, [init] panics, and
    memory is untouched. *)
Theorem init_no_room es s :
  Forall entry_ok es -> Forall (fun e => suits (bitmap_bytes es) e = false) es ->
  pmm.init es s = (Fault Panicked, s).
Proof.
  intros Hes Hno. assert (Hp := peak_of_range es Hes). destruct s as [m o].
  assert (peak_of es / PAGE_SIZE < 2 ^ 35) by (apply Z.div_lt_upper_bound; unfold PAGE_SIZE; lia).
  assert (0 <= peak_of es / PAGE_SIZE) by (apply Z.div_pos; unfold PAGE_SIZE; lia).
  unfold pmm.init, on_mem, zoom, bind. simpl.
  rewrite biggest_peak_ok by done. rewrite Z.max_r by lia. rewrite div_ceil_eq by lia.
  fold (bitmap_bytes es). simpl. rewrite place_bitmap_none by done. done.
Qed.

Lemma init_no_room_witness :
  pmm.init [mkEntry 0 0x1000 Kernel; mkEntry 0x1000 0 Usable] (mkP ∅ None)
    = (Fault Panicked, mkP ∅ None).
Proof.
  apply init_no_room; [repeat constructor; simpl; lia|]. repeat constructor.
Defined.
