(* ===== verification/Vfs.v ===== *)
(** * [fs/vfs.rs]: mount points and dispatch to filesystems

    A filesystem is an instance of the trait [Filesystem]; the VFS keeps the
    list of mount points and hands a path to the filesystem of the mount point
    it selects.  A string is its bytes ([&str] indices are byte indices). *)

From Stdlib Require Import Ascii.
From stdpp Require Import strings.
From S2P Require Import Prelude.

Abbreviation slash := "/"%char.

(** [bitflags] structs are their bits. *)
Definition O_RDONLY : Z := 0.
Definition O_WRONLY : Z := 1.
Definition O_RDWR : Z := 2.
Definition O_CREAT : Z := 100.
Definition O_TRUNC : Z := 1000.
Definition O_APPEND : Z := 2000.

Module FileType.
Definition FIFO : Z := Z.shiftl 1 12.
Definition CHAR_DEVICE : Z := Z.shiftl 1 13.
Definition DIRECTORY : Z := Z.shiftl 1 14.
Definition BLOCK_DEVICE : Z := Z.lor (Z.shiftl 1 14) (Z.shiftl 1 13).
Definition NORMAL : Z := Z.shiftl 1 15.
Definition SYMLINK : Z := Z.lor (Z.shiftl 1 15) (Z.shiftl 1 13).
Definition SOCKET : Z := Z.lor (Z.shiftl 1 15) (Z.shiftl 1 14).
End FileType.

(** [bitflags]' [a.contains(b)]: every bit of [b] is in [a]. *)
Definition contains (a b : Z) : bool := Z.land a b =? b.

Record FileDescription (F : Type) := mkFd {
  fd_flags : Z;
  fd_offset : Z;
  fd_fs : F;
  fd_file_index : Z;
}.
Arguments mkFd {F} _ _ _ _.
Arguments fd_flags {F} _.
Arguments fd_offset {F} _.
Arguments fd_fs {F} _.
Arguments fd_file_index {F} _.

(** [FileDescription::new]. *)
Definition fd_new {F} (index flags : Z) (fs : F) : FileDescription F :=
  mkFd flags 0 fs index.

(** [pub trait Filesystem]: [F] is the type of references to filesystems, [S]
    the state its methods act on. *)
Class Filesystem (F S : Type) := {
  fs_open : F -> string -> Z -> Z -> M S (option (FileDescription F));
  fs_mkdir : F -> string -> Z -> M S (option (FileDescription F));
  fs_read : F -> Z -> Z -> Z -> Z -> M S Z;
  fs_write : F -> Z -> Z -> Z -> Z -> M S Z;
}.

Record MountPoint (F : Type) := mkMount { mp_name : string; mp_fs : option F }.
Arguments mkMount {F} _ _.
Arguments mp_name {F} _.
Arguments mp_fs {F} _.

(** [static mut MOUNT_POINTS], beside the state of the filesystems. *)
Record fstate (F S : Type) := mkF { f_mounts : list (MountPoint F); f_st : S }.
Arguments mkF {F S} _ _.
Arguments f_mounts {F S} _.
Arguments f_st {F S} _.

(** ** What the VFS uses of [str] *)

(** [s.chars().nth(0) == Some('/')]. *)
Definition starts_slash (s : string) : bool :=
  match s with
  | String c _ => bool_decide (c = slash)
  | EmptyString => false
  end.

(** [s.contains(p)]: [p] occurs somewhere in [s]. *)
Fixpoint str_contains (s p : string) : bool :=
  String.prefix p s ||
  match s with
  | EmptyString => false
  | String _ s' => str_contains s' p
  end.

Fixpoint str_drop (n : nat) (s : string) : string :=
  match n, s with
  | S n', String _ s' => str_drop n' s'
  | _, _ => s
  end.

(** The index [n] is the start of a character: the byte there is no
    continuation byte. *)
Definition char_boundary (s : string) (n : nat) : bool :=
  match str_drop n s with
  | EmptyString => Nat.eqb n (String.length s)
  | String c _ => let b := Z.of_nat (Ascii.nat_of_ascii c) in
                  negb ((128 <=? b) && (b <? 192)) || Nat.eqb n 0
  end.

(** [&s[n..]] panics off a character boundary. *)
Definition str_from {S} (s : string) (n : nat) : M S string :=
  if char_boundary s n then ret (str_drop n s) else throw Panicked.

Module vfs.
Section vfs.
Context {F S : Type} `{!Filesystem F S}.

Definition on_st {A} : M S A -> M (fstate F S) A :=
  zoom f_st (fun st s => mkF (f_mounts s) st).

Definition mp_new : MountPoint F := mkMount EmptyString None.

Definition mount (fs : F) (target : string) : M (fstate F S) bool :=
  if negb (starts_slash target) then ret false
  else
    let! mps := gets f_mounts in
    if existsb (fun mp => bool_decide (mp_name mp = target)) mps then ret false
    else
      do! modify (fun s => mkF (f_mounts s ++ [mkMount target (Some fs)]) (f_st s)) in
      ret true.

(** The loop of [get_mount_point]. *)
Fixpoint best_mount (path : string) (mps : list (MountPoint F)) (curr : option (MountPoint F))
    : option (MountPoint F) :=
  match mps with
  | [] => curr
  | mp :: mps' =>
      let curr' :=
        if str_contains path (mp_name mp) then
          match curr with
          | Some c => if (String.length (mp_name c) <? String.length (mp_name mp))%nat
                      then Some mp else curr
          | None => Some mp
          end
        else curr in
      best_mount path mps' curr'
  end.

Definition get_mount_point (path : string) : M (fstate F S) (option (MountPoint F)) :=
  gets (fun s => best_mount path (f_mounts s) None).

Definition open (path : string) (flags mode : Z) : M (fstate F S) (option (FileDescription F)) :=
  if negb (starts_slash path) then ret None
  else
    let! o := get_mount_point path in
    match o with
    | Some mp =>
        let! fs := expect (mp_fs mp) in
        let! rest := str_from path (String.length (mp_name mp)) in
        on_st (fs_open fs rest flags mode)
    | None => ret None
    end.

Definition mkdir (path : string) (mode : Z) : M (fstate F S) (option (FileDescription F)) :=
  let! o := get_mount_point path in
  match o with
  | Some mp =>
      let! fs := expect (mp_fs mp) in
      let! rest := str_from path (String.length (mp_name mp)) in
      on_st (fs_mkdir fs rest mode)
  | None => ret None
  end.

Definition read (fs : F) (file_index buffer cnt offset : Z) : M (fstate F S) Z :=
  on_st (fs_read fs file_index buffer cnt offset).

Definition write (fs : F) (file_index buffer cnt offset : Z) : M (fstate F S) Z :=
  on_st (fs_write fs file_index buffer cnt offset).

End vfs.
End vfs.

(** ** Lemmas *)

Section str_lemmas.
Implicit Types s p : string.

Lemma prefix_contains s p : String.prefix p s = true -> str_contains s p = true.
Proof. intros H. destruct s; cbn [str_contains]; by rewrite H. Qed.

Lemma prefix_split s : forall p,
  String.prefix p s = true -> s = (p +:+ str_drop (String.length p) s)%string.
Proof.
  induction s as [|c s IH]; intros [|d p]; simpl; try done.
  intros H. destruct (ascii_dec d c) as [->|]; [|done].
  apply IH in H. exact (f_equal (String c) H).
Qed.

End str_lemmas.

(** The mount table: absolute names, no name twice, a filesystem at each. *)
Record mounts_ok {F} (mps : list (MountPoint F)) : Prop := {
  mo_slash : Forall (fun mp => starts_slash (mp_name mp) = true) mps;
  mo_nodup : NoDup (mp_name <$> mps);
  mo_fs : Forall (fun mp => is_Some (mp_fs mp)) mps;
}.

Section vfs_lemmas.
Context {F S : Type} `{!Filesystem F S}.
Implicit Types (mps : list (MountPoint F)) (st : S).

Lemma existsb_name mps target :
  existsb (fun mp => bool_decide (mp_name mp = target)) mps = true <->
  target ∈ mp_name <$> mps.
Proof.
  rewrite existsb_exists, list_elem_of_fmap. split.
  - intros (mp & Hin & E%bool_decide_eq_true). exists mp. split; [done|]. by apply list_elem_of_In.
  - intros (mp & -> & Hin). exists mp. split; [by apply list_elem_of_In|].
    by apply bool_decide_eq_true.
Qed.

Lemma mount_ok fs target mps st :
  mounts_ok mps ->
  exists b mps', vfs.mount fs target (mkF mps st) = (Ret b, mkF mps' st) /\
    mounts_ok mps' /\
    (b = true <-> starts_slash target = true /\ target ∉ mp_name <$> mps) /\
    mps' = if b then mps ++ [mkMount target (Some fs)] else mps.
Proof.
  intros [H1 H2 H3]. unfold vfs.mount. destruct (starts_slash target) eqn:Hs; simpl.
  2:{ exists false, mps. split_and!; [done|done| |done]. split; [done|]. intros [??]; done || congruence. }
  unfold bind, gets. simpl.
  destruct (existsb _ mps) eqn:E.
  { apply existsb_name in E. exists false, mps. split_and!; [done|done| |done]. split; [done|]. intros [??]; done || congruence. }
  assert (Hn : target ∉ mp_name <$> mps).
  { intros Hin%existsb_name. by rewrite Hin in E. }
  exists true, (mps ++ [mkMount target (Some fs)]). repeat split; auto.
  - by apply Forall_app_2, Forall_cons_2.
  - rewrite fmap_app. apply list.NoDup_app. split; [done|]. split.
    + intros x Hx [->|[]%not_elem_of_nil]%elem_of_cons. done.
    + apply NoDup_singleton.
  - apply Forall_app_2; [done|]. apply Forall_cons_2; [by eexists | done].
Qed.

(** [curr] is the best of the mount points seen so far. *)
Definition best_of (path : string) (seen : list (MountPoint F)) (curr : option (MountPoint F)) : Prop :=
  match curr with
  | None => Forall (fun mp => str_contains path (mp_name mp) = false) seen
  | Some c => c ∈ seen /\ str_contains path (mp_name c) = true /\
      Forall (fun mp => str_contains path (mp_name mp) = true ->
        (String.length (mp_name mp) <= String.length (mp_name c))%nat) seen
  end.

Lemma best_mount_spec path mps : forall seen curr,
  best_of path seen curr -> best_of path (seen ++ mps) (vfs.best_mount path mps curr).
Proof.
  induction mps as [|mp mps IH]; intros seen curr H; simpl.
  { by rewrite app_nil_r. }
  replace (seen ++ mp :: mps) with ((seen ++ [mp]) ++ mps) by by rewrite <- app_assoc.
  apply IH. destruct (str_contains path (mp_name mp)) eqn:Hc.
  - destruct curr as [c|]; simpl in *.
    + destruct H as (Hin & Hcc & Hall).
      destruct (Nat.ltb_spec (String.length (mp_name c)) (String.length (mp_name mp))); simpl.
      * split; [apply elem_of_app; right; by left|]. split; [done|].
        apply Forall_app_2; [|by apply Forall_cons_2].
        eapply list.Forall_impl; [exact Hall|]. simpl. intros x Hx Hx'. specialize (Hx Hx'). lia.
      * split; [apply elem_of_app; by left|]. split; [done|].
        apply Forall_app_2; [done|]. apply Forall_cons_2; [by intros|done].
    + split; [apply elem_of_app; right; by left|]. split; [done|].
      apply Forall_app_2; [|by apply Forall_cons_2].
      eapply list.Forall_impl; [exact H|]. simpl. intros x Hx Hx'. by rewrite Hx in Hx'.
  - destruct curr as [c|]; simpl in *.
    + destruct H as (Hin & Hcc & Hall). split; [apply elem_of_app; by left|]. split; [done|].
      apply Forall_app_2; [done|]. apply Forall_cons_2; [by rewrite Hc|done].
    + apply Forall_app_2; [done|]. by apply Forall_cons_2.
Qed.

End vfs_lemmas.

(** ** Properties *)

(** Mount requests in sequence. *)
Fixpoint mount_all {F S} `{!Filesystem F S} (reqs : list (F * string)) : M (fstate F S) (list bool) :=
  match reqs with
  | [] => ret []
  | (fs, target) :: reqs' =>
      let! b := vfs.mount fs target in
      let! bs := mount_all reqs' in
      ret (b :: bs)
  end.

(**  Whatever is mounted, in any order, the mount table holds only absolute
    names, each once and with a filesystem, [mount] never panics and no request
    touches the filesystems' state. *)
Theorem mount_table_inv {F S} `{!Filesystem F S} (reqs : list (F * string)) st :
  total (mount_all reqs) (mkF [] st) (fun bs s =>
    mounts_ok (f_mounts s) /\ f_st s = st /\ length bs = length reqs).
Proof.
  assert (H : forall mps, mounts_ok mps ->
    total (mount_all reqs) (mkF mps st) (fun bs s =>
      mounts_ok (f_mounts s) /\ f_st s = st /\ length bs = length reqs)).
  { induction reqs as [|[fs t] reqs IH]; intros mps Hok; simpl; [done|].
    destruct (mount_ok fs t mps st Hok) as (b & mps' & He & Hok' & _).
    apply wp_bind. eapply wp_eq; [exact He|]. apply wp_bind.
    eapply wp_mono; [by apply IH| |done].
    intros bs s (?&?&?). apply wp_ret. simpl. auto. }
  apply H. split; constructor.
Qed.

(**  [get_mount_point] returns a mount point whose name occurs in the path
    and is at least as long as every other that does, and [None] only when none
    does. *)
Theorem get_mount_point_longest {F S} `{!Filesystem F S} path (s : fstate F S) :
  total (vfs.get_mount_point path) s (fun o s' => s' = s /\
    match o with
    | None => forall mp, mp ∈ f_mounts s -> str_contains path (mp_name mp) = false
    | Some c => c ∈ f_mounts s /\ str_contains path (mp_name c) = true /\
        forall mp, mp ∈ f_mounts s -> str_contains path (mp_name mp) = true ->
          (String.length (mp_name mp) <= String.length (mp_name c))%nat
    end).
Proof.
  pose proof (best_mount_spec path (f_mounts s) [] None ltac:(constructor)) as H.
  simpl in H. eapply wp_eq; [reflexivity|]. split; [done|].
  destruct (vfs.best_mount _ _ _) as [c|]; simpl in H.
  - destruct H as (?&?&Hall). rewrite list.Forall_forall in Hall. auto.
  - rewrite list.Forall_forall in H. auto.
Qed.

(**  When the selected mount point's name is a prefix of the path, [open]
    is the filesystem's [open] on the rest of the path. *)
Theorem open_dispatch {F S} `{!Filesystem F S} path flags mode mps (st : S) (mp : MountPoint F) fs :
  starts_slash path = true ->
  vfs.best_mount path mps None = Some mp -> mp_fs mp = Some fs ->
  String.prefix (mp_name mp) path = true ->
  char_boundary path (String.length (mp_name mp)) = true ->
  exists rest, path = (mp_name mp +:+ rest)%string /\
    vfs.open path flags mode (mkF mps st) =
      (let '(r, st') := fs_open fs rest flags mode st in (r, mkF mps st')).
Proof.
  intros Hs Hb Hfs Hp Hcb. exists (str_drop (String.length (mp_name mp)) path).
  split; [by apply prefix_split|].
  unfold vfs.open. rewrite Hs. simpl. unfold bind, vfs.get_mount_point, gets. simpl.
  rewrite Hb, Hfs. simpl. unfold str_from. rewrite Hcb. done.
Qed.

(** A filesystem that answers [open] with the path's length. *)
Definition len_fs : Filesystem Z unit := {|
  fs_open fs p flags mode := ret (Some (fd_new (Z.of_nat (String.length p)) flags fs));
  fs_mkdir fs p mode := ret None;
  fs_read fs i b c o := ret 0;
  fs_write fs i b c o := ret 0;
|}.

Lemma open_dispatch_witness :
  let _ := len_fs in
  exists rest, "/home/limine.cfg"%string = ("/" +:+ rest)%string /\
    vfs.open "/home/limine.cfg" 0 0 (mkF [mkMount "/"%string (Some 7)] tt) =
      (let '(r, st') := fs_open 7 rest 0 0 tt in (r, mkF [mkMount "/"%string (Some 7)] st')).
Proof.
  intros L. exact (@open_dispatch Z unit L "/home/limine.cfg" 0 0 [mkMount "/"%string (Some 7)] tt
    (mkMount "/"%string (Some 7)) 7 eq_refl eq_refl eq_refl eq_refl eq_refl).
Defined.

(**  A mount point is selected by a name that occurs anywhere in the path,
    not only at its start: with filesystems at [/] and [/mnt], opening
    [/home/mnt/x] goes to the second one, and with a path cut in the wrong
    place. *)
Theorem open_selects_by_substring {F S} `{!Filesystem F S} (a b : F) flags mode (st : S) :
  let mps := [mkMount "/"%string (Some a); mkMount "/mnt"%string (Some b)] in
  vfs.open "/home/mnt/x" flags mode (mkF mps st) =
    (let '(r, st') := fs_open b "e/mnt/x" flags mode st in (r, mkF mps st')).
Proof. reflexivity. Qed.
