(* ===== verification/Vmm.v ===== *)
(** * [mm/vmm.rs]: address spaces

    Four-level page tables in memory, walked and extended by
    [get_next_level]; [walk] is the translation they stand for. *)

From S2P Require Import Prelude Memory MathUtil Bitmap Pmm Vfs.

Definition KERNEL_BASE : Z := 0xffffffff80000000.

(** ** Flags: [bitflags] structs over [u64] *)

Module PageFlags.
Definition PRESENT : Z := Z.shiftl 1 0.
Definition WRITABLE : Z := Z.shiftl 1 1.
Definition USERMODE : Z := Z.shiftl 1 2.
Definition WT : Z := Z.shiftl 1 3.
Definition UNCACHEABLE : Z := Z.shiftl 1 4.
Definition MMAPED : Z := Z.shiftl 1 9.
Definition NX : Z := Z.shiftl 1 63.
End PageFlags.

Module MapProt.
Definition NONE : Z := 0x0.
Definition READ : Z := 0x1.
Definition WRITE : Z := 0x2.
Definition EXEC : Z := 0x4.
End MapProt.

Module MapFlags.
Definition SHARED : Z := 0x0001.
Definition PRIVATE : Z := 0x0002.
Definition FIXED : Z := 0x0010.
Definition ANONYMOUS : Z := 0x1000.
End MapFlags.

(** [impl From<MapProt> for PageFlags]; [remove] clears bits. *)
Definition from_prot (prot : Z) : Z :=
  let page_flags := PageFlags.NX in
  if contains prot MapProt.NONE then page_flags
  else
    let page_flags := if contains prot MapProt.WRITE
      then Z.lor page_flags PageFlags.WRITABLE else page_flags in
    let page_flags := if contains prot MapProt.READ
      then Z.lor page_flags PageFlags.USERMODE else page_flags in
    if contains prot MapProt.EXEC
      then Z.ldiff page_flags PageFlags.NX else page_flags.

(** ** [VirtAddr]: a transparent [u64] *)

Module VirtAddr.
Definition pml4 (v : Z) : Z := as_u u16 (Z.land (Z.shiftr v 39) 0x1ff).
Definition pdp (v : Z) : Z := as_u u16 (Z.land (Z.shiftr v 30) 0x1ff).
Definition pd (v : Z) : Z := as_u u16 (Z.land (Z.shiftr v 21) 0x1ff).
Definition pt (v : Z) : Z := as_u u16 (Z.land (Z.shiftr v 12) 0x1ff).
End VirtAddr.

(** ** [PageMapping]: a page table entry *)

Module PageMapping.
Definition phys_addr (e : Z) : Z := PhysAddr.remove_flags e.
Definition is_present (e : Z) : bool := negb (Z.land e PageFlags.PRESENT =? 0).
Definition is_writable (e : Z) : bool := negb (Z.land e PageFlags.WRITABLE =? 0).
Definition is_usermode (e : Z) : bool := negb (Z.land e PageFlags.USERMODE =? 0).
Definition is_uncacheable (e : Z) : bool := negb (Z.land e PageFlags.UNCACHEABLE =? 0).
Definition is_mmaped (e : Z) : bool := negb (Z.land e PageFlags.MMAPED =? 0).
Definition is_non_exec (e : Z) : bool := negb (Z.land e PageFlags.NX =? 0).
End PageMapping.

(** ** Ranges and address spaces; [F] is the type of filesystem references *)

Record VirtMemoryRange (F : Type) := mkRange {
  r_base : Z;
  r_length : Z;
  r_prot : Z;
  r_flags : Z;
  r_offset : Z;
  r_fd : option (FileDescription F);
}.
Arguments mkRange {F} _ _ _ _ _ _.
Arguments r_base {F} _.
Arguments r_length {F} _.
Arguments r_prot {F} _.
Arguments r_flags {F} _.
Arguments r_offset {F} _.
Arguments r_fd {F} _.

Record VirtualMemManager (F : Type) := mkVmm {
  pagemap : Z;
  ranges : list (VirtMemoryRange F);
}.
Arguments mkVmm {F} _ _.
Arguments pagemap {F} _.
Arguments ranges {F} _.

(** The state: memory and the page allocator, the kernel's address space
    ([VIRTUAL_MEMORY_MANAGER]), [cr3], and the addresses flushed by [invlpg],
    the latest first. *)
Record vstate (F : Type) := mkVS {
  v_p : pstate;
  v_kernel : option (VirtualMemManager F);
  v_cr3 : Z;
  v_flushed : list Z;
}.
Arguments mkVS {F} _ _ _ _.
Arguments v_p {F} _.
Arguments v_kernel {F} _.
Arguments v_cr3 {F} _.
Arguments v_flushed {F} _.

Module vmm.

(** [get_next_level]: the table behind entry [index] of the table [curr], made
    on demand. *)
Definition get_next_level (curr index : Z) : M pstate Z :=
  let level := PhysAddr.higher_half curr in
  let! e := on_mem (load64 (level + 8 * index)) in
  if Z.land e 1 =? 0 then
    let! r := pmm.get_calloc 1 in
    let! entry := expect r in
    let flags := Z.lor (Z.lor PageFlags.PRESENT PageFlags.WRITABLE) PageFlags.USERMODE in
    do! on_mem (store64 (level + 8 * index) (Z.lor entry flags)) in
    ret entry
  else
    let! e := on_mem (load64 (level + 8 * index)) in
    ret (PhysAddr.remove_flags e).

(** The three levels above the page table, shared by [map_page] and
    [get_mapping]. *)
Definition page_table (root virtual_addr : Z) : M pstate Z :=
  let pml4e := VirtAddr.pml4 virtual_addr in
  let pdpe := VirtAddr.pdp virtual_addr in
  let pde := VirtAddr.pd virtual_addr in
  let! pdp := get_next_level root pml4e in
  let! pd := get_next_level pdp pdpe in
  get_next_level pd pde.

Section vmm.
Context {F : Type}.

Definition on_p {A} : M pstate A -> M (vstate F) A :=
  zoom v_p (fun p s => mkVS p (v_kernel s) (v_cr3 s) (v_flushed s)).

Definition invlpg (virtual_addr : Z) : M (vstate F) unit :=
  modify (fun s => mkVS (v_p s) (v_kernel s) (v_cr3 s) (virtual_addr :: v_flushed s)).

Definition switch_pagemap (self : VirtualMemManager F) : M (vstate F) unit :=
  modify (fun s => mkVS (v_p s) (v_kernel s) (pagemap self) (v_flushed s)).

Definition map_page (self : VirtualMemManager F) (virtual_addr phys_addr flags : Z)
    (flush_prev : bool) : M (vstate F) unit :=
  do! (if flush_prev then invlpg virtual_addr else ret tt) in
  on_p (
    let pte := VirtAddr.pt virtual_addr in
    let! table := page_table (pagemap self) virtual_addr in
    on_mem (store64 (table + 8 * pte) (Z.lor phys_addr flags))).

Definition get_mapping (self : VirtualMemManager F) (virtual_addr : Z) : M (vstate F) Z :=
  on_p (
    let pte := VirtAddr.pt virtual_addr in
    let! table := page_table (pagemap self) virtual_addr in
    on_mem (load64 (table + 8 * pte))).

(** [vmm::get()]. *)
Definition get : M (vstate F) (VirtualMemManager F) :=
  let! o := gets v_kernel in expect o.

(** [VirtualMemManager::new]. *)
Definition new (usermode : bool) : M (vstate F) (VirtualMemManager F) :=
  if negb usermode then ret (mkVmm 0 [])
  else
    let! r := on_p (pmm.get_calloc 1) in
    let! pml4 := expect r in
    let pml4_ptr := PhysAddr.higher_half pml4 in
    let! kernel := get in
    let kernel_ptr := pagemap kernel in
    let! e := on_p (on_mem (load64 (kernel_ptr + 8 * 256))) in
    do! on_p (on_mem (store64 (pml4_ptr + 8 * 256) e)) in
    let! e := on_p (on_mem (load64 (kernel_ptr + 8 * 511))) in
    do! on_p (on_mem (store64 (pml4_ptr + 8 * 511) e)) in
    ret (mkVmm pml4 []).

(** [vmm::init]: the kernel's address space is the one the bootloader left in
    [cr3]. *)
Definition init : M (vstate F) unit :=
  let! pml4 := gets v_cr3 in
  let! kernel_vmm := new false in
  modify (fun s => mkVS (v_p s) (Some (mkVmm pml4 (ranges kernel_vmm))) (v_cr3 s) (v_flushed s)).

Definition range_start (r : VirtMemoryRange F) : Z := r_base r.
Definition range_end {S} (r : VirtMemoryRange F) : M S Z := uadd u64 (r_base r) (r_length r).
Definition is_anon_map (r : VirtMemoryRange F) : bool := contains (r_flags r) MapFlags.ANONYMOUS.
Definition is_private_map (r : VirtMemoryRange F) : bool := contains (r_flags r) MapFlags.PRIVATE.
Definition is_shared_map (r : VirtMemoryRange F) : bool := contains (r_flags r) MapFlags.SHARED.

(** [get_range]: the loop over [self.ranges]. *)
Fixpoint get_range (rs : list (VirtMemoryRange F)) (address : Z)
    : M (vstate F) (option (VirtMemoryRange F)) :=
  match rs with
  | [] => ret None
  | entry :: rs' =>
      if range_start entry <? address then
        let! e := range_end entry in
        if address <? e then ret (Some entry) else get_range rs' address
      else get_range rs' address
  end.

(** [get_free_range] is [todo!()]. *)
Definition get_free_range (self : VirtualMemManager F) (length : Z) : M (vstate F) Z :=
  throw Todo.

(** The loop of [mmap] over the existing ranges: [||] and [&&] are lazy, so
    [end()] is computed only when the test before it asks for it. *)
Fixpoint fit_range (self : VirtualMemManager F) (rs : list (VirtMemoryRange F))
    (new_range_start new_range_end length range_address : Z) : M (vstate F) Z :=
  match rs with
  | [] => ret range_address
  | entry :: rs' =>
      let! c1 := (if range_start entry <? new_range_start then
                    let! e := range_end entry in ret (new_range_start <? e)
                  else ret false) in
      let! c2 := (if c1 : bool then ret true
                  else if range_start entry <? new_range_end then
                    let! e := range_end entry in ret (new_range_end <? e)
                  else ret false) in
      let! a := (if c2 : bool then get_free_range self length else ret range_address) in
      fit_range self rs' new_range_start new_range_end length a
  end.

(** [for page in (start..end).step_by(PAGE_SIZE)]: [n] pages from [page]. *)
Fixpoint map_pages (self : VirtualMemManager F) (n : nat) (page flags : Z) : M (vstate F) unit :=
  match n with
  | O => ret tt
  | S n' =>
      do! map_page self page 0 flags true in
      map_pages self n' (page + PAGE_SIZE) flags
  end.

(** [mmap]: gives the address space with its new list of ranges. *)
Definition mmap (self : VirtualMemManager F) (address : option Z) (length prot flags : Z)
    (fd : option (FileDescription F)) (offset : Z) : M (vstate F) (VirtualMemManager F) :=
  if bool_decide (address = None) && contains flags MapFlags.FIXED then ret self
  else
    let! range_address :=
      match address with
      | Some address_value =>
          let! new_range_end := uadd u64 address_value length in
          if negb (contains flags MapFlags.FIXED) then
            fit_range self (ranges self) address_value new_range_end length address_value
          else ret address_value
      | None => get_free_range self length
      end in
    let! new_range_end := uadd u64 range_address length in
    let pages := cdiv (new_range_end - range_address) PAGE_SIZE in
    do! map_pages self (Z.to_nat pages) range_address
          (Z.lor (from_prot prot) PageFlags.MMAPED) in
    ret (mkVmm (pagemap self) (ranges self ++
           [mkRange range_address length prot flags offset fd])).

End vmm.
End vmm.

(** ** Translation

    [tbl m root p]: the table reached from [root] by the indices [p]; [walk]:
    the entry for a virtual address, 0 when a table on the way is missing. *)

Definition entry_present (e : Z) : bool := negb (Z.land e 1 =? 0).

Fixpoint tbl (m : mem) (a : Z) (p : list Z) : option Z :=
  match p with
  | [] => Some a
  | i :: p' =>
      let e := rd64 m (a + 8 * i) in
      if entry_present e then tbl m (PhysAddr.remove_flags e) p' else None
  end.

Definition path (v : Z) : list Z := [VirtAddr.pml4 v; VirtAddr.pdp v; VirtAddr.pd v].

Definition walk (m : mem) (root v : Z) : Z :=
  match tbl m root (path v) with
  | Some t => rd64 m (t + 8 * VirtAddr.pt v)
  | None => 0
  end.

(** The page of a virtual address: bits 12 to 47. *)
Definition vpn (v : Z) : Z := (v / 2 ^ 12) mod 2 ^ 36.

Definition idx_ok (i : Z) : Prop := 0 <= i < 512.

Section walk_lemmas.
Implicit Types m : mem.

Lemma index_eq v k : as_u u16 (Z.land (Z.shiftr v k) 0x1ff) = Z.shiftr v k mod 512.
Proof.
  change 0x1ff with (2 ^ 9 - 1). rewrite land_ones_mod by lia. change (2 ^ 9) with 512.
  unfold as_u, u16. apply Z.mod_small. pose proof (Z.mod_pos_bound (Z.shiftr v k) 512). lia.
Qed.

Lemma index_div v k : 0 <= k -> as_u u16 (Z.land (Z.shiftr v k) 0x1ff) = (v / 2 ^ k) mod 512.
Proof. intros. by rewrite index_eq, Z.shiftr_div_pow2. Qed.

Lemma path_ok v : Forall idx_ok (path v).
Proof.
  assert (H : forall k, idx_ok (as_u u16 (Z.land (Z.shiftr v k) 0x1ff))).
  { intros k. rewrite index_eq. apply Z.mod_pos_bound. lia. }
  unfold path, VirtAddr.pml4, VirtAddr.pdp, VirtAddr.pd. auto using Forall_cons, Forall_nil.
Qed.

Lemma pt_ok v : idx_ok (VirtAddr.pt v).
Proof. unfold VirtAddr.pt. rewrite index_eq. apply Z.mod_pos_bound. lia. Qed.

(** The four indices of an address determine its page, and conversely. *)
Lemma vpn_indices v :
  vpn v = ((VirtAddr.pml4 v * 512 + VirtAddr.pdp v) * 512 + VirtAddr.pd v) * 512 + VirtAddr.pt v.
Proof.
  unfold vpn, VirtAddr.pml4, VirtAddr.pdp, VirtAddr.pd, VirtAddr.pt.
  rewrite !index_div by lia.
  replace (2 ^ 39) with (2 ^ 12 * 512 * 512 * 512) by reflexivity.
  replace (2 ^ 30) with (2 ^ 12 * 512 * 512) by reflexivity.
  replace (2 ^ 21) with (2 ^ 12 * 512) by reflexivity.
  rewrite <- !Z.div_div by lia. set (w := v / 2 ^ 12).
  change (2 ^ 36) with (512 * (512 * (512 * 512))).
  rewrite !Z.rem_mul_r by lia. lia.
Qed.

Lemma same_page_iff v v' :
  vpn v = vpn v' <-> path v = path v' /\ VirtAddr.pt v = VirtAddr.pt v'.
Proof.
  pose proof (path_ok v) as Hv. pose proof (path_ok v') as Hv'.
  pose proof (pt_ok v). pose proof (pt_ok v'). unfold path, idx_ok in *.
  repeat match goal with H : Forall _ (_ :: _) |- _ => apply list.Forall_cons in H as [? ?] end.
  rewrite !vpn_indices. split.
  - intros E. assert (VirtAddr.pml4 v = VirtAddr.pml4 v') by lia.
    assert (VirtAddr.pdp v = VirtAddr.pdp v') by lia.
    assert (VirtAddr.pd v = VirtAddr.pd v') by lia.
    split; [congruence | lia].
  - intros [[= -> -> ->] ->]. done.
Qed.

Lemma tbl_app m a p q :
  tbl m a (p ++ q) = match tbl m a p with Some t => tbl m t q | None => None end.
Proof.
  revert a. induction p as [|i p IH]; intros a; simpl; [done|].
  destruct (entry_present _); [apply IH | done].
Qed.

Lemma tbl_snoc m a p i t :
  tbl m a p = Some t ->
  tbl m a (p ++ [i]) =
    if entry_present (rd64 m (t + 8 * i)) then Some (PhysAddr.remove_flags (rd64 m (t + 8 * i)))
    else None.
Proof. intros H. rewrite tbl_app, H. done. Qed.

(** A walk depends only on the entries it reads. *)
Lemma tbl_agree m m' a q :
  (forall p i r t, q = p ++ i :: r -> tbl m a p = Some t ->
     rd64 m' (t + 8 * i) = rd64 m (t + 8 * i)) ->
  tbl m' a q = tbl m a q.
Proof.
  revert a. induction q as [|i q IH]; intros a H; simpl; [done|].
  rewrite (H [] i q a) by done. destruct (entry_present (rd64 m (a + 8 * i))) eqn:E; [|done].
  apply IH. intros p j r t -> Ht. apply (H (i :: p) j r t); [done|]. simpl. by rewrite E.
Qed.

Lemma entry_present_flags a fl : Z.testbit fl 0 = true -> entry_present (Z.lor a fl) = true.
Proof.
  intros H. unfold entry_present. change 1 with (Z.shiftl 1 0).
  rewrite land_bit_testbit by lia. by rewrite Z.lor_spec, H, orb_true_r.
Qed.

Lemma entry_present_0 : entry_present 0 = false.
Proof. reflexivity. Qed.

End walk_lemmas.

(** ** Well-formed page tables

    Tables are pages that are not free, clear of the allocator's bitmap and
    reachable through the direct map; no table is reached in two ways. *)

Record table_ok (m : mem) (bm : Bitmap) (t : Z) : Prop := {
  to_align : t mod PAGE_SIZE = 0;
  to_range : 0 <= t /\ t + PAGE_SIZE <= 2 ^ 47;
  to_used : t / PAGE_SIZE < frames bm -> test m bm (t / PAGE_SIZE) = false;
  to_off : t + PAGE_SIZE <= bm_base bm \/ bm_base bm + bm_len bm <= t;
}.

Record pt_inv (m : mem) (bm : Bitmap) (root : Z) : Prop := {
  pt_tables : forall p t, (length p <= 3)%nat -> Forall idx_ok p ->
    tbl m root p = Some t -> table_ok m bm t;
  pt_inj : forall p q t, (length p <= 3)%nat -> (length q <= 3)%nat ->
    Forall idx_ok p -> Forall idx_ok q ->
    tbl m root p = Some t -> tbl m root q = Some t -> p = q;
}.

Section pt_lemmas.
Implicit Types (m : mem) (bm : Bitmap).

Lemma aligned_apart a b :
  a mod PAGE_SIZE = 0 -> b mod PAGE_SIZE = 0 -> a <> b ->
  a + PAGE_SIZE <= b \/ b + PAGE_SIZE <= a.
Proof.
  unfold PAGE_SIZE. intros Ha Hb Hne. pose proof (Z.div_mod a 4096).
  pose proof (Z.div_mod b 4096). lia.
Qed.

(** A write to one entry of a table leaves the other entries and the other
    tables alone. *)
Lemma rd64_slot_ne m t i u j v :
  t mod PAGE_SIZE = 0 -> u mod PAGE_SIZE = 0 -> idx_ok i -> idx_ok j ->
  (u, j) <> (t, i) -> rd64 (wr64 m (t + 8 * i) v) (u + 8 * j) = rd64 m (u + 8 * j).
Proof.
  intros Ht Hu Hi Hj Hne. apply rdn_wrn_ne. unfold idx_ok in *.
  destruct (decide (u = t)) as [->|E].
  - assert (i <> j) by congruence. simpl. lia.
  - destruct (aligned_apart t u Ht Hu) as [|]; [congruence| |]; unfold PAGE_SIZE in *; simpl; lia.
Qed.

Lemma table_ptr m bm t i :
  table_ok m bm t -> idx_ok i ->
  phys_of (PhysAddr.higher_half t + 8 * i) = t + 8 * i /\ phys_of (t + 8 * i) = t + 8 * i.
Proof.
  intros [? [? ?] ? ?] Hi. unfold idx_ok, PAGE_SIZE in *. split.
  - rewrite phys_of_add; [|lia|]; rewrite phys_higher_half by lia; lia.
  - apply phys_of_small. lia.
Qed.

(** A frame that was just taken is no table. *)
Lemma taken_not_table m bm n t :
  pmm_inv m bm -> table_ok m bm t ->
  0 <= n -> n + 1 <= frames bm -> test m bm n = true -> t <> n * PAGE_SIZE.
Proof.
  intros _ Ht Hn Hle Hf ->. pose proof (to_used _ _ _ Ht) as Hu.
  unfold PAGE_SIZE in *. rewrite Z.div_mul in Hu by lia. rewrite Hu in Hf by lia. done.
Qed.

(** Taking a frame leaves every table as it was. *)
Lemma taken_table_agree m m' bm n t :
  taken m m' bm n 1 -> table_ok m bm t -> t <> n * PAGE_SIZE ->
  agree m m' t PAGE_SIZE.
Proof.
  intros Ht [Ha [? ?] ? Hoff] Hne x Hx. apply (tk_frame _ _ _ _ _ Ht).
  - assert (n * PAGE_SIZE mod PAGE_SIZE = 0) by (apply Z.mod_mul; unfold PAGE_SIZE; lia).
    destruct (aligned_apart t (n * PAGE_SIZE)); auto; unfold PAGE_SIZE in *; lia.
  - lia.
Qed.

Lemma taken_table_ok m m' bm n t :
  taken m m' bm n 1 -> pmm_inv m bm -> table_ok m bm t -> table_ok m' bm t.
Proof.
  intros Ht Hinv [H1 H2 H3 H4]. split; auto. intros Hlt.
  assert (0 <= t / PAGE_SIZE) by (apply Z.div_pos; unfold PAGE_SIZE; lia).
  rewrite (tk_bits _ _ _ _ _ Ht) by lia. case_decide; [done|]. auto.
Qed.

Lemma entry_agree m m' t i : agree m m' t PAGE_SIZE -> idx_ok i ->
  rd64 m' (t + 8 * i) = rd64 m (t + 8 * i).
Proof.
  intros H Hi. apply rdn_agree. intros x Hx. apply H. unfold idx_ok, PAGE_SIZE in *. simpl in Hx. lia.
Qed.

Lemma new_table_zero m m' bm n i :
  taken m m' bm n 1 -> idx_ok i -> rd64 m' (n * PAGE_SIZE + 8 * i) = 0.
Proof.
  intros Ht Hi. apply rdn_zero. intros x Hx. apply (tk_zero _ _ _ _ _ Ht).
  unfold idx_ok, PAGE_SIZE in *. simpl in Hx. lia.
Qed.

End pt_lemmas.

(** ** Linking a new table *)

(** The bits of an entry that points to a table. *)
Definition LINK : Z := Z.lor (Z.lor PageFlags.PRESENT PageFlags.WRITABLE) PageFlags.USERMODE.

Section link.
Context (m m1 : mem) (bm : Bitmap) (root : Z) (p : list Z) (i t n : Z).
Context (Hpmm : pmm_inv m bm) (Hpt : pt_inv m bm root).
Context (Hlen : (length p <= 2)%nat) (Hp : Forall idx_ok p) (Hi : idx_ok i).
Context (Htbl : tbl m root p = Some t) (Habs : entry_present (rd64 m (t + 8 * i)) = false).
Context (Hn : 0 <= n) (Hnf : n + 1 <= frames bm) (Hfree : test m bm n = true).
Context (Ht : taken m m1 bm n 1).

Let new := n * PAGE_SIZE.
Let m2 := wr64 m1 (t + 8 * i) (Z.lor new LINK).

Lemma link_tok : table_ok m bm t.
Proof. apply (pt_tables _ _ _ Hpt p t); [lia|done..]. Qed.

Lemma link_new_range : 0 <= new /\ new + PAGE_SIZE <= 2 ^ 47.
Proof. pose proof (pi_addr _ _ Hpmm). unfold new, PAGE_SIZE in *. lia. Qed.

Lemma link_new_aligned : new mod PAGE_SIZE = 0.
Proof. apply Z.mod_mul. unfold PAGE_SIZE. lia. Qed.

Lemma link_ne u : table_ok m bm u -> u <> new.
Proof. intros Hu. by eapply taken_not_table. Qed.

Lemma link_entry_range : 0 <= Z.lor new LINK < 2 ^ 64.
Proof.
  pose proof link_new_range. unfold new, PAGE_SIZE in *. change LINK with 7.
  change 4096 with (2 ^ 12). rewrite lor_mul_pow2_small by lia. lia.
Qed.

(** Entries of old tables other than the linked one keep their value. *)
Lemma link_old_entry u j :
  table_ok m bm u -> idx_ok j -> (u, j) <> (t, i) ->
  rd64 m2 (u + 8 * j) = rd64 m (u + 8 * j).
Proof.
  intros Hu Hj Hne. unfold m2. rewrite rd64_slot_ne; auto; [|apply link_tok|apply Hu].
  apply entry_agree; [|done]. eapply taken_table_agree; eauto. by apply link_ne.
Qed.

Lemma link_entry : rd64 m2 (t + 8 * i) = Z.lor new LINK.
Proof. apply rd64_wr64_eq, link_entry_range. Qed.

Lemma link_new_entry j : idx_ok j -> rd64 m2 (new + 8 * j) = 0.
Proof.
  intros Hj. unfold m2. rewrite rd64_slot_ne; auto.
  - by eapply new_table_zero.
  - apply link_tok.
  - apply link_new_aligned.
  - intros [= E _]. symmetry in E. revert E. apply link_ne, link_tok.
Qed.

(** Paths that do not go through the new link. *)
Lemma link_tbl_other q :
  (length q <= 4)%nat -> Forall idx_ok q -> ~ (p ++ [i]) `prefix_of` q ->
  tbl m2 root q = tbl m root q.
Proof.
  intros Hl Hq Hnp. apply tbl_agree. intros p' j r u -> Hu.
  apply list.Forall_app in Hq as [Hp' [Hj Hr]%list.Forall_cons].
  rewrite length_app in Hl. simpl in Hl.
  apply link_old_entry; [|done|].
  - apply (pt_tables _ _ _ Hpt p' u); [lia|done..].
  - intros [= -> ->]. apply Hnp.
    assert (p' = p) as -> by (apply (pt_inj _ _ _ Hpt p' p t); [lia|lia|done..]).
    exists r. by rewrite <- app_assoc.
Qed.

(** Paths through the new link end in the new table. *)
Lemma link_tbl_through r :
  Forall idx_ok r -> tbl m2 root (p ++ i :: r) = match r with [] => Some new | _ => None end.
Proof.
  intros Hr. replace (p ++ i :: r) with ((p ++ [i]) ++ r) by by rewrite <- app_assoc.
  rewrite tbl_app, (tbl_snoc m2 root p i t).
  2:{ rewrite link_tbl_other; [done|lia|done|]. intros [k Hk].
      apply (f_equal length) in Hk. rewrite !length_app in Hk. simpl in Hk. lia. }
  rewrite link_entry, entry_present_flags by done.
  rewrite remove_flags_entry; [|pose proof link_new_range; unfold PAGE_SIZE in *; lia|apply link_new_aligned|done].
  destruct r as [|j r]; [done|]. apply list.Forall_cons in Hr as [Hj _].
  simpl. by rewrite link_new_entry.
Qed.

Lemma link_agree_storage : agree m1 m2 (bm_base bm) (bm_len bm).
Proof.
  intros x Hx. unfold m2. apply rd8_wrn_frame. pose proof (to_off _ _ _ link_tok).
  unfold idx_ok, PAGE_SIZE in *. simpl. lia.
Qed.

Lemma link_pmm : pmm_inv m2 bm.
Proof.
  eapply pmm_inv_agree; [apply link_agree_storage|]. by eapply taken_inv.
Qed.

Lemma link_test q : 0 <= q < frames bm -> test m2 bm q = if decide (q = n) then false else test m bm q.
Proof.
  intros Hq. rewrite (test_agree m1); [|apply Hpmm|done|apply link_agree_storage].
  rewrite (tk_bits _ _ _ _ _ Ht) by done. repeat case_decide; done || lia.
Qed.

Lemma link_table_ok u : table_ok m bm u -> table_ok m2 bm u.
Proof.
  intros [H1 H2 H3 H4]. split; auto. intros Hlt.
  assert (0 <= u / PAGE_SIZE) by (apply Z.div_pos; unfold PAGE_SIZE; lia).
  rewrite link_test by lia. case_decide; auto.
Qed.

Lemma link_new_ok : table_ok m2 bm new.
Proof.
  pose proof link_new_range. split; [apply link_new_aligned|done| |].
  - intros _. unfold new, PAGE_SIZE. rewrite Z.div_mul by lia.
    rewrite link_test by lia. by rewrite decide_True.
  - pose proof (pi_own _ _ Hpmm n ltac:(lia) Hfree). unfold new, PAGE_SIZE in *. lia.
Qed.

Lemma link_tbl q u :
  (length q <= 3)%nat -> Forall idx_ok q -> tbl m2 root q = Some u ->
  q = p ++ [i] /\ u = new \/ tbl m root q = Some u.
Proof.
  intros Hl Hq Hu. destruct (decide ((p ++ [i]) `prefix_of` q)) as [[r ->]|Hnp].
  - rewrite <- app_assoc in *. simpl in *.
    apply list.Forall_app in Hq as [_ [_ Hr]%list.Forall_cons].
    rewrite link_tbl_through in Hu by done.
    destruct r; [|done]. left. split; congruence.
  - right. rewrite link_tbl_other in Hu; [done|lia|done..].
Qed.

Lemma link_pt : pt_inv m2 bm root.
Proof.
  split.
  - intros q u Hl Hq Hu. destruct (link_tbl q u Hl Hq Hu) as [[-> ->]|Hu'].
    + apply link_new_ok.
    + apply link_table_ok. by eapply (pt_tables _ _ _ Hpt).
  - intros q q' u Hl Hl' Hq Hq' Hu Hu'.
    pose proof (link_tbl q u Hl Hq Hu) as [[-> Eu]|E];
      pose proof (link_tbl q' u Hl' Hq' Hu') as [[-> Eu']|E'].
    + done.
    + exfalso. apply (link_ne u); [|done]. by apply (pt_tables _ _ _ Hpt q' u).
    + exfalso. apply (link_ne u); [|done]. by apply (pt_tables _ _ _ Hpt q u).
    + by eapply (pt_inj _ _ _ Hpt).
Qed.

Lemma link_walk v : walk m2 root v = walk m root v.
Proof.
  unfold walk. pose proof (path_ok v) as Hv. pose proof (pt_ok v).
  destruct (decide ((p ++ [i]) `prefix_of` path v)) as [[r Hr]|Hnp].
  - rewrite Hr in *. rewrite <- app_assoc in *. simpl in *.
    assert (tbl m root (p ++ i :: r) = None) as ->.
    { rewrite tbl_app, Htbl. simpl. by rewrite Habs. }
    apply list.Forall_app in Hv as [_ [_ Hv]%list.Forall_cons].
    rewrite link_tbl_through by done. destruct r; [|done]. by apply link_new_entry.
  - rewrite link_tbl_other; auto. destruct (tbl m root (path v)) as [u|] eqn:E; [|done].
    apply link_old_entry; [|done|].
    { apply (pt_tables _ _ _ Hpt (path v) u); [simpl; lia|done..]. }
    intros [= -> _]. assert (path v = p) as Heq.
    { apply (pt_inj _ _ _ Hpt (path v) p t); [simpl; lia|lia|done..]. }
    rewrite <- Heq in Hlen. simpl in Hlen. lia.
Qed.

Lemma link_grows q u :
  (length q <= 3)%nat -> Forall idx_ok q -> tbl m root q = Some u -> tbl m2 root q = Some u.
Proof.
  intros Hl Hq Hu. rewrite link_tbl_other; [done|lia|done|]. intros [r ->].
  rewrite <- app_assoc in Hu. simpl in Hu. rewrite tbl_app, Htbl in Hu. simpl in Hu.
  by rewrite Habs in Hu.
Qed.

Lemma link_free q : 0 <= q < frames bm -> test m2 bm q = true -> test m bm q = true.
Proof. intros Hq. rewrite link_test by done. by case_decide. Qed.

(** What was in use and is no table of this address space is untouched. *)
Lemma link_frame x :
  ~ (bm_base bm <= x < bm_base bm + bm_len bm) ->
  (0 <= x / PAGE_SIZE < frames bm -> test m bm (x / PAGE_SIZE) = false) ->
  ~ (t <= x < t + PAGE_SIZE) -> rd8 m2 x = rd8 m x.
Proof.
  intros Hx Hu Hnt. unfold m2. rewrite rd8_wrn_frame.
  - apply (tk_frame _ _ _ _ _ Ht); [|done]. intros Hin.
    assert (x / PAGE_SIZE = n) as En.
    { symmetry. apply Z.div_unique with (r := x - n * PAGE_SIZE); unfold PAGE_SIZE in *; lia. }
    rewrite En in Hu. rewrite Hu in Hfree by lia. done.
  - unfold idx_ok, PAGE_SIZE in *. simpl. lia.
Qed.

End link.

(** ** Extending the tables *)

(** The number of free frames. *)
Definition free_count (m : mem) (bm : Bitmap) : nat :=
  length (filter (fun q => test m bm q = true) (seqZ 0 (frames bm))).

(** [m'] has the translations of [m], perhaps with more (empty) tables, taken
    from at most [k] free frames. *)
Record extends (m m' : mem) (bm : Bitmap) (root : Z) (k : nat) : Prop := {
  ex_pmm : pmm_inv m' bm;
  ex_pt : pt_inv m' bm root;
  ex_walk : forall v, walk m' root v = walk m root v;
  ex_tbl : forall q u, (length q <= 3)%nat -> Forall idx_ok q ->
    tbl m root q = Some u -> tbl m' root q = Some u;
  ex_new : forall q u, (length q <= 3)%nat -> Forall idx_ok q ->
    tbl m' root q = Some u ->
    tbl m root q = Some u \/
    (exists n, u = n * PAGE_SIZE /\ 0 <= n < frames bm /\ test m bm n = true);
  ex_free : forall q, 0 <= q < frames bm -> test m' bm q = true -> test m bm q = true;
  ex_count : (free_count m bm <= free_count m' bm + k)%nat;
  ex_frame : forall x,
    ~ (bm_base bm <= x < bm_base bm + bm_len bm) ->
    (0 <= x / PAGE_SIZE < frames bm -> test m bm (x / PAGE_SIZE) = false) ->
    (forall q u, (length q <= 3)%nat -> Forall idx_ok q -> tbl m root q = Some u ->
       ~ (u <= x < u + PAGE_SIZE)) ->
    rd8 m' x = rd8 m x;
}.

Section extends.
Implicit Types (m : mem) (bm : Bitmap).

Lemma free_count_pos m bm n :
  0 <= n < frames bm -> test m bm n = true -> (1 <= free_count m bm)%nat.
Proof.
  intros Hn Ht. unfold free_count.
  destruct (filter _ _) eqn:E; simpl; [|lia].
  assert (n ∈ @nil Z) as Hin; [|by apply not_elem_of_nil in Hin].
  rewrite <- E. apply list_elem_of_filter. split; [done|]. apply elem_of_seqZ. lia.
Qed.

Lemma no_fit_count m bm :
  pmm_inv m bm -> first_fit (test m bm) (frames bm) 1 = None -> free_count m bm = 0%nat.
Proof.
  intros Hi Hn. unfold free_count.
  destruct (filter _ _) as [|q l] eqn:E; [done|exfalso].
  assert (q ∈ filter (fun q => test m bm q = true) (seqZ 0 (frames bm))) as Hq.
  { rewrite E. by left. }
  apply list_elem_of_filter in Hq as [Hq Hr]. apply elem_of_seqZ in Hr.
  assert (run_free (test m bm) q 1 = true) as Hrun.
  { apply run_free_iff. intros j Hj. by replace j with q by lia. }
  rewrite (first_fit_None_inv _ _ _ q Hn) in Hrun by lia. done.
Qed.

Lemma extends_refl m bm root : pmm_inv m bm -> pt_inv m bm root -> extends m m bm root 0.
Proof. intros. split; auto; lia. Qed.

Lemma extends_trans m1 m2 m3 bm root k k' :
  extends m1 m2 bm root k -> extends m2 m3 bm root k' -> extends m1 m3 bm root (k + k').
Proof.
  intros A B. split; try apply B.
  - intros v. rewrite (ex_walk _ _ _ _ _ B). apply A.
  - intros q u ? ? ?. apply B, A; done.
  - intros q u Hl Hq H. destruct (ex_new _ _ _ _ _ B q u Hl Hq H) as [H'|(n & -> & Hn & Ht)].
    + by apply A.
    + right. exists n. split_and!; try done; try lia. by apply A.
  - intros q ? ?. by apply A, B.
  - pose proof (ex_count _ _ _ _ _ A). pose proof (ex_count _ _ _ _ _ B). lia.
  - intros x Hs Hf Ht. rewrite (ex_frame _ _ _ _ _ B); [by apply A|done| |].
    + intros Hx. specialize (Hf Hx). destruct (test m2 bm _) eqn:E; [|done].
      apply (ex_free _ _ _ _ _ A) in E; [congruence|done].
    + intros q u Hl Hq H. destruct (ex_new _ _ _ _ _ A q u Hl Hq H) as [H'|(n & -> & Hn & Htst)].
      * by eapply Ht.
      * intros Hin. assert (x / PAGE_SIZE = n) as En.
        { symmetry. apply Z.div_unique with (r := x - n * PAGE_SIZE); unfold PAGE_SIZE in *; lia. }
        rewrite En in Hf. rewrite Hf in Htst by lia. done.
Qed.

Lemma extends_weaken m m' bm root k k' :
  (k <= k')%nat -> extends m m' bm root k -> extends m m' bm root k'.
Proof. intros Hk H. pose proof (ex_count _ _ _ _ _ H). destruct H. split; auto. lia. Qed.

Lemma link_extends m m1 bm root p i t n :
  pmm_inv m bm -> pt_inv m bm root -> (length p <= 2)%nat -> Forall idx_ok p -> idx_ok i ->
  tbl m root p = Some t -> entry_present (rd64 m (t + 8 * i)) = false ->
  0 <= n -> n + 1 <= frames bm -> test m bm n = true -> taken m m1 bm n 1 ->
  let m2 := wr64 m1 (t + 8 * i) (Z.lor (n * PAGE_SIZE) LINK) in
  extends m m2 bm root 1 /\ tbl m2 root (p ++ [i]) = Some (n * PAGE_SIZE).
Proof.
  intros Hpmm Hpt Hl Hp Hi Ht Habs Hn Hnf Hfree Htk m2. split; [split|].
  - by eapply link_pmm.
  - by eapply link_pt.
  - intros v. by eapply link_walk.
  - intros q u ? ? ?. by eapply link_grows.
  - intros q u Hlq Hq H. eapply link_tbl in H as [[-> ->]|H]; eauto.
    right. exists n. split_and!; done || lia.
  - intros q ? ?. eapply link_free with (m1 := m1); eauto.
  - unfold free_count. apply length_filter_flip_le with (n := n); [apply NoDup_seqZ|].
    intros q Hq. apply elem_of_seqZ in Hq. eapply link_test; eauto.
  - intros x Hs Hf Htb. eapply link_frame; eauto.
  - pose proof (link_tbl_through m m1 bm root p i t n Hpmm Hpt Hl Hp Hi Ht Hn Hnf Hfree Htk []) as H.
    simpl in H. by apply H.
Qed.

(** What one level of the walk does. *)
Lemma get_next_level_spec s bm root p t i :
  p_alloc s = Some bm -> pmm_inv (p_mem s) bm -> pt_inv (p_mem s) bm root ->
  (length p <= 2)%nat -> Forall idx_ok p -> idx_ok i -> tbl (p_mem s) root p = Some t ->
  wp (vmm.get_next_level t i) s
    (fun t' s' => p_alloc s' = Some bm /\ extends (p_mem s) (p_mem s') bm root 1 /\
       tbl (p_mem s') root (p ++ [i]) = Some t')
    (fun f s' => f = Expect /\ s' = s /\ free_count (p_mem s) bm = 0%nat).
Proof.
  intros Hal Hpmm Hpt Hl Hp Hi Ht. destruct s as [m al]; simpl in *. subst al.
  assert (Htok : table_ok m bm t) by (apply (pt_tables _ _ _ Hpt p t); done || lia).
  destruct (table_ptr _ _ _ _ Htok Hi) as [Ea Eb].
  pose proof (tbl_snoc m root p i t Ht) as Hs. unfold entry_present in Hs.
  unfold vmm.get_next_level, load64, on_mem. apply wp_bind, wp_zoom, wp_gets. simpl. rewrite Ea.
  destruct (Z.eqb_spec (Z.land (rd64 m (t + 8 * i)) 1) 0) as [E0|E0]; simpl in Hs.
  - apply wp_bind. apply wp_get_calloc with (bm := bm); [done|done|lia| |]; cbn [p_mem].
    + intros n m1 Hff Htk Hinv1.
      apply first_fit_bounds in Hff as (Hn & Hnf & Hfr & _); [|lia].
      apply wp_bind. eapply wp_expect; [reflexivity|]. unfold store64.
      apply wp_bind, wp_zoom, wp_modify. unfold ret, wp. simpl. rewrite Ea. fold LINK.
      edestruct (link_extends m m1 bm root p i t n) as [Hex Htb]; eauto.
      * unfold entry_present. by rewrite E0.
      * apply Hfr. lia.
    + intros Hff. apply wp_bind. unfold wp. simpl. split_and!; try done. by apply no_fit_count.
  - apply wp_bind, wp_zoom, wp_gets. unfold ret, wp. simpl. split_and!; [done| |done].
    eapply extends_weaken; [|by apply extends_refl]. lia.
Qed.

End extends.

(** ** Mapping a page *)

Section mapping.
Context {F : Type}.
Implicit Types (m : mem) (bm : Bitmap) (self : VirtualMemManager F) (s : vstate F).

(** The state an address space is used in. *)
Definition space_ok s bm (root : Z) : Prop :=
  p_alloc (v_p s) = Some bm /\ pmm_inv (p_mem (v_p s)) bm /\ pt_inv (p_mem (v_p s)) bm root.

Abbreviation vmem s := (p_mem (v_p s)).

Lemma page_table_spec (ps : pstate) bm root v :
  p_alloc ps = Some bm -> pmm_inv (p_mem ps) bm -> pt_inv (p_mem ps) bm root ->
  wp (vmm.page_table root v) ps
    (fun t ps' => p_alloc ps' = Some bm /\ extends (p_mem ps) (p_mem ps') bm root 3 /\
       tbl (p_mem ps') root (path v) = Some t)
    (fun f ps' => f = Expect /\ p_alloc ps' = Some bm /\
       extends (p_mem ps) (p_mem ps') bm root 3 /\ (free_count (p_mem ps) bm <= 2)%nat).
Proof.
  intros Hal Hpmm Hpt. pose proof (path_ok v) as Hok. unfold path in *.
  repeat match goal with H : Forall _ (_ :: _) |- _ => apply list.Forall_cons in H as [? ?] end.
  unfold vmm.page_table. apply wp_bind.
  eapply wp_mono; [apply (get_next_level_spec ps bm root []); done || (simpl; lia)| |]; cbn beta.
  2:{ intros f ps' (-> & -> & Hc). split_and!; [done|done| |lia].
      eapply extends_weaken; [|by apply extends_refl]. lia. }
  intros t1 s1 (Hal1 & Hex1 & Ht1). apply wp_bind.
  eapply wp_mono; [apply (get_next_level_spec s1 bm root [VirtAddr.pml4 v] t1);
    [done|apply Hex1|apply Hex1|simpl; lia|auto using Forall_cons, Forall_nil|done|done] | |]; cbn beta.
  2:{ intros f ps' (-> & -> & Hc). pose proof (ex_count _ _ _ _ _ Hex1).
      split_and!; [done|done| |lia]. eapply extends_weaken; [|done]. lia. }
  intros t2 s2 (Hal2 & Hex2 & Ht2). simpl in Ht2.
  pose proof (extends_trans _ _ _ _ _ _ _ Hex1 Hex2) as Hex12.
  eapply wp_mono; [apply (get_next_level_spec s2 bm root [VirtAddr.pml4 v; VirtAddr.pdp v] t2);
    [done|apply Hex2|apply Hex2|simpl; lia|auto using Forall_cons, Forall_nil|done|done] | |]; cbn beta.
  - intros t3 s3 (Hal3 & Hex3 & Ht3). split_and!; [done| |done].
    apply (extends_trans _ _ _ _ _ _ _ Hex12 Hex3).
  - intros f ps' (-> & -> & Hc). pose proof (ex_count _ _ _ _ _ Hex12).
    split_and!; [done|done| |lia]. eapply extends_weaken; [|done]. lia.
Qed.

(** Writing the entry in the last table. *)
Lemma leaf_tbl m bm root v t e q :
  pt_inv m bm root -> tbl m root (path v) = Some t ->
  (length q <= 3)%nat -> Forall idx_ok q ->
  tbl (wr64 m (t + 8 * VirtAddr.pt v) e) root q = tbl m root q.
Proof.
  intros Hpt Ht Hl Hq. apply tbl_agree. intros p i r u -> Hu.
  apply list.Forall_app in Hq as [Hp [Hi _]%list.Forall_cons].
  rewrite length_app in Hl. simpl in Hl.
  assert (table_ok m bm u) as Hu' by (apply (pt_tables _ _ _ Hpt p u); done || lia).
  assert (table_ok m bm t) as Ht' by (apply (pt_tables _ _ _ Hpt (path v) t); auto using path_ok).
  apply rd64_slot_ne; [apply Ht'|apply Hu'|apply pt_ok|done|].
  intros [= -> _]. assert (p = path v) as Ep.
  { apply (pt_inj _ _ _ Hpt p (path v) t); auto using path_ok. lia. }
  rewrite Ep in Hl. simpl in Hl. lia.
Qed.

Lemma leaf_agree m bm root v t e :
  pt_inv m bm root -> tbl m root (path v) = Some t ->
  agree m (wr64 m (t + 8 * VirtAddr.pt v) e) (bm_base bm) (bm_len bm).
Proof.
  intros Hpt Ht x Hx. apply rd8_wrn_frame.
  assert (table_ok m bm t) as Ht' by (apply (pt_tables _ _ _ Hpt (path v) t); auto using path_ok).
  pose proof (to_off _ _ _ Ht'). pose proof (pt_ok v). unfold idx_ok, PAGE_SIZE in *. simpl. lia.
Qed.

Lemma free_count_agree m m' bm :
  pmm_inv m bm -> agree m m' (bm_base bm) (bm_len bm) -> free_count m' bm = free_count m bm.
Proof.
  intros Hi Ha. unfold free_count. f_equal. apply filter_bool_ext. intros q Hq.
  apply elem_of_seqZ in Hq. symmetry. apply test_agree; [apply Hi|unfold frames in Hq; lia|done].
Qed.

Lemma leaf_inv m bm root v t e :
  pmm_inv m bm -> pt_inv m bm root -> tbl m root (path v) = Some t ->
  let m' := wr64 m (t + 8 * VirtAddr.pt v) e in pmm_inv m' bm /\ pt_inv m' bm root.
Proof.
  intros Hpmm Hpt Ht m'.
  pose proof (leaf_agree m bm root v t e Hpt Ht) as Hag. fold m' in Hag.
  split; [by eapply pmm_inv_agree|]. split.
  - intros p u Hl Hp Hu. unfold m' in Hu. rewrite (leaf_tbl m bm) in Hu by done.
    destruct (pt_tables _ _ _ Hpt p u Hl Hp Hu) as [H1 H2 H3 H4]. split; auto.
    intros Hlt. assert (0 <= u / PAGE_SIZE) by (apply Z.div_pos; unfold PAGE_SIZE; lia).
    rewrite (test_agree m); auto. apply Hpmm.
  - intros p q u ? ? ? ? Hp Hq. unfold m' in *.
    rewrite (leaf_tbl m bm) in Hp, Hq by done. by apply (pt_inj _ _ _ Hpt p q u).
Qed.

Lemma leaf_walk m bm root v t e v' :
  pt_inv m bm root -> tbl m root (path v) = Some t -> 0 <= e < 2 ^ 64 ->
  walk (wr64 m (t + 8 * VirtAddr.pt v) e) root v' =
    if decide (vpn v' = vpn v) then e else walk m root v'.
Proof.
  intros Hpt Ht He. unfold walk. rewrite (leaf_tbl m bm) by auto using path_ok.
  case_decide as Hv.
  - apply same_page_iff in Hv as [-> ->]. rewrite Ht. by apply rd64_wr64_eq.
  - destruct (tbl m root (path v')) as [u|] eqn:Hu; [|done].
    pose proof (pt_tables _ _ _ Hpt (path v') u ltac:(simpl; lia) (path_ok _) Hu) as Hu'.
    pose proof (pt_tables _ _ _ Hpt (path v) t ltac:(simpl; lia) (path_ok _) Ht) as Ht'.
    apply rd64_slot_ne; auto using pt_ok; [apply Ht'|apply Hu'|].
    intros [= -> Ept]. apply Hv, same_page_iff. split; [|done].
    apply (pt_inj _ _ _ Hpt _ _ t); auto using path_ok.
Qed.

(** A byte in use that belongs neither to the allocator's bitmap nor to a table
    of the address space. *)
Definition foreign m bm root (x : Z) : Prop :=
  ~ (bm_base bm <= x < bm_base bm + bm_len bm) /\
  (0 <= x / PAGE_SIZE < frames bm -> test m bm (x / PAGE_SIZE) = false) /\
  (forall q u, (length q <= 3)%nat -> Forall idx_ok q -> tbl m root q = Some u ->
     ~ (u <= x < u + PAGE_SIZE)).

Lemma leaf_frame m bm root v t e x :
  pt_inv m bm root -> tbl m root (path v) = Some t ->
  ~ (t <= x < t + PAGE_SIZE) -> rd8 (wr64 m (t + 8 * VirtAddr.pt v) e) x = rd8 m x.
Proof.
  intros Hpt Ht Hx. apply rd8_wrn_frame. pose proof (pt_ok v).
  unfold idx_ok, PAGE_SIZE in *. simpl. lia.
Qed.

Lemma foreign_table m m' bm root k q u x :
  extends m m' bm root k -> foreign m bm root x ->
  (length q <= 3)%nat -> Forall idx_ok q -> tbl m' root q = Some u -> ~ (u <= x < u + PAGE_SIZE).
Proof.
  intros Hex (_ & Hf & Ht) Hl Hq Hu.
  destruct (ex_new _ _ _ _ _ Hex q u Hl Hq Hu) as [H'|(n & -> & Hn & Htst)]; [by eapply Ht|].
  intros Hin. assert (x / PAGE_SIZE = n) as En.
  { symmetry. apply Z.div_unique with (r := x - n * PAGE_SIZE); unfold PAGE_SIZE in *; lia. }
  rewrite En in Hf. rewrite Hf in Htst by lia. done.
Qed.

Lemma wp_on_p {A} (c : M pstate A) s (Q : A -> vstate F -> Prop) E :
  wp c (v_p s) (fun a p => Q a (mkVS p (v_kernel s) (v_cr3 s) (v_flushed s)))
    (fun f p => E f (mkVS p (v_kernel s) (v_cr3 s) (v_flushed s))) ->
  wp (vmm.on_p c) s Q E.
Proof. intros H. unfold vmm.on_p. by apply wp_zoom. Qed.

(** The last table's pointer is dereferenced as it is; it lies in the range
    where the direct and the identity map agree. *)
Lemma leaf_ptr m bm root v t :
  pt_inv m bm root -> tbl m root (path v) = Some t ->
  phys_of (t + 8 * VirtAddr.pt v) = t + 8 * VirtAddr.pt v.
Proof.
  intros Hpt Ht. eapply table_ptr; [|apply pt_ok].
  apply (pt_tables _ _ _ Hpt (path v) t); auto using path_ok.
Qed.

(** What [map_page] guarantees, and what it leaves behind when it panics. *)
Record mapped self s s' bm (v e : Z) (flush : bool) : Prop := {
  mp_ok : space_ok s' bm (pagemap self);
  mp_walk : forall v', walk (vmem s') (pagemap self) v' =
    if decide (vpn v' = vpn v) then e else walk (vmem s) (pagemap self) v';
  mp_tbl : exists t, tbl (vmem s') (pagemap self) (path v) = Some t;
  mp_frame : forall x, foreign (vmem s) bm (pagemap self) x -> rd8 (vmem s') x = rd8 (vmem s) x;
  mp_count : (free_count (vmem s) bm <= free_count (vmem s') bm + 3)%nat;
  mp_flush : v_flushed s' = (if flush then [v] else []) ++ v_flushed s;
  mp_rest : v_kernel s' = v_kernel s /\ v_cr3 s' = v_cr3 s;
}.

Record unmapped self s s' bm : Prop := {
  um_few : (free_count (vmem s) bm <= 2)%nat;
  um_ok : space_ok s' bm (pagemap self);
  um_walk : forall v', walk (vmem s') (pagemap self) v' = walk (vmem s) (pagemap self) v';
  um_frame : forall x, foreign (vmem s) bm (pagemap self) x -> rd8 (vmem s') x = rd8 (vmem s) x;
}.

Lemma foreign_ex_frame m m' bm root k x :
  extends m m' bm root k -> foreign m bm root x -> rd8 m' x = rd8 m x.
Proof. intros Hex (? & ? & ?). by eapply (ex_frame _ _ _ _ _ Hex). Qed.

Lemma map_page_wp self v pa fl flush s bm :
  space_ok s bm (pagemap self) -> 0 <= Z.lor pa fl < 2 ^ 64 ->
  wp (vmm.map_page self v pa fl flush) s
    (fun _ s' => mapped self s s' bm v (Z.lor pa fl) flush)
    (fun f s' => f = Expect /\ unmapped self s s' bm).
Proof.
  intros (Hal & Hpmm & Hpt) He. destruct s as [ps k cr fls]. simpl in *.
  set (fls' := (if flush then [v] else []) ++ fls).
  unfold vmm.map_page. apply wp_bind. apply wp_eq with (a := tt) (s' := mkVS ps k cr fls').
  { unfold fls'. by destruct flush. }
  apply wp_on_p, wp_bind. simpl v_p.
  eapply wp_mono; [by apply page_table_spec with (bm := bm)| |]; cbn beta.
  - intros t ps' (Hal' & Hex & Ht). unfold store64, on_mem. apply wp_zoom, wp_modify.
    pose proof (ex_pt _ _ _ _ _ Hex) as Hpt'. rewrite (leaf_ptr _ _ _ _ _ Hpt' Ht).
    destruct (leaf_inv (p_mem ps') bm _ v t (Z.lor pa fl) (ex_pmm _ _ _ _ _ Hex) Hpt' Ht).
    split; cbn [v_p p_mem set_mem p_alloc v_flushed v_kernel v_cr3]; try done.
    + intros v'. rewrite (leaf_walk (p_mem ps') bm) by done. by rewrite (ex_walk _ _ _ _ _ Hex).
    + exists t. rewrite (leaf_tbl (p_mem ps') bm); auto using path_ok.
    + intros x Hx. rewrite (leaf_frame (p_mem ps') bm (pagemap self)); [|done..|].
      * by eapply foreign_ex_frame.
      * apply (foreign_table _ _ _ _ _ (path v) t x Hex Hx); auto using path_ok.
    + rewrite (free_count_agree (p_mem ps') (wr64 _ _ _)); [apply Hex|apply Hex|].
      by eapply leaf_agree.
  - intros f ps' (-> & Hal' & Hex & Hc). split; [done|]. split; simpl; try done.
    + split_and!; [done|apply Hex..].
    + apply Hex.
    + intros x Hx. by eapply foreign_ex_frame.
Qed.

Lemma get_mapping_wp self v s bm :
  space_ok s bm (pagemap self) ->
  wp (vmm.get_mapping self v) s
    (fun e s' => e = walk (vmem s) (pagemap self) v /\ space_ok s' bm (pagemap self) /\
       (forall v', walk (vmem s') (pagemap self) v' = walk (vmem s) (pagemap self) v') /\
       (forall x, foreign (vmem s) bm (pagemap self) x -> rd8 (vmem s') x = rd8 (vmem s) x))
    (fun f s' => f = Expect /\ unmapped self s s' bm).
Proof.
  intros (Hal & Hpmm & Hpt). destruct s as [ps k cr fls]. simpl in *.
  unfold vmm.get_mapping. apply wp_on_p, wp_bind. simpl v_p.
  eapply wp_mono; [by apply page_table_spec with (bm := bm)| |]; cbn beta.
  - intros t ps' (Hal' & Hex & Ht). unfold load64, on_mem. apply wp_zoom, wp_gets.
    pose proof (ex_pt _ _ _ _ _ Hex) as Hpt'. rewrite (leaf_ptr _ _ _ _ _ Hpt' Ht).
    split_and!.
    + rewrite <- (ex_walk _ _ _ _ _ Hex). unfold walk. by rewrite Ht.
    + split_and!; [done|apply Hex..].
    + apply Hex.
    + intros x Hx. by eapply foreign_ex_frame.
  - intros f ps' (-> & Hal' & Hex & Hc). split; [done|]. split; simpl; try done.
    + split_and!; [done|apply Hex..].
    + apply Hex.
    + intros x Hx. by eapply foreign_ex_frame.
Qed.

(** When the tables exist, the walk reads and changes nothing. *)
Lemma get_next_level_present (ps : pstate) bm t i e :
  table_ok (p_mem ps) bm t -> idx_ok i -> rd64 (p_mem ps) (t + 8 * i) = e ->
  entry_present e = true ->
  vmm.get_next_level t i ps = (Ret (PhysAddr.remove_flags e), ps).
Proof.
  intros Ht Hi <- He. destruct (table_ptr _ _ _ _ Ht Hi) as [Ea _]. destruct ps as [m al].
  unfold vmm.get_next_level, on_mem, load64, zoom, bind, gets. simpl in *. rewrite Ea.
  unfold entry_present in He. destruct (_ =? _); [done|]. reflexivity.
Qed.

Lemma page_table_present (ps : pstate) bm root v t :
  pt_inv (p_mem ps) bm root -> tbl (p_mem ps) root (path v) = Some t ->
  vmm.page_table root v ps = (Ret t, ps).
Proof.
  intros Hpt. pose proof (path_ok v) as Hok. pose proof (pt_tables _ _ _ Hpt) as Htb.
  unfold path in *. unfold vmm.page_table.
  set (a := VirtAddr.pml4 v) in *. set (b := VirtAddr.pdp v) in *. set (c := VirtAddr.pd v) in *.
  repeat match goal with H : Forall _ (_ :: _) |- _ => apply list.Forall_cons in H as [? ?] end.
  pose proof (Htb [] root ltac:(simpl; lia) ltac:(done) eq_refl) as H0'.
  simpl. intros Ht.
  destruct (entry_present (rd64 _ (root + _))) eqn:E1; [|done].
  assert (Ht1 : tbl (p_mem ps) root [a] = Some (PhysAddr.remove_flags (rd64 (p_mem ps) (root + 8 * a)))).
  { simpl. by rewrite E1. }
  destruct (entry_present (rd64 _ (PhysAddr.remove_flags _ + 8 * b))) eqn:E2; [|done].
  assert (Ht2 := tbl_snoc _ _ _ b _ Ht1). rewrite E2 in Ht2. simpl app in Ht2.
  destruct (entry_present (rd64 _ (PhysAddr.remove_flags _ + 8 * c))) eqn:E3; [|done].
  injection Ht as <-.
  unfold bind. erewrite get_next_level_present; eauto.
  erewrite get_next_level_present; [|eapply (Htb [a]); eauto using Forall_cons, Forall_nil; simpl; lia|done|done|done].
  erewrite get_next_level_present; [|eapply (Htb [a; b]); eauto using Forall_cons, Forall_nil; simpl; lia|done|done|done].
  done.
Qed.

Lemma get_mapping_present self v s bm t :
  pt_inv (vmem s) bm (pagemap self) -> tbl (vmem s) (pagemap self) (path v) = Some t ->
  vmm.get_mapping self v s = (Ret (rd64 (vmem s) (t + 8 * VirtAddr.pt v)), s).
Proof.
  destruct s as [[m al] ker cr fls]. cbn [v_p p_mem]. intros Hpt Ht.
  unfold vmm.get_mapping, vmm.on_p, zoom, bind. cbn [v_p].
  rewrite (page_table_present (mkP m al) bm _ _ t) by done.
  unfold on_mem, zoom, load64, gets. cbn [p_mem]. by rewrite (leaf_ptr m bm (pagemap self)).
Qed.

End mapping.

(** ** New address spaces *)

Definition shared_half (i : Z) : bool := (i =? 256) || (i =? 511).

Lemma pt_inv_empty m bm root :
  table_ok m bm root -> (forall i, idx_ok i -> rd64 m (root + 8 * i) = 0) -> pt_inv m bm root.
Proof.
  intros Hr He.
  assert (H : forall p t, Forall idx_ok p -> tbl m root p = Some t -> p = [] /\ t = root).
  { intros [|i p] t Hp; simpl; [naive_solver|]. apply list.Forall_cons in Hp as [Hi _].
    by rewrite He. }
  split.
  - intros p t _ Hp Ht. by destruct (H p t Hp Ht) as [_ ->].
  - intros p q t _ _ Hp Hq Ht Ht'. destruct (H p t Hp Ht) as [-> _].
    by destruct (H q t Hq Ht') as [-> _].
Qed.

Section new_space.
Context (m m1 : mem) (bm : Bitmap) (root n : Z).
Context (Hpmm : pmm_inv m bm) (Hpt : pt_inv m bm root).
Context (Hn : 0 <= n) (Hnf : n + 1 <= frames bm) (Hfree : test m bm n = true).
Context (Ht : taken m m1 bm n 1).

Let new := n * PAGE_SIZE.
Let e1 := rd64 m (root + 8 * 256).
Let e2 := rd64 m (root + 8 * 511).
Let m3 := wr64 (wr64 m1 (new + 8 * 256) e1) (new + 8 * 511) e2.

Lemma new_aligned : new mod PAGE_SIZE = 0.
Proof. apply Z.mod_mul. unfold PAGE_SIZE. lia. Qed.

Lemma new_ne u : table_ok m bm u -> u <> new.
Proof. intros Hu. by eapply taken_not_table. Qed.

Lemma new_old_entry u j :
  table_ok m bm u -> idx_ok j -> rd64 m3 (u + 8 * j) = rd64 m (u + 8 * j).
Proof.
  intros Hu Hj. pose proof (new_ne u Hu). pose proof new_aligned. unfold m3.
  rewrite !rd64_slot_ne; auto; try apply Hu; try (unfold idx_ok; lia); try congruence.
  apply entry_agree; [|done]. eapply taken_table_agree; eauto.
Qed.

Lemma new_entry j : idx_ok j ->
  rd64 m3 (new + 8 * j) = if shared_half j then rd64 m (root + 8 * j) else 0.
Proof.
  intros Hj. pose proof new_aligned. unfold m3, shared_half.
  destruct (Z.eqb_spec j 511) as [->|H511]; [rewrite orb_true_r|rewrite orb_false_r].
  { apply rd64_wr64_eq. apply rdn_range. }
  rewrite rd64_slot_ne; auto; try (unfold idx_ok; lia); try congruence.
  destruct (Z.eqb_spec j 256) as [->|H256].
  { apply rd64_wr64_eq. apply rdn_range. }
  rewrite rd64_slot_ne; auto; try (unfold idx_ok; lia); try congruence.
  by eapply new_table_zero.
Qed.

Lemma new_old_tbl q : (length q <= 4)%nat -> Forall idx_ok q -> tbl m3 root q = tbl m root q.
Proof.
  intros Hl Hq. apply tbl_agree. intros p i r u -> Hu.
  apply list.Forall_app in Hq as [Hp [Hi _]%list.Forall_cons].
  rewrite length_app in Hl. simpl in Hl.
  apply new_old_entry; [|done]. apply (pt_tables _ _ _ Hpt p u); [lia|done..].
Qed.

Lemma new_tbl i q : (length q <= 3)%nat -> idx_ok i -> Forall idx_ok q ->
  tbl m3 new (i :: q) = if shared_half i then tbl m root (i :: q) else None.
Proof.
  intros Hl Hi Hq. assert (Hroot : table_ok m bm root).
  { apply (pt_tables _ _ _ Hpt [] root); [simpl; lia|done..]. }
  rewrite <- (new_old_tbl (i :: q)); [|simpl; lia|by constructor].
  cbn [tbl]. rewrite new_entry, new_old_entry by done. by destruct (shared_half i).
Qed.

Lemma new_agree_storage : agree m1 m3 (bm_base bm) (bm_len bm).
Proof.
  intros x Hx. pose proof (pi_own _ _ Hpmm n ltac:(lia) Hfree).
  unfold m3, new, PAGE_SIZE in *. rewrite !rd8_wrn_frame; [done|simpl; lia..].
Qed.

Lemma new_pmm : pmm_inv m3 bm.
Proof. eapply pmm_inv_agree; [apply new_agree_storage|]. by eapply taken_inv. Qed.

Lemma new_test q : 0 <= q < frames bm ->
  test m3 bm q = if decide (q = n) then false else test m bm q.
Proof.
  intros Hq. rewrite (test_agree m1); [|apply Hpmm|done|apply new_agree_storage].
  rewrite (tk_bits _ _ _ _ _ Ht) by done. repeat case_decide; done || lia.
Qed.

Lemma new_old_ok u : table_ok m bm u -> table_ok m3 bm u.
Proof.
  intros [H1 H2 H3 H4]. split; auto. intros Hlt.
  assert (0 <= u / PAGE_SIZE) by (apply Z.div_pos; unfold PAGE_SIZE; lia).
  rewrite new_test by lia. case_decide; auto.
Qed.

Lemma new_root_ok : table_ok m3 bm new.
Proof.
  pose proof (pi_addr _ _ Hpmm). split.
  - apply new_aligned.
  - unfold new, PAGE_SIZE in *. lia.
  - intros _. unfold new, PAGE_SIZE. rewrite Z.div_mul by lia.
    rewrite new_test by lia. by rewrite decide_True.
  - pose proof (pi_own _ _ Hpmm n ltac:(lia) Hfree). unfold new, PAGE_SIZE in *. lia.
Qed.

Lemma new_old_pt : pt_inv m3 bm root.
Proof.
  split.
  - intros p u Hl Hp Hu. rewrite new_old_tbl in Hu by (done || lia).
    apply new_old_ok. by apply (pt_tables _ _ _ Hpt p u).
  - intros p q u ? ? ? ? Hp Hq. rewrite new_old_tbl in Hp, Hq by (done || lia).
    by apply (pt_inj _ _ _ Hpt p q u).
Qed.

(** A table of the new space below its root is one of the kernel's. *)
Lemma new_below i q u : (length q <= 2)%nat -> Forall idx_ok (i :: q) ->
  tbl m3 new (i :: q) = Some u -> tbl m root (i :: q) = Some u.
Proof.
  intros Hl Hq Hu. apply list.Forall_cons in Hq as [Hi Hq].
  rewrite new_tbl in Hu by (done || lia). by destruct (shared_half i).
Qed.

Lemma new_root_apart i q : (length q <= 2)%nat -> Forall idx_ok (i :: q) ->
  tbl m3 new (i :: q) = Some new -> False.
Proof.
  intros Hl Hq Hu. apply new_below in Hu; [|done..]. apply (new_ne new); [|done].
  apply (pt_tables _ _ _ Hpt (i :: q) new); [simpl; lia|done..].
Qed.

Lemma new_pt : pt_inv m3 bm new.
Proof.
  split.
  - intros [|i q] u Hl Hq Hu; [injection Hu as <-; apply new_root_ok|].
    simpl in Hl. apply new_below in Hu; [|lia|done].
    apply new_old_ok, (pt_tables _ _ _ Hpt (i :: q) u); [simpl; lia|done..].
  - intros [|i p] [|j q] u Hl Hl' Hp Hq Hu Hu'; simpl in Hl, Hl'; [done|..].
    + injection Hu as <-. exfalso. eapply (new_root_apart j q); eauto. lia.
    + injection Hu' as <-. exfalso. eapply (new_root_apart i p); eauto. lia.
    + apply new_below in Hu; [|lia|done]. apply new_below in Hu'; [|lia|done].
      apply (pt_inj _ _ _ Hpt (i :: p) (j :: q) u); simpl; done || lia.
Qed.

Lemma walk_old v : walk m3 root v = walk m root v.
Proof.
  unfold walk. rewrite new_old_tbl by (auto using path_ok).
  destruct (tbl m root (path v)) as [u|] eqn:Hu; [|done].
  apply new_old_entry; [|apply pt_ok].
  apply (pt_tables _ _ _ Hpt (path v) u); auto using path_ok.
Qed.

Lemma walk_new v :
  walk m3 new v = if shared_half (VirtAddr.pml4 v) then walk m root v else 0.
Proof.
  pose proof (path_ok v) as Hv. unfold path in Hv.
  apply list.Forall_cons in Hv as [Hi Hq].
  rewrite <- walk_old. unfold walk. rewrite new_old_tbl by auto using path_ok. unfold path.
  rewrite new_tbl by (done || (simpl; lia)). by destruct (shared_half _).
Qed.

End new_space.

Section space_ops.
Context {F : Type}.
Implicit Types (bm : Bitmap) (self k : VirtualMemManager F) (s : vstate F).

Abbreviation vmem s := (p_mem (v_p s)).

Lemma new_user_wp k s bm :
  v_kernel s = Some k -> space_ok s bm (pagemap k) ->
  wp (vmm.new true) s
    (fun self s' => ranges self = [] /\ space_ok s' bm (pagemap self) /\
       space_ok s' bm (pagemap k) /\
       (forall v, walk (vmem s') (pagemap self) v =
          if shared_half (VirtAddr.pml4 v) then walk (vmem s) (pagemap k) v else 0) /\
       (forall v, walk (vmem s') (pagemap k) v = walk (vmem s) (pagemap k) v))
    (fun f s' => f = Expect /\ s' = s /\ free_count (vmem s) bm = 0%nat).
Proof.
  destruct s as [[m al] ker cr fls]. unfold space_ok. cbn [v_p p_mem p_alloc v_kernel]. intros -> (-> & Hpmm & Hpt).
  unfold vmm.new. cbn [negb]. apply wp_bind, wp_on_p.
  apply wp_get_calloc with (bm := bm); [done|done|lia| |]; cbn [p_mem v_p].
  - intros n m1 Hff Htk Hinv1. apply first_fit_bounds in Hff as (Hn & Hnf & Hfr & _); [|lia].
    assert (Hfree : test m bm n = true) by (apply Hfr; lia).
    pose proof (new_root_ok m m1 bm (pagemap k) n Hpmm Hn Hnf Hfree Htk) as Hnew.
    assert (Hroot : table_ok m bm (pagemap k)).
    { apply (pt_tables _ _ _ Hpt [] (pagemap k)); [simpl; lia|done..]. }
    assert (Hold : forall e j, idx_ok j ->
      rd64 (wr64 m1 (n * PAGE_SIZE + 8 * 256) e) (pagemap k + 8 * j) = rd64 m (pagemap k + 8 * j)
      /\ rd64 m1 (pagemap k + 8 * j) = rd64 m (pagemap k + 8 * j)).
    { intros e j Hj. assert (pagemap k <> n * PAGE_SIZE) by (eapply (taken_not_table m bm n); eauto; lia).
      assert (rd64 m1 (pagemap k + 8 * j) = rd64 m (pagemap k + 8 * j)) as E.
      { apply entry_agree; [by eapply taken_table_agree|done]. }
      rewrite rd64_slot_ne; auto; try apply Hnew; try apply Hroot; try (unfold idx_ok; lia).
      congruence. }
    destruct (table_ptr _ _ _ 256 Hnew ltac:(unfold idx_ok; lia)) as [Ea _].
    destruct (table_ptr _ _ _ 511 Hnew ltac:(unfold idx_ok; lia)) as [Eb _].
    destruct (table_ptr _ _ _ 256 Hroot ltac:(unfold idx_ok; lia)) as [_ Ec].
    destruct (table_ptr _ _ _ 511 Hroot ltac:(unfold idx_ok; lia)) as [_ Ed].
    apply wp_bind. eapply wp_expect; [reflexivity|]. apply wp_bind.
    apply wp_bind, wp_gets. eapply wp_expect; [reflexivity|].
    unfold on_mem, load64, store64.
    apply wp_bind, wp_on_p, wp_zoom, wp_gets. apply wp_bind, wp_on_p, wp_zoom, wp_modify.
    apply wp_bind, wp_on_p, wp_zoom, wp_gets. apply wp_bind, wp_on_p, wp_zoom, wp_modify.
    apply wp_ret. cbn [v_p p_mem p_alloc set_mem pagemap ranges v_kernel v_cr3 v_flushed].
    rewrite Ea, Eb, Ec, Ed.
    destruct (Hold (rd64 m1 (pagemap k + 8 * 256)) 511 ltac:(unfold idx_ok; lia)) as [-> _].
    destruct (Hold 0 256 ltac:(unfold idx_ok; lia)) as [_ ->].
    split_and!; try done.
    + by eapply new_pmm.
    + by eapply new_pt.
    + by eapply new_pmm.
    + by eapply new_old_pt.
    + intros v. by eapply walk_new.
    + intros v. by eapply walk_old.
  - intros Hff. apply wp_bind. unfold wp. simpl. split_and!; try done. by apply no_fit_count.
Qed.

(** ** Ranges *)

Definition range_ok (r : VirtMemoryRange F) : Prop :=
  0 <= r_base r /\ 0 <= r_length r /\ r_base r + r_length r < 2 ^ 64.

(** The test of [get_range] and the one of [mmap]. *)
Definition inside (a : Z) (r : VirtMemoryRange F) : bool :=
  (r_base r <? a) && (a <? r_base r + r_length r).

Definition conflicts (lo hi : Z) (r : VirtMemoryRange F) : bool := inside lo r || inside hi r.

Lemma range_end_ok {S} (r : VirtMemoryRange F) (s : S) :
  range_ok r -> vmm.range_end r s = (Ret (r_base r + r_length r), s).
Proof. intros (? & ? & ?). unfold vmm.range_end, uadd. apply chk_ok. unfold u64. lia. Qed.

Lemma get_range_ok rs a s :
  Forall range_ok rs -> vmm.get_range rs a s = (Ret (List.find (inside a) rs), s).
Proof.
  induction 1 as [|r rs Hr Hrs IH]; [done|]. simpl. unfold inside at 1, vmm.range_start.
  destruct (r_base r <? a); simpl; [|done].
  unfold bind. rewrite range_end_ok by done. by destruct (a <? _).
Qed.

Lemma fit_range_ok self rs lo hi len a s :
  Forall range_ok rs ->
  vmm.fit_range self rs lo hi len a s =
    if existsb (conflicts lo hi) rs then (Fault Todo, s) else (Ret a, s).
Proof.
  induction 1 as [|r rs Hr Hrs IH]; [done|]. simpl.
  unfold bind, vmm.range_start. unfold conflicts at 1, inside.
  destruct (r_base r <? lo); simpl; rewrite ?range_end_ok by done; simpl.
  - destruct (lo <? _); simpl; [done|]. destruct (r_base r <? hi); simpl; [|done].
    rewrite range_end_ok by done. by destruct (hi <? _).
  - destruct (r_base r <? hi); simpl; [|done].
    rewrite range_end_ok by done. by destruct (hi <? _).
Qed.

Lemma vpn_small v : 0 <= v < 2 ^ 48 -> vpn v = v / PAGE_SIZE.
Proof.
  intros Hv. unfold vpn, PAGE_SIZE. change (2 ^ 12) with 4096. apply Z.mod_small.
  split; [apply Z.div_pos; lia|]. apply Z.div_lt_upper_bound; lia.
Qed.

(** [n] pages from [page], all with the entry [e]. *)
Definition span (page : Z) (n : nat) (v : Z) : Prop :=
  page / PAGE_SIZE <= vpn v < page / PAGE_SIZE + Z.of_nat n.

#[export] Instance span_dec page n v : Decision (span page n v).
Proof. unfold span. apply _. Defined.

Lemma map_pages_wp self e bm n : forall page s,
  space_ok s bm (pagemap self) -> 0 <= page -> page + Z.of_nat n * PAGE_SIZE <= 2 ^ 48 ->
  0 <= e < 2 ^ 64 ->
  wp (vmm.map_pages self n page e) s
    (fun _ s' => space_ok s' bm (pagemap self) /\
       forall v, walk (vmem s') (pagemap self) v =
         if decide (span page n v) then e else walk (vmem s) (pagemap self) v)
    (fun f s' => f = Expect /\ space_ok s' bm (pagemap self) /\
       (free_count (vmem s) bm < 3 * n)%nat).
Proof.
  induction n as [|n IH]; intros page s Hs Hp Hn He; simpl vmm.map_pages.
  { apply wp_ret. split; [done|]. intros v. rewrite decide_False; [done|]. unfold span. lia. }
  apply wp_bind. eapply wp_mono; [by apply map_page_wp with (bm := bm)| |]; cbn beta.
  2:{ intros f s' (-> & Hu). split; [done|]. split; [apply Hu|].
      pose proof (um_few _ _ _ _ Hu). lia. }
  intros [] s1 Hm. rewrite Z.lor_0_l in Hm.
  eapply wp_mono; [apply IH; [apply Hm|unfold PAGE_SIZE in *; lia..|done]| |]; cbn beta.
  - intros [] s' [Hok Hw]. split; [done|]. intros v. rewrite Hw, (mp_walk _ _ _ _ _ _ _ Hm).
    assert (vpn page = page / PAGE_SIZE) as Ev by (apply vpn_small; unfold PAGE_SIZE in *; lia).
    assert ((page + PAGE_SIZE) / PAGE_SIZE = page / PAGE_SIZE + 1) as E1.
    { rewrite <- (Z.mul_1_l PAGE_SIZE) at 1. apply Z.div_add. unfold PAGE_SIZE. lia. }
    repeat case_decide; unfold span in *; done || lia.
  - intros f s' (-> & Hok & Hc). split; [done|]. split; [done|].
    pose proof (mp_count _ _ _ _ _ _ _ Hm). lia.
Qed.

(** The region [mmap] gives: a page aligned address, in the lower half. *)
Definition region_ok (a len : Z) : Prop :=
  0 <= a /\ a mod PAGE_SIZE = 0 /\ 0 <= len /\ a + len <= 2 ^ 48.

Lemma region_pages a len : region_ok a len ->
  a + Z.of_nat (Z.to_nat (cdiv len PAGE_SIZE)) * PAGE_SIZE <= 2 ^ 48.
Proof.
  intros (? & Ha & ? & Hle). pose proof (cdiv_bounds len PAGE_SIZE ltac:(done)) as Hc.
  assert (0 <= cdiv len PAGE_SIZE) by (apply Z.div_pos; unfold PAGE_SIZE; lia).
  rewrite Z2Nat.id by done. set (c := cdiv len PAGE_SIZE) in *. clearbody c.
  unfold PAGE_SIZE in *. pose proof (Z.div_mod a 4096 ltac:(done)) as Hd. lia.
Qed.

Definition mmap_entry : Z := Z.lor PageFlags.NX PageFlags.MMAPED.

Lemma from_prot_nx prot : from_prot prot = PageFlags.NX.
Proof. unfold from_prot, contains, MapProt.NONE. by rewrite Z.land_0_r. Qed.

(** The whole of [mmap] where no free range has to be found. *)
Lemma mmap_wp self a len prot flags fd off s bm :
  space_ok s bm (pagemap self) -> region_ok a len -> Forall range_ok (ranges self) ->
  contains flags MapFlags.FIXED = true \/ existsb (conflicts a (a + len)) (ranges self) = false ->
  wp (vmm.mmap self (Some a) len prot flags fd off) s
    (fun self' s' =>
       pagemap self' = pagemap self /\
       ranges self' = ranges self ++ [mkRange a len prot flags off fd] /\
       space_ok s' bm (pagemap self) /\
       forall v, walk (vmem s') (pagemap self) v =
         if decide (span a (Z.to_nat (cdiv len PAGE_SIZE)) v) then mmap_entry
         else walk (vmem s) (pagemap self) v)
    (fun f s' => f = Expect /\ space_ok s' bm (pagemap self) /\
       Z.of_nat (free_count (vmem s) bm) < 3 * cdiv len PAGE_SIZE).
Proof.
  intros Hs Hreg Hrs Hfix. pose proof Hreg as (Ha & _ & Hl & Hal).
  pose proof (region_pages _ _ Hreg) as Hpg. unfold vmm.mmap.
  rewrite bool_decide_false by done. simpl andb. cbv iota.
  assert (Hlt : forall s0 : vstate F, uadd u64 a len s0 = (Ret (a + len), s0)).
  { intros s0. apply chk_ok. unfold u64. lia. }
  apply wp_bind. apply wp_eq with (a := a) (s' := s).
  { unfold bind. rewrite Hlt. destruct (contains flags MapFlags.FIXED); simpl; [done|].
    rewrite fit_range_ok by done. destruct Hfix as [?| ->]; done. }
  apply wp_bind. eapply wp_eq; [apply Hlt|]. replace (a + len - a) with len by lia.
  apply wp_bind. rewrite from_prot_nx. fold mmap_entry.
  eapply wp_mono; [apply map_pages_wp with (bm := bm); done || (split; by vm_compute)| |]; cbn beta.
  - intros [] s' [Hok Hw]. apply wp_ret. simpl. done.
  - intros f s' (-> & Hok & Hc). split_and!; [done..|].
    assert (0 <= cdiv len PAGE_SIZE) by (unfold cdiv; apply Z.div_pos; unfold PAGE_SIZE; lia). lia.
Qed.

End space_ops.

(** ** Flags of an entry *)

Lemma contains_bit fl k : 0 <= k -> contains fl (Z.shiftl 1 k) = Z.testbit fl k.
Proof.
  intros Hk. unfold contains. rewrite Z.shiftl_1_l. apply eq_true_iff_eq.
  split; intros H.
  - apply Z.eqb_eq in H. apply (f_equal (fun z => Z.testbit z k)) in H.
    rewrite Z.land_spec, Z.pow2_bits_true, andb_true_r in H by done. done.
  - apply Z.eqb_eq, Z.bits_inj'. intros i Hi. rewrite Z.land_spec, Z.pow2_bits_eqb by done.
    destruct (Z.eqb_spec k i) as [->|]; [by rewrite H|]. by rewrite andb_false_r.
Qed.

Lemma entry_bit pa fl k : 0 <= k -> Z.testbit pa k = false ->
  negb (Z.land (Z.lor pa fl) (Z.shiftl 1 k) =? 0) = contains fl (Z.shiftl 1 k).
Proof.
  intros Hk Hp. rewrite land_bit_testbit, contains_bit by done. by rewrite Z.lor_spec, Hp.
Qed.

Lemma page_addr_bits pa k :
  0 <= pa < 2 ^ 52 -> pa mod PAGE_SIZE = 0 -> 0 <= k < 12 \/ 52 <= k -> Z.testbit pa k = false.
Proof.
  intros Hpa Hal Hk. unfold PAGE_SIZE in Hal. destruct Hk as [Hk|Hk].
  - rewrite <- (Z.mod_pow2_bits_low pa 12) by lia. change (2 ^ 12) with 4096. rewrite Hal.
    apply Z.bits_0.
  - apply (testbit_above pa 52); lia.
Qed.

(** ** Properties *)

Section witness_data.

(** An empty address space rooted in frame 4, with three free frames. *)
Definition self_w : VirtualMemManager unit := mkVmm 0x4000 [].
Definition vs_w : vstate unit := mkVS (mkP mem_w (Some bm_w)) (Some self_w) 0x4000 [].

Lemma vs_w_ok : space_ok vs_w bm_w 0x4000.
Proof.
  split_and!; [done|apply mem_w_inv|]. apply pt_inv_empty.
  - split; [done|done|by vm_compute|right; by vm_compute].
  - intros i Hi. apply rdn_zero. intros x Hx. unfold rd8. simpl. unfold mem_w.
    rewrite lookup_singleton_ne; [done|]. unfold idx_ok in Hi. lia.
Qed.

End witness_data.

Section claims.
Context {F : Type}.
Implicit Types (bm : Bitmap) (self k : VirtualMemManager F) (s : vstate F).

(** C2.  [map_page] with three free frames succeeds: the page of [v] gets the
    entry [pa | fl], every other page keeps its translation, the tables and the
    allocator stay well formed, at most three frames are used up, no byte in use
    outside this address space's tables and the bitmap is written, and [v] is
    flushed exactly when asked. *)
Theorem map_page_correct self v pa fl flush s bm :
  space_ok s bm (pagemap self) -> 0 <= Z.lor pa fl < 2 ^ 64 ->
  (3 <= free_count (p_mem (v_p s)) bm)%nat ->
  exists s', vmm.map_page self v pa fl flush s = (Ret tt, s') /\
    mapped self s s' bm v (Z.lor pa fl) flush.
Proof.
  intros Hs He Hc. pose proof (map_page_wp self v pa fl flush s bm Hs He) as H. unfold wp in H.
  destruct (vmm.map_page _ _ _ _ _ _) as [[[]|f] s'].
  - eauto.
  - destruct H as [_ H]. pose proof (um_few _ _ _ _ H). lia.
Qed.

(**  [map_page] has one failure, the [expect] of [get_next_level] when no
    frame is left.  It needs a state with fewer than three free frames, and
    leaves every translation and the well-formedness of tables and allocator as
    they were. *)
Theorem map_page_failure self v pa fl flush s bm f s' :
  space_ok s bm (pagemap self) -> 0 <= Z.lor pa fl < 2 ^ 64 ->
  vmm.map_page self v pa fl flush s = (Fault f, s') ->
  f = Expect /\ unmapped self s s' bm.
Proof.
  intros Hs He Hr. pose proof (map_page_wp self v pa fl flush s bm Hs He) as H. unfold wp in H.
  by rewrite Hr in H.
Qed.

(**  [get_mapping] reads the translation: it returns the entry of the page,
    0 when a table is missing.  It may create the missing tables (or panic for
    lack of frames), but changes no translation. *)
Theorem get_mapping_reads_walk self v s bm e s' :
  space_ok s bm (pagemap self) -> vmm.get_mapping self v s = (Ret e, s') ->
  e = walk (p_mem (v_p s)) (pagemap self) v /\ space_ok s' bm (pagemap self) /\
  forall v', walk (p_mem (v_p s')) (pagemap self) v' = walk (p_mem (v_p s)) (pagemap self) v'.
Proof.
  intros Hs Hr. pose proof (get_mapping_wp self v s bm Hs) as H. unfold wp in H.
  rewrite Hr in H. by destruct H as (? & ? & ? & _).
Qed.

(** C6.  Round trip: after [map_page] of a page aligned frame below 2^52 with
    any flag bits, [get_mapping] of the same address succeeds without changing
    the state, and the [PageMapping] it returns gives back the frame and each
    flag. *)
Theorem map_get_roundtrip self v pa fl flush s bm s1 :
  space_ok s bm (pagemap self) -> 0 <= pa < 2 ^ 52 -> pa mod PAGE_SIZE = 0 ->
  0 <= fl < 2 ^ 64 -> Z.land fl 0x000ffffffffff000 = 0 ->
  vmm.map_page self v pa fl flush s = (Ret tt, s1) ->
  exists e, vmm.get_mapping self v s1 = (Ret e, s1) /\
    PageMapping.phys_addr e = pa /\
    PageMapping.is_present e = contains fl PageFlags.PRESENT /\
    PageMapping.is_writable e = contains fl PageFlags.WRITABLE /\
    PageMapping.is_usermode e = contains fl PageFlags.USERMODE /\
    PageMapping.is_uncacheable e = contains fl PageFlags.UNCACHEABLE /\
    PageMapping.is_mmaped e = contains fl PageFlags.MMAPED /\
    PageMapping.is_non_exec e = contains fl PageFlags.NX.
Proof.
  intros Hs Hpa Hal Hfl Hmask Hr.
  assert (He : 0 <= Z.lor pa fl < 2 ^ 64) by (apply lor_range; lia).
  pose proof (map_page_wp self v pa fl flush s bm Hs He) as Hm. unfold wp in Hm.
  rewrite Hr in Hm. destruct (mp_ok _ _ _ _ _ _ _ Hm) as (Hal1 & Hpmm1 & Hpt1).
  destruct (mp_tbl _ _ _ _ _ _ _ Hm) as [t Ht].
  exists (Z.lor pa fl). split.
  - pose proof (mp_walk _ _ _ _ _ _ _ Hm v) as Hw. rewrite decide_True in Hw by done.
    unfold walk in Hw. rewrite Ht in Hw.
    by rewrite (get_mapping_present self v s1 bm t), Hw.
  - split; [by apply remove_flags_entry|].
    unfold PageMapping.is_present, PageMapping.is_writable, PageMapping.is_usermode,
      PageMapping.is_uncacheable, PageMapping.is_mmaped, PageMapping.is_non_exec.
    split_and!; apply entry_bit; try done; apply page_addr_bits; auto; lia.
Qed.

(** C20.  [VirtualMemManager::new(true)] with a free frame gives a well-formed
    address space without ranges whose translations are the kernel's under the
    top-level entries 256 and 511 and none elsewhere; the kernel's own
    translations stay as they were. *)
Theorem new_shares_kernel k s bm :
  v_kernel s = Some k -> space_ok s bm (pagemap k) ->
  (1 <= free_count (p_mem (v_p s)) bm)%nat ->
  exists self s', vmm.new true s = (Ret self, s') /\ ranges self = [] /\
    space_ok s' bm (pagemap self) /\ space_ok s' bm (pagemap k) /\
    (forall v, walk (p_mem (v_p s')) (pagemap self) v =
       if shared_half (VirtAddr.pml4 v) then walk (p_mem (v_p s)) (pagemap k) v else 0) /\
    (forall v, walk (p_mem (v_p s')) (pagemap k) v = walk (p_mem (v_p s)) (pagemap k) v).
Proof.
  intros Hk Hs Hc. pose proof (new_user_wp k s bm Hk Hs) as H. unfold wp in H.
  destruct (vmm.new true s) as [[self|f] s'].
  - destruct H as (? & ? & ? & ? & ?). by exists self, s'.
  - destruct H as (_ & _ & H). rewrite H in Hc. lia.
Qed.

(** C26.  [mmap] at a page aligned address, with [FIXED] or no range in the way,
    and three free frames per page: exactly the pages of the region get the
    lazy entry [NX | MMAPED] over frame 0, and the range is appended to the
    list. *)
Theorem mmap_maps_region self a len prot flags fd off s bm :
  space_ok s bm (pagemap self) -> region_ok a len -> Forall range_ok (ranges self) ->
  contains flags MapFlags.FIXED = true \/ existsb (conflicts a (a + len)) (ranges self) = false ->
  3 * cdiv len PAGE_SIZE <= Z.of_nat (free_count (p_mem (v_p s)) bm) ->
  exists self' s', vmm.mmap self (Some a) len prot flags fd off s = (Ret self', s') /\
    pagemap self' = pagemap self /\
    ranges self' = ranges self ++ [mkRange a len prot flags off fd] /\
    space_ok s' bm (pagemap self') /\
    forall v, walk (p_mem (v_p s')) (pagemap self') v =
      if decide (span a (Z.to_nat (cdiv len PAGE_SIZE)) v) then mmap_entry
      else walk (p_mem (v_p s)) (pagemap self) v.
Proof.
  intros Hs Hreg Hrs Hfix Hc.
  pose proof (mmap_wp self a len prot flags fd off s bm Hs Hreg Hrs Hfix) as H. unfold wp in H.
  destruct (vmm.mmap _ _ _ _ _ _ _ _) as [[self'|f] s'].
  - destruct H as (Ep & Er & Hok & Hw). exists self', s'. by rewrite Ep.
  - destruct H as (_ & _ & H). lia.
Qed.

(**  Without [FIXED], an [mmap] whose start or end lies strictly inside an
    existing range ends in [todo!()], and so does one without an address; with
    [FIXED] and no address nothing happens. *)
Theorem mmap_needs_free_range self address len prot flags fd off s :
  0 <= len -> Forall range_ok (ranges self) ->
  match address with
  | Some a => 0 <= a /\ a + len < 2 ^ 64 /\ contains flags MapFlags.FIXED = false /\
      existsb (conflicts a (a + len)) (ranges self) = true
  | None => True
  end ->
  vmm.mmap self address len prot flags fd off s =
    (if bool_decide (address = None) && contains flags MapFlags.FIXED then Ret self
     else Fault Todo, s).
Proof.
  intros Hl Hrs Ha. unfold vmm.mmap. destruct address as [a|].
  - destruct Ha as (Ha & Hal & Hf & Hc). rewrite bool_decide_false, Hf by done. simpl.
    unfold bind, uadd. rewrite chk_ok by (unfold u64; lia). by rewrite fit_range_ok, Hc.
  - rewrite bool_decide_true by done. simpl. by destruct (contains flags _).
Qed.

(**  The overlap test of [mmap] compares only the end points, strictly: a
    second [mmap] of a region already mapped, even without [FIXED], is accepted
    and leaves two ranges over the same addresses. *)
Theorem mmap_same_region_twice self a len prot flags fd off s bm r :
  space_ok s bm (pagemap self) -> region_ok a len ->
  3 * cdiv len PAGE_SIZE <= Z.of_nat (free_count (p_mem (v_p s)) bm) ->
  ranges self = [r] -> r_base r = a -> r_length r = len ->
  exists self' s', vmm.mmap self (Some a) len prot flags fd off s = (Ret self', s') /\
    ranges self' = [r; mkRange a len prot flags off fd].
Proof.
  intros Hs Hreg Hc Hr Hb Hl. pose proof Hreg as (? & _ & ? & ?).
  pose proof (mmap_wp self a len prot flags fd off s bm Hs Hreg) as Hw. unfold wp in Hw.
  rewrite Hr in Hw.
  destruct (vmm.mmap _ _ _ _ _ _ _ _) as [[self'|f] s'].
  - destruct Hw as (_ & Er & _); [| |by exists self', s'].
    + apply list.Forall_singleton. unfold range_ok. lia.
    + right. simpl. unfold conflicts, inside. lia.
  - destruct Hw as (_ & _ & Hx); [| |lia].
    + apply list.Forall_singleton. unfold range_ok. lia.
    + right. simpl. unfold conflicts, inside. lia.
Qed.

(**  [get_range] returns the first range that contains the address, except
    that a range does not contain its own start. *)
Theorem get_range_excludes_start self a s :
  Forall range_ok (ranges self) ->
  vmm.get_range (ranges self) a s = (Ret (List.find (inside a) (ranges self)), s) /\
  (forall r, r ∈ ranges self -> List.find (inside a) (ranges self) = Some r -> r_base r <> a).
Proof.
  intros H. split; [by apply get_range_ok|].
  intros r _ Hr. apply List.find_some in Hr as [_ Hr]. unfold inside in Hr. lia.
Qed.

(**  [PageFlags::from] gives [NX] for every protection: [MapProt::NONE] is
    0, which every value contains, so the early return is always taken and
    [READ], [WRITE] and [EXEC] never reach a page table. *)
Theorem from_prot_ignores prot : from_prot prot = PageFlags.NX.
Proof. apply from_prot_nx. Qed.

End claims.

(** ** Witnesses *)

Lemma map_page_correct_witness :
  space_ok vs_w bm_w 0x4000 /\
  exists s', vmm.map_page self_w 0x400123 0x6000 7 true vs_w = (Ret tt, s') /\
    walk (p_mem (v_p s')) 0x4000 0x400fff = 0x6007 /\ v_flushed s' = [0x400123].
Proof.
  split; [exact vs_w_ok|].
  destruct (map_page_correct self_w 0x400123 0x6000 7 true vs_w bm_w) as (s' & Hr & Hm).
  - exact vs_w_ok.
  - vm_compute. split; [intros Hlt; discriminate Hlt|reflexivity].
  - vm_compute. repeat constructor.
  - exists s'. split; [exact Hr|]. split; [|exact (mp_flush _ _ _ _ _ _ _ Hm)].
    pose proof (mp_walk _ _ _ _ _ _ _ Hm 0x400fff) as Hw.
    rewrite decide_True in Hw by reflexivity. exact Hw.
Defined.

(** With one frame left, [map_page] cannot make the three tables. *)
Definition mem_1 : mem := {[ 0x1000 := 0x04 ]}.
Definition vs_1 : vstate unit := mkVS (mkP mem_1 (Some bm_w)) (Some self_w) 0x4000 [].

Lemma vs_1_ok : space_ok vs_1 bm_w 0x4000.
Proof.
  split_and!; [done|apply pmm_check_sound; vm_compute; reflexivity|]. apply pt_inv_empty.
  - split; [done|done|by vm_compute|right; by vm_compute].
  - intros i Hi. apply rdn_zero. intros x Hx. unfold rd8. simpl. unfold mem_1.
    rewrite lookup_singleton_ne; [done|]. unfold idx_ok in Hi. lia.
Qed.

Lemma map_page_failure_witness :
  space_ok vs_1 bm_w 0x4000 /\
  exists f s', vmm.map_page self_w 0x400123 0x6000 7 true vs_1 = (Fault f, s') /\ f = Expect /\
    unmapped self_w vs_1 s' bm_w.
Proof.
  split; [exact vs_1_ok|].
  destruct (run_result (vmm.map_page self_w 0x400123 0x6000 7 true vs_1) (Fault Expect)) as [s' Hr].
  { vm_compute. reflexivity. }
  exists Expect, s'. split; [exact Hr|].
  apply (map_page_failure self_w 0x400123 0x6000 7 true vs_1 bm_w Expect s' vs_1_ok); [|exact Hr].
  vm_compute. split; [intros H; discriminate H|reflexivity].
Defined.

Lemma get_mapping_reads_walk_witness :
  space_ok vs_w bm_w 0x4000 /\
  exists s', vmm.get_mapping self_w 0x400123 vs_w = (Ret 0, s') /\
    0 = walk (p_mem (v_p vs_w)) 0x4000 0x400123.
Proof.
  split; [exact vs_w_ok|].
  destruct (run_result (vmm.get_mapping self_w 0x400123 vs_w) (Ret 0)) as [s' Hr].
  { vm_compute. reflexivity. }
  exists s'. split; [exact Hr|].
  exact (proj1 (get_mapping_reads_walk self_w 0x400123 vs_w bm_w 0 s' vs_w_ok Hr)).
Defined.

Lemma map_get_roundtrip_witness :
  space_ok vs_w bm_w 0x4000 /\
  exists s' e, vmm.get_mapping self_w 0x400123 s' = (Ret e, s') /\
    PageMapping.phys_addr e = 0x6000 /\ PageMapping.is_writable e = true.
Proof.
  split; [exact vs_w_ok|].
  destruct (run_result (vmm.map_page self_w 0x400123 0x6000 7 true vs_w) (Ret tt)) as [s' Hr].
  { vm_compute. reflexivity. }
  destruct (map_get_roundtrip self_w 0x400123 0x6000 7 true vs_w bm_w s' vs_w_ok) as (e & Hg & Hp & _ & Hw & _).
  - lia.
  - reflexivity.
  - lia.
  - reflexivity.
  - exact Hr.
  - exists s', e. split; [exact Hg|]. split; [exact Hp|]. rewrite Hw. reflexivity.
Defined.

Lemma new_shares_kernel_witness :
  space_ok vs_w bm_w 0x4000 /\
  exists self s', vmm.new true vs_w = (Ret self, s') /\ ranges self = [] /\
    walk (p_mem (v_p s')) (pagemap self) 0x400000 = 0.
Proof.
  split; [exact vs_w_ok|].
  destruct (new_shares_kernel self_w vs_w bm_w) as (self & s' & Hr & Hn & _ & _ & Hw & _).
  - reflexivity.
  - exact vs_w_ok.
  - vm_compute. repeat constructor.
  - exists self, s'. split; [exact Hr|]. split; [exact Hn|]. rewrite Hw. reflexivity.
Defined.

Lemma mmap_maps_region_witness :
  space_ok vs_w bm_w 0x4000 /\
  exists self' s',
    vmm.mmap self_w (Some 0x400000) 0x1000 MapProt.READ MapFlags.PRIVATE None 0 vs_w
      = (Ret self', s') /\
    walk (p_mem (v_p s')) (pagemap self') 0x400010 = mmap_entry.
Proof.
  split; [exact vs_w_ok|].
  destruct (mmap_maps_region self_w 0x400000 0x1000 MapProt.READ MapFlags.PRIVATE None 0 vs_w bm_w)
    as (self' & s' & Hr & _ & _ & _ & Hw).
  - exact vs_w_ok.
  - split_and!; reflexivity || lia.
  - constructor.
  - right. reflexivity.
  - vm_compute. intros H. discriminate H.
  - exists self', s'. split; [exact Hr|]. rewrite Hw. reflexivity.
Defined.

Definition range_w : VirtMemoryRange unit := mkRange 0x400000 0x1000 MapProt.READ MapFlags.PRIVATE 0 None.
Definition self_r : VirtualMemManager unit := mkVmm 0x4000 [range_w].

Lemma range_w_ok : Forall range_ok (ranges self_r).
Proof. apply list.Forall_singleton. unfold range_ok. simpl. lia. Qed.

Lemma mmap_needs_free_range_witness :
  vmm.mmap self_r (Some 0x400800) 0x1000 MapProt.READ MapFlags.PRIVATE None 0 vs_w
    = (Fault Todo, vs_w).
Proof.
  apply (mmap_needs_free_range self_r (Some 0x400800) 0x1000 MapProt.READ MapFlags.PRIVATE None 0 vs_w).
  - lia.
  - exact range_w_ok.
  - split_and!; reflexivity || lia.
Defined.

Lemma mmap_same_region_twice_witness :
  space_ok vs_w bm_w (pagemap self_r) /\
  exists self' s',
    vmm.mmap self_r (Some 0x400000) 0x1000 MapProt.WRITE MapFlags.PRIVATE None 0 vs_w
      = (Ret self', s') /\ length (ranges self') = 2%nat.
Proof.
  split; [exact vs_w_ok|].
  destruct (mmap_same_region_twice self_r 0x400000 0x1000 MapProt.WRITE MapFlags.PRIVATE None 0
    vs_w bm_w range_w) as (self' & s' & Hr & Hl).
  - exact vs_w_ok.
  - split_and!; reflexivity || lia.
  - vm_compute. intros H. discriminate H.
  - reflexivity.
  - reflexivity.
  - reflexivity.
  - exists self', s'. split; [exact Hr|]. by rewrite Hl.
Defined.

Lemma get_range_excludes_start_witness :
  Forall range_ok (ranges self_r) /\
  vmm.get_range (ranges self_r) 0x400000 vs_w = (Ret None, vs_w) /\
  vmm.get_range (ranges self_r) 0x400001 vs_w = (Ret (Some range_w), vs_w).
Proof.
  split; [exact range_w_ok|]. split.
  - exact (proj1 (get_range_excludes_start self_r 0x400000 vs_w range_w_ok)).
  - exact (proj1 (get_range_excludes_start self_r 0x400001 vs_w range_w_ok)).
Defined.
