(* ===== verification/Slab.v ===== *)
(** * [mm/slab.rs]: the kernel heap

    A chain of caches, one per object size, each with a chain of slabs; a slab
    is a run of pages that starts with the [Slab] struct, and a bitmap of its
    used objects.  [Cache] and [Slab] have Rust's own layout, so the structs live
    in a typed heap (a map from address to struct) beside the byte memory, which
    holds the bitmaps; [size_of::<Slab>()] is a parameter. *)

From S2P Require Import Prelude Memory MathUtil Bitmap Pmm.
From stdpp Require Import gmap strings.
Local Open Scope Z_scope.

Definition OBJS_PER_SLAB : Z := 256.

Record Cache := mkCache {
  c_name : string;
  c_object_size : Z;
  c_pages_per_slab : Z;
  c_slab_count : Z;
  c_slabs : Z;
  c_next : Z;
}.

Record Slab := mkSlab {
  s_free_objs : Z;
  s_object_size : Z;
  s_data : Z;
  s_bitmap : Bitmap;
  s_next : Z;
  s_previous : Z;
}.

(** The state: memory and page allocator, the structs, and
    [SLAB_ALLOCATOR.caches]. *)
Record kheap := mkH {
  h_p : pstate;
  h_caches : gmap Z Cache;
  h_slabs : gmap Z Slab;
  h_head : Z;
}.

Module slab.

Definition on_p {A} : M pstate A -> M kheap A :=
  zoom h_p (fun p h => mkH p (h_caches h) (h_slabs h) (h_head h)).

Definition on_mem {A} (c : M mem A) : M kheap A := on_p (Pmm.on_mem c).

(** Access through a pointer; a null or dangling one is undefined behaviour. *)
Definition read_cache (p : Z) : M kheap Cache :=
  let! o := gets (fun h => h_caches h !! p) in
  match o with Some c => ret c | None => throw BadPointer end.

Definition write_cache (p : Z) (c : Cache) : M kheap unit :=
  modify (fun h => mkH (h_p h) (<[p := c]> (h_caches h)) (h_slabs h) (h_head h)).

Definition read_slab (p : Z) : M kheap Slab :=
  let! o := gets (fun h => h_slabs h !! p) in
  match o with Some s => ret s | None => throw BadPointer end.

Definition write_slab (p : Z) (s : Slab) : M kheap unit :=
  modify (fun h => mkH (h_p h) (h_caches h) (<[p := s]> (h_slabs h)) (h_head h)).

Definition set_head (p : Z) : M kheap unit :=
  modify (fun h => mkH (h_p h) (h_caches h) (h_slabs h) p).

(** Field updates of [&mut] structs. *)
Definition with_slabs (c : Cache) (p : Z) : Cache :=
  mkCache (c_name c) (c_object_size c) (c_pages_per_slab c) (c_slab_count c) p (c_next c).
Definition with_slab_count (c : Cache) (n : Z) : Cache :=
  mkCache (c_name c) (c_object_size c) (c_pages_per_slab c) n (c_slabs c) (c_next c).
Definition with_cnext (c : Cache) (p : Z) : Cache :=
  mkCache (c_name c) (c_object_size c) (c_pages_per_slab c) (c_slab_count c) (c_slabs c) p.
Definition with_free (s : Slab) (n : Z) : Slab :=
  mkSlab n (s_object_size s) (s_data s) (s_bitmap s) (s_next s) (s_previous s).
Definition with_snext (s : Slab) (p : Z) : Slab :=
  mkSlab (s_free_objs s) (s_object_size s) (s_data s) (s_bitmap s) p (s_previous s).

Section slab.
(** [size_of::<Slab>()]. *)
Context (SLAB_STRUCT : Z).

(** [Slab::new]: the slab's address and the parent with its new fields. *)
Definition slab_new (parent : Cache) : M kheap (Z * Cache) :=
  let! r := on_p (pmm.get_calloc (c_pages_per_slab parent)) in
  let! a := expect r in
  let slab_ptr := PhysAddr.higher_half a in
  let! bits := on_p (bitmap_alloc.new PAGE_SIZE) in
  let slab := mkSlab OBJS_PER_SLAB (c_object_size parent) (slab_ptr + SLAB_STRUCT) bits
                     (c_slabs parent) 0 in
  do! write_slab slab_ptr slab in
  let parent := with_slabs parent slab_ptr in
  let! n := uadd usize (c_slab_count parent) 1 in
  ret (slab_ptr, with_slab_count parent n).

(** [Cache::new]. *)
Definition cache_new (name : string) (obj_size : Z) : M kheap Z :=
  let! r := on_p (pmm.get_calloc 1) in
  let! a := expect r in
  let chache_ptr := PhysAddr.higher_half a in
  let! objs := umul usize OBJS_PER_SLAB obj_size in
  let! bytes := uadd usize objs SLAB_STRUCT in
  let! pages := div_ceil bytes PAGE_SIZE in
  let cache := mkCache name obj_size pages 0 0 0 in
  let! (slabs, cache) := slab_new cache in
  let cache := with_slabs cache slabs in
  do! write_cache chache_ptr cache in
  ret chache_ptr.

(** [Slab::alloc]: the loop over the objects. *)
Fixpoint slab_alloc_loop (self : Z) (n : nat) (i : Z) : M kheap Z :=
  match n with
  | O => ret 0
  | S n' =>
      let! s := read_slab self in
      let! used := on_mem (bitmap.is_set (s_bitmap s) i) in
      if negb used then
        do! on_mem (bitmap.set (s_bitmap s) i) in
        let! free := usub usize (s_free_objs s) 1 in
        do! write_slab self (with_free s free) in
        let! off := umul usize i (s_object_size s) in
        ret (s_data s + off)
      else slab_alloc_loop self n' (i + 1)
  end.

Definition slab_alloc (self : Z) : M kheap Z :=
  let! s := read_slab self in
  if s_free_objs s =? 0 then ret 0
  else slab_alloc_loop self (Z.to_nat OBJS_PER_SLAB) 0.

(** [Slab::dealloc]. *)
Definition slab_dealloc (self ptr : Z) : M kheap unit :=
  let! s := read_slab self in
  let! off := usub usize ptr (s_data s) in
  let! bit := udiv off (s_object_size s) in
  let! free := uadd usize (s_free_objs s) 1 in
  do! write_slab self (with_free s free) in
  on_mem (bitmap.clear (s_bitmap s) bit).

(** [while curr_slab.free_objs == 0]; a chain longer than the slabs there are
    is a cycle, on which the loop does not end. *)
Fixpoint find_slab (fuel : nat) (curr_slab : Z) : M kheap Z :=
  match fuel with
  | O => throw OutOfFuel
  | S fuel' =>
      let! s := read_slab curr_slab in
      if s_free_objs s =? 0 then find_slab fuel' (s_next s) else ret curr_slab
  end.

(** [Cache::alloc_obj]. *)
Definition alloc_obj (self : Z) : M kheap Z :=
  let! c := read_cache self in
  let! n := gets (fun h => size (h_slabs h)) in
  let! curr_slab := find_slab (S n) (c_slabs c) in
  let! s := read_slab curr_slab in
  let! curr_slab :=
    (if s_free_objs s =? 0 then
       let! (new_slab, c) := slab_new c in
       do! write_cache self c in
       let! ns := read_slab new_slab in
       do! write_slab new_slab (with_snext ns (c_slabs c)) in
       do! write_cache self (with_slabs c new_slab) in
       ret new_slab
     else ret curr_slab) in
  slab_alloc curr_slab.

(** [Cache::free_obj]: the search, which gives the slab that holds [ptr]; the
    reborrow of a null [next] is no access. *)
Fixpoint find_owner (n : nat) (pages_per_slab curr_slab ptr : Z) : M kheap (option Z) :=
  match n with
  | O => ret None
  | S n' =>
      let! s := read_slab curr_slab in
      if s_data s <=? ptr then
        let! len := umul usize pages_per_slab PAGE_SIZE in
        let! hi := uadd usize (s_data s) len in
        if ptr <? hi then ret (Some curr_slab)
        else find_owner n' pages_per_slab (s_next s) ptr
      else find_owner n' pages_per_slab (s_next s) ptr
  end.

Definition free_obj (self ptr : Z) : M kheap unit :=
  let! c := read_cache self in
  let! found := find_owner (Z.to_nat (c_slab_count c)) (c_pages_per_slab c) (c_slabs c) ptr in
  match found with
  | None => throw Panicked
  | Some curr_slab => slab_dealloc curr_slab ptr
  end.

(** [SlabAllocator]. *)
Definition add_cache (name : string) (obj_size : Z) : M kheap unit :=
  let! caches := gets h_head in
  if caches =? 0 then
    let! p := cache_new name obj_size in
    set_head p
  else
    let! new_cache := cache_new name obj_size in
    let! caches := gets h_head in
    let! c := read_cache new_cache in
    do! write_cache new_cache (with_cnext c caches) in
    set_head new_cache.

(** The walk of [cache_for]; fuel as in [find_slab]. *)
Fixpoint cache_walk (fuel : nat) (curr_cache size : Z) : M kheap Z :=
  match fuel with
  | O => throw OutOfFuel
  | S fuel' =>
      if curr_cache =? 0 then ret curr_cache
      else
        let! c := read_cache curr_cache in
        if c_object_size c <? size then cache_walk fuel' (c_next c) size else ret curr_cache
  end.

Definition cache_for (size : Z) : M kheap (option Z) :=
  let! head := gets h_head in
  let! n := gets (fun h => base.size (h_caches h)) in
  let! curr_cache := cache_walk (S n) head size in
  if curr_cache =? 0 then ret None
  else
    let! c := read_cache curr_cache in
    if c_object_size c <? size then ret None else ret (Some curr_cache).

Definition init : M kheap unit :=
  do! add_cache "4096 bytes" 4096 in
  do! add_cache "2048 bytes" 2048 in
  do! add_cache "1024 bytes" 1024 in
  do! add_cache "512 bytes" 512 in
  do! add_cache "256 bytes" 256 in
  do! add_cache "128 bytes" 128 in
  do! add_cache "64 bytes" 64 in
  do! add_cache "32 bytes" 32 in
  do! add_cache "16 bytes" 16 in
  add_cache "8 bytes" 8.

(** [GlobalAlloc]: the layout is its size; its alignment is not used. *)
Definition alloc (size : Z) : M kheap Z :=
  let! r := cache_for size in
  match r with
  | Some cache => alloc_obj cache
  | None => throw Panicked
  end.

Definition dealloc (ptr size : Z) : M kheap unit :=
  let! r := cache_for size in
  match r with
  | Some cache => free_obj cache ptr
  | None => throw Panicked
  end.

End slab.
End slab.

(** ** The classes of the heap *)

Definition fptr (frame : Z) : Z := PhysAddr.higher_half (frame * PAGE_SIZE).

(** What a cache and its slab are made of: the frames of the [Cache], of the
    slab and of its bitmap. *)
Record cls := mkCls { k_name : string; k_size : Z; k_cache : Z; k_slab : Z; k_bits : Z }.

#[export] Instance cls_eq_dec : EqDecision cls.
Proof. solve_decision. Defined.

Definition k_bitmap (k : cls) : Bitmap := mkBitmap (fptr (k_bits k)) PAGE_SIZE PAGE_SIZE.

(** Object [i] of the class is in use. *)
Definition used (m : mem) (k : cls) (i : Z) : bool := test m (k_bitmap k) i.

Definition free_cnt (m : mem) (k : cls) : Z :=
  Z.of_nat (length (filter (fun i => negb (used m k i) = true) (seqZ 0 OBJS_PER_SLAB))).

Definition first_free (m : mem) (k : cls) : option Z :=
  List.find (fun i => negb (used m k i)) (seqZ 0 OBJS_PER_SLAB).

Definition head_of (ks : list cls) : Z :=
  match ks with [] => 0 | k :: _ => fptr (k_cache k) end.

Section heap.
Context (SZ : Z) (HSZ : 0 <= SZ <= PAGE_SIZE).

Definition k_pages (size : Z) : Z := cdiv (OBJS_PER_SLAB * size + SZ) PAGE_SIZE.

Definition k_data (k : cls) : Z := fptr (k_slab k) + SZ.
Definition obj (k : cls) (i : Z) : Z := k_data k + i * k_size k.

Definition the_cache (k : cls) (next : Z) : Cache :=
  mkCache (k_name k) (k_size k) (k_pages (k_size k)) 1 (fptr (k_slab k)) next.

Definition the_slab (m : mem) (k : cls) : Slab :=
  mkSlab (free_cnt m k) (k_size k) (k_data k) (k_bitmap k) 0 0.

Definition cls_runs (k : cls) : list (Z * Z) :=
  [(k_bits k, 1); (k_slab k, k_pages (k_size k)); (k_cache k, 1)].

Fixpoint caches_of (ks : list cls) : gmap Z Cache :=
  match ks with
  | [] => ∅
  | k :: ks' => <[fptr (k_cache k) := the_cache k (head_of ks')]> (caches_of ks')
  end.

(** The heap made of the classes [ks]: all its frames are live blocks of the
    page allocator, so they are pairwise disjoint. *)
Record heap_inv (m0 : mem) (bm : Bitmap) (ks : list cls) (h : kheap) : Prop := {
  hv_alloc : p_alloc (h_p h) = Some bm;
  hv_hist : hist_inv m0 bm (p_mem (h_p h), ks ≫= cls_runs);
  hv_sizes : Forall (fun k => 0 < k_size k <= PAGE_SIZE) ks;
  hv_head : h_head h = head_of ks;
  hv_caches : h_caches h = caches_of ks;
  hv_null : h_slabs h !! 0 = None;
  hv_slabs : forall k, k ∈ ks -> h_slabs h !! fptr (k_slab k) = Some (the_slab (p_mem (h_p h)) k);
}.

Context (m0 : mem) (bm : Bitmap) (Hm0 : pmm_inv m0 bm).
(** Less than 64 TiB, so that no address computation wraps. *)
Context (Hmem : frames bm * PAGE_SIZE <= 2 ^ 46).

Lemma cover_app L1 L2 q : cover (L1 ++ L2) q = cover L1 q + cover L2 q.
Proof. induction L1 as [|[p n] L1 IH]; simpl; [lia|]. rewrite IH. lia. Qed.

Lemma k_pages_pos size : 0 < size <= PAGE_SIZE -> 0 < k_pages size.
Proof.
  intros Hs. unfold k_pages, cdiv, OBJS_PER_SLAB, PAGE_SIZE in *. apply Z.div_str_pos. lia.
Qed.

Lemma runs_elem ks k r : k ∈ ks -> r ∈ cls_runs k -> r ∈ (ks ≫= cls_runs).
Proof. intros Hk Hr. apply list_elem_of_bind. eauto. Qed.

Lemma fptr_add f : 0 <= f * PAGE_SIZE < 2 ^ 47 -> fptr f = f * PAGE_SIZE + PHYS_BASE.
Proof. apply higher_half_add. Qed.

Lemma fptr_inj f g : 0 <= f < frames bm -> 0 <= g < frames bm -> fptr f = fptr g -> f = g.
Proof.
  intros Hf Hg. unfold PAGE_SIZE in *. rewrite !fptr_add by (unfold PAGE_SIZE; lia).
  unfold PAGE_SIZE. lia.
Qed.

Lemma fptr_pos f : 0 <= f < frames bm -> PHYS_BASE <= fptr f.
Proof. intros Hf. unfold PAGE_SIZE in *. rewrite fptr_add; unfold PAGE_SIZE; lia. Qed.

(** Taking free frames leaves the blocks in use alone. *)
Lemma taken_live m L m' p n q r :
  hist_inv m0 bm (m, L) -> (p, n) ∈ L -> first_fit (test m bm) (frames bm) r = Some q -> 0 < r ->
  taken m m' bm q r -> agree m m' (p * PAGE_SIZE) (n * PAGE_SIZE).
Proof.
  intros Hh Hin Hff Hr Ht x Hx. destruct (hi_blocks _ _ _ Hh p n Hin) as (?&?&?).
  apply first_fit_bounds in Hff as (Hq & Hle & Hf & _); [|done].
  assert (p <= x / PAGE_SIZE < p + n).
  { unfold PAGE_SIZE in *. split; [apply Z.div_le_lower_bound | apply Z.div_lt_upper_bound]; lia. }
  apply (tk_frame _ _ _ _ _ Ht).
  - intros Hx'. destruct (live_frame _ _ _ _ p n (x / PAGE_SIZE) Hh Hin) as (_ & Hu & _); [done|].
    rewrite Hf in Hu; [done|]. unfold PAGE_SIZE in *.
    split; [apply Z.div_le_lower_bound | apply Z.div_lt_upper_bound]; lia.
  - eapply live_off_storage; eauto. unfold PAGE_SIZE in *. lia.
Qed.

(** A free frame is in no live block. *)
Lemma free_not_live m L p n q :
  hist_inv m0 bm (m, L) -> (p, n) ∈ L -> test m bm q = true -> ~ (p <= q < p + n).
Proof.
  intros Hh Hin Hf Hq. destruct (live_frame _ _ _ _ p n q Hh Hin Hq) as (_ & Hu & _). congruence.
Qed.

Section cls_facts.
Context (m : mem) (ks : list cls) (Hh : hist_inv m0 bm (m, ks ≫= cls_runs)).

Lemma run_bounds k p n : k ∈ ks -> (p, n) ∈ cls_runs k -> 0 < p /\ 0 < n /\ p + n <= frames bm.
Proof. intros Hk Hr. apply (hi_blocks _ _ _ Hh). by apply (runs_elem ks k). Qed.

Lemma bits_bounds k : k ∈ ks -> 0 < k_bits k < frames bm.
Proof. intros Hk. pose proof (run_bounds k (k_bits k) 1 Hk ltac:(by left)). lia. Qed.

Lemma slab_bounds k : k ∈ ks -> 0 < k_slab k /\ k_slab k + k_pages (k_size k) <= frames bm /\
  0 < k_pages (k_size k).
Proof. intros Hk. pose proof (run_bounds k (k_slab k) _ Hk ltac:(right; by left)). lia. Qed.

Lemma cache_bounds k : k ∈ ks -> 0 < k_cache k < frames bm.
Proof. intros Hk. pose proof (run_bounds k (k_cache k) 1 Hk ltac:(right; right; by left)). lia. Qed.

Lemma bits_base k : k ∈ ks -> bm_base (k_bitmap k) = k_bits k * PAGE_SIZE.
Proof.
  intros Hk. pose proof (bits_bounds k Hk). unfold bm_base, k_bitmap, fptr. simpl.
  apply phys_higher_half. unfold PAGE_SIZE in *. lia.
Qed.

Lemma bits_wf k : k ∈ ks -> bm_wf (k_bitmap k).
Proof.
  intros Hk. pose proof (bits_bounds k Hk). split; [done|done|]. rewrite bits_base by done.
  simpl. unfold PAGE_SIZE in *. lia.
Qed.

(** Frames of different classes are different. *)
Lemma classes_apart k k' p n p' n' q :
  k ∈ ks -> k' ∈ ks -> k <> k' -> (p, n) ∈ cls_runs k -> (p', n') ∈ cls_runs k' ->
  p <= q < p + n -> p' <= q < p' + n' -> False.
Proof.
  intros Hk Hk' Hne Hr Hr' Hq Hq'.
  destruct (live_frame _ _ _ _ p n q Hh) as (_ & _ & Hc); [by apply (runs_elem ks k)|done|].
  apply list_elem_of_split in Hk as (l1 & l2 & ->).
  assert (k' ∈ l1 ++ l2) as Hin.
  { apply elem_of_app. apply elem_of_app in Hk' as [?|[?|?]%elem_of_cons]; [by left|done|by right]. }
  revert Hc. rewrite bind_app, bind_cons, !cover_app.
  pose proof (cover_elem _ _ _ _ Hr Hq).
  pose proof (cover_elem _ _ _ _ (runs_elem _ _ _ Hin Hr') Hq') as Hc2.
  rewrite bind_app, cover_app in Hc2. lia.
Qed.

(** The runs of one class are different too. *)
Lemma class_runs_apart k q : k ∈ ks -> cover (cls_runs k) q <= 1.
Proof.
  intros Hk. destruct (decide (cover (cls_runs k) q <= 1)) as [|Hc]; [done|exfalso].
  assert (exists p n, (p, n) ∈ cls_runs k /\ p <= q < p + n) as (p & n & Hr & Hq).
  { revert Hc. unfold cls_runs. simpl.
    destruct (decide (k_bits k <= q < k_bits k + 1)); [exists (k_bits k), 1; split; [by left|done]|].
    destruct (decide (k_slab k <= q < k_slab k + k_pages (k_size k)));
      [exists (k_slab k), (k_pages (k_size k)); split; [right; by left|done]|].
    case_decide; lia. }
  destruct (live_frame _ _ _ _ p n q Hh) as (_ & _ & H1); [by apply (runs_elem ks k)|done|].
  apply list_elem_of_split in Hk as (l1 & l2 & ->).
  rewrite bind_app, bind_cons, !cover_app in H1.
  pose proof (cover_nonneg (l1 ≫= cls_runs) q). pose proof (cover_nonneg (l2 ≫= cls_runs) q). lia.
Qed.

Lemma used_agree m' k i : k ∈ ks -> 0 <= i < OBJS_PER_SLAB ->
  agree m m' (k_bits k * PAGE_SIZE) PAGE_SIZE -> used m' k i = used m k i.
Proof.
  intros Hk Hi Ha. unfold used. apply test_agree; [by apply bits_wf| |].
  - simpl. unfold OBJS_PER_SLAB, PAGE_SIZE in *. lia.
  - by rewrite bits_base.
Qed.

Lemma free_cnt_agree m' k : k ∈ ks ->
  agree m m' (k_bits k * PAGE_SIZE) PAGE_SIZE -> free_cnt m' k = free_cnt m k.
Proof.
  intros Hk Ha. unfold free_cnt. f_equal. f_equal. apply (filter_bool_ext (fun i => negb (used m' k i)) (fun i => negb (used m k i))).
  intros i Hi. apply elem_of_seqZ in Hi. by rewrite (used_agree m') by (auto; lia).
Qed.

End cls_facts.

(** ** Flipping the bit of one object *)

Definition flip (h : kheap) (k : cls) (i : Z) (v : bool) : kheap :=
  let m := p_mem (h_p h) in
  mkH (mkP (upd m (k_bitmap k) i v) (p_alloc (h_p h))) (h_caches h)
      (<[fptr (k_slab k) := slab.with_free (the_slab m k) (free_cnt m k + if v then -1 else 1)]>
         (h_slabs h)) (h_head h).

Section flip.
Context (ks : list cls) (h : kheap) (k : cls) (i : Z) (v : bool).
Context (Hh : heap_inv m0 bm ks h) (Hk : k ∈ ks) (Hi : 0 <= i < OBJS_PER_SLAB).

Let m := p_mem (h_p h).
Let m' := upd m (k_bitmap k) i v.

Lemma flip_i_bits : 0 <= i < 8 * bm_len (k_bitmap k).
Proof. simpl. unfold OBJS_PER_SLAB, PAGE_SIZE in *. lia. Qed.

Lemma flip_wf : bm_wf (k_bitmap k).
Proof. eapply bits_wf; [apply Hh|done]. Qed.

Lemma flip_addr : k_bits k * PAGE_SIZE <= bit_addr (k_bitmap k) i < (k_bits k + 1) * PAGE_SIZE.
Proof.
  rewrite bit_addr_eq by (apply flip_wf || apply flip_i_bits).
  erewrite bits_base; [|apply Hh|done]. pose proof (bits_bound _ _ flip_i_bits) as Hb.
  simpl in Hb. unfold PAGE_SIZE in *. lia.
Qed.

Lemma flip_hist : hist_inv m0 bm (m', ks ≫= cls_runs).
Proof.
  eapply hist_inv_write; [done|apply Hh| |apply flip_addr]. apply (runs_elem ks k); [done|by left].
Qed.

Lemma flip_used k' j : k' ∈ ks -> 0 <= j < OBJS_PER_SLAB ->
  used m' k' j = if decide (k' = k /\ j = i) then v else used m k' j.
Proof.
  intros Hk' Hj. destruct (decide (k' = k)) as [->|Hne].
  - unfold used, m'. rewrite test_upd.
    + repeat case_decide; intuition congruence.
    + apply flip_wf.
    + apply flip_i_bits.
    + simpl. unfold OBJS_PER_SLAB, PAGE_SIZE in *. lia.
  - rewrite decide_False by intuition congruence. eapply used_agree; [apply Hh|done|done|].
    intros x Hx. apply rd8_wr8_ne. intros E. subst x. pose proof flip_addr.
    eapply (classes_apart m ks (hv_hist _ _ _ _ Hh) k k' (k_bits k) 1 (k_bits k') 1
              (bit_addr (k_bitmap k) i / PAGE_SIZE)); auto; try (by left).
    + unfold PAGE_SIZE in *. split; [apply Z.div_le_lower_bound|apply Z.div_lt_upper_bound]; lia.
    + unfold PAGE_SIZE in *. split; [apply Z.div_le_lower_bound|apply Z.div_lt_upper_bound]; lia.
Qed.

Lemma flip_cnt : used m k i = negb v ->
  free_cnt m' k = free_cnt m k + if v then -1 else 1.
Proof.
  intros Hu. unfold free_cnt. assert (Hin : i ∈ seqZ 0 OBJS_PER_SLAB) by (apply elem_of_seqZ; lia).
  pose proof flip_used as Hfu. clearbody m'. destruct v.
  - rewrite (length_filter_flip (fun j => negb (used m k j)) (fun j => negb (used m' k j)) i).
    + lia.
    + apply NoDup_seqZ.
    + intros q Hq. apply elem_of_seqZ in Hq. rewrite Hfu by (done || lia).
      repeat case_decide; intuition congruence.
    + done.
    + by rewrite Hu.
  - rewrite (length_filter_flip (fun j => negb (used m' k j)) (fun j => negb (used m k j)) i).
    + lia.
    + apply NoDup_seqZ.
    + intros q Hq. apply elem_of_seqZ in Hq. rewrite Hfu by (done || lia).
      repeat case_decide; subst; rewrite ?Hu; intuition congruence.
    + done.
    + rewrite Hfu by done. by rewrite decide_True.
Qed.

Lemma flip_inv : used m k i = negb v -> heap_inv m0 bm ks (flip h k i v).
Proof.
  intros Hu. split; try apply Hh.
  - apply flip_hist.
  - simpl. rewrite lookup_insert_ne; [apply Hh|].
    destruct (slab_bounds m ks (hv_hist _ _ _ _ Hh) k Hk) as (?&?&?).
    pose proof (fptr_pos (k_slab k) ltac:(lia)). unfold PHYS_BASE in *. lia.
  - intros k' Hk'. simpl. fold m m'. destruct (decide (k' = k)) as [->|Hne].
    + rewrite lookup_insert_eq. f_equal. unfold the_slab at 2. rewrite flip_cnt by done. done.
    + rewrite lookup_insert_ne.
      2:{ intros E. destruct (slab_bounds m ks (hv_hist _ _ _ _ Hh) k Hk) as (?&?&?).
          destruct (slab_bounds m ks (hv_hist _ _ _ _ Hh) k' Hk') as (?&?&?).
          apply fptr_inj in E; [|lia..].
          eapply (classes_apart m ks (hv_hist _ _ _ _ Hh) k k' (k_slab k) (k_pages (k_size k))
                    (k_slab k') (k_pages (k_size k')) (k_slab k)); auto; try (right; by left); lia. }
      rewrite (hv_slabs _ _ _ _ Hh) by done. f_equal. unfold the_slab. f_equal. unfold free_cnt.
      f_equal. f_equal. fold m.
      apply (filter_bool_ext (fun j => negb (used m k' j)) (fun j => negb (used m' k' j))).
      intros j Hj. apply elem_of_seqZ in Hj. rewrite flip_used by (done || lia).
      by rewrite decide_False by intuition congruence.
Qed.

End flip.

(** ** What the operations do *)

Lemma read_slab_eq ks h k : heap_inv m0 bm ks h -> k ∈ ks ->
  slab.read_slab (fptr (k_slab k)) h = (Ret (the_slab (p_mem (h_p h)) k), h).
Proof.
  intros Hh Hk. unfold slab.read_slab, bind, gets. by rewrite (hv_slabs _ _ _ _ Hh).
Qed.

Lemma free_cnt_pos m k i : 0 <= i < OBJS_PER_SLAB -> used m k i = false -> 1 <= free_cnt m k.
Proof.
  intros Hi Hu. unfold free_cnt. destruct (filter _ _) eqn:E; simpl; [|lia].
  assert (i ∈ @nil Z) as Hin; [|by apply not_elem_of_nil in Hin].
  rewrite <- E. apply list_elem_of_filter. rewrite Hu. split; [done|]. apply elem_of_seqZ. lia.
Qed.

Lemma free_cnt_zero m k : free_cnt m k = 0 <-> first_free m k = None.
Proof.
  split; intros H.
  - unfold first_free. destruct (List.find _ _) as [i|] eqn:E; [|done].
    apply List.find_some in E as [Hi Hu]. apply list_elem_of_In, elem_of_seqZ in Hi.
    apply negb_true_iff in Hu. pose proof (free_cnt_pos m k i ltac:(lia) Hu). lia.
  - unfold free_cnt. destruct (filter _ _) as [|i l] eqn:E; [done|exfalso].
    assert (i ∈ filter (fun i => negb (used m k i) = true) (seqZ 0 OBJS_PER_SLAB)) as Hin
      by (rewrite E; by left).
    apply list_elem_of_filter in Hin as [Hu Hin]. unfold first_free in H.
    eapply List.find_none in H; [|by apply list_elem_of_In]. simpl in H. congruence.
Qed.

Lemma first_free_range m k i :
  first_free m k = Some i -> 0 <= i < OBJS_PER_SLAB /\ used m k i = false.
Proof.
  intros Ef. apply List.find_some in Ef as [Hi Hu]. apply list_elem_of_In, elem_of_seqZ in Hi.
  apply negb_true_iff in Hu. split; [lia|done].
Qed.

Lemma free_cnt_bound m k : 0 <= free_cnt m k <= OBJS_PER_SLAB.
Proof.
  unfold free_cnt. pose proof (length_filter (fun i => negb (used m k i) = true) (seqZ 0 OBJS_PER_SLAB)).
  rewrite length_seqZ in *. unfold OBJS_PER_SLAB in *. lia.
Qed.

Lemma is_set_heap ks h k i : heap_inv m0 bm ks h -> k ∈ ks -> 0 <= i < OBJS_PER_SLAB ->
  slab.on_mem (bitmap.is_set (k_bitmap k) i) h = (Ret (used (p_mem (h_p h)) k i), h).
Proof.
  intros Hh Hk Hi. destruct h as [[m al] cs ss hd]. unfold slab.on_mem, slab.on_p, Pmm.on_mem, zoom.
  cbn [h_p p_mem]. rewrite is_set_ok; [done|]. simpl. unfold OBJS_PER_SLAB, PAGE_SIZE in *. lia.
Qed.

Lemma slab_alloc_loop_eq ks h k n : forall i,
  heap_inv m0 bm ks h -> k ∈ ks -> 0 <= i -> i + Z.of_nat n <= OBJS_PER_SLAB ->
  slab.slab_alloc_loop (fptr (k_slab k)) n i h =
    match List.find (fun j => negb (used (p_mem (h_p h)) k j)) (seqZ i (Z.of_nat n)) with
    | Some j => (Ret (obj k j), flip h k j true)
    | None => (Ret 0, h)
    end.
Proof.
  induction n as [|n IH]; intros i Hh Hk Hi Hn; [done|].
  rewrite seqZ_cons by lia. replace (Z.pred (Z.of_nat (S n))) with (Z.of_nat n) by lia.
  replace (Z.succ i) with (i + 1) by lia.
  cbn [slab.slab_alloc_loop List.find]. unfold bind at 1. rewrite (read_slab_eq ks) by done.
  unfold bind at 1. cbn [the_slab s_bitmap]. rewrite (is_set_heap ks) by (done || lia).
  destruct (used _ k i) eqn:Hu; cbn [negb]; [apply IH; auto; lia|].
  pose proof (free_cnt_pos _ _ i ltac:(lia) Hu). pose proof (free_cnt_bound (p_mem (h_p h)) k).
  pose proof (proj1 (list.Forall_forall _ _) (hv_sizes _ _ _ _ Hh) k Hk).
  unfold bind, slab.on_mem, slab.on_p, Pmm.on_mem, zoom.
  rewrite set_ok by (simpl; unfold OBJS_PER_SLAB, PAGE_SIZE in *; lia).
  unfold usub, umul. cbn [the_slab s_free_objs s_object_size s_data].
  rewrite chk_ok by (unfold OBJS_PER_SLAB, PAGE_SIZE, usize in *; nia).
  unfold slab.write_slab, modify. rewrite chk_ok by (unfold OBJS_PER_SLAB, PAGE_SIZE, usize in *; nia).
  done.
Qed.

Lemma slab_alloc_eq ks h k : heap_inv m0 bm ks h -> k ∈ ks ->
  slab.slab_alloc (fptr (k_slab k)) h =
    match first_free (p_mem (h_p h)) k with
    | Some i => (Ret (obj k i), flip h k i true)
    | None => (Ret 0, h)
    end.
Proof.
  intros Hh Hk. unfold slab.slab_alloc, bind. rewrite (read_slab_eq ks) by done.
  cbn [the_slab s_free_objs].
  destruct (Z.eqb_spec (free_cnt (p_mem (h_p h)) k) 0) as [E|E].
  - apply free_cnt_zero in E. by rewrite E.
  - by rewrite (slab_alloc_loop_eq ks) by (done || lia).
Qed.

Lemma slab_dealloc_eq ks h k i : heap_inv m0 bm ks h -> k ∈ ks -> 0 <= i < OBJS_PER_SLAB ->
  slab.slab_dealloc (fptr (k_slab k)) (obj k i) h = (Ret tt, flip h k i false).
Proof.
  intros Hh Hk Hi. unfold slab.slab_dealloc, bind. rewrite (read_slab_eq ks) by done.
  pose proof (proj1 (list.Forall_forall _ _) (hv_sizes _ _ _ _ Hh) k Hk) as Hs. cbn beta in Hs.
  pose proof (free_cnt_bound (p_mem (h_p h)) k).
  unfold usub, uadd, obj. cbn [the_slab s_data s_object_size s_free_objs s_bitmap].
  rewrite chk_ok by (unfold OBJS_PER_SLAB, PAGE_SIZE, usize in *; nia).
  replace (k_data k + i * k_size k - k_data k) with (i * k_size k) by lia.
  unfold udiv. destruct (Z.eqb_spec (k_size k) 0); [lia|]. unfold ret at 1.
  rewrite chk_ok by (unfold OBJS_PER_SLAB, usize in *; lia).
  rewrite Z.div_mul by lia. unfold slab.on_mem, slab.on_p, Pmm.on_mem, zoom, slab.write_slab, modify.
  cbn [h_p p_mem].
  by rewrite clear_ok by (simpl; unfold OBJS_PER_SLAB, PAGE_SIZE in *; lia).
Qed.

(** Caches *)

Lemma caches_nodup m ks : hist_inv m0 bm (m, ks ≫= cls_runs) -> NoDup (k_cache <$> ks).
Proof.
  intros Hh. assert (H : forall k, k ∈ ks -> cover (ks ≫= cls_runs) (k_cache k) <= 1).
  { intros k Hk. destruct (live_frame _ _ _ _ (k_cache k) 1 (k_cache k) Hh) as (_ & _ & ->); try lia.
    apply (runs_elem ks k); [done|]. right; right; by left. }
  clear Hh. induction ks as [|k ks IH]; [constructor|]. rewrite fmap_cons. constructor.
  - intros Hin. apply list_elem_of_fmap in Hin as (k' & E & Hk').
    specialize (H k ltac:(by left)). rewrite bind_cons, cover_app in H.
    pose proof (cover_elem (cls_runs k) (k_cache k) 1 (k_cache k) ltac:(right; right; by left) ltac:(lia)).
    assert ((k_cache k', 1) ∈ ks ≫= cls_runs) as Hr.
    { apply (runs_elem ks k'); [done|]. right; right; by left. }
    pose proof (cover_elem _ _ _ (k_cache k) Hr ltac:(lia)). lia.
  - apply IH. intros k' Hk'. specialize (H k' ltac:(by right)). rewrite bind_cons, cover_app in H.
    pose proof (cover_nonneg (cls_runs k) (k_cache k')). lia.
Qed.

Lemma caches_of_lookup ks1 k ks2 :
  NoDup (k_cache <$> (ks1 ++ k :: ks2)) ->
  Forall (fun k => 0 < k_cache k < frames bm) (ks1 ++ k :: ks2) ->
  caches_of (ks1 ++ k :: ks2) !! fptr (k_cache k) = Some (the_cache k (head_of ks2)).
Proof.
  induction ks1 as [|k1 ks1 IH]; intros Hnd Hb; simpl in *; [apply lookup_insert_eq|].
  apply list.NoDup_cons in Hnd as [Hn Hnd]. apply list.Forall_cons in Hb as [Hb1 Hb].
  rewrite lookup_insert_ne; [by apply IH|]. intros E.
  apply list.Forall_app in Hb as [_ [Hbk _]%list.Forall_cons].
  apply fptr_inj in E; [|lia..]. apply Hn. rewrite E. apply list_elem_of_fmap.
  exists k. split; [done|]. apply elem_of_app. right. by left.
Qed.

Lemma caches_of_size ks :
  NoDup (k_cache <$> ks) -> Forall (fun k => 0 < k_cache k < frames bm) ks ->
  size (caches_of ks) = length ks.
Proof.
  induction ks as [|k ks IH]; intros Hnd Hb; simpl; [apply map_size_empty|].
  simpl in Hnd. apply list.NoDup_cons in Hnd as [Hn Hnd]. apply list.Forall_cons in Hb as [Hb1 Hb].
  rewrite map_size_insert_None; [by rewrite IH|].
  clear IH Hnd. induction ks as [|k' ks IH]; simpl; [apply lookup_empty|].
  apply list.Forall_cons in Hb as [Hb2 Hb].
  rewrite lookup_insert_ne; [apply IH; auto|].
  - intros H. apply Hn. by right.
  - intros E. apply fptr_inj in E; [|lia..]. apply Hn. rewrite fmap_cons, E. by left.
Qed.

Lemma caches_bounded m ks : hist_inv m0 bm (m, ks ≫= cls_runs) ->
  Forall (fun k => 0 < k_cache k < frames bm) ks.
Proof. intros Hh. apply list.Forall_forall. intros k Hk. by eapply cache_bounds. Qed.

Lemma read_cache_eq h ks1 k ks2 : heap_inv m0 bm (ks1 ++ k :: ks2) h ->
  slab.read_cache (fptr (k_cache k)) h = (Ret (the_cache k (head_of ks2)), h).
Proof.
  intros Hh. pose proof (hv_hist _ _ _ _ Hh) as Hhist.
  unfold slab.read_cache, bind, gets. rewrite (hv_caches _ _ _ _ Hh), caches_of_lookup; [done| |].
  - by eapply caches_nodup.
  - by eapply caches_bounded.
Qed.

(** The class a request is served from. *)
Definition find_class (size : Z) (ks : list cls) : option cls :=
  List.find (fun k => size <=? k_size k) ks.

Lemma cache_walk_eq h size ks2 : forall ks1 fuel,
  heap_inv m0 bm (ks1 ++ ks2) h -> (length ks2 < fuel)%nat ->
  slab.cache_walk fuel (head_of ks2) size h =
    (Ret (match find_class size ks2 with Some k => fptr (k_cache k) | None => 0 end), h).
Proof.
  induction ks2 as [|k ks2 IH]; intros ks1 [|fuel] Hh Hf; simpl in Hf; try lia; [done|].
  cbn [slab.cache_walk head_of].
  assert (Hk : k ∈ ks1 ++ k :: ks2) by (apply elem_of_app; right; by left).
  pose proof (cache_bounds _ _ (hv_hist _ _ _ _ Hh) k Hk).
  pose proof (fptr_pos (k_cache k) ltac:(lia)).
  destruct (Z.eqb_spec (fptr (k_cache k)) 0); [unfold PHYS_BASE in *; lia|].
  unfold bind. rewrite (read_cache_eq h ks1 k ks2) by done. cbn [the_cache c_object_size c_next].
  unfold find_class. simpl. destruct (Z.ltb_spec (k_size k) size), (Z.leb_spec size (k_size k)); try lia.
  - apply (IH (ks1 ++ [k])); [|lia]. by rewrite <- app_assoc.
  - done.
Qed.

Lemma cache_for_eq ks h size : heap_inv m0 bm ks h ->
  slab.cache_for size h = (Ret ((fun k => fptr (k_cache k)) <$> find_class size ks), h).
Proof.
  intros Hh. pose proof (hv_hist _ _ _ _ Hh) as Hhist. unfold slab.cache_for, bind, gets.
  rewrite (hv_head _ _ _ _ Hh), (cache_walk_eq h size ks []).
  2: done.
  2:{ rewrite (hv_caches _ _ _ _ Hh), caches_of_size; [lia| |].
      - by eapply caches_nodup.
      - by eapply caches_bounded. }
  destruct (find_class size ks) as [k|] eqn:E; [|done].
  apply List.find_some in E as [Hin Hs]. apply list_elem_of_In in Hin.
  pose proof (cache_bounds _ _ Hhist k Hin). pose proof (fptr_pos (k_cache k) ltac:(lia)).
  destruct (Z.eqb_spec (fptr (k_cache k)) 0); [unfold PHYS_BASE in *; lia|].
  apply list_elem_of_split in Hin as (ks1 & ks2 & ->).
  rewrite (read_cache_eq h ks1 k ks2) by done. cbn [the_cache c_object_size].
  destruct (Z.ltb_spec (k_size k) size); [lia|]. done.
Qed.

Lemma find_class_split size ks k : find_class size ks = Some k ->
  k ∈ ks /\ size <= k_size k /\ exists ks1 ks2, ks = ks1 ++ k :: ks2.
Proof.
  intros E. apply List.find_some in E as [Hin Hs]. apply list_elem_of_In in Hin.
  split_and!; [done|lia|]. by apply list_elem_of_split.
Qed.

Lemma alloc_obj_eq ks1 k ks2 h : heap_inv m0 bm (ks1 ++ k :: ks2) h ->
  slab.alloc_obj SZ (fptr (k_cache k)) h =
    match first_free (p_mem (h_p h)) k with
    | Some i => (Ret (obj k i), flip h k i true)
    | None => (Fault BadPointer, h)
    end.
Proof.
  intros Hh. assert (Hk : k ∈ ks1 ++ k :: ks2) by (apply elem_of_app; right; by left).
  pose proof (hv_slabs _ _ _ _ Hh k Hk) as Hs. pose proof (hv_null _ _ _ _ Hh) as Hnull.
  unfold slab.alloc_obj, bind, gets. rewrite (read_cache_eq h ks1 k ks2) by done.
  cbn [the_cache c_slabs slab.find_slab]. unfold bind. rewrite (read_slab_eq _ h k Hh Hk).
  cbn [the_slab s_free_objs s_next].
  destruct (Z.eqb_spec (free_cnt (p_mem (h_p h)) k) 0) as [E|E].
  - apply free_cnt_zero in E. rewrite E.
    destruct (size (h_slabs h)) eqn:Esz.
    { apply map_size_empty_inv in Esz. by rewrite Esz, lookup_empty in Hs. }
    simpl. unfold slab.read_slab, bind, gets. by rewrite Hnull.
  - unfold ret at 1. rewrite (read_slab_eq _ h k Hh Hk). cbn [the_slab s_free_objs].
    rewrite (proj2 (Z.eqb_neq _ _) E). unfold ret at 1. rewrite (slab_alloc_eq _ h k Hh Hk).
    destruct (first_free _ _) eqn:Ef; [done|]. by apply free_cnt_zero in Ef.
Qed.

Lemma heap_alloc_eq ks h size k : heap_inv m0 bm ks h -> find_class size ks = Some k ->
  slab.alloc SZ size h =
    match first_free (p_mem (h_p h)) k with
    | Some i => (Ret (obj k i), flip h k i true)
    | None => (Fault BadPointer, h)
    end.
Proof.
  intros Hh Hc. unfold slab.alloc, bind. rewrite (cache_for_eq ks), Hc by done.
  destruct (find_class_split _ _ _ Hc) as (Hk & _ & ks1 & ks2 & ->). simpl.
  by apply (alloc_obj_eq ks1 k ks2).
Qed.

Lemma slab_fits k ks m : hist_inv m0 bm (m, ks ≫= cls_runs) -> k ∈ ks ->
  PHYS_BASE <= k_data k /\ k_data k + k_pages (k_size k) * PAGE_SIZE < 2 ^ 64 /\
  OBJS_PER_SLAB * k_size k + SZ <= k_pages (k_size k) * PAGE_SIZE.
Proof.
  intros Hh Hk. destruct (slab_bounds m ks Hh k Hk) as (?&?&?).
  pose proof (cdiv_bounds (OBJS_PER_SLAB * k_size k + SZ) PAGE_SIZE ltac:(done)) as Hc.
  fold (k_pages (k_size k)) in Hc. unfold k_data.
  rewrite fptr_add by (unfold PAGE_SIZE in *; lia). unfold PAGE_SIZE, PHYS_BASE in *. lia.
Qed.

Lemma heap_dealloc_eq ks h size k i : heap_inv m0 bm ks h -> find_class size ks = Some k ->
  0 <= i < OBJS_PER_SLAB -> slab.dealloc (obj k i) size h = (Ret tt, flip h k i false).
Proof.
  intros Hh Hc Hi. unfold slab.dealloc, bind. rewrite (cache_for_eq ks), Hc by done.
  destruct (find_class_split _ _ _ Hc) as (Hk & _ & ks1 & ks2 & E). simpl.
  pose proof (slab_fits k ks _ (hv_hist _ _ _ _ Hh) Hk) as (Hp & Hlt & Hfit).
  pose proof (proj1 (list.Forall_forall _ _) (hv_sizes _ _ _ _ Hh) k Hk) as Hs. cbn beta in Hs.
  unfold slab.free_obj, bind. rewrite (read_cache_eq h ks1 k ks2) by (by rewrite <- E).
  cbn [the_cache c_slabs c_slab_count c_pages_per_slab]. change (Z.to_nat 1) with 1%nat.
  cbn [slab.find_owner]. unfold bind. rewrite (read_slab_eq ks) by done. cbn [the_slab s_data].
  assert (k_data k <= obj k i < k_data k + k_pages (k_size k) * PAGE_SIZE) as [Ho1 Ho2].
  { unfold obj, OBJS_PER_SLAB in *. nia. }
  rewrite (proj2 (Z.leb_le _ _) Ho1). unfold umul, uadd, usize.
  rewrite chk_ok by (unfold PHYS_BASE, PAGE_SIZE in *; nia).
  rewrite chk_ok by (unfold PHYS_BASE, PAGE_SIZE in *; nia).
  rewrite (proj2 (Z.ltb_lt _ _) Ho2). unfold ret at 1. by apply (slab_dealloc_eq ks).
Qed.

(** ** Building the heap *)

Lemma new_bits_clear m m' p k i : pmm_inv m bm -> k_bits k = p -> 0 < p < frames bm ->
  taken m m' bm p 1 -> 0 <= i < OBJS_PER_SLAB -> used m' k i = false.
Proof.
  intros Hi <- Hr Ht Hj. unfold used, k_bitmap, fptr. eapply new_bitmap_clear; eauto; try lia.
  unfold OBJS_PER_SLAB, PAGE_SIZE in *. lia.
Qed.

Lemma free_cnt_all m k :
  (forall i, 0 <= i < OBJS_PER_SLAB -> used m k i = false) -> free_cnt m k = OBJS_PER_SLAB.
Proof.
  intros H. unfold free_cnt.
  rewrite (filter_bool_ext (fun i => negb (used m k i)) (fun _ => true)).
  - replace (filter (fun _ : Z => true = true) (seqZ 0 OBJS_PER_SLAB)) with (seqZ 0 OBJS_PER_SLAB).
    { by rewrite length_seqZ. }
    generalize (seqZ 0 OBJS_PER_SLAB). intros l. induction l as [|x l IH]; [done|].
    rewrite filter_cons, decide_True by done. by rewrite <- IH.
  - intros i Hi. apply elem_of_seqZ in Hi. by rewrite H by lia.
Qed.

(** The frames a new class takes. *)
Definition class_pages (size : Z) : Z := 2 + k_pages size.

(** The heap with one more cache, built over the memory [m']. *)
Definition grown (h : kheap) (k : cls) (next : Z) (m' : mem) : kheap :=
  mkH (mkP m' (Some bm)) (<[fptr (k_cache k) := the_cache k next]> (h_caches h))
      (<[fptr (k_slab k) := mkSlab OBJS_PER_SLAB (k_size k) (k_data k) (k_bitmap k) 0 0]> (h_slabs h))
      (h_head h).

(** Three allocations in a row, for the cache, the slab and the bitmap. *)
Record fresh_class (m m' : mem) (L : list (Z * Z)) (k : cls) : Prop := {
  fc_hist : hist_inv m0 bm (m', cls_runs k ++ L);
  fc_clear : forall i, 0 <= i < OBJS_PER_SLAB -> used m' k i = false;
  fc_keep : forall p n, (p, n) ∈ L -> agree m m' (p * PAGE_SIZE) (n * PAGE_SIZE);
  fc_slab : forall p n, (p, n) ∈ L -> ~ (p <= k_slab k < p + n);
}.

Lemma cache_new_ok h L name size a r :
  p_alloc (h_p h) = Some bm -> hist_inv m0 bm (p_mem (h_p h), L) ->
  0 < size <= PAGE_SIZE -> room (p_mem (h_p h)) bm a r -> class_pages size <= r ->
  exists k m', slab.cache_new SZ name size h = (Ret (fptr (k_cache k)), grown h k 0 m') /\
    k_name k = name /\ k_size k = size /\ fresh_class (p_mem (h_p h)) m' L k /\
    room m' bm (a + class_pages size) (r - class_pages size).
Proof.
  intros Hal Hh Hs Hroom Hr. pose proof (k_pages_pos size Hs) as Hpg. unfold class_pages in Hr.
  destruct h as [[m al] cs ss hd]. cbn [h_p p_alloc p_mem] in *. subst al.
  pose proof (hi_pmm _ _ _ Hh) as Hi0. cbn [fst] in Hi0.
  destruct (calloc_room (mkP m (Some bm)) bm a r 1) as (c & m1 & E1 & F1 & T1 & I1 & R1);
    [done|done|done|lia|]. cbn [p_mem] in *.
  pose proof (hist_inv_alloc _ _ _ _ 1 _ _ Hh ltac:(lia) F1 T1 I1) as H1.
  destruct (calloc_room (mkP m1 (Some bm)) bm (a + 1) (r - 1) (k_pages size))
    as (q & m2 & E2 & F2 & T2 & I2 & R2); [done|done|done|lia|]. cbn [p_mem] in *.
  pose proof (hist_inv_alloc _ _ _ _ (k_pages size) _ _ H1 ltac:(lia) F2 T2 I2) as H2.
  destruct (calloc_room (mkP m2 (Some bm)) bm (a + 1 + k_pages size) (r - 1 - k_pages size) 1)
    as (b & m3 & E3 & F3 & T3 & I3 & R3); [done|done|done|lia|]. cbn [p_mem] in *.
  pose proof (hist_inv_alloc _ _ _ _ 1 _ _ H2 ltac:(lia) F3 T3 I3) as H3.
  exists (mkCls name size c q b), m3. split_and!; [|done|done| |].
  - unfold slab.cache_new, slab.slab_new, bind. unfold slab.on_p at 1, zoom. cbn [h_p].
    rewrite E1. cbn [expect]. unfold ret at 1.
    unfold umul, uadd, usize.
    rewrite chk_ok by (unfold OBJS_PER_SLAB, PAGE_SIZE in *; lia).
    rewrite chk_ok by (unfold OBJS_PER_SLAB, PAGE_SIZE in *; lia).
    rewrite div_ceil_eq by (unfold OBJS_PER_SLAB, PAGE_SIZE in *; lia).
    fold (k_pages size). cbn [c_pages_per_slab].
    unfold slab.on_p at 1, zoom. cbn [h_p]. rewrite E2. cbn [expect]. unfold ret at 1.
    unfold slab.on_p, zoom. cbn [h_p]. rewrite (bitmap_new_page _ _ _ E3).
    unfold ret, slab.write_slab, slab.write_cache, modify.
    rewrite chk_ok by (cbn; lia). done.
  - split.
    + exact H3.
    + intros i Hi. destruct (hi_blocks _ _ _ H3 b 1 ltac:(by left)) as (?&_&?).
      apply (new_bits_clear m2 m3 b); [done|done|lia|done|done].
    + intros p n Hin x Hx.
      rewrite (taken_live m2 _ m3 p n b 1 H2) by (done || lia || (right; by right)).
      rewrite (taken_live m1 _ m2 p n q (k_pages size) H1) by (done || lia || by right).
      apply (taken_live m L m1 p n c 1 Hh); done || lia.
    + intros p n Hin. eapply free_not_live; [exact H1|by right|]. simpl.
      apply first_fit_bounds in F2 as (_ & _ & Hf & _); [|lia]. apply Hf. lia.
  - unfold class_pages. simpl k_size.
    replace (a + (2 + k_pages size)) with (a + 1 + k_pages size + 1) by lia.
    replace (r - (2 + k_pages size)) with (r - 1 - k_pages size - 1) by lia. done.
Qed.

Lemma grown_inv ks h k m' :
  heap_inv m0 bm ks h -> 0 < k_size k <= PAGE_SIZE ->
  fresh_class (p_mem (h_p h)) m' (ks ≫= cls_runs) k ->
  heap_inv m0 bm (k :: ks)
    (let g := grown h k (head_of ks) m' in mkH (h_p g) (h_caches g) (h_slabs g) (fptr (k_cache k))).
Proof.
  intros Hh Hs Hf. pose proof (fc_hist _ _ _ _ Hf) as Hh'.
  destruct (hi_blocks _ _ _ Hh' (k_slab k) (k_pages (k_size k)) ltac:(right; by left)) as (?&?&?).
  split; simpl; auto.
  - constructor; [done|apply Hh].
  - by rewrite (hv_caches _ _ _ _ Hh).
  - rewrite lookup_insert_ne; [apply Hh|].
    pose proof (fptr_pos (k_slab k) ltac:(lia)). unfold PHYS_BASE in *. lia.
  - intros k' [->|Hk']%elem_of_cons.
    + rewrite lookup_insert_eq. unfold the_slab. by rewrite free_cnt_all by apply Hf.
    + assert (Hin : (k_slab k', k_pages (k_size k')) ∈ (ks ≫= cls_runs)).
      { apply (runs_elem ks k'); [done|]. right; by left. }
      destruct (slab_bounds _ _ (hv_hist _ _ _ _ Hh) k' Hk') as (?&?&?).
      rewrite lookup_insert_ne.
      2:{ intros E. apply fptr_inj in E; [|lia..]. apply (fc_slab _ _ _ _ Hf _ _ Hin). lia. }
      rewrite (hv_slabs _ _ _ _ Hh) by done. unfold the_slab. f_equal. f_equal. symmetry.
      eapply free_cnt_agree; [apply Hh|done|].
      pose proof (fc_keep _ _ _ _ Hf (k_bits k') 1) as Ha. rewrite Z.mul_1_l in Ha. apply Ha.
      apply (runs_elem ks k'); [done|]. by left.
Qed.

Lemma add_cache_ok ks h name size a r :
  heap_inv m0 bm ks h -> 0 < size <= PAGE_SIZE ->
  room (p_mem (h_p h)) bm a r -> class_pages size <= r ->
  exists k h', slab.add_cache SZ name size h = (Ret tt, h') /\ k_name k = name /\ k_size k = size /\
    heap_inv m0 bm (k :: ks) h' /\
    room (p_mem (h_p h')) bm (a + class_pages size) (r - class_pages size) /\
    (forall i, 0 <= i < OBJS_PER_SLAB -> used (p_mem (h_p h')) k i = false) /\
    (forall k' i, k' ∈ ks -> 0 <= i < OBJS_PER_SLAB ->
       used (p_mem (h_p h')) k' i = used (p_mem (h_p h)) k' i).
Proof.
  intros Hh Hs Hroom Hr.
  destruct (cache_new_ok h (ks ≫= cls_runs) name size a r) as (k & m' & E & En & Es & Hf & Hroom');
    [apply Hh|apply Hh|done|done|done|].
  subst size. pose proof (grown_inv ks h k m' Hh Hs Hf) as Hg.
  exists k. eexists. split; [|split; [done|split; [done|split; [exact Hg|]]]].
  - unfold slab.add_cache, bind, gets. cbv beta iota. rewrite (hv_head _ _ _ _ Hh).
    destruct ks as [|k1 ks1].
    { cbn [head_of Z.eqb]. rewrite E. done. }
    cbn [head_of].
    assert (Hk1 : k1 ∈ k1 :: ks1) by (by left).
    pose proof (cache_bounds _ _ (hv_hist _ _ _ _ Hh) k1 Hk1).
    pose proof (fptr_pos (k_cache k1) ltac:(lia)).
    destruct (Z.eqb_spec (fptr (k_cache k1)) 0); [unfold PHYS_BASE in *; lia|].
    rewrite E. cbn [grown h_head]. cbv beta iota. rewrite (hv_head _ _ _ _ Hh).
    unfold slab.read_cache, bind, gets, grown. cbn [h_caches].
    rewrite lookup_insert_eq. unfold ret, slab.write_cache, slab.set_head, modify.
    cbn [h_p h_caches h_slabs]. by rewrite insert_insert_eq.
  - split_and!; [done|apply Hf|]. intros k' i Hk' Hi.
    eapply used_agree; [apply Hh|done|done|].
    pose proof (fc_keep _ _ _ _ Hf (k_bits k') 1) as Ha. rewrite Z.mul_1_l in Ha. apply Ha.
    apply (runs_elem ks k'); [done|]. by left.
Qed.

(** ** [init] *)

Definition class_sizes : list Z := [8; 16; 32; 64; 128; 256; 512; 1024; 2048; 4096].

Definition heap_pages : Z := foldr (fun size n => class_pages size + n) 0 class_sizes.

Definition fresh_heap (m : mem) (ks : list cls) : Prop :=
  forall k i, k ∈ ks -> 0 <= i < OBJS_PER_SLAB -> used m k i = false.

Lemma add_cache_fresh ks h name size a r :
  heap_inv m0 bm ks h -> fresh_heap (p_mem (h_p h)) ks -> 0 < size <= PAGE_SIZE ->
  room (p_mem (h_p h)) bm a r -> class_pages size <= r ->
  exists k h', slab.add_cache SZ name size h = (Ret tt, h') /\ k_size k = size /\
    heap_inv m0 bm (k :: ks) h' /\ fresh_heap (p_mem (h_p h')) (k :: ks) /\
    room (p_mem (h_p h')) bm (a + class_pages size) (r - class_pages size).
Proof.
  intros Hh Hfr Hs Hroom Hr.
  destruct (add_cache_ok ks h name size a r) as (k & h' & E & _ & Es & Hi & Hro & Hc & Hk); auto.
  exists k, h'. split_and!; auto. intros k' i [->|Hin]%elem_of_cons Hlt; [by apply Hc|].
  rewrite Hk by done. by apply Hfr.
Qed.

Lemma heap_init_ok h a r :
  heap_inv m0 bm [] h -> room (p_mem (h_p h)) bm a r -> heap_pages <= r ->
  exists ks h', slab.init SZ h = (Ret tt, h') /\ k_size <$> ks = class_sizes /\
    heap_inv m0 bm ks h' /\ fresh_heap (p_mem (h_p h')) ks /\
    room (p_mem (h_p h')) bm (a + heap_pages) (r - heap_pages).
Proof.
  intros Hh Hroom Hr. unfold heap_pages, class_sizes in Hr. cbn [foldr] in Hr.
  assert (Hpos : forall size, 0 < size <= PAGE_SIZE -> 0 < class_pages size).
  { intros size Hs. pose proof (k_pages_pos size Hs). unfold class_pages. lia. }
  pose proof (Hpos 8 ltac:(done)). pose proof (Hpos 16 ltac:(done)). pose proof (Hpos 32 ltac:(done)).
  pose proof (Hpos 64 ltac:(done)). pose proof (Hpos 128 ltac:(done)).
  pose proof (Hpos 256 ltac:(done)). pose proof (Hpos 512 ltac:(done)).
  pose proof (Hpos 1024 ltac:(done)). pose proof (Hpos 2048 ltac:(done)).
  assert (Hfr : fresh_heap (p_mem (h_p h)) []) by (intros ?? Hin; by apply not_elem_of_nil in Hin).
  unfold slab.init, bind.
  do 10 (match goal with
  | Hi : heap_inv m0 bm ?ks ?h0, Hf : fresh_heap (p_mem (h_p ?h0)) ?ks,
    Hro : room (p_mem (h_p ?h0)) bm ?a0 ?r0 |- context [slab.add_cache SZ ?name ?size ?h0] =>
      let k := fresh "k" in let h1 := fresh "h" in let E := fresh "E" in let Es := fresh "Es" in
      let Hi1 := fresh "Hi" in let Hf1 := fresh "Hf" in let Hro1 := fresh "Hro" in
      destruct (add_cache_fresh ks h0 name size a0 r0 Hi Hf ltac:(done) Hro ltac:(lia))
        as (k & h1 & E & Es & Hi1 & Hf1 & Hro1); rewrite E; clear Hi Hf Hro E
  end).
  eexists. eexists. split; [reflexivity|]. split; [|split; [eassumption|split; [eassumption|]]].
  - simpl. unfold class_sizes. congruence.
  - unfold heap_pages, class_sizes. cbn [foldr].
    match goal with Hr : room _ _ ?x ?y |- room _ _ ?x' ?y' =>
      replace x' with x by lia; replace y' with y by lia; exact Hr end.
Qed.

(** ** Where objects are *)

Definition overlap (a n b k : Z) : Prop := a < b + k /\ b < a + n.

Lemma obj_bounds ks m k i : hist_inv m0 bm (m, ks ≫= cls_runs) -> k ∈ ks -> 0 < k_size k ->
  0 <= i < OBJS_PER_SLAB ->
  k_slab k * PAGE_SIZE + SZ <= obj k i - PHYS_BASE /\
  obj k i - PHYS_BASE + k_size k <= (k_slab k + k_pages (k_size k)) * PAGE_SIZE.
Proof.
  intros Hh Hk Hs Hi. destruct (slab_bounds m ks Hh k Hk) as (?&?&?).
  pose proof (slab_fits k ks m Hh Hk) as (_ & _ & Hfit). unfold obj, k_data in *.
  rewrite fptr_add by (unfold PAGE_SIZE in *; lia). unfold OBJS_PER_SLAB, PAGE_SIZE in *. nia.
Qed.

Lemma objs_apart ks m k i k' j :
  hist_inv m0 bm (m, ks ≫= cls_runs) -> Forall (fun k => 0 < k_size k <= PAGE_SIZE) ks ->
  k ∈ ks -> k' ∈ ks -> 0 <= i < OBJS_PER_SLAB -> 0 <= j < OBJS_PER_SLAB -> (k, i) <> (k', j) ->
  ~ overlap (obj k i) (k_size k) (obj k' j) (k_size k').
Proof.
  intros Hh Hsz Hk Hk' Hi Hj Hne [H1 H2].
  pose proof (proj1 (list.Forall_forall _ _) Hsz k Hk) as Hs. cbn beta in Hs.
  pose proof (proj1 (list.Forall_forall _ _) Hsz k' Hk') as Hs'. cbn beta in Hs'.
  destruct (decide (k = k')) as [<-|Hkk].
  - assert (i <> j) by congruence. unfold obj in *. nia.
  - pose proof (obj_bounds ks m k i Hh Hk ltac:(lia) Hi).
    pose proof (obj_bounds ks m k' j Hh Hk' ltac:(lia) Hj).
    set (q := Z.max (k_slab k) (k_slab k')).
    apply (classes_apart m ks Hh k k' (k_slab k) (k_pages (k_size k)) (k_slab k') (k_pages (k_size k')) q);
      auto; try (right; by left);
      unfold q, PAGE_SIZE in *; lia.
Qed.

Lemma find_class_map size ks :
  k_size <$> find_class size ks = List.find (fun s => size <=? s) (k_size <$> ks).
Proof.
  induction ks as [|k ks IH]; [done|]. unfold find_class in *. simpl.
  by destruct (size <=? k_size k).
Qed.

(** [n] allocations in a row. *)
Fixpoint alloc_n (size : Z) (n : nat) : M kheap (list Z) :=
  match n with
  | O => ret []
  | S n' =>
      let! ps := alloc_n size n' in
      let! p := slab.alloc SZ size in
      ret (ps ++ [p])
  end.

Lemma alloc_n_ok ks h size k n :
  heap_inv m0 bm ks h -> find_class size ks = Some k ->
  (forall i, 0 <= i < OBJS_PER_SLAB -> used (p_mem (h_p h)) k i = false) ->
  Z.of_nat n <= OBJS_PER_SLAB ->
  exists h', alloc_n size n h = (Ret (map (obj k) (seqZ 0 (Z.of_nat n))), h') /\
    heap_inv m0 bm ks h' /\
    forall i, 0 <= i < OBJS_PER_SLAB -> used (p_mem (h_p h')) k i = (i <? Z.of_nat n).
Proof.
  intros Hh Hc Hfr. induction n as [|n IH]; intros Hn.
  { exists h. split_and!; [done|done|]. intros i Hi. rewrite Hfr by done. symmetry. apply Z.ltb_ge. lia. }
  destruct IH as (h1 & E & Hh1 & Hu); [lia|].
  destruct (find_class_split _ _ _ Hc) as (Hk & _).
  assert (Hff : first_free (p_mem (h_p h1)) k = Some (Z.of_nat n)).
  { unfold first_free. change OBJS_PER_SLAB with (Z.of_nat 256). apply find_seqZ_Some.
    unfold OBJS_PER_SLAB in *. split; [lia|]. split.
    { rewrite Hu by lia. by rewrite Z.ltb_irrefl. }
    intros q Hq. rewrite Hu by lia. apply negb_false_iff, Z.ltb_lt. lia. }
  assert (Hun : used (p_mem (h_p h1)) k (Z.of_nat n) = negb true) by (rewrite Hu by lia; apply Z.ltb_irrefl).
  exists (flip h1 k (Z.of_nat n) true). split_and!.
  - simpl. unfold bind. rewrite E, (heap_alloc_eq ks h1 size k Hh1 Hc), Hff. unfold ret.
    replace (Z.of_nat (S n)) with (Z.of_nat n + 1) by lia. rewrite seqZ_app by lia.
    rewrite map_app. done.
  - by apply flip_inv; auto; lia.
  - intros i Hi. simpl. rewrite (flip_used ks h1 k (Z.of_nat n) true Hh1 Hk ltac:(lia) k i Hk Hi).
    rewrite Hu by done. destruct (Z.ltb_spec i (Z.of_nat (S n))), (Z.ltb_spec i (Z.of_nat n));
      case_decide; intuition lia.
Qed.

End heap.

(** ** Properties *)

Section claims.
Context (SZ : Z) (m0 : mem) (bm : Bitmap).
Implicit Types (h : kheap) (ks : list cls) (k : cls).

Abbreviation hmem h := (p_mem (h_p h)).

(** What a theorem about a heap starts from. *)
Record setting ks h : Prop := {
  st_sz : 0 <= SZ <= PAGE_SIZE;
  st_m0 : pmm_inv m0 bm;
  st_mem : frames bm * PAGE_SIZE <= 2 ^ 46;
  st_inv : heap_inv SZ m0 bm ks h;
}.

(** C4.  [alloc] hands out the lowest unused object of the first class that is
    large enough, marks exactly that object used and keeps the heap well formed.
    When that class has no unused object the code follows the null [next] of its
    only slab; the branch that would add a slab cannot be reached. *)
Theorem alloc_fresh_object ks h size k :
  setting ks h -> find_class size ks = Some k ->
  match first_free (hmem h) k with
  | Some i => exists h', slab.alloc SZ size h = (Ret (obj SZ k i), h') /\
      size <= k_size k /\ used (hmem h) k i = false /\ heap_inv SZ m0 bm ks h' /\
      forall k' j, k' ∈ ks -> 0 <= j < OBJS_PER_SLAB ->
        used (hmem h') k' j = if decide (k' = k /\ j = i) then true else used (hmem h) k' j
  | None => slab.alloc SZ size h = (Fault BadPointer, h)
  end.
Proof.
  intros [Hsz H0 Hmem Hh] Hc. destruct (find_class_split _ _ _ Hc) as (Hk & Hs & _).
  pose proof (heap_alloc_eq SZ m0 bm Hmem ks h size k Hh Hc) as E.
  destruct (first_free (hmem h) k) as [i|] eqn:Ef; [|done].
  apply first_free_range in Ef as [Hi Hu]. exists (flip SZ h k i true). split_and!; [done..| |].
  - apply flip_inv; auto; lia.
  - intros k' j Hk' Hj. by apply (flip_used SZ Hsz m0 bm Hmem ks h k i true); try lia.
Qed.

(** C9.  Round trip: freeing what [alloc] just gave restores the use of every
    object of every class, and the heap stays well formed. *)
Theorem alloc_dealloc_roundtrip ks h size k p h1 :
  setting ks h -> find_class size ks = Some k -> slab.alloc SZ size h = (Ret p, h1) ->
  exists h2, slab.dealloc p size h1 = (Ret tt, h2) /\ heap_inv SZ m0 bm ks h2 /\
    forall k' j, k' ∈ ks -> 0 <= j < OBJS_PER_SLAB -> used (hmem h2) k' j = used (hmem h) k' j.
Proof.
  intros [Hsz H0 Hmem Hh] Hc Hr. destruct (find_class_split _ _ _ Hc) as (Hk & Hs & _).
  rewrite (heap_alloc_eq SZ m0 bm Hmem ks h size k Hh Hc) in Hr.
  destruct (first_free (hmem h) k) as [i|] eqn:Ef; [|done]. injection Hr as <- <-.
  apply first_free_range in Ef as [Hi Hu]. rename Hi into Hi'.
  pose proof (flip_used SZ Hsz m0 bm Hmem ks h k i true Hh Hk Hi') as Hf1.
  assert (Hh1 : heap_inv SZ m0 bm ks (flip SZ h k i true)) by (by apply flip_inv).
  pose proof (flip_used SZ Hsz m0 bm Hmem ks _ k i false Hh1 Hk Hi') as Hf2.
  eexists. split; [by apply (heap_dealloc_eq SZ Hsz m0 bm Hmem ks)|]. split.
  - apply flip_inv; auto. cbn [flip h_p p_mem]. rewrite Hf1 by done. by rewrite decide_True.
  - intros k' j Hk' Hj. cbn [flip h_p p_mem] in *. rewrite Hf2, Hf1 by done.
    case_decide as E; [|done]. by destruct E as [-> ->].
Qed.

(** C8.  Memory that [alloc] returns overlaps no object in use, holds the
    requested size, and lies in the pages of a slab, behind the [Slab] struct. *)
Theorem alloc_disjoint ks h size p h1 :
  setting ks h -> slab.alloc SZ size h = (Ret p, h1) ->
  exists k i, k ∈ ks /\ p = obj SZ k i /\ size <= k_size k /\
    used (hmem h) k i = false /\ used (hmem h1) k i = true /\
    (forall k' j, k' ∈ ks -> 0 <= j < OBJS_PER_SLAB -> used (hmem h) k' j = true ->
       ~ overlap p size (obj SZ k' j) (k_size k')) /\
    fptr (k_slab k) + SZ <= p /\ p + size <= fptr (k_slab k) + k_pages SZ (k_size k) * PAGE_SIZE.
Proof.
  intros [Hsz H0 Hmem Hh] Hr. pose proof (hv_hist _ _ _ _ _ Hh) as Hhist.
  destruct (find_class size ks) as [k|] eqn:Hc.
  2:{ unfold slab.alloc, bind in Hr. by rewrite (cache_for_eq SZ m0 bm Hmem ks), Hc in Hr. }
  destruct (find_class_split _ _ _ Hc) as (Hk & Hs & _).
  rewrite (heap_alloc_eq SZ m0 bm Hmem ks h size k Hh Hc) in Hr.
  destruct (first_free (hmem h) k) as [i|] eqn:Ef; [|done]. injection Hr as <- <-.
  apply first_free_range in Ef as (Hi & Hu).
  pose proof (proj1 (list.Forall_forall _ _) (hv_sizes _ _ _ _ _ Hh) k Hk) as Hp. cbn beta in Hp.
  pose proof (obj_bounds SZ Hsz m0 bm Hmem ks _ k i Hhist Hk ltac:(lia) Hi) as Hb.
  destruct (slab_bounds SZ m0 bm _ ks Hhist k Hk) as (?&?&?).
  exists k, i. split_and!; try done.
  - cbn [flip h_p p_mem]. rewrite (flip_used SZ Hsz m0 bm Hmem ks h k i true) by done.
    by rewrite decide_True.
  - intros k' j Hk' Hj Hu' [Ho1 Ho2].
    apply (objs_apart SZ Hsz m0 bm Hmem ks (hmem h) k i k' j Hhist (hv_sizes _ _ _ _ _ Hh) Hk Hk' Hi Hj).
    + intros [= -> ->]. congruence.
    + unfold overlap. lia.
  - rewrite fptr_add by (unfold PAGE_SIZE in *; lia). lia.
  - rewrite fptr_add by (unfold PAGE_SIZE in *; lia). unfold PAGE_SIZE in *. lia.
Qed.

(**  [init] on a kernel without heap, with a run of free frames as long as
    the ten classes need, succeeds: it leaves a well-formed heap whose classes
    are 8, 16, ..., 4096 bytes in this order, with every object unused. *)
Theorem init_builds_classes h a r :
  setting [] h -> room (hmem h) bm a r -> heap_pages SZ <= r ->
  exists ks h', slab.init SZ h = (Ret tt, h') /\ k_size <$> ks = class_sizes /\
    heap_inv SZ m0 bm ks h' /\ fresh_heap (hmem h') ks.
Proof.
  intros [Hsz H0 Hmem Hh] Hroom Hr.
  destruct (heap_init_ok SZ Hsz m0 bm H0 Hmem h a r Hh Hroom Hr) as (ks & h' & E & Hk & Hi & Hf & _).
  eauto 10.
Qed.

(**  With the classes of [init], a request of up to 4096 bytes goes to the
    smallest class that holds it, and a larger one panics. *)
Theorem request_class ks h size :
  setting ks h -> k_size <$> ks = class_sizes ->
  (size <= 4096 -> exists k, find_class size ks = Some k /\ k ∈ ks /\ size <= k_size k /\
     slab.cache_for size h = (Ret (Some (fptr (k_cache k))), h) /\
     forall s, s ∈ class_sizes -> size <= s -> k_size k <= s) /\
  (4096 < size -> slab.alloc SZ size h = (Fault Panicked, h)).
Proof.
  intros [Hsz H0 Hmem Hh] Hks. pose proof (find_class_map size ks) as Hf. rewrite Hks in Hf.
  pose proof (cache_for_eq SZ m0 bm Hmem ks h size Hh) as Hcf.
  unfold class_sizes in Hf. simpl in Hf. split; intros Hs.
  - destruct (find_class size ks) as [k|] eqn:E; simpl in Hf.
    + destruct (find_class_split _ _ _ E) as (Hk & Hle & _). exists k.
      split_and!; try done. intros s Hin Hls. unfold class_sizes in Hin.
      repeat (apply elem_of_cons in Hin as [->|Hin]); [..|by apply not_elem_of_nil in Hin];
        repeat case_match; simplify_eq; lia.
    + repeat case_match; simplify_eq; lia.
  - destruct (find_class size ks) as [k|] eqn:E; simpl in Hf.
    + repeat case_match; simplify_eq; lia.
    + unfold slab.alloc, bind. by rewrite Hcf.
Qed.

(**  A class holds 256 objects and no more: from an unused class, [n <= 256]
    allocations give the objects in address order, and after 256 of them the
    next one dereferences a null pointer instead of adding a slab. *)
Theorem class_capacity ks h size k n :
  setting ks h -> find_class size ks = Some k -> fresh_heap (hmem h) ks ->
  Z.of_nat n <= OBJS_PER_SLAB ->
  exists h', alloc_n SZ size n h = (Ret (map (obj SZ k) (seqZ 0 (Z.of_nat n))), h') /\
    heap_inv SZ m0 bm ks h' /\
    (n = Z.to_nat OBJS_PER_SLAB -> slab.alloc SZ size h' = (Fault BadPointer, h')).
Proof.
  intros [Hsz H0 Hmem Hh] Hc Hfr Hn. destruct (find_class_split _ _ _ Hc) as (Hk & _).
  destruct (alloc_n_ok SZ Hsz m0 bm H0 Hmem ks h size k n Hh Hc) as (h' & E & Hh' & Hu); auto.
  exists h'. split_and!; [done..|]. intros ->.
  rewrite (heap_alloc_eq SZ m0 bm Hmem ks h' size k Hh' Hc).
  destruct (first_free (hmem h') k) as [i|] eqn:Ef; [|done]. exfalso.
  apply List.find_some in Ef as [Hi Hf]. apply list_elem_of_In, elem_of_seqZ in Hi.
  rewrite Hu in Hf by lia. apply negb_true_iff, Z.ltb_ge in Hf. unfold OBJS_PER_SLAB in *. lia.
Qed.

(**  The alignment of a layout plays no part: the first object of a class
    is aligned to [align] exactly as far as [size_of::<Slab>()] is. *)
Theorem alloc_ignores_alignment ks h size k align :
  setting ks h -> find_class size ks = Some k -> first_free (hmem h) k = Some 0 ->
  0 < align -> (align | PAGE_SIZE) ->
  exists p h1, slab.alloc SZ size h = (Ret p, h1) /\ p mod align = SZ mod align.
Proof.
  intros [Hsz H0 Hmem Hh] Hc Hf Ha [q Hq]. destruct (find_class_split _ _ _ Hc) as (Hk & _).
  destruct (slab_bounds SZ m0 bm _ ks (hv_hist _ _ _ _ _ Hh) k Hk) as (?&?&?).
  eexists _, _. rewrite (heap_alloc_eq SZ m0 bm Hmem ks h size k Hh Hc), Hf. split; [reflexivity|].
  unfold obj, k_data. rewrite fptr_add by (unfold PAGE_SIZE in *; lia).
  change PHYS_BASE with (4503565267632128 * PAGE_SIZE) at 1. rewrite Hq.
  replace (_ + SZ + 0 * k_size k) with (SZ + ((k_slab k + 4503565267632128) * q) * align) by lia.
  apply Z.mod_add. lia.
Qed.

End claims.

(** ** Witnesses *)

(** Frames 2, 3 and 4 are free: room for the class of 8 bytes. *)
Definition mem_h : mem := {[ 0x1000 := 0x1c ]}.
Definition heap_0 (m : mem) (bm : Bitmap) : kheap := mkH (mkP m (Some bm)) ∅ ∅ 0.

Lemma heap_0_inv SZ m bm : pmm_inv m bm -> heap_inv SZ m bm [] (heap_0 m bm).
Proof.
  intros H. split; try done; simpl.
  - by apply hist_inv_start.
  - intros k Hk. by apply not_elem_of_nil in Hk.
Qed.

Lemma heap_8 : exists k h, setting 72 mem_h bm_w [k] h /\ k_size k = 8 /\
  fresh_heap (p_mem (h_p h)) [k].
Proof.
  assert (Hi : pmm_inv mem_h bm_w) by (apply pmm_check_sound; vm_compute; reflexivity).
  destruct (add_cache_fresh 72 ltac:(unfold PAGE_SIZE; lia) mem_h bm_w Hi ltac:(vm_compute; discriminate)
    [] (heap_0 mem_h bm_w) "8 bytes" 8 2 3) as (k & h & _ & Es & Hh & Hf & _).
  - by apply heap_0_inv.
  - intros ?? Hin. by apply not_elem_of_nil in Hin.
  - unfold PAGE_SIZE. lia.
  - apply room_check_sound. vm_compute. reflexivity.
  - vm_compute. discriminate.
  - exists k, h. split_and!; [|done|done]. split; [unfold PAGE_SIZE; lia|done|vm_compute; discriminate|done].
Qed.

Lemma find_class_8 k : k_size k = 8 -> find_class 5 [k] = Some k.
Proof. intros E. unfold find_class. simpl. by rewrite E. Qed.

Lemma first_free_fresh m ks k : fresh_heap m ks -> k ∈ ks -> first_free m k = Some 0.
Proof.
  intros H Hk. unfold first_free. change OBJS_PER_SLAB with (Z.of_nat 256). apply find_seqZ_Some.
  split; [lia|]. split; [|lia]. rewrite H; [done|done|]. unfold OBJS_PER_SLAB. lia.
Qed.

Lemma first_free_8 m k : fresh_heap m [k] -> first_free m k = Some 0.
Proof. intros H. by apply (first_free_fresh m [k]); [|left]. Qed.

Lemma alloc_fresh_object_witness :
  exists k h h', setting 72 mem_h bm_w [k] h /\ slab.alloc 72 5 h = (Ret (obj 72 k 0), h') /\
    used (p_mem (h_p h')) k 0 = true.
Proof.
  destruct heap_8 as (k & h & Hs & Ek & Hf).
  pose proof (alloc_fresh_object 72 mem_h bm_w [k] h 5 k Hs (find_class_8 k Ek)) as H.
  rewrite (first_free_8 _ k Hf) in H. destruct H as (h' & E & _ & _ & _ & Hu).
  exists k, h, h'. split; [exact Hs|]. split; [exact E|].
  rewrite Hu; [by rewrite decide_True|by left|unfold OBJS_PER_SLAB; lia].
Defined.

Lemma alloc_dealloc_roundtrip_witness :
  exists k h h1 h2, setting 72 mem_h bm_w [k] h /\ slab.alloc 72 5 h = (Ret (obj 72 k 0), h1) /\
    slab.dealloc (obj 72 k 0) 5 h1 = (Ret tt, h2) /\ heap_inv 72 mem_h bm_w [k] h2.
Proof.
  destruct heap_8 as (k & h & Hs & Ek & Hf). pose proof Hs as [H1 H2 H3 H4].
  pose proof (heap_alloc_eq 72 mem_h bm_w H3 [k] h 5 k H4 (find_class_8 k Ek)) as E.
  rewrite (first_free_8 _ k Hf) in E.
  destruct (alloc_dealloc_roundtrip 72 mem_h bm_w [k] h 5 k _ _ Hs (find_class_8 k Ek) E)
    as (h2 & E2 & Hi & _).
  eexists k, h, _, h2. split; [exact Hs|]. split; [exact E|]. split; [exact E2|exact Hi].
Defined.

Lemma alloc_disjoint_witness :
  exists k h h1, setting 72 mem_h bm_w [k] h /\ slab.alloc 72 5 h = (Ret (obj 72 k 0), h1) /\
    fptr (k_slab k) + 72 <= obj 72 k 0.
Proof.
  destruct heap_8 as (k & h & Hs & Ek & Hf). pose proof Hs as [H1 H2 H3 H4].
  pose proof (heap_alloc_eq 72 mem_h bm_w H3 [k] h 5 k H4 (find_class_8 k Ek)) as E.
  rewrite (first_free_8 _ k Hf) in E.
  destruct (alloc_disjoint 72 mem_h bm_w [k] h 5 _ _ Hs E) as (k' & i & Hk' & Ep & _ & _ & _ & _ & Hlo & _).
  apply list_elem_of_singleton in Hk' as ->.
  eexists k, h, _. split; [exact Hs|]. split; [exact E|exact Hlo].
Defined.

(** 1024 frames, the first two in use: room for the whole heap. *)
Definition bm_l : Bitmap := bitmap.from_raw_ptr (PHYS_BASE + 0x1000) 128.
Definition mem_l : mem := wr8 (fill 128 ∅ 0x1000 255) 0x1000 0xfc.

Lemma mem_l_inv : pmm_inv mem_l bm_l.
Proof. apply pmm_check_sound. vm_compute. reflexivity. Qed.

Lemma setting_l : setting 72 mem_l bm_l [] (heap_0 mem_l bm_l).
Proof.
  split; [unfold PAGE_SIZE; lia|apply mem_l_inv|vm_compute; discriminate|].
  apply heap_0_inv, mem_l_inv.
Qed.

Lemma room_l : room mem_l bm_l 2 1022.
Proof. apply room_check_sound. vm_compute. reflexivity. Qed.

Lemma init_builds_classes_witness :
  exists ks h', slab.init 72 (heap_0 mem_l bm_l) = (Ret tt, h') /\ k_size <$> ks = class_sizes /\
    heap_inv 72 mem_l bm_l ks h'.
Proof.
  destruct (init_builds_classes 72 mem_l bm_l (heap_0 mem_l bm_l) 2 1022 setting_l room_l)
    as (ks & h' & E & Ek & Hi & _).
  - vm_compute. discriminate.
  - exists ks, h'. split; [exact E|]. split; [exact Ek|exact Hi].
Defined.

Lemma heap_l_room : exists ks h, setting 72 mem_l bm_l ks h /\ k_size <$> ks = class_sizes /\
  fresh_heap (p_mem (h_p h)) ks /\ room (p_mem (h_p h)) bm_l 543 481.
Proof.
  pose proof setting_l as [H1 H2 H3 H4].
  destruct (heap_init_ok 72 H1 mem_l bm_l H2 H3 (heap_0 mem_l bm_l) 2 1022 H4 room_l)
    as (ks & h' & E & Ek & Hi & Hf & Hr).
  - vm_compute. discriminate.
  - exists ks, h'. split; [|split; [exact Ek|split; [exact Hf|exact Hr]]].
    split; [exact H1|exact H2|exact H3|exact Hi].
Qed.

Lemma heap_l : exists ks h, setting 72 mem_l bm_l ks h /\ k_size <$> ks = class_sizes.
Proof. destruct heap_l_room as (ks & h & H1 & H2 & _). by exists ks, h. Qed.

Lemma request_class_witness :
  exists ks h k, setting 72 mem_l bm_l ks h /\ find_class 100 ks = Some k /\ k_size k <= 128 /\
    slab.alloc 72 5000 h = (Fault Panicked, h).
Proof.
  destruct heap_l as (ks & h & Hs & Ek).
  destruct (request_class 72 mem_l bm_l ks h 100 Hs Ek) as [H _].
  destruct H as (k & E & _ & _ & _ & Hmin); [lia|].
  exists ks, h, k. split; [exact Hs|]. split; [exact E|]. split.
  - apply Hmin; [|lia]. unfold class_sizes. set_solver.
  - apply (request_class 72 mem_l bm_l ks h 5000 Hs Ek). lia.
Defined.

Lemma class_capacity_witness :
  exists k h h', setting 72 mem_h bm_w [k] h /\ slab.alloc 72 5 h' = (Fault BadPointer, h').
Proof.
  destruct heap_8 as (k & h & Hs & Ek & Hf).
  destruct (class_capacity 72 mem_h bm_w [k] h 5 k 256 Hs (find_class_8 k Ek) Hf) as (h' & _ & _ & Hx).
  - unfold OBJS_PER_SLAB. lia.
  - exists k, h, h'. split; [exact Hs|]. apply Hx. reflexivity.
Defined.

Lemma alloc_ignores_alignment_witness :
  exists k h p h1, setting 72 mem_h bm_w [k] h /\ slab.alloc 72 5 h = (Ret p, h1) /\ p mod 16 = 8.
Proof.
  destruct heap_8 as (k & h & Hs & Ek & Hf).
  destruct (alloc_ignores_alignment 72 mem_h bm_w [k] h 5 k 16 Hs (find_class_8 k Ek)
    (first_free_8 _ k Hf)) as (p & h1 & E & Hp).
  - lia.
  - exists 256. reflexivity.
  - exists k, h, p, h1. split; [exact Hs|]. split; [exact E|exact Hp].
Defined.
