(* ===== verification/Disk.v ===== *)
(** * The disk interface and packed structures

    What the file system promises and expects of [ahci::read] and [ahci::write]:
    [Disk] is the two calls, [DiskLaws] what its client relies on, [ramdisk] an
    instance.  Then the codec of [repr(C, packed)] structs of little-endian
    fields. *)

From S2P Require Import Prelude Memory.

(** ** The interface *)

(** [ahci::read(0, offset, bytes, buffer)] gives the bytes it puts in the buffer,
    [None] for [Err(())]; [ahci::write] gets the bytes of its buffer and tells
    whether it is [Ok(())]. *)
Class Disk (D : Type) := {
  disk_read : Z -> Z -> M D (option (list Z));
  disk_write : Z -> list Z -> M D bool;
}.

Definition is_byte (b : Z) : Prop := 0 <= b < 256.

(** A disk of [capacity] bytes: reads give its content and change nothing, writes
    change exactly the bytes they name. *)
Class DiskLaws (D : Type) `{!Disk D} := {
  content : D -> Z -> Z;
  capacity : D -> Z;
  content_byte : forall d x, is_byte (content d x);
  disk_read_ok : forall d off n, 0 <= off -> 0 < n -> off + n <= capacity d ->
    disk_read off n d = (Ret (Some (map (content d) (seqZ off n))), d);
  disk_write_ok : forall d off bs, 0 <= off -> bs <> [] -> Forall is_byte bs ->
    off + Z.of_nat (length bs) <= capacity d ->
    exists d', disk_write off bs d = (Ret true, d') /\ capacity d' = capacity d /\
      forall x, content d' x =
        match (if decide (off <= x) then bs !! Z.to_nat (x - off) else None) with
        | Some b => b
        | None => content d x
        end;
}.

(** ** A disk in a map *)

Record ramdisk := mkRam { ram_bytes : mem; ram_size : Z }.

#[export] Instance ramdisk_disk : Disk ramdisk := {
  disk_read off n := fun d =>
    if (off + n <=? ram_size d) && (0 <? n)
    then (Ret (Some (rd_bytes (Z.to_nat n) (ram_bytes d) off)), d) else (Ret None, d);
  disk_write off bs := fun d =>
    if off + Z.of_nat (length bs) <=? ram_size d
    then (Ret true, mkRam (wr_bytes (ram_bytes d) off bs) (ram_size d)) else (Ret false, d);
}.

Lemma rd_bytes_map n m : forall a, rd_bytes n m a = map (rd8 m) (seqZ a (Z.of_nat n)).
Proof.
  induction n as [|n IH]; intros a; [done|]. rewrite seqZ_cons by lia. cbn [rd_bytes map].
  rewrite IH. by replace (Z.pred (Z.of_nat (S n))) with (Z.of_nat n) by lia.
Qed.

Lemma rd8_wr_bytes_lookup bs : forall m a x, Forall is_byte bs ->
  rd8 (wr_bytes m a bs) x =
    match (if decide (a <= x) then bs !! Z.to_nat (x - a) else None) with
    | Some b => b
    | None => rd8 m x
    end.
Proof.
  induction bs as [|b bs IH]; intros m a x Hb; simpl.
  { case_decide; [by rewrite lookup_nil|done]. }
  apply list.Forall_cons in Hb as [Hb Hbs]. rewrite IH by done. unfold is_byte in Hb.
  rewrite rd8_wr8, Z.mod_small by done.
  destruct (decide (a = x)) as [->|Hne].
  - rewrite (decide_False (P := x + 1 <= x)) by lia. rewrite (decide_True (P := x <= x)) by lia.
    by rewrite Z.sub_diag.
  - repeat case_decide; try lia; try done.
    replace (Z.to_nat (x - a)) with (S (Z.to_nat (x - (a + 1)))) by lia. done.
Qed.

#[export] Instance ramdisk_laws : DiskLaws ramdisk.
Proof.
  refine {| content := fun d x => rd8 (ram_bytes d) x; capacity := ram_size |}.
  - intros d x. apply rd8_range.
  - intros d off n Ho Hn Hc. simpl. rewrite (proj2 (Z.leb_le _ _) Hc), (proj2 (Z.ltb_lt _ _) Hn).
    simpl. by rewrite rd_bytes_map, Z2Nat.id by lia.
  - intros d off bs Ho Hne Hb Hc. simpl. rewrite (proj2 (Z.leb_le _ _) Hc).
    eexists. split; [reflexivity|]. split; [done|]. intros x. simpl. by apply rd8_wr_bytes_lookup.
Defined.

(** ** Packed structures *)

Fixpoint enc (ws : list nat) (vs : list Z) : list Z :=
  match ws, vs with
  | w :: ws', v :: vs' => le_bytes w v ++ enc ws' vs'
  | _, _ => []
  end.

Fixpoint dec (ws : list nat) (bs : list Z) : list Z :=
  match ws with
  | [] => []
  | w :: ws' => le_val (take w bs) :: dec ws' (drop w bs)
  end.

Definition field_ok (w : nat) (v : Z) : Prop := 0 <= v < 256 ^ Z.of_nat w.

Lemma dec_enc ws vs rest : Forall2 field_ok ws vs -> dec ws (enc ws vs ++ rest) = vs.
Proof.
  induction 1 as [|w v ws vs Hf _ IH]; [done|]. simpl. rewrite <- app_assoc.
  rewrite take_app_length', drop_app_length' by (by rewrite le_bytes_length).
  rewrite IH, le_val_bytes, Z.mod_small by done. done.
Qed.

Lemma enc_length ws : forall vs, length vs = length ws -> length (enc ws vs) = sum_list ws.
Proof.
  induction ws as [|w ws IH]; intros [|v vs] H; try done. simpl in *.
  rewrite length_app, le_bytes_length, IH by lia. done.
Qed.

Lemma le_bytes_bytes n : forall v, Forall is_byte (le_bytes n v).
Proof.
  induction n as [|n IH]; intros v; simpl; constructor; [|apply IH].
  apply Z.mod_pos_bound. lia.
Qed.

Lemma enc_bytes ws : forall vs, Forall is_byte (enc ws vs).
Proof.
  induction ws as [|w ws IH]; intros [|v vs]; simpl; try constructor.
  apply list.Forall_app. split; [apply le_bytes_bytes|apply IH].
Qed.

Lemma dec_fields ws : forall bs, (sum_list ws <= length bs)%nat -> Forall2 field_ok ws (dec ws bs).
Proof.
  induction ws as [|w ws IH]; intros bs Hl; simpl in *; constructor.
  - pose proof (le_val_range (take w bs)) as H. rewrite length_take_le in H by lia. done.
  - apply IH. rewrite length_drop. lia.
Qed.
