(* ===== verification/Ext2.v ===== *)
(** * [fs/ext2.rs]: the EXT2 file system

    On-disk structures, block groups, inodes with their block map, directories,
    allocation, and the instance of [Filesystem].  The disk is any instance of
    [Disk].  A [Box] of a struct read from the disk is the struct's value; page
    buffers ([PmmBox], [Bitmap::new]) live in memory and are allocated and freed
    through the page allocator. *)

From Stdlib Require Import Ascii.
From stdpp Require Import strings.
From S2P Require Import Prelude Memory MathUtil Bitmap Pmm Vfs Disk.
Local Open Scope Z_scope.

Definition EXT2_SIGNATURE : Z := 0xef53.
Definition ROOT_DIR_INODE : Z := 0x2.
Definition MAX_OPEN_FILE_CNT : Z := 1024.

(** ** On-disk structures *)

(** Field [i] of a decoded struct. *)
Definition fld (l : list Z) (i : nat) : Z := nth i l 0.
#[global] Arguments fld l i%_nat.

Record Superblock := mkSuper {
  inode_cnt : Z; block_cnt : Z; reserved_blocks_cnt : Z; sb_unallocated_blocks : Z;
  sb_unallocated_inodes : Z; superblock_block : Z; sb_block_size : Z; fragment_size : Z;
  blocks_per_group : Z; fragments_per_group : Z; inodes_per_group : Z; last_mt : Z; last_wt : Z;
  mount_cnt : Z; mounts_bfc : Z; signature : Z; fs_state : Z; handle_error : Z; min_version : Z;
  last_cc : Z; cc_interval : Z; os_id : Z; maj_version : Z; sb_user_id : Z; sb_group_id : Z;
}.

Definition super_ws : list nat :=
  [4; 4; 4; 4; 4; 4; 4; 4; 4; 4; 4; 4; 4; 2; 2; 2; 2; 2; 2; 4; 4; 4; 4; 2; 2]%nat.
Definition SUPER_SIZE : Z := 84.

Definition super_fields (s : Superblock) : list Z :=
  [inode_cnt s; block_cnt s; reserved_blocks_cnt s; sb_unallocated_blocks s;
   sb_unallocated_inodes s; superblock_block s; sb_block_size s; fragment_size s;
   blocks_per_group s; fragments_per_group s; inodes_per_group s; last_mt s; last_wt s;
   mount_cnt s; mounts_bfc s; signature s; fs_state s; handle_error s; min_version s;
   last_cc s; cc_interval s; os_id s; maj_version s; sb_user_id s; sb_group_id s].

Definition super_of (l : list Z) : Superblock :=
  mkSuper (fld l 0) (fld l 1) (fld l 2) (fld l 3) (fld l 4) (fld l 5) (fld l 6) (fld l 7) (fld l 8)
          (fld l 9) (fld l 10) (fld l 11) (fld l 12) (fld l 13) (fld l 14) (fld l 15) (fld l 16) (fld l 17)
          (fld l 18) (fld l 19) (fld l 20) (fld l 21) (fld l 22) (fld l 23) (fld l 24).

Record BlockGroupDescriptor := mkBgd {
  block_bitmap : Z; inode_bitmap : Z; inode_table : Z;
  unallocated_blocks : Z; unallocated_inodes : Z; directories_cnt : Z;
  unused : list Z;
}.

Definition bgd_ws : list nat := [4; 4; 4; 2; 2; 2]%nat.
Definition BGD_SIZE : Z := 32.

Definition bgd_bytes (b : BlockGroupDescriptor) : list Z :=
  enc bgd_ws [block_bitmap b; inode_bitmap b; inode_table b; unallocated_blocks b;
              unallocated_inodes b; directories_cnt b] ++ unused b.

Definition bgd_of (bs : list Z) : BlockGroupDescriptor :=
  let l := dec bgd_ws bs in
  mkBgd (fld l 0) (fld l 1) (fld l 2) (fld l 3) (fld l 4) (fld l 5) (drop 18 bs).

Record BlockGroup := mkBg { bg_raw : BlockGroupDescriptor; bg_index : Z }.

Record Inode := mkInode {
  type_and_permissions : Z; user_id : Z; sizel : Z; last_access_time : Z; creation_time : Z;
  last_mod_time : Z; deletion_time : Z; group_id : Z; ref_cnt : Z; sectors_used : Z; i_flags : Z;
  inode_number : Z;
  direct_pointer : list Z;
  singly_ip : Z; doubly_ip : Z; triply_ip : Z; gen_num : Z; ext_ab : Z; sizeh_dir_acl : Z;
  fragment_block : Z;
  os_specific2 : list Z;
}.

Definition inode_ws : list nat :=
  [2; 2; 4; 4; 4; 4; 4; 2; 2; 4; 4; 4]%nat ++ replicate 12 4%nat ++ [4; 4; 4; 4; 4; 4; 4]%nat ++
  replicate 3 4%nat.
Definition INODE_SIZE : Z := 128.

Definition inode_fields (i : Inode) : list Z :=
  [type_and_permissions i; user_id i; sizel i; last_access_time i; creation_time i;
   last_mod_time i; deletion_time i; group_id i; ref_cnt i; sectors_used i; i_flags i;
   inode_number i] ++ direct_pointer i ++
  [singly_ip i; doubly_ip i; triply_ip i; gen_num i; ext_ab i; sizeh_dir_acl i;
   fragment_block i] ++ os_specific2 i.

Definition inode_of (l : list Z) : Inode :=
  mkInode (fld l 0) (fld l 1) (fld l 2) (fld l 3) (fld l 4) (fld l 5) (fld l 6) (fld l 7) (fld l 8) (fld l 9) (fld l 10) (fld l 11)
          (take 12 (drop 12 l))
          (fld l 24) (fld l 25) (fld l 26) (fld l 27) (fld l 28) (fld l 29) (fld l 30) (take 3 (drop 31 l)).

(** Field updates of [&mut Inode]. *)
Definition with_number (i : Inode) (n : Z) : Inode :=
  mkInode (type_and_permissions i) (user_id i) (sizel i) (last_access_time i) (creation_time i)
    (last_mod_time i) (deletion_time i) (group_id i) (ref_cnt i) (sectors_used i) (i_flags i) n
    (direct_pointer i) (singly_ip i) (doubly_ip i) (triply_ip i) (gen_num i) (ext_ab i)
    (sizeh_dir_acl i) (fragment_block i) (os_specific2 i).
Definition with_size (i : Inode) (size sectors : Z) : Inode :=
  mkInode (type_and_permissions i) (user_id i) size (last_access_time i) (creation_time i)
    (last_mod_time i) (deletion_time i) (group_id i) (ref_cnt i) sectors (i_flags i)
    (inode_number i) (direct_pointer i) (singly_ip i) (doubly_ip i) (triply_ip i) (gen_num i)
    (ext_ab i) (sizeh_dir_acl i) (fragment_block i) (os_specific2 i).
Definition with_pointers (i : Inode) (direct : list Z) (singly doubly : Z) : Inode :=
  mkInode (type_and_permissions i) (user_id i) (sizel i) (last_access_time i) (creation_time i)
    (last_mod_time i) (deletion_time i) (group_id i) (ref_cnt i) (sectors_used i) (i_flags i)
    (inode_number i) direct singly doubly (triply_ip i) (gen_num i) (ext_ab i)
    (sizeh_dir_acl i) (fragment_block i) (os_specific2 i).
Definition with_type_ref (i : Inode) (tp rc : Z) : Inode :=
  mkInode tp (user_id i) (sizel i) (last_access_time i) (creation_time i)
    (last_mod_time i) (deletion_time i) (group_id i) rc (sectors_used i) (i_flags i)
    (inode_number i) (direct_pointer i) (singly_ip i) (doubly_ip i) (triply_ip i) (gen_num i)
    (ext_ab i) (sizeh_dir_acl i) (fragment_block i) (os_specific2 i).

Definition is_directory (i : Inode) : bool :=
  negb (Z.land (type_and_permissions i) FileType.DIRECTORY =? 0).
Definition is_regular_file (i : Inode) : bool :=
  negb (Z.land (type_and_permissions i) FileType.NORMAL =? 0).
Definition is_symlink (i : Inode) : bool :=
  negb (Z.land (type_and_permissions i) FileType.SYMLINK =? 0).

Record Ext2Filesystem := mkExt2 {
  superblock : Superblock;
  block_size : Z;
  block_group_cnt : Z;
  starting_lba : Z;
}.

(** The state: memory and page allocator, the disk, [EXT2_FS] and
    [INODE_TABLE]. *)
Record estate (D : Type) := mkE {
  e_p : pstate;
  e_disk : D;
  e_fs : option Ext2Filesystem;
  e_table : list (option Inode);
}.
Arguments mkE {D} _ _ _ _.
Arguments e_p {D} _.
Arguments e_disk {D} _.
Arguments e_fs {D} _.
Arguments e_table {D} _.

(** The offsets of a [DirectoryEntry]; its name follows at 8. *)
Definition DIRENT_SIZE : Z := 8.

Definition str_bytes (s : string) : list Z :=
  map (fun c => Z.of_nat (nat_of_ascii c)) (String.list_ascii_of_string s).

(** [path.split('/')]. *)
Fixpoint split_slash (s : string) : list string :=
  match s with
  | EmptyString => [EmptyString]
  | String c s' =>
      if Ascii.eqb c "/"%char then EmptyString :: split_slash s'
      else match split_slash s' with
           | f :: fs => String c f :: fs
           | [] => [String c EmptyString]
           end
  end.

Module ext2.
Section ext2.
Context {D : Type} `{!Disk D}.

Abbreviation E := (M (estate D)).

Definition on_p {A} : M pstate A -> E A :=
  zoom e_p (fun p s => mkE p (e_disk s) (e_fs s) (e_table s)).
Definition on_mem {A} (c : M mem A) : E A := on_p (Pmm.on_mem c).
Definition on_disk {A} : M D A -> E A :=
  zoom e_disk (fun d s => mkE (e_p s) d (e_fs s) (e_table s)).

(** [ahci::read] into a struct, and into a buffer in memory; [ahci::write] from
    bytes; [.unwrap()] of their results. *)
Definition read_bytes (off n : Z) : E (option (list Z)) := on_disk (disk_read off n).
Definition read_bytes_unwrap (off n : Z) : E (list Z) :=
  let! r := read_bytes off n in expect r.
Definition read_to (off n buffer : Z) : E (option unit) :=
  let! r := read_bytes off n in
  match r with
  | Some bs => do! on_mem (modify (fun m => wr_bytes m (phys_of buffer) bs)) in ret (Some tt)
  | None => ret None
  end.
Definition write_bytes_to (off : Z) (bs : list Z) : E bool := on_disk (disk_write off bs).
Definition write_unwrap (off : Z) (bs : list Z) : E unit :=
  let! ok := write_bytes_to off bs in
  if ok : bool then ret tt else throw Expect.
Definition bytes_at (buffer n : Z) : E (list Z) :=
  on_mem (gets (fun m => rd_bytes (Z.to_nat n) m (phys_of buffer))).

(** [EXT2_FS.clone().unwrap()]. *)
Definition fs_get : E Ext2Filesystem := let! o := gets e_fs in expect o.

(** [starting_lba * 512 + block * block_size + index * size], as the addresses of
    this file are computed. *)
Definition locate (fs : Ext2Filesystem) (block index size : Z) : E Z :=
  let! a := umul usize (starting_lba fs) 512 in
  let! b := umul usize block (block_size fs) in
  let! c := uadd usize a b in
  let! d := umul usize index size in
  uadd usize c d.

(** [Superblock::flush]. *)
Definition super_flush (sb : Superblock) : E unit :=
  let! fs := fs_get in
  let! a := uadd u64 (starting_lba fs) 2 in
  let! off := umul u64 a 512 in
  write_unwrap off (enc super_ws (super_fields sb)).

Definition bgdt_block (fs : Ext2Filesystem) : Z := if 1024 <? block_size fs then 1 else 2.

(** [BlockGroup::get] and [flush]. *)
Definition bg_get (block_group_index : Z) : E BlockGroup :=
  let! fs := fs_get in
  let! off := locate fs (bgdt_block fs) block_group_index BGD_SIZE in
  let! bs := read_bytes_unwrap off BGD_SIZE in
  ret (mkBg (bgd_of bs) block_group_index).

Definition bg_flush (self : BlockGroup) : E unit :=
  let! fs := fs_get in
  let! off := locate fs (bgdt_block fs) (bg_index self) BGD_SIZE in
  write_unwrap off (bgd_bytes (bg_raw self)).

(** [Inode::get_block_group] and [get_table_index]. *)
Definition get_block_group (inode : Z) : E Z :=
  let! fs := fs_get in
  let! i := usub usize inode 1 in
  udiv i (inodes_per_group (superblock fs)).

Definition get_table_index (inode : Z) : E Z :=
  let! fs := fs_get in
  let! i := usub usize inode 1 in
  urem i (inodes_per_group (superblock fs)).

(** [BlockGroup::get_inode]. *)
Definition get_inode (self : BlockGroup) (inode_addr : Z) : E Inode :=
  let! fs := fs_get in
  let! inode_index := get_table_index inode_addr in
  let! off := locate fs (inode_table (bg_raw self)) inode_index INODE_SIZE in
  let! bs := read_bytes_unwrap off INODE_SIZE in
  ret (with_number (inode_of (dec inode_ws bs)) inode_addr).

(** [Inode::get]. *)
Definition inode_get (inode_addr : Z) : E Inode :=
  let! inode_block_group := get_block_group inode_addr in
  let! block_group := bg_get inode_block_group in
  get_inode block_group inode_addr.

(** [Inode::flush]. *)
Definition inode_flush (self : Inode) : E unit :=
  let! fs := fs_get in
  let! g := get_block_group (inode_number self) in
  let! bg := bg_get g in
  let! inode_index := get_table_index (inode_number self) in
  let! off := locate fs (inode_table (bg_raw bg)) inode_index INODE_SIZE in
  write_unwrap off (enc inode_ws (inode_fields self)).

(** The loop of [BlockGroup::alloc_block]: the blocks found, and the group. *)
Fixpoint alloc_block_loop (fs : Ext2Filesystem) (bm : Bitmap) (cnt : Z) (n : nat) (i : Z)
    (allocated : Z) (blocks : list Z) (self : BlockGroup) : E (Z * list Z * BlockGroup) :=
  match n with
  | O => ret (allocated, blocks, self)
  | S n' =>
      let! b := on_mem (bitmap.is_set bm i) in
      if negb b then
        do! on_mem (bitmap.set bm i) in
        let! base := umul u32 (as_u u32 (bg_index self)) (blocks_per_group (superblock fs)) in
        let! block := uadd u32 (as_u u32 i) base in
        let blocks := blocks ++ [block] in
        let! allocated := uadd usize allocated 1 in
        let raw := bg_raw self in
        let! u := usub u16 (unallocated_blocks raw) 1 in
        let self := mkBg (mkBgd (block_bitmap raw) (inode_bitmap raw) (inode_table raw) u
                                (unallocated_inodes raw) (directories_cnt raw) (unused raw))
                         (bg_index self) in
        if allocated =? cnt then ret (allocated, blocks, self)
        else alloc_block_loop fs bm cnt n' (i + 1) allocated blocks self
      else alloc_block_loop fs bm cnt n' (i + 1) allocated blocks self
  end.

(** [BlockGroup::alloc_block]. *)
Definition bg_alloc_block (self : BlockGroup) (cnt : Z) : E (option (list Z)) :=
  if unallocated_blocks (bg_raw self) <? cnt then ret None
  else
    let! fs := fs_get in
    let! bm := on_p (bitmap_alloc.new (block_size fs)) in
    let! off := locate fs (block_bitmap (bg_raw self)) 0 0 in
    let! r := read_to off (block_size fs) (bm_ptr bm) in
    do! expect r in
    let! bits := umul usize (block_size fs) 8 in
    let! (t, self') := alloc_block_loop fs bm cnt (Z.to_nat bits) 0 0 [] self in
    let '(allocated, blocks) := t in
    if negb (allocated =? cnt) then
      do! on_p (bitmap_alloc.drop bm) in
      ret None
    else
      let! off := locate fs (block_bitmap (bg_raw self')) 0 0 in
      let! bs := bytes_at (bm_ptr bm) (block_size fs) in
      do! write_unwrap off bs in
      do! bg_flush self' in
      do! on_p (bitmap_alloc.drop bm) in
      ret (Some blocks).

(** The loop of [BlockGroup::alloc_inode]. *)
Fixpoint alloc_inode_loop (fs : Ext2Filesystem) (bm : Bitmap) (n : nat) (i : Z)
    (self : BlockGroup) : E (option Z) :=
  match n with
  | O => ret None
  | S n' =>
      let! b := on_mem (bitmap.is_set bm i) in
      if negb b then
        do! on_mem (bitmap.set bm i) in
        let raw := bg_raw self in
        let! u := usub u16 (unallocated_inodes raw) 1 in
        let self := mkBg (mkBgd (block_bitmap raw) (inode_bitmap raw) (inode_table raw)
                                (unallocated_blocks raw) u (directories_cnt raw) (unused raw))
                         (bg_index self) in
        let! off := locate fs (inode_bitmap (bg_raw self)) 0 0 in
        let! bs := bytes_at (bm_ptr bm) (block_size fs) in
        do! write_unwrap off bs in
        do! bg_flush self in
        let! i1 := uadd usize i 1 in
        let! base := umul usize (bg_index self) (inodes_per_group (superblock fs)) in
        let! a := uadd usize i1 base in
        ret (Some (as_u u32 a))
      else alloc_inode_loop fs bm n' (i + 1) self
  end.

Definition bg_alloc_inode (self : BlockGroup) : E (option Z) :=
  if unallocated_inodes (bg_raw self) =? 0 then ret None
  else
    let! fs := fs_get in
    let! bm := on_p (bitmap_alloc.new (block_size fs)) in
    let! off := locate fs (inode_bitmap (bg_raw self)) 0 0 in
    let! r := read_to off (block_size fs) (bm_ptr bm) in
    do! expect r in
    let! bits := umul usize (block_size fs) 8 in
    let! r := alloc_inode_loop fs bm (Z.to_nat bits) 0 self in
    do! on_p (bitmap_alloc.drop bm) in
    ret r.

(** [Ext2Filesystem::alloc_block] and [alloc_inode]: the loop over the groups. *)
Fixpoint alloc_block_groups (n : nat) (bg : Z) : E (option Z) :=
  match n with
  | O => ret None
  | S n' =>
      let! block_group := bg_get bg in
      let! r := bg_alloc_block block_group 1 in
      match r with
      | Some block_addr =>
          match block_addr !! 0%nat with
          | Some b => ret (Some b)
          | None => throw OutOfBounds
          end
      | None => alloc_block_groups n' (bg + 1)
      end
  end.

Definition alloc_block (self : Ext2Filesystem) : E (option Z) :=
  if sb_unallocated_blocks (superblock self) =? 0 then ret None
  else alloc_block_groups (Z.to_nat (block_group_cnt self)) 0.

Fixpoint alloc_inode_groups (n : nat) (bg : Z) : E (option Z) :=
  match n with
  | O => ret None
  | S n' =>
      let! block_group := bg_get bg in
      let! r := bg_alloc_inode block_group in
      match r with
      | Some inode_addr => ret (Some inode_addr)
      | None => alloc_inode_groups n' (bg + 1)
      end
  end.

Definition alloc_inode (self : Ext2Filesystem) : E (option Z) :=
  if sb_unallocated_inodes (superblock self) =? 0 then ret None
  else alloc_inode_groups (Z.to_nat (block_group_cnt self)) 0.

(** Reading and writing one entry of a block of addresses. *)
Definition read_pointer (fs : Ext2Filesystem) (block index : Z) : E Z :=
  let! off := locate fs block index 4 in
  let! bs := read_bytes_unwrap off 4 in
  ret (le_val bs).

Definition write_pointer (fs : Ext2Filesystem) (block index value : Z) : E unit :=
  let! off := locate fs block index 4 in
  write_unwrap off (le_bytes 4 value).

(** [self.direct_pointer[block_index]]. *)
Definition direct_at (self : Inode) (block_index : Z) : E Z :=
  match direct_pointer self !! Z.to_nat block_index with
  | Some p => ret p
  | None => throw OutOfBounds
  end.

(** [Inode::get_block_address]. *)
Definition get_block_address (self : Inode) (block_index : Z) : E Z :=
  let! fs := fs_get in
  if block_index <? 12 then direct_at self block_index
  else
    let addresses_per_block := block_size fs / 4 in
    let! block_index := usub usize block_index 12 in
    if block_index <? addresses_per_block then
      read_pointer fs (singly_ip self) block_index
    else
      let! block_index := usub usize block_index addresses_per_block in
      let! squared := umul usize addresses_per_block addresses_per_block in
      if block_index <? squared then
        let! hi := udiv block_index addresses_per_block in
        let! indirect := read_pointer fs (doubly_ip self) hi in
        let! lo := urem block_index addresses_per_block in
        read_pointer fs indirect lo
      else
        let! block_index := usub usize block_index squared in
        let! base := urem block_index squared in
        let! top := udiv block_index squared in
        let! indirect1 := read_pointer fs (triply_ip self) top in
        let! indirect2 := read_pointer fs indirect1 (base / 1024) in
        read_pointer fs indirect2 (base mod 1024).

(** [fs.alloc_block().expect(..)]. *)
Definition alloc_block_expect (fs : Ext2Filesystem) : E Z :=
  let! r := alloc_block fs in expect r.

(** [Inode::set_block_address]: gives the inode with its new pointers. *)
Definition set_block_address (self : Inode) (block_index block_address : Z) : E Inode :=
  let! fs := fs_get in
  if block_index <? 12 then
    let! _ := direct_at self block_index in
    let self := with_pointers self (<[Z.to_nat block_index := block_address]> (direct_pointer self))
                              (singly_ip self) (doubly_ip self) in
    do! inode_flush self in
    ret self
  else
    let addresses_per_block := block_size fs / 4 in
    let! block_index := usub usize block_index 12 in
    if block_index <? addresses_per_block then
      let! self :=
        (if singly_ip self =? 0 then
           let! b := alloc_block_expect fs in
           let self := with_pointers self (direct_pointer self) b (doubly_ip self) in
           do! inode_flush self in
           ret self
         else ret self) in
      do! write_pointer fs (singly_ip self) block_index block_address in
      ret self
    else
      let! block_index := usub usize block_index addresses_per_block in
      let! squared := umul usize addresses_per_block addresses_per_block in
      if block_index <? squared then
        let! (self, indirect) :=
          (if doubly_ip self =? 0 then
             let! b := alloc_block_expect fs in
             let self := with_pointers self (direct_pointer self) (singly_ip self) b in
             do! inode_flush self in
             let! indirect := alloc_block_expect fs in
             let! hi := udiv block_index addresses_per_block in
             do! write_pointer fs (doubly_ip self) hi indirect in
             ret (self, indirect)
           else
             let! hi := udiv block_index addresses_per_block in
             let! indirect := read_pointer fs (doubly_ip self) hi in
             ret (self, indirect)) in
        let! lo := urem block_index addresses_per_block in
        do! write_pointer fs indirect lo block_address in
        ret self
      else
        do! usub usize block_index squared in
        ret self.

(** [Inode::resize]: the loop over the new blocks, then the whole. *)
Fixpoint grow_blocks (fs : Ext2Filesystem) (n : nat) (i : Z) (self : Inode) : E Inode :=
  match n with
  | O => ret self
  | S n' =>
      let! new_block := alloc_block_expect fs in
      let! self := set_block_address self i new_block in
      grow_blocks fs n' (i + 1) self
  end.

Definition resize (self : Inode) (new_size : Z) : E Inode :=
  if new_size =? sizel self then ret self
  else
    let! fs := fs_get in
    let! new_block_cnt := div_ceil new_size (block_size fs) in
    let! old_block_cnt := div_ceil (sizel self) (block_size fs) in
    if new_block_cnt =? old_block_cnt then ret self
    else
      let! self :=
        (if old_block_cnt <? new_block_cnt
         then grow_blocks fs (Z.to_nat (new_block_cnt - old_block_cnt)) old_block_cnt self
         else ret self) in
      let! total := umul usize new_block_cnt (block_size fs) in
      let self := with_size self (as_u u32 new_size) (as_u u32 (total / 512)) in
      do! inode_flush self in
      ret self.

(** [count] of one round of [read] and [write]. *)
Definition round_count (bytes_done bytes bs : Z) : E Z :=
  let! e := uadd usize bytes_done bs in
  if e <=? bytes then ret bs else urem bytes bs.

(** The block of one round. *)
Definition round_offset (fs : Ext2Filesystem) (self : Inode) (offset blocks_done : Z) : E Z :=
  let! q := udiv offset (block_size fs) in
  let! index := uadd usize q blocks_done in
  let! block_address := get_block_address self index in
  ret block_address.

Fixpoint read_loop (fs : Ext2Filesystem) (self : Inode) (fuel : nat)
    (offset bytes buffer bytes_read blocks_read : Z) : E (option Z) :=
  if bytes_read <? bytes then
    match fuel with
    | O => throw OutOfFuel
    | S fuel' =>
        let! block_address := round_offset fs self offset blocks_read in
        let! count := round_count bytes_read bytes (block_size fs) in
        let! off := locate fs block_address offset 1 in
        let! r := read_to off count buffer in
        match r with
        | None => ret None
        | Some _ =>
            let! blocks_read := uadd usize blocks_read 1 in
            let! bytes_read := uadd usize bytes_read count in
            read_loop fs self fuel' offset bytes buffer bytes_read blocks_read
        end
    end
  else ret (Some bytes_read).

(** [Inode::read]; a round reads [block_size] bytes or the rest, so
    [bytes / block_size + 1] rounds are enough. *)
Definition inode_read (self : Inode) (offset bytes buffer : Z) : E (option Z) :=
  let! fs := fs_get in
  read_loop fs self (S (Z.to_nat (bytes / block_size fs))) offset bytes buffer 0 0.

Fixpoint write_loop (fs : Ext2Filesystem) (self : Inode) (fuel : nat)
    (offset bytes buffer bytes_written blocks_written : Z) : E (option Z) :=
  if bytes_written <? bytes then
    match fuel with
    | O => throw OutOfFuel
    | S fuel' =>
        let! block_address := round_offset fs self offset blocks_written in
        let! count := round_count bytes_written bytes (block_size fs) in
        let! off := locate fs block_address offset 1 in
        let! bs := bytes_at buffer count in
        let! ok := write_bytes_to off bs in
        if ok : bool then
          let! blocks_written := uadd usize blocks_written 1 in
          let! bytes_written := uadd usize bytes_written count in
          write_loop fs self fuel' offset bytes buffer bytes_written blocks_written
        else ret None
    end
  else ret (Some bytes_written).

(** [Inode::write]: the result and the inode. *)
Definition inode_write (self : Inode) (offset bytes buffer : Z) : E (option Z * Inode) :=
  let! fs := fs_get in
  let! size := uadd usize offset bytes in
  let! self := resize self size in
  let! r := write_loop fs self (S (Z.to_nat (bytes / block_size fs))) offset bytes buffer 0 0 in
  ret (r, self).

(** The fields of the [DirectoryEntry] at [p]. *)
Definition dirent_inode (p : Z) : E Z := on_mem (load32 p).
Definition dirent_size (p : Z) : E Z := on_mem (load16 (p + 4)).
Definition dirent_name_length (p : Z) : E Z := on_mem (load8 (p + 6)).

(** [DirectoryEntry::search]: the loop; an [entry_size] of 0 makes it endless,
    so one round per byte of the directory is enough otherwise. *)
Fixpoint search_loop (fuel : nat) (buf size i : Z) (name : list Z) : E (option Z) :=
  if i <? size then
    match fuel with
    | O => throw OutOfFuel
    | S fuel' =>
        let curr_entry := buf + i in
        let! entry_size := dirent_size curr_entry in
        let! i := uadd u32 i entry_size in
        let! inode := dirent_inode curr_entry in
        let! name_length := dirent_name_length curr_entry in
        if (inode =? 0) || negb (name_length =? Z.of_nat (length name)) then
          search_loop fuel' buf size i name
        else
          let! entry_name := bytes_at (curr_entry + 8) name_length in
          if bool_decide (entry_name = name) then ret (Some inode)
          else search_loop fuel' buf size i name
    end
  else ret None.

Definition search (inode : Inode) (name : string) : E (option Z) :=
  if negb (is_directory inode) then ret None
  else
    let! entries_buffer := on_p (pmmbox.new (sizel inode)) in
    let ptr := pb_data entries_buffer in
    let! r := inode_read inode 0 (sizel inode) ptr in
    do! expect r in
    let! res := search_loop (Z.to_nat (sizel inode)) ptr (sizel inode) 0 (str_bytes name) in
    do! on_p (pmmbox.drop entries_buffer) in
    ret res.

(** [DirectoryEntry::add_entry]: [Some] for [Ok(())], and the directory. *)
Fixpoint add_entry_loop (fuel : nat) (dir : Inode) (buf i inode : Z) (name : list Z)
    : E (option unit * Inode) :=
  if i <? sizel dir then
    match fuel with
    | O => throw OutOfFuel
    | S fuel' =>
        let curr_entry := buf + i in
        let! name_length := dirent_name_length curr_entry in
        let! true_size := uadd usize DIRENT_SIZE name_length in
        let! true_size := round_up true_size 4 in
        let! entry_size := dirent_size curr_entry in
        if true_size <? entry_size then
          let! empty_space := usub usize entry_size true_size in
          let! space_needed := uadd usize DIRENT_SIZE (Z.of_nat (length name)) in
          let! space_needed := round_up space_needed 4 in
          if empty_space <? space_needed then
            let! i := uadd u32 i entry_size in
            add_entry_loop fuel' dir buf i inode name
          else
            let! o := uadd usize i true_size in
            let new_entry := buf + o in
            do! on_mem (store16 (curr_entry + 4) (as_u u16 true_size)) in
            do! on_mem (store8 (new_entry + 6) (as_u u8 (Z.of_nat (length name)))) in
            do! on_mem (store32 new_entry inode) in
            do! on_mem (store16 (new_entry + 4) (as_u u16 empty_space)) in
            do! on_mem (store8 (new_entry + 7) 1) in
            do! on_mem (modify (fun m => wr_bytes m (phys_of (new_entry + 8)) name)) in
            let! (r, dir) := inode_write dir 0 (sizel dir) buf in
            do! expect r in
            ret (Some tt, dir)
        else
          let! i := uadd u32 i entry_size in
          add_entry_loop fuel' dir buf i inode name
    end
  else ret (None, dir).

Definition add_entry (dir : Inode) (inode : Z) (name : string) : E (option unit * Inode) :=
  if negb (is_directory dir) then ret (None, dir)
  else
    let! entries_buffer := on_p (pmmbox.new (sizel dir)) in
    let ptr := pb_data entries_buffer in
    let! r := inode_read dir 0 (sizel dir) ptr in
    do! expect r in
    let! res := add_entry_loop (Z.to_nat (sizel dir)) dir ptr 0 inode (str_bytes name) in
    do! on_p (pmmbox.drop entries_buffer) in
    ret res.

(** [Ext2Filesystem::new]. *)
Definition ext2_new (lba : Z) (sb : Superblock) : E Ext2Filesystem :=
  let! bs := ushl usize 1024 (sb_block_size sb) in
  let! cnt := div_ceil (block_cnt sb) (blocks_per_group sb) in
  ret (mkExt2 sb bs cnt lba).

(** [Ext2Filesystem::new_fd]: the first empty slot of [INODE_TABLE]. *)
Fixpoint first_slot (t : list (option Inode)) (i : nat) : option nat :=
  match t with
  | [] => None
  | Some _ :: t' => first_slot t' (S i)
  | None :: _ => Some i
  end.

Definition new_fd (inode : Inode) (flags : Z) : E (option (FileDescription Ext2Filesystem)) :=
  let! t := gets e_table in
  match first_slot t 0 with
  | None => ret None
  | Some i =>
      do! modify (fun s => mkE (e_p s) (e_disk s) (e_fs s) (<[i := Some inode]> (e_table s))) in
      let! fs := fs_get in
      ret (Some (fd_new (Z.of_nat i) flags fs))
  end.

(** [open]: the loop over the fragments of the path; [last] is whether a
    fragment is the last one. *)
Fixpoint open_loop (self : Ext2Filesystem) (frags : list string) (current_dir : Inode) (flags : Z)
    : E (option (FileDescription Ext2Filesystem)) :=
  match frags with
  | [] => ret None
  | frag :: rest =>
      if bool_decide (frag = EmptyString) then open_loop self rest current_dir flags
      else
        let last := match rest with [] => true | _ => false end in
        let! r := search current_dir frag in
        match r with
        | Some inode_addr =>
            let! entry_inode := inode_get inode_addr in
            if last then new_fd entry_inode flags
            else if negb (is_directory entry_inode) then ret None
            else open_loop self rest entry_inode flags
        | None =>
            if last && contains flags O_CREAT then
              let! r := alloc_inode self in
              let! new_inode_addr := expect r in
              let! new_inode := inode_get new_inode_addr in
              let new_inode := with_type_ref new_inode 0x81ed 1 in
              do! inode_flush new_inode in
              let! (r, _) := add_entry current_dir new_inode_addr frag in
              do! expect r in
              new_fd new_inode flags
            else ret None
        end
  end.

Definition open (self : Ext2Filesystem) (path : string) (flags mode : Z)
    : E (option (FileDescription Ext2Filesystem)) :=
  let! root_dir := inode_get ROOT_DIR_INODE in
  open_loop self (split_slash path) root_dir flags.

(** [mkdir] is [todo!()]. *)
Definition mkdir (self : Ext2Filesystem) (path : string) (mode : Z)
    : E (option (FileDescription Ext2Filesystem)) := throw Todo.

Definition slot (index : Z) : E (option Inode) :=
  let! t := gets e_table in
  match t !! Z.to_nat index with Some o => ret o | None => throw OutOfBounds end.

Definition read (index buffer cnt offset : Z) : E Z :=
  let! o := slot index in
  match o with
  | Some inode => let! r := inode_read inode offset cnt buffer in expect r
  | None => ret 0
  end.

Definition write (index buffer cnt offset : Z) : E Z :=
  let! o := slot index in
  match o with
  | Some inode =>
      let! (r, inode) := inode_write inode offset cnt buffer in
      do! modify (fun s => mkE (e_p s) (e_disk s) (e_fs s)
                               (<[Z.to_nat index := Some inode]> (e_table s))) in
      expect r
  | None => ret 0
  end.

(** [try_and_init]: [Some] for [Ok(())]. *)
Definition try_and_init (lba : Z) : E (option unit) :=
  let! a := uadd u64 lba 2 in
  let! off := umul u64 a 512 in
  let! r := read_bytes off SUPER_SIZE in
  match r with
  | None => ret None
  | Some bs =>
      let sb := super_of (dec super_ws bs) in
      if negb (signature sb =? EXT2_SIGNATURE) then ret None
      else
        do! ushl 32 1024 (sb_block_size sb) in
        let! fs := ext2_new lba sb in
        do! modify (fun s => mkE (e_p s) (e_disk s) (Some fs) (e_table s)) in
        ret (Some tt)
  end.

End ext2.
End ext2.

(** [impl vfs::Filesystem for Ext2Filesystem]. *)
#[export] Instance ext2_filesystem {D} `{!Disk D} : Filesystem Ext2Filesystem (estate D) := {
  fs_open := ext2.open;
  fs_mkdir := ext2.mkdir;
  fs_read := fun _ => ext2.read;
  fs_write := fun _ => ext2.write;
}.

(** ** Where things are on the disk *)

(** The byte address of entry [index], of [size] bytes each, of a block. *)
Definition addr (fs : Ext2Filesystem) (block index size : Z) : Z :=
  starting_lba fs * 512 + block * block_size fs + index * size.

Record fs_ok (fs : Ext2Filesystem) : Prop := {
  fo_lba : 0 <= starting_lba fs;
  fo_bs : 1024 <= block_size fs <= 2 ^ 20;
  fo_bs4 : block_size fs mod 4 = 0;
  fo_ipg : 0 < inodes_per_group (superblock fs);
}.

Section layout.
Context {D : Type} `{!Disk D} `{!DiskLaws D}.
Implicit Types (fs : Ext2Filesystem) (s : estate D) (d : D).

Definition slice (d : D) (off n : Z) : list Z := map (content d) (seqZ off n).

(** A block that lies on the disk. *)
Definition on_disk d fs (block : Z) : Prop :=
  0 <= block /\ addr fs block 1 (block_size fs) <= capacity d < 2 ^ 64.

(** Entry [index] of a block of addresses. *)
Definition pointer d fs (block index : Z) : Z := le_val (slice d (addr fs block index 4) 4).

Lemma fs_get_eq s fs : e_fs s = Some fs -> ext2.fs_get s = (Ret fs, s).
Proof. intros H. unfold ext2.fs_get, bind, gets. by rewrite H. Qed.

Lemma locate_eq fs block index size s :
  0 <= starting_lba fs -> 0 <= block_size fs -> 0 <= block -> 0 <= index -> 0 <= size ->
  addr fs block index size < 2 ^ 64 ->
  ext2.locate fs block index size s = (Ret (addr fs block index size), s).
Proof.
  intros H1 H2 H3 H4 H5 H. unfold addr in *. unfold ext2.locate, umul, uadd, bind, usize.
  rewrite !chk_ok by nia. done.
Qed.

Lemma read_bytes_eq off n s :
  0 <= off -> 0 < n -> off + n <= capacity (e_disk s) ->
  ext2.read_bytes off n s = (Ret (Some (slice (e_disk s) off n)), s).
Proof.
  intros Ho Hn Hc. destruct s as [p d fs t]. unfold ext2.read_bytes, ext2.on_disk, zoom. simpl in *.
  by rewrite disk_read_ok.
Qed.

Lemma read_bytes_unwrap_eq off n s :
  0 <= off -> 0 < n -> off + n <= capacity (e_disk s) ->
  ext2.read_bytes_unwrap off n s = (Ret (slice (e_disk s) off n), s).
Proof. intros. unfold ext2.read_bytes_unwrap, bind. by rewrite read_bytes_eq. Qed.

Lemma read_pointer_eq fs block index s :
  fs_ok fs -> on_disk (e_disk s) fs block -> 0 <= index < block_size fs / 4 ->
  ext2.read_pointer fs block index s = (Ret (pointer (e_disk s) fs block index), s).
Proof.
  intros [H1 H2 H3 _] [Hb Hd] Hi. unfold ext2.read_pointer, bind. unfold addr in Hd.
  pose proof (Z.div_mod (block_size fs) 4).
  rewrite locate_eq by (unfold addr; nia).
  rewrite read_bytes_unwrap_eq by (unfold addr; nia). done.
Qed.

Lemma slice_length d off n : 0 <= n -> length (slice d off n) = Z.to_nat n.
Proof. intros. unfold slice. by rewrite length_map, length_seqZ. Qed.

Lemma pointer_range d fs block index : 0 <= pointer d fs block index < 2 ^ 32.
Proof.
  pose proof (le_val_range (slice d (addr fs block index 4) 4)) as H.
  rewrite slice_length in H by lia. exact H.
Qed.

(** ** The block map of an inode *)

(** The reference: 12 direct blocks, then trees of depth 1, 2 and 3 whose nodes
    have [block_size / 4] children. *)
Definition block_map d fs (ino : Inode) (index : Z) : Z :=
  let n := block_size fs / 4 in
  if index <? 12 then nth (Z.to_nat index) (direct_pointer ino) 0
  else if index - 12 <? n then pointer d fs (singly_ip ino) (index - 12)
  else if index - 12 - n <? n * n then
    let j := index - 12 - n in
    pointer d fs (pointer d fs (doubly_ip ino) (j / n)) (j mod n)
  else
    let j := index - 12 - n - n * n in
    pointer d fs (pointer d fs (pointer d fs (triply_ip ino) (j / (n * n))) (j / n mod n)) (j mod n).

(** The blocks of addresses on the way to [index] lie on the disk. *)
Definition map_ok d fs (ino : Inode) (index : Z) : Prop :=
  let n := block_size fs / 4 in
  if index <? 12 then length (direct_pointer ino) = 12%nat
  else if index - 12 <? n then on_disk d fs (singly_ip ino)
  else if index - 12 - n <? n * n then
    let j := index - 12 - n in
    on_disk d fs (doubly_ip ino) /\ on_disk d fs (pointer d fs (doubly_ip ino) (j / n))
  else
    let j := index - 12 - n - n * n in
    j < n * n * n /\ on_disk d fs (triply_ip ino) /\
    on_disk d fs (pointer d fs (triply_ip ino) (j / (n * n))) /\
    on_disk d fs (pointer d fs (pointer d fs (triply_ip ino) (j / (n * n))) (j / n mod n)).

Lemma get_block_address_eq fs ino index s :
  fs_ok fs -> e_fs s = Some fs -> 0 <= index -> map_ok (e_disk s) fs ino index ->
  (block_size fs = 4096 \/
   index < 12 + block_size fs / 4 + (block_size fs / 4) * (block_size fs / 4)) ->
  ext2.get_block_address ino index s = (Ret (block_map (e_disk s) fs ino index), s).
Proof.
  intros Hok Hfs Hi Hm Ht. pose proof Hok as [H1 H2 H3 _].
  unfold ext2.get_block_address, bind. rewrite (fs_get_eq s fs Hfs).
  unfold map_ok, block_map in *. set (n := block_size fs / 4) in *.
  assert (Hn : 256 <= n <= 2 ^ 18).
  { unfold n. split; [apply Z.div_le_lower_bound; lia|]. apply Z.div_le_upper_bound; lia. }
  destruct (Z.ltb_spec index 12).
  { unfold ext2.direct_at.
    destruct (lookup_lt_is_Some_2 (direct_pointer ino) (Z.to_nat index)) as [p Hp]; [lia|].
    rewrite Hp. by erewrite nth_lookup_Some. }
  unfold usub, umul, usize. rewrite chk_ok.
  2:{ split; [lia|]. destruct Ht as [Ht|Ht]; [|nia]. destruct (Z.ltb_spec (index - 12) n); [nia|].
      destruct (Z.ltb_spec (index - 12 - n) (n * n)); [nia|]. destruct Hm as [Hj _]. nia. }
  destruct (Z.ltb_spec (index - 12) n); [apply read_pointer_eq; [done|done|fold n; lia]|].
  assert (Hlt : index - 12 - n < 2 ^ 60).
  { destruct (Z.ltb_spec (index - 12 - n) (n * n)); [nia|]. destruct Hm as [Hj _]. nia. }
  rewrite chk_ok by lia. rewrite chk_ok by nia.
  destruct (Z.ltb_spec (index - 12 - n) (n * n)).
  - destruct Hm as [Hd Hp]. unfold udiv, urem. rewrite (proj2 (Z.eqb_neq n 0)) by lia.
    unfold ret at 1. set (j := index - 12 - n) in *.
    rewrite read_pointer_eq; [|done|done|].
    2:{ split; [apply Z.div_pos; lia|]. apply Z.div_lt_upper_bound; lia. }
    unfold ret at 1. apply read_pointer_eq; [done|done|]. apply Z.mod_pos_bound. lia.
  - rewrite chk_ok by lia. destruct Hm as (Hj & Hm1 & Hm2 & Hm3).
    destruct Ht as [Ht|Ht]; [|lia]. assert (n = 1024) as En by (unfold n; rewrite Ht; reflexivity).
    set (j := index - 12 - n - n * n) in *. unfold udiv, urem.
    rewrite (proj2 (Z.eqb_neq (n * n) 0)) by nia. unfold ret at 1. unfold ret at 1.
    rewrite read_pointer_eq; [|done|done|].
    2:{ split; [apply Z.div_pos; nia|]. apply Z.div_lt_upper_bound; nia. }
    rewrite <- En.
    replace (j mod (n * n) / n) with (j / n mod n).
    2:{ rewrite (Z.rem_mul_r j n n), Z.mul_comm, Z.div_add, (Z.div_small (j mod n)) by
          (try apply Z.mod_pos_bound; lia). lia. }
    replace (j mod (n * n) mod n) with (j mod n).
    2:{ rewrite (Z.rem_mul_r j n n), Z.mul_comm, Z_mod_plus_full, Z.mod_mod by lia. done. }
    rewrite read_pointer_eq; [|done|done|apply Z.mod_pos_bound; lia].
    apply read_pointer_eq; [done|done|]. apply Z.mod_pos_bound. lia.
Qed.

(** ** Inodes on the disk *)

Record inode_ok (i : Inode) : Prop := {
  io_fields : Forall2 field_ok inode_ws (inode_fields i);
  io_direct : length (direct_pointer i) = 12%nat;
  io_os : length (os_specific2 i) = 3%nat;
}.

Lemma inode_of_fields i : inode_ok i -> inode_of (inode_fields i) = i.
Proof.
  intros [_ Hd Ho]. destruct i; simpl in Hd, Ho.
  do 13 (destruct direct_pointer0 as [|? direct_pointer0]; try discriminate Hd).
  do 4 (destruct os_specific3 as [|? os_specific3]; try discriminate Ho). reflexivity.
Qed.

Lemma inode_codec i rest : inode_ok i ->
  inode_of (dec inode_ws (enc inode_ws (inode_fields i) ++ rest)) = i.
Proof. intros H. rewrite dec_enc by apply H. by apply inode_of_fields. Qed.

Lemma inode_fields_length i : inode_ok i -> length (inode_fields i) = length inode_ws.
Proof. intros [H _ _]. symmetry. by apply Forall2_length in H. Qed.

(** What a write leaves in a slice. *)
Definition written (d d' : D) (off : Z) (bs : list Z) : Prop :=
  forall x, content d' x =
    match (if decide (off <= x) then bs !! Z.to_nat (x - off) else None) with
    | Some b => b
    | None => content d x
    end.

Lemma written_same d d' off bs :
  written d d' off bs -> slice d' off (Z.of_nat (length bs)) = bs.
Proof.
  intros Hw. apply list_eq. intros i. unfold slice. rewrite list_lookup_fmap.
  destruct (decide (i < length bs)%nat) as [Hi|Hi].
  - rewrite (proj2 (lookup_seqZ off (Z.of_nat (length bs)) i (off + Z.of_nat i))) by lia. simpl.
    rewrite Hw, decide_True by lia. replace (Z.to_nat (off + Z.of_nat i - off)) with i by lia.
    destruct (lookup_lt_is_Some_2 bs i Hi) as [b ->]. done.
  - rewrite (lookup_ge_None_2 bs) by lia. rewrite lookup_ge_None_2; [done|].
    rewrite length_seqZ. lia.
Qed.

Lemma written_other d d' off bs off' n :
  written d d' off bs -> off + Z.of_nat (length bs) <= off' \/ off' + n <= off ->
  slice d' off' n = slice d off' n.
Proof.
  intros Hw Ho. apply map_ext_in. intros x Hx. apply list_elem_of_In, elem_of_seqZ in Hx.
  rewrite Hw. case_decide; [|done]. rewrite lookup_ge_None_2; [done|]. lia.
Qed.

Lemma write_unwrap_eq off bs s :
  0 <= off -> bs <> [] -> Forall is_byte bs -> off + Z.of_nat (length bs) <= capacity (e_disk s) ->
  exists d', ext2.write_unwrap off bs s = (Ret tt, mkE (e_p s) d' (e_fs s) (e_table s)) /\
    capacity d' = capacity (e_disk s) /\ written (e_disk s) d' off bs.
Proof.
  intros Ho Hne Hb Hc. destruct (disk_write_ok (e_disk s) off bs Ho Hne Hb Hc) as (d' & E & Hcap & Hw).
  exists d'. split; [|done]. unfold ext2.write_unwrap, ext2.write_bytes_to, ext2.on_disk, zoom, bind.
  by rewrite E.
Qed.

(** The place of inode [n]: its group's descriptor, and its slot in the table. *)
Definition group_of fs (n : Z) : Z := (n - 1) / inodes_per_group (superblock fs).
Definition index_of fs (n : Z) : Z := (n - 1) mod inodes_per_group (superblock fs).
Definition desc_addr fs (n : Z) : Z := addr fs (ext2.bgdt_block fs) (group_of fs n) BGD_SIZE.
Definition table_of d fs (n : Z) : Z := inode_table (bgd_of (slice d (desc_addr fs n) BGD_SIZE)).
Definition inode_addr d fs (n : Z) : Z := addr fs (table_of d fs n) (index_of fs n) INODE_SIZE.

Record placed d fs (n : Z) : Prop := {
  pl_number : 1 <= n < 2 ^ 32;
  pl_desc : desc_addr fs n + BGD_SIZE <= capacity d < 2 ^ 64;
  pl_inode : inode_addr d fs n + INODE_SIZE <= capacity d;
  pl_apart : far (desc_addr fs n) BGD_SIZE (inode_addr d fs n) INODE_SIZE;
}.

Lemma bgd_table_range bs : 0 <= inode_table (bgd_of bs).
Proof. apply le_val_range. Qed.

Lemma addr_nonneg fs block index size :
  fs_ok fs -> 0 <= block -> 0 <= index -> 0 <= size -> 0 <= addr fs block index size.
Proof. intros [? ? _ _] ? ? ?. unfold addr. nia. Qed.

Lemma group_index_range fs n : fs_ok fs -> 1 <= n ->
  0 <= group_of fs n /\ 0 <= index_of fs n < inodes_per_group (superblock fs).
Proof.
  intros [_ _ _ Hg] Hn. split; [apply Z.div_pos; lia|]. by apply Z.mod_pos_bound.
Qed.

Lemma bg_get_eq fs n s :
  fs_ok fs -> e_fs s = Some fs -> placed (e_disk s) fs n ->
  ext2.bg_get (group_of fs n) s =
    (Ret (mkBg (bgd_of (slice (e_disk s) (desc_addr fs n) BGD_SIZE)) (group_of fs n)), s).
Proof.
  intros Hok Hfs [Hn Hd Hi Ha]. pose proof Hok as [H1 H2 H3 _].
  pose proof (group_index_range fs n Hok ltac:(lia)) as [Hg _].
  unfold ext2.bg_get, bind. rewrite (fs_get_eq s fs Hfs).
  assert (0 <= ext2.bgdt_block fs) by (unfold ext2.bgdt_block; case_match; lia).
  pose proof (addr_nonneg fs (ext2.bgdt_block fs) (group_of fs n) BGD_SIZE Hok) as Hnn.
  unfold desc_addr, BGD_SIZE in *. rewrite locate_eq by lia.
  rewrite read_bytes_unwrap_eq by lia. done.
Qed.

Lemma get_block_group_eq fs n s :
  fs_ok fs -> e_fs s = Some fs -> 1 <= n < 2 ^ 32 ->
  ext2.get_block_group n s = (Ret (group_of fs n), s) /\
  ext2.get_table_index n s = (Ret (index_of fs n), s).
Proof.
  intros [_ _ _ Hg] Hfs Hn. unfold ext2.get_block_group, ext2.get_table_index, bind.
  rewrite (fs_get_eq s fs Hfs). unfold usub, usize. rewrite chk_ok by lia.
  unfold udiv, urem. rewrite (proj2 (Z.eqb_neq _ _)) by lia. done.
Qed.

Lemma inode_get_eq fs n s :
  fs_ok fs -> e_fs s = Some fs -> placed (e_disk s) fs n ->
  ext2.inode_get n s =
    (Ret (with_number (inode_of (dec inode_ws (slice (e_disk s) (inode_addr (e_disk s) fs n) INODE_SIZE))) n), s).
Proof.
  intros Hok Hfs Hpl. pose proof Hpl as [Hn Hd Hi Ha]. pose proof Hok as [H1 H2 H3 _].
  destruct (get_block_group_eq fs n s Hok Hfs Hn) as [Eg Ei].
  pose proof (group_index_range fs n Hok ltac:(lia)) as [Hg Hx].
  unfold ext2.inode_get, ext2.get_inode, bind. rewrite Eg, (bg_get_eq fs n s Hok Hfs Hpl).
  rewrite (fs_get_eq s fs Hfs), Ei. cbn [bg_raw].
  fold (table_of (e_disk s) fs n). pose proof (bgd_table_range (slice (e_disk s) (desc_addr fs n) BGD_SIZE)) as Ht.
  fold (table_of (e_disk s) fs n) in Ht.
  pose proof (addr_nonneg fs (table_of (e_disk s) fs n) (index_of fs n) INODE_SIZE Hok Ht) as Hnn.
  unfold inode_addr, INODE_SIZE in *.
  rewrite locate_eq by lia. rewrite read_bytes_unwrap_eq by lia. done.
Qed.

Lemma inode_flush_eq fs ino s :
  fs_ok fs -> e_fs s = Some fs -> inode_ok ino -> placed (e_disk s) fs (inode_number ino) ->
  exists d', ext2.inode_flush ino s = (Ret tt, mkE (e_p s) d' (e_fs s) (e_table s)) /\
    capacity d' = capacity (e_disk s) /\
    written (e_disk s) d' (inode_addr (e_disk s) fs (inode_number ino)) (enc inode_ws (inode_fields ino)).
Proof.
  intros Hok Hfs Hio Hpl. set (n := inode_number ino) in *.
  pose proof Hpl as [Hn Hd Hi Ha]. pose proof Hok as [H1 H2 H3 _].
  destruct (get_block_group_eq fs n s Hok Hfs Hn) as [Eg Ei].
  pose proof (group_index_range fs n Hok ltac:(lia)) as [Hg Hx].
  unfold ext2.inode_flush, bind. fold n.
  rewrite (fs_get_eq s fs Hfs), Eg, (bg_get_eq fs n s Hok Hfs Hpl), Ei. cbn [bg_raw].
  fold (table_of (e_disk s) fs n). pose proof (bgd_table_range (slice (e_disk s) (desc_addr fs n) BGD_SIZE)) as Ht.
  fold (table_of (e_disk s) fs n) in Ht.
  pose proof (addr_nonneg fs (table_of (e_disk s) fs n) (index_of fs n) INODE_SIZE Hok Ht) as Hnn.
  unfold inode_addr, INODE_SIZE in *. rewrite locate_eq by lia.
  pose proof (enc_length inode_ws (inode_fields ino) (inode_fields_length ino Hio)) as Hl.
  apply write_unwrap_eq; [lia| |apply enc_bytes|].
  - intros E. by rewrite E in Hl.
  - rewrite Hl. change (Z.of_nat (sum_list inode_ws)) with 128. lia.
Qed.

(** ** Reading a file *)

Definition mem_of s : mem := p_mem (e_p s).
Definition with_mem s (m : mem) : estate D :=
  mkE (mkP m (p_alloc (e_p s))) (e_disk s) (e_fs s) (e_table s).

Lemma read_to_eq off n buffer s :
  0 <= off -> 0 < n -> off + n <= capacity (e_disk s) ->
  ext2.read_to off n buffer s =
    (Ret (Some tt), with_mem s (wr_bytes (mem_of s) (phys_of buffer) (slice (e_disk s) off n))).
Proof.
  intros Ho Hn Hc. unfold ext2.read_to, bind. rewrite read_bytes_eq by done.
  by destruct s as [[m a] d fs t].
Qed.

(** The rounds of a read: how many, the length of one, and the bytes it brings. *)
Definition rounds fs (bytes : Z) : Z := (bytes + block_size fs - 1) / block_size fs.
Definition count_of fs (bytes k : Z) : Z :=
  if k * block_size fs + block_size fs <=? bytes then block_size fs else bytes mod block_size fs.
Definition round_addr d fs (ino : Inode) (offset k : Z) : Z :=
  addr fs (block_map d fs ino (offset / block_size fs + k)) offset 1.
Definition round_bytes d fs (ino : Inode) (offset bytes k : Z) : list Z :=
  slice d (round_addr d fs ino offset k) (count_of fs bytes k).
Definition read_mem d fs (ino : Inode) (offset bytes buffer : Z) (ks : list Z) (m : mem) : mem :=
  foldl (fun m k => wr_bytes m (phys_of buffer) (round_bytes d fs ino offset bytes k)) m ks.

(** [get_block_address] follows the block map at [index]. *)
Definition mapped d fs (ino : Inode) (index : Z) : Prop :=
  map_ok d fs ino index /\ 0 <= block_map d fs ino index /\
  (block_size fs = 4096 \/
   index < 12 + block_size fs / 4 + (block_size fs / 4) * (block_size fs / 4)).

Record readable d fs (ino : Inode) (offset bytes : Z) : Prop := {
  rb_offset : 0 <= offset;
  rb_bytes : 0 <= bytes;
  rb_end : offset + bytes < 2 ^ 62;
  rb_mapped : forall k, 0 <= k < rounds fs bytes -> mapped d fs ino (offset / block_size fs + k);
  rb_disk : capacity d < 2 ^ 64;
  rb_round : forall k, 0 <= k < rounds fs bytes ->
    round_addr d fs ino offset k + count_of fs bytes k <= capacity d;
}.

Lemma rounds_spec fs bytes k : fs_ok fs -> 0 <= bytes -> 0 <= k ->
  k < rounds fs bytes <-> k * block_size fs < bytes.
Proof.
  intros [_ H _ _] Hb Hk. unfold rounds.
  pose proof (Z.div_mod (bytes + block_size fs - 1) (block_size fs)) as E.
  pose proof (Z.mod_pos_bound (bytes + block_size fs - 1) (block_size fs)). split; nia.
Qed.

Lemma count_of_spec fs bytes k : fs_ok fs -> 0 <= bytes -> 0 <= k -> k * block_size fs < bytes ->
  count_of fs bytes k = Z.min (block_size fs) (bytes - k * block_size fs).
Proof.
  intros [_ H _ _] Hb Hk Hlt. unfold count_of. case_match eqn:E; [lia|].
  apply Z.leb_gt in E. rewrite Z.min_r by lia. symmetry. apply (Z.mod_unique_pos _ _ k); lia.
Qed.

Lemma read_loop_eq fs ino offset bytes buffer : fs_ok fs ->
  forall fuel k s, e_fs s = Some fs -> readable (e_disk s) fs ino offset bytes ->
  0 <= k <= rounds fs bytes -> rounds fs bytes - k <= Z.of_nat fuel ->
  ext2.read_loop fs ino fuel offset bytes buffer (Z.min (k * block_size fs) bytes) k s =
    (Ret (Some bytes), with_mem s (read_mem (e_disk s) fs ino offset bytes buffer
                                            (seqZ k (rounds fs bytes - k)) (mem_of s))).
Proof.
  intros Hok fuel. pose proof Hok as [_ Hbs _ _].
  induction fuel as [|fuel IH]; intros k s Hfs Hr Hk Hf; pose proof Hr as [Ho Hb He Hm Hc Hd].
  { replace (rounds fs bytes - k) with 0 by lia. cbn [ext2.read_loop].
    pose proof (rounds_spec fs bytes k Hok Hb ltac:(lia)).
    rewrite (proj2 (Z.ltb_ge _ _)) by lia. rewrite Z.min_r by lia. by destruct s as [[] ? ? ?]. }
  cbn [ext2.read_loop]. pose proof (rounds_spec fs bytes k Hok Hb ltac:(lia)) as Hs.
  destruct (Z.ltb_spec (Z.min (k * block_size fs) bytes) bytes) as [Hlt|Hge].
  2:{ replace (rounds fs bytes - k) with 0 by lia. rewrite Z.min_r by lia. by destruct s as [[] ? ? ?]. }
  assert (Hkb : k * block_size fs < bytes) by lia. rewrite Z.min_l by lia.
  destruct (Hm k ltac:(lia)) as (Hmap & Hpos & Hidx).
  assert (0 <= offset / block_size fs <= offset).
  { split; [apply Z.div_pos; lia|]. apply Z.div_le_upper_bound; nia. }
  assert (k < bytes) by nia.
  assert (Hround : ext2.round_offset fs ino offset k s =
                   (Ret (block_map (e_disk s) fs ino (offset / block_size fs + k)), s)).
  { unfold ext2.round_offset, bind, udiv, uadd, usize. rewrite (proj2 (Z.eqb_neq _ _)) by lia.
    unfold ret at 1. rewrite chk_ok by lia. rewrite (get_block_address_eq fs) by (done || lia). done. }
  unfold bind at 1. rewrite Hround.
  assert (Hcount : ext2.round_count (k * block_size fs) bytes (block_size fs) s =
                   (Ret (count_of fs bytes k), s)).
  { unfold ext2.round_count, bind, uadd, urem, usize, count_of. rewrite chk_ok by lia.
    case_match; [done|]. by rewrite (proj2 (Z.eqb_neq _ _)) by lia. }
  unfold bind at 1. rewrite Hcount.
  pose proof (count_of_spec fs bytes k Hok Hb ltac:(lia) Hkb) as Hcs.
  specialize (Hd k ltac:(lia)). unfold round_addr in Hd.
  pose proof (addr_nonneg fs (block_map (e_disk s) fs ino (offset / block_size fs + k)) offset 1 Hok
                Hpos Ho ltac:(lia)) as Hnn.
  pose proof (fo_lba fs Hok).
  unfold bind at 1. rewrite locate_eq by lia.
  unfold bind at 1. rewrite read_to_eq by lia.
  unfold bind at 1. unfold uadd at 1, usize. rewrite chk_ok by lia.
  unfold bind at 1. unfold uadd at 1. rewrite chk_ok by lia.
  replace (k * block_size fs + count_of fs bytes k) with (Z.min ((k + 1) * block_size fs) bytes) by lia.
  rewrite IH by (done || lia). rewrite (seqZ_cons k) by lia.
  replace (Z.pred (rounds fs bytes - k)) with (rounds fs bytes - (k + 1)) by lia. done.
Qed.

Lemma inode_read_eq fs ino offset bytes buffer s :
  fs_ok fs -> e_fs s = Some fs -> readable (e_disk s) fs ino offset bytes ->
  ext2.inode_read ino offset bytes buffer s =
    (Ret (Some bytes), with_mem s (read_mem (e_disk s) fs ino offset bytes buffer
                                            (seqZ 0 (rounds fs bytes)) (mem_of s))).
Proof.
  intros Hok Hfs Hr. unfold ext2.inode_read, bind. rewrite (fs_get_eq s fs Hfs).
  pose proof Hok as [_ Hbs _ _]. pose proof (rb_bytes _ _ _ _ _ Hr) as Hb.
  pose proof (read_loop_eq fs ino offset bytes buffer Hok (S (Z.to_nat (bytes / block_size fs))) 0 s Hfs Hr) as H.
  rewrite Z.sub_0_r, Z.mul_0_l, Z.min_l in H by lia. apply H.
  - unfold rounds. split; [done|]. apply Z.div_pos; lia.
  - unfold rounds. rewrite Nat2Z.inj_succ, Z2Nat.id by (apply Z.div_pos; lia).
    apply Z.lt_succ_r, Z.div_lt_upper_bound; [lia|].
    pose proof (Z.div_mod bytes (block_size fs)). pose proof (Z.mod_pos_bound bytes (block_size fs)). nia.
Qed.

(** The byte of a file at [x]. *)
Definition file_byte d fs (ino : Inode) (x : Z) : Z :=
  content d (addr fs (block_map d fs ino (x / block_size fs)) (x mod block_size fs) 1).

(** A range of bytes inside the first block of a file. *)
Record in_first_block d fs (ino : Inode) (offset bytes : Z) : Prop := {
  fb_offset : 0 <= offset;
  fb_bytes : 0 < bytes;
  fb_end : offset + bytes <= block_size fs;
  fb_direct : length (direct_pointer ino) = 12%nat;
  fb_block : 0 <= fld (direct_pointer ino) 0;
  fb_disk : addr fs (fld (direct_pointer ino) 0) offset 1 + bytes <= capacity d < 2 ^ 64;
}.

Lemma first_block_map d fs ino : block_map d fs ino 0 = fld (direct_pointer ino) 0.
Proof. done. Qed.

Lemma offset_block fs offset bytes : 0 <= offset -> 0 < bytes -> offset + bytes <= block_size fs ->
  offset / block_size fs = 0.
Proof. intros. apply Z.div_small. lia. Qed.

Lemma rounds_one fs bytes : 0 < bytes <= block_size fs -> rounds fs bytes = 1.
Proof. intros. unfold rounds. symmetry. apply (Z.div_unique_pos _ _ 1 (bytes - 1)); lia. Qed.

Lemma count_of_first fs bytes : fs_ok fs -> 0 < bytes <= block_size fs -> count_of fs bytes 0 = bytes.
Proof. intros Hok H. rewrite count_of_spec by (done || lia). lia. Qed.

Lemma first_block_readable d fs ino offset bytes :
  fs_ok fs -> in_first_block d fs ino offset bytes -> readable d fs ino offset bytes.
Proof.
  intros Hok [Ho Hb He Hd Hp Hc]. pose proof (fo_bs fs Hok). split; try lia.
  - intros k Hk. rewrite rounds_one in Hk by lia. assert (k = 0) as -> by lia.
    rewrite (offset_block fs offset bytes) by lia.
    assert (0 <= block_size fs / 4) by (apply Z.div_pos; lia).
    split_and!; [exact Hd|by rewrite first_block_map|right; nia].
  - intros k Hk. rewrite rounds_one in Hk by lia. assert (k = 0) as -> by lia.
    rewrite count_of_first by (done || lia). unfold round_addr.
    rewrite (offset_block fs offset bytes), first_block_map by lia. lia.
Qed.

Lemma slice_bytes d off n : map (fun b => b mod 256) (slice d off n) = slice d off n.
Proof.
  unfold slice. rewrite map_map. apply map_ext. intros x. apply Z.mod_small, content_byte.
Qed.

Lemma slice_seq d a b n : map (fun x => content d (a + (x - b))) (seqZ b n) = slice d a n.
Proof.
  unfold slice. apply list_eq. intros i. rewrite !list_lookup_fmap.
  destruct (decide (Z.of_nat i < n)) as [H|H].
  - rewrite (proj2 (lookup_seqZ b n i (b + Z.of_nat i))), (proj2 (lookup_seqZ a n i (a + Z.of_nat i))) by lia.
    simpl. do 2 f_equal. lia.
  - rewrite !lookup_ge_None_2; [done| |]; rewrite length_seqZ; lia.
Qed.

Lemma file_bytes_slice d fs ino offset bytes :
  in_first_block d fs ino offset bytes ->
  map (file_byte d fs ino) (seqZ offset bytes) = slice d (addr fs (fld (direct_pointer ino) 0) offset 1) bytes.
Proof.
  intros [Ho Hb He _ _ _]. rewrite <- (slice_seq d _ offset bytes). apply map_ext_in. intros x Hx.
  apply list_elem_of_In, elem_of_seqZ in Hx. unfold file_byte.
  rewrite Z.div_small, Z.mod_small, first_block_map by lia. f_equal. unfold addr. lia.
Qed.

(** A read inside the first block. *)
Lemma inode_read_first fs ino offset bytes buffer s :
  fs_ok fs -> e_fs s = Some fs -> in_first_block (e_disk s) fs ino offset bytes ->
  ext2.inode_read ino offset bytes buffer s =
    (Ret (Some bytes), with_mem s (wr_bytes (mem_of s) (phys_of buffer)
       (slice (e_disk s) (addr fs (fld (direct_pointer ino) 0) offset 1) bytes))).
Proof.
  intros Hok Hfs Hfb. rewrite (inode_read_eq fs) by (eauto using first_block_readable).
  destruct Hfb as [Ho Hb He _ _ _]. do 2 f_equal. rewrite rounds_one by lia.
  unfold read_mem, round_bytes, round_addr. cbn [foldl seqZ seq fmap list_fmap].
  change (seqZ 0 1) with [0]. cbn [foldl]. rewrite Z.add_0_r, count_of_first by (done || lia).
  by rewrite (offset_block fs offset bytes), first_block_map by lia.
Qed.

Lemma wr_slice m a d off n : 0 <= n ->
  rd_bytes (Z.to_nat n) (wr_bytes m a (slice d off n)) a = slice d off n /\
  only m (wr_bytes m a (slice d off n)) a n.
Proof.
  intros Hn. pose proof (rd_wr_bytes (slice d off n) m a) as H1.
  pose proof (wr_bytes_only m a (slice d off n)) as H2.
  rewrite slice_length in H1, H2 by done. rewrite slice_bytes in H1.
  rewrite Z2Nat.id in H2 by done. done.
Qed.

(** The rounds of a read of whole blocks each replace the one before. *)
Lemma wr_bytes_over m a bs bs' : length bs = length bs' ->
  forall x, rd8 (wr_bytes (wr_bytes m a bs) a bs') x = rd8 (wr_bytes m a bs') x.
Proof.
  intros Hl x. rewrite !rd8_wr_bytes, Hl. by case_decide.
Qed.

Lemma read_mem_blocks d fs ino k buffer m : fs_ok fs -> 0 < k ->
  forall x, rd8 (read_mem d fs ino 0 (k * block_size fs) buffer (seqZ 0 k) m) x =
    rd8 (wr_bytes m (phys_of buffer) (slice d (addr fs (block_map d fs ino (k - 1)) 0 1) (block_size fs))) x.
Proof.
  intros Hok Hk x. pose proof (fo_bs fs Hok) as Hbs.
  assert (Hrb : forall j, 0 <= j < k -> round_bytes d fs ino 0 (k * block_size fs) j =
            slice d (addr fs (block_map d fs ino j) 0 1) (block_size fs)).
  { intros j Hj. unfold round_bytes, round_addr. rewrite count_of_spec, Z.div_0_l by (done || nia).
    rewrite Z.min_l by nia. done. }
  assert (Hgen : forall n, (n < Z.to_nat k)%nat -> forall x,
    rd8 (read_mem d fs ino 0 (k * block_size fs) buffer (seqZ 0 (Z.of_nat (S n))) m) x =
    rd8 (wr_bytes m (phys_of buffer) (slice d (addr fs (block_map d fs ino (Z.of_nat n)) 0 1) (block_size fs))) x).
  { induction n as [|n IH]; intros Hn y.
    - change (seqZ 0 (Z.of_nat 1)) with [0]. cbn [read_mem foldl]. by rewrite Hrb by lia.
    - replace (Z.of_nat (S (S n))) with (Z.of_nat (S n) + 1) by lia.
      rewrite seqZ_app by lia. unfold read_mem in *. rewrite foldl_app.
      replace (seqZ (0 + Z.of_nat (S n)) 1) with [Z.of_nat (S n)] by (by rewrite seqZ_cons by lia).
      cbn [foldl]. rewrite Hrb by lia. rewrite !rd8_wr_bytes, !slice_length by lia.
      case_decide; [done|]. rewrite IH by lia. rewrite rd8_wr_bytes, slice_length by lia.
      by rewrite decide_False. }
  specialize (Hgen (Z.to_nat (k - 1)) ltac:(lia) x).
  replace (Z.of_nat (S (Z.to_nat (k - 1)))) with k in Hgen by lia.
  by rewrite Z2Nat.id in Hgen by lia.
Qed.

(** ** Writing a file *)

(** A write that does not change the number of blocks leaves the inode alone. *)
Lemma resize_same_blocks fs ino size s :
  fs_ok fs -> e_fs s = Some fs -> 0 <= size < 2 ^ 32 -> 0 <= sizel ino < 2 ^ 32 ->
  cdiv size (block_size fs) = cdiv (sizel ino) (block_size fs) ->
  ext2.resize ino size s = (Ret ino, s).
Proof.
  intros Hok Hfs Hs Hi He. pose proof (fo_bs fs Hok). unfold ext2.resize. case_match; [done|].
  unfold bind. rewrite (fs_get_eq s fs Hfs). rewrite !div_ceil_eq by lia.
  by rewrite (proj2 (Z.eqb_eq _ _)).
Qed.

Lemma bytes_at_eq buffer n s :
  ext2.bytes_at buffer n s = (Ret (rd_bytes (Z.to_nat n) (mem_of s) (phys_of buffer)), s).
Proof. by destruct s as [[m a] d fs t]. Qed.

Lemma rd_bytes_bytes n m : forall a, Forall is_byte (rd_bytes n m a).
Proof.
  induction n as [|n IH]; intros a; constructor; [apply rd8_range|apply IH].
Qed.

Lemma cdiv_one x y : 0 < x <= y -> cdiv x y = 1.
Proof. intros. unfold cdiv. symmetry. apply (Z.div_unique_pos _ _ 1 (x - 1)); lia. Qed.

(** A write inside the first block of a file that has one. *)
Lemma inode_write_first fs ino offset bytes buffer s :
  fs_ok fs -> e_fs s = Some fs -> 0 < sizel ino <= block_size fs ->
  in_first_block (e_disk s) fs ino offset bytes ->
  exists d', ext2.inode_write ino offset bytes buffer s =
      (Ret (Some bytes, ino), mkE (e_p s) d' (e_fs s) (e_table s)) /\
    capacity d' = capacity (e_disk s) /\
    written (e_disk s) d' (addr fs (fld (direct_pointer ino) 0) offset 1)
      (rd_bytes (Z.to_nat bytes) (mem_of s) (phys_of buffer)).
Proof.
  intros Hok Hfs Hsz Hfb. pose proof Hfb as [Ho Hb He Hd Hp Hc]. pose proof Hok as [H1 Hbs _ _].
  set (a := addr fs (fld (direct_pointer ino) 0) offset 1) in *.
  assert (Ha : 0 <= a) by (apply addr_nonneg; done || lia).
  destruct (disk_write_ok (e_disk s) a (rd_bytes (Z.to_nat bytes) (mem_of s) (phys_of buffer)))
    as (d' & E & Hcap & Hw); [done| |apply rd_bytes_bytes|rewrite rd_bytes_length; lia|].
  { intros E%(f_equal length). rewrite rd_bytes_length in E. simpl in E. lia. }
  exists d'. split; [|done]. unfold ext2.inode_write.
  unfold bind at 1. rewrite (fs_get_eq s fs Hfs).
  unfold bind at 1. unfold uadd at 1, usize. rewrite chk_ok by lia.
  unfold bind at 1. rewrite (resize_same_blocks fs) by (done || rewrite ?cdiv_one; lia).
  assert (Hin : offset / block_size fs + 0 = 0) by (rewrite (offset_block fs offset bytes); lia).
  assert (Hga : ext2.round_offset fs ino offset 0 s = (Ret (fld (direct_pointer ino) 0), s)).
  { unfold ext2.round_offset, bind, udiv, uadd, usize. rewrite (proj2 (Z.eqb_neq _ _)) by lia.
    unfold ret at 1. rewrite Hin, chk_ok by lia. rewrite (get_block_address_eq fs ino 0 s); [done|done|done|lia|exact Hd|].
    right. assert (0 <= block_size fs / 4) by (apply Z.div_pos; lia). nia. }
  assert (Hcount : ext2.round_count 0 bytes (block_size fs) s = (Ret bytes, s)).
  { unfold ext2.round_count, bind, uadd, urem, usize. rewrite chk_ok by lia.
    rewrite Z.add_0_l. destruct (Z.leb_spec (block_size fs) bytes); [unfold ret; do 2 f_equal; lia|].
    rewrite (proj2 (Z.eqb_neq _ _)) by lia. by rewrite Z.mod_small by lia. }
  unfold bind at 1. cbn [ext2.write_loop]. rewrite (proj2 (Z.ltb_lt 0 bytes)) by lia.
  unfold bind at 1. rewrite Hga. unfold bind at 1. rewrite Hcount.
  unfold bind at 1. rewrite locate_eq by (fold a; lia). fold a.
  unfold bind at 1. rewrite bytes_at_eq.
  unfold bind at 1. unfold ext2.write_bytes_to, ext2.on_disk, zoom. rewrite E.
  unfold bind at 1. unfold uadd at 1, usize. rewrite chk_ok by lia.
  unfold bind at 1. unfold uadd at 1. rewrite chk_ok by lia. rewrite Z.add_0_l.
  destruct (Z.to_nat (bytes / block_size fs)); cbn [ext2.write_loop];
    by rewrite (proj2 (Z.ltb_ge bytes bytes)) by lia.
Qed.

End layout.

(** ** Properties *)

Section claims.
Context {D : Type} `{!Disk D} `{!DiskLaws D}.
Implicit Types (fs : Ext2Filesystem) (s : estate D).

(** C15.  [get_block_address] is the EXT2 block map: direct blocks, then trees of
    depth one and two, for every block size; for the triply indirect tree the
    code divides by 1024 instead of [block_size / 4], so it follows the map
    there only when blocks have 4096 bytes. *)
Theorem block_map_correct fs ino index s :
  fs_ok fs -> e_fs s = Some fs -> 0 <= index -> map_ok (e_disk s) fs ino index ->
  (block_size fs = 4096 \/
   index < 12 + block_size fs / 4 + (block_size fs / 4) * (block_size fs / 4)) ->
  ext2.get_block_address ino index s = (Ret (block_map (e_disk s) fs ino index), s).
Proof. apply get_block_address_eq. Qed.

(** C16.  Round trip: what [Inode::flush] writes, [Inode::get] reads back, field
    by field, and the rest of the disk is as it was. *)
Theorem inode_flush_get fs ino s :
  fs_ok fs -> e_fs s = Some fs -> inode_ok ino -> placed (e_disk s) fs (inode_number ino) ->
  exists s', ext2.inode_flush ino s = (Ret tt, s') /\
    ext2.inode_get (inode_number ino) s' = (Ret ino, s') /\
    e_p s' = e_p s /\ e_table s' = e_table s /\
    forall x, ~ (inode_addr (e_disk s) fs (inode_number ino) <= x <
                 inode_addr (e_disk s) fs (inode_number ino) + INODE_SIZE) ->
      content (e_disk s') x = content (e_disk s) x.
Proof.
  intros Hok Hfs Hio Hpl. set (n := inode_number ino) in *.
  destruct (inode_flush_eq fs ino s Hok Hfs Hio Hpl) as (d' & E & Hcap & Hw). fold n in Hw.
  pose proof Hpl as [Hn Hd Hi Ha].
  pose proof (enc_length inode_ws (inode_fields ino) (inode_fields_length ino Hio)) as Hl.
  change (sum_list inode_ws) with (Z.to_nat INODE_SIZE) in Hl.
  assert (Hdesc : slice d' (desc_addr fs n) BGD_SIZE = slice (e_disk s) (desc_addr fs n) BGD_SIZE).
  { eapply written_other; [exact Hw|]. rewrite Hl. unfold far, INODE_SIZE, BGD_SIZE in *. lia. }
  assert (Haddr : inode_addr d' fs n = inode_addr (e_disk s) fs n).
  { unfold inode_addr, table_of. by rewrite Hdesc. }
  eexists. split; [exact E|]. split_and!; [|done|done|].
  - rewrite (inode_get_eq fs n); [|done|done|].
    + cbn [e_disk]. rewrite Haddr. pose proof (written_same _ _ _ _ Hw) as Hsame.
      rewrite Hl in Hsame. change (Z.of_nat (Z.to_nat INODE_SIZE)) with INODE_SIZE in Hsame.
      rewrite Hsame, <- (app_nil_r (enc inode_ws (inode_fields ino))), inode_codec by done.
      unfold n. by destruct ino.
    + cbn [e_disk]. split; rewrite ?Hcap, ?Haddr; done.
  - intros x Hx. cbn [e_disk]. rewrite Hw. case_decide; [|done].
    rewrite lookup_ge_None_2; [done|]. rewrite Hl. unfold INODE_SIZE in *. lia.
Qed.

(**  Reading: a read that stays inside the first block of a file gives exactly
    the bytes of the file at that offset, in the buffer and nowhere else, and
    changes neither the disk nor the tables. *)
Theorem read_first_block fs ino offset bytes buffer s :
  fs_ok fs -> e_fs s = Some fs -> in_first_block (e_disk s) fs ino offset bytes ->
  exists m', ext2.inode_read ino offset bytes buffer s = (Ret (Some bytes), with_mem s m') /\
    rd_bytes (Z.to_nat bytes) m' (phys_of buffer) =
      map (file_byte (e_disk s) fs ino) (seqZ offset bytes) /\
    only (mem_of s) m' (phys_of buffer) bytes.
Proof.
  intros Hok Hfs Hfb. eexists. split; [by apply inode_read_first|].
  rewrite (file_bytes_slice _ _ _ _ _ Hfb). apply wr_slice. destruct Hfb. lia.
Qed.

(**  Reading [k] whole blocks reports all of them as read, but every round
    puts its block at the start of the buffer: what is left there is the last
    block, and the rest of the buffer is as it was. *)
Theorem read_blocks_overlap fs ino k buffer s :
  fs_ok fs -> e_fs s = Some fs -> 0 < k -> readable (e_disk s) fs ino 0 (k * block_size fs) ->
  exists m', ext2.inode_read ino 0 (k * block_size fs) buffer s =
      (Ret (Some (k * block_size fs)), with_mem s m') /\
    rd_bytes (Z.to_nat (block_size fs)) m' (phys_of buffer) =
      slice (e_disk s) (addr fs (block_map (e_disk s) fs ino (k - 1)) 0 1) (block_size fs) /\
    only (mem_of s) m' (phys_of buffer) (block_size fs).
Proof.
  intros Hok Hfs Hk Hr. eexists. split; [by apply inode_read_eq|]. pose proof (fo_bs fs Hok).
  assert (Er : rounds fs (k * block_size fs) = k).
  { unfold rounds. symmetry. apply (Z.div_unique_pos _ _ k (block_size fs - 1)); lia. }
  rewrite Er.
  pose proof (read_mem_blocks (e_disk s) fs ino k buffer (mem_of s) Hok Hk) as Hm.
  destruct (wr_slice (mem_of s) (phys_of buffer) (e_disk s)
              (addr fs (block_map (e_disk s) fs ino (k - 1)) 0 1) (block_size fs)) as [H1 H2]; [lia|].
  split; [|intros x Hx; rewrite Hm; by apply H2].
  etransitivity; [|exact H1]. apply rd_bytes_agree. intros x _. apply Hm.
Qed.

(** C17.  Round trip, for a file whose size is between one byte and one block: bytes
    written inside its block are read back, the write changes no other byte of
    the disk, and the inode is returned as it was, its size included. *)
Theorem write_read_roundtrip fs ino offset bytes src dst s :
  fs_ok fs -> e_fs s = Some fs -> 0 < sizel ino <= block_size fs ->
  in_first_block (e_disk s) fs ino offset bytes ->
  exists s1 m2, ext2.inode_write ino offset bytes src s = (Ret (Some bytes, ino), s1) /\
    mem_of s1 = mem_of s /\
    (forall x, ~ (addr fs (fld (direct_pointer ino) 0) offset 1 <= x <
                  addr fs (fld (direct_pointer ino) 0) offset 1 + bytes) ->
       content (e_disk s1) x = content (e_disk s) x) /\
    ext2.inode_read ino offset bytes dst s1 = (Ret (Some bytes), with_mem s1 m2) /\
    rd_bytes (Z.to_nat bytes) m2 (phys_of dst) = rd_bytes (Z.to_nat bytes) (mem_of s) (phys_of src) /\
    only (mem_of s) m2 (phys_of dst) bytes.
Proof.
  intros Hok Hfs Hsz Hfb.
  destruct (inode_write_first fs ino offset bytes src s Hok Hfs Hsz Hfb) as (d' & E & Hcap & Hw).
  pose proof Hfb as [Ho Hb He Hd Hp Hc].
  assert (Hfb' : in_first_block d' fs ino offset bytes) by (split; try done; by rewrite Hcap).
  pose proof (inode_read_first fs ino offset bytes dst (mkE (e_p s) d' (e_fs s) (e_table s)) Hok Hfs Hfb') as Hr.
  eexists _, _. split; [exact E|]. split; [done|]. split; [|split; [exact Hr|]].
  - intros x Hx. cbn [e_disk]. rewrite Hw. case_decide; [|done].
    rewrite lookup_ge_None_2; [done|]. rewrite rd_bytes_length. lia.
  - cbn [e_disk]. pose proof (written_same _ _ _ _ Hw) as Hs.
    rewrite rd_bytes_length, Z2Nat.id in Hs by lia. rewrite <- Hs. apply wr_slice. lia.
Qed.

End claims.

(** ** Witnesses *)

(** A disk with a descriptor table at 2048, whose first group has its inodes at
    block 5; inode 2 is a file of two blocks, 20 and 21. *)
Definition demo_disk : ramdisk := mkRam (wr8 (wr32 empty 2056 5) 20580 7) 65536.
Definition demo_fs : Ext2Filesystem := mkExt2 (super_of (replicate 25 8)) 1024 1 0.
Definition demo_inode : Inode :=
  mkInode 0x81ed 0 600 0 0 0 0 0 1 2 0 2 [20; 21; 0; 0; 0; 0; 0; 0; 0; 0; 0; 0]
          30 31 0 0 0 0 0 [0; 0; 0].
Definition demo : estate ramdisk := mkE (mkP (wr8 empty 0x5000 9) None) demo_disk (Some demo_fs) [].

Lemma demo_fs_ok : fs_ok demo_fs.
Proof. split; vm_compute; intuition congruence. Qed.

Lemma demo_inode_ok : inode_ok demo_inode.
Proof.
  split; [|reflexivity|reflexivity].
  vm_compute inode_ws. vm_compute inode_fields.
  repeat (constructor; [unfold field_ok; lia|]). constructor.
Qed.

Lemma demo_placed : placed (e_disk demo) demo_fs 2.
Proof. split; vm_compute; intuition congruence. Qed.

Lemma demo_first_block : in_first_block (e_disk demo) demo_fs demo_inode 100 600.
Proof. split; vm_compute; intuition congruence. Qed.

Lemma demo_one_block : 0 < sizel demo_inode <= block_size demo_fs.
Proof. cbn. lia. Qed.

Lemma demo_readable : readable (e_disk demo) demo_fs demo_inode 0 (2 * block_size demo_fs).
Proof.
  assert (Hr : rounds demo_fs (2 * block_size demo_fs) = 2) by (vm_compute; reflexivity).
  split; rewrite ?Hr; [lia|vm_compute; congruence|vm_compute; reflexivity| |vm_compute; reflexivity|].
  - intros k Hk. assert (k = 0 \/ k = 1) as [-> | ->] by lia;
      (split; [|split]; [vm_compute; reflexivity|vm_compute; congruence|right; vm_compute; reflexivity]).
  - intros k Hk. assert (k = 0 \/ k = 1) as [-> | ->] by lia; vm_compute; congruence.
Qed.

Lemma block_map_correct_witness :
  ext2.get_block_address demo_inode 13 demo = (Ret (block_map (e_disk demo) demo_fs demo_inode 13), demo) /\
  ext2.get_block_address demo_inode 300 demo = (Ret (block_map (e_disk demo) demo_fs demo_inode 300), demo).
Proof.
  split.
  - apply (block_map_correct demo_fs demo_inode 13 demo demo_fs_ok); [reflexivity|lia| |].
    + vm_compute. intuition congruence.
    + right. vm_compute. reflexivity.
  - apply (block_map_correct demo_fs demo_inode 300 demo demo_fs_ok); [reflexivity|lia| |].
    + vm_compute. intuition congruence.
    + right. vm_compute. reflexivity.
Defined.

Lemma inode_flush_get_witness :
  exists s', ext2.inode_flush demo_inode demo = (Ret tt, s') /\
    ext2.inode_get 2 s' = (Ret demo_inode, s').
Proof.
  destruct (inode_flush_get demo_fs demo_inode demo demo_fs_ok eq_refl demo_inode_ok demo_placed)
    as (s' & E & G & _).
  exists s'. split; [exact E|exact G].
Defined.

Lemma read_first_block_witness :
  exists m', ext2.inode_read demo_inode 100 600 0x5000 demo = (Ret (Some 600), with_mem demo m') /\
    rd8 m' 0x5000 = 7.
Proof.
  destruct (read_first_block demo_fs demo_inode 100 600 0x5000 demo demo_fs_ok eq_refl demo_first_block)
    as (m' & E & G & _).
  exists m'. split; [exact E|]. apply (f_equal (fun l => nth 0 l 0)) in G. exact G.
Defined.

Lemma read_blocks_overlap_witness :
  exists m', ext2.inode_read demo_inode 0 2048 0x5000 demo = (Ret (Some 2048), with_mem demo m') /\
    only (mem_of demo) m' 0x5000 1024.
Proof.
  destruct (read_blocks_overlap demo_fs demo_inode 2 0x5000 demo demo_fs_ok eq_refl eq_refl demo_readable)
    as (m' & E & _ & G).
  exists m'. split; [exact E|exact G].
Defined.

Lemma write_read_roundtrip_witness :
  exists s1 m2, ext2.inode_write demo_inode 100 600 0x5000 demo = (Ret (Some 600, demo_inode), s1) /\
    ext2.inode_read demo_inode 100 600 0x9000 s1 = (Ret (Some 600), with_mem s1 m2) /\
    rd8 m2 0x9000 = 9.
Proof.
  destruct (write_read_roundtrip demo_fs demo_inode 100 600 0x5000 0x9000 demo demo_fs_ok eq_refl
              demo_one_block demo_first_block)
    as (s1 & m2 & E & _ & _ & G & H & _).
  exists s1, m2. split; [exact E|]. split; [exact G|]. apply (f_equal (fun l => nth 0 l 0)) in H. exact H.
Defined.
