(* ===== verification/Ext2Alloc.v ===== *)
(** * Allocation in a block group

    What [BlockGroup::alloc_inode] and [alloc_block] of [fs/ext2.rs] do to the
    disk.  Both copy a bitmap block into pages of their own, take clear bits, write
    the block and the group descriptor back and return the pages. *)

From stdpp Require Import strings.
From S2P Require Import Prelude Memory MathUtil Bitmap Pmm Vfs Disk Ext2.
Local Open Scope Z_scope.

(** ** Bitmaps in pages taken for the time of a call *)

Lemma bitmap_new_box size s :
  bitmap_alloc.new size s =
    match pmmbox.new size s with
    | (Ret b, s') => (Ret (mkBitmap (pb_data b) size size), s')
    | (Fault f, s') => (Fault f, s')
    end.
Proof.
  unfold bitmap_alloc.new, pmmbox.new, bind. destruct (div_ceil size PAGE_SIZE s) as [[n|f] s1]; [|done].
  destruct (pmm.get_calloc n s1) as [[[a|]|f] s2]; done.
Qed.

Lemma bitmap_drop_box b s : 0 <= bm_size b < 2 ^ 63 ->
  bitmap_alloc.drop b s = pmmbox.drop (mkBox (bm_ptr b) (cdiv (bm_size b) PAGE_SIZE)) s.
Proof.
  intros Hb. unfold bitmap_alloc.drop, pmmbox.drop, bind. by rewrite div_ceil_eq by (unfold PAGE_SIZE; lia).
Qed.

(** ** Descriptors on the disk *)

Record bgd_ok (b : BlockGroupDescriptor) : Prop := {
  bk_fields : Forall2 field_ok bgd_ws [block_bitmap b; inode_bitmap b; inode_table b;
    unallocated_blocks b; unallocated_inodes b; directories_cnt b];
  bk_unused : length (unused b) = 14%nat;
  bk_bytes : Forall is_byte (unused b);
}.

Lemma bgd_bytes_length b : bgd_ok b -> length (bgd_bytes b) = 32%nat.
Proof. intros [_ H _]. unfold bgd_bytes. by rewrite length_app, enc_length, H. Qed.

Lemma bgd_bytes_bytes b : bgd_ok b -> Forall is_byte (bgd_bytes b).
Proof. intros [_ _ H]. apply list.Forall_app. split; [apply enc_bytes|done]. Qed.

Lemma bgd_codec b : bgd_ok b -> bgd_of (bgd_bytes b) = b.
Proof.
  intros [Hf Hl _]. unfold bgd_of, bgd_bytes. rewrite dec_enc by done.
  rewrite drop_app_length' by (by rewrite enc_length). by destruct b.
Qed.

Lemma bgd_of_ok bs : length bs = 32%nat -> Forall is_byte bs -> bgd_ok (bgd_of bs).
Proof.
  intros Hl Hb. split.
  - apply (dec_fields bgd_ws). rewrite Hl. apply leb_complete. reflexivity.
  - simpl. by rewrite length_drop, Hl.
  - by apply Forall_drop.
Qed.

Section alloc.
Context {D : Type} `{!Disk D} `{!DiskLaws D}.
Implicit Types (fs : Ext2Filesystem) (s : estate D) (d : D) (b : Bitmap).

(** Bit [i] of the bitmap that starts at byte [off]. *)
Definition disk_bit d (off i : Z) : bool := Z.testbit (content d (off + i / 8)) (i mod 8).

(** The lowest clear bit of [n]. *)
Definition first_clear d (off n : Z) : option Z :=
  List.find (fun i => negb (disk_bit d off i)) (seqZ 0 n).

Definition group_desc fs (g : Z) : Z := addr fs (ext2.bgdt_block fs) g BGD_SIZE.
Definition group_at d fs (g : Z) : BlockGroup :=
  mkBg (bgd_of (slice d (group_desc fs g) BGD_SIZE)) g.

(** Group [g] whose bitmap block is [block]: descriptor and bitmap are on the
    disk, and apart; the page allocator has pages for a copy, the first at frame
    [p]. *)
Record group_ok fs s (g block : Z) (bm : Bitmap) (p : Z) : Prop := {
  gk_fs : fs_ok fs /\ e_fs s = Some fs;
  gk_index : 0 <= g;
  gk_block : 0 <= block;
  gk_disk : group_desc fs g + BGD_SIZE <= capacity (e_disk s) /\
    addr fs block 0 0 + block_size fs <= capacity (e_disk s) /\ capacity (e_disk s) < 2 ^ 64;
  gk_apart : far (group_desc fs g) BGD_SIZE (addr fs block 0 0) (block_size fs);
  gk_pmm : p_alloc (e_p s) = Some bm /\ pmm_inv (mem_of s) bm;
  gk_pages : first_fit (test (mem_of s) bm) (frames bm) (cdiv (block_size fs) PAGE_SIZE) = Some p;
}.

Lemma slice_byte d off n : Forall is_byte (slice d off n).
Proof. apply list.Forall_forall. intros x (y & -> & _)%list_elem_of_fmap. apply content_byte. Qed.

Lemma group_at_ok d fs g : bgd_ok (bg_raw (group_at d fs g)).
Proof. apply bgd_of_ok; [by rewrite slice_length|apply slice_byte]. Qed.

(** The copy of the bitmap in memory. *)
Definition copy_of fs (p : Z) : Bitmap :=
  mkBitmap (PhysAddr.higher_half (p * PAGE_SIZE)) (block_size fs) (block_size fs).

Lemma copy_wf fs s g block bm p : group_ok fs s g block bm p ->
  bm_wf (copy_of fs p) /\ bm_base (copy_of fs p) = p * PAGE_SIZE /\
  0 < p /\ p + cdiv (block_size fs) PAGE_SIZE <= frames bm /\
  block_size fs <= cdiv (block_size fs) PAGE_SIZE * PAGE_SIZE.
Proof.
  intros [[Hok _] _ _ _ _ [_ Hi] Hf]. pose proof (fo_bs fs Hok) as Hbs.
  pose proof (cdiv_bounds (block_size fs) PAGE_SIZE ltac:(done)) as Hc.
  pose proof (cdiv_pos (block_size fs) PAGE_SIZE ltac:(lia) ltac:(done)) as Hn.
  pose proof (first_fit_bounds _ _ _ _ Hn Hf) as (Hp & Hle & _).
  pose proof (first_fit_pos _ _ _ _ Hi Hn Hf). pose proof (pi_addr _ _ Hi).
  assert (Hb : bm_base (copy_of fs p) = p * PAGE_SIZE).
  { unfold bm_base, copy_of. simpl. apply phys_higher_half. unfold PAGE_SIZE in *. lia. }
  split_and!; try done; [|lia]. split; simpl; [lia|done|]. rewrite Hb. simpl. unfold PAGE_SIZE in *. lia.
Qed.

(** [Bitmap::new] and the read of the block. *)
Lemma copy_made fs s g block bm p : group_ok fs s g block bm p ->
  exists m1 m2, ext2.on_p (bitmap_alloc.new (block_size fs)) s = (Ret (copy_of fs p), with_mem s m1) /\
    ext2.read_to (addr fs block 0 0) (block_size fs) (bm_ptr (copy_of fs p)) (with_mem s m1) =
      (Ret (Some tt), with_mem s m2) /\
    taken (mem_of s) m1 bm p (cdiv (block_size fs) PAGE_SIZE) /\
    only m1 m2 (p * PAGE_SIZE) (block_size fs) /\
    forall i, 0 <= i < 8 * block_size fs ->
      test m2 (copy_of fs p) i = disk_bit (e_disk s) (addr fs block 0 0) i.
Proof.
  intros Hg. pose proof Hg as [[Hok Hfs] Hi0 Hb0 (Hd1 & Hd2 & Hd3) Ha [Hal Hi] Hf].
  pose proof (fo_bs fs Hok) as Hbs. destruct (copy_wf _ _ _ _ _ _ Hg) as (Hwf & Hbase & Hp & Hle & Hfit).
  destruct (box_new (e_p s) bm (block_size fs) p Hal Hi ltac:(lia) Hf) as (m1 & E & Ht & _).
  pose proof (addr_nonneg fs block 0 0 Hok Hb0 ltac:(done) ltac:(done)) as Hnn.
  set (a := addr fs block 0 0) in *. set (bs := slice (e_disk s) a (block_size fs)).
  assert (Hl : length bs = Z.to_nat (block_size fs)) by (apply slice_length; lia).
  exists m1, (wr_bytes m1 (p * PAGE_SIZE) bs). split_and!.
  - unfold ext2.on_p, zoom. rewrite bitmap_new_box, E. unfold with_mem. by rewrite Hal.
  - rewrite read_to_eq by (cbn [with_mem e_disk]; lia).
    fold (bm_base (copy_of fs p)). rewrite Hbase. done.
  - exact Ht.
  - pose proof (wr_bytes_only m1 (p * PAGE_SIZE) bs) as Ho. rewrite Hl, Z2Nat.id in Ho by lia. exact Ho.
  - intros i Hx. unfold test, disk_bit. rewrite bit_addr_eq, Hbase by done.
    pose proof (bits_bound (copy_of fs p) i Hx) as Hi8. simpl in Hi8. f_equal.
    rewrite rd8_wr_bytes, Hl, decide_True by lia.
    replace (p * PAGE_SIZE + i / 8 - p * PAGE_SIZE) with (i / 8) by lia.
    unfold bs, slice. rewrite list_lookup_fmap.
    rewrite (proj2 (lookup_seqZ a (block_size fs) (Z.to_nat (i / 8)) (a + i / 8))) by lia.
    cbn [fmap option_fmap option_map]. change (default 0 (Some (content (e_disk s) (a + i / 8))))
      with (content (e_disk s) (a + i / 8)). apply Z.mod_small, content_byte.
Qed.

Definition with_disk s d : estate D := mkE (e_p s) d (e_fs s) (e_table s).

(** The copy goes back to the page allocator. *)
Lemma copy_dropped fs s g block bm p m1 m3 d' : group_ok fs s g block bm p ->
  taken (mem_of s) m1 bm p (cdiv (block_size fs) PAGE_SIZE) ->
  only m1 m3 (p * PAGE_SIZE) (block_size fs) ->
  exists m4, ext2.on_p (bitmap_alloc.drop (copy_of fs p)) (with_disk (with_mem s m3) d') =
      (Ret tt, with_disk (with_mem s m4) d') /\
    (forall q, 0 <= q < frames bm -> test m4 bm q = test (mem_of s) bm q) /\ pmm_inv m4 bm.
Proof.
  intros Hg Ht Ho. pose proof Hg as [[Hok _] _ _ _ _ [Hal Hi] Hf]. pose proof (fo_bs fs Hok) as Hbs.
  destruct (copy_wf _ _ _ _ _ _ Hg) as (_ & _ & Hp & Hle & Hfit).
  pose proof (cdiv_pos (block_size fs) PAGE_SIZE ltac:(lia) ltac:(done)) as Hn.
  pose proof (first_fit_bounds _ _ _ _ Hn Hf) as (_ & _ & Hr & _).
  destruct (box_drop (mem_of s) m1 m3 bm p _ Hi Hn Hf Ht) as (m4 & E & Hb & _ & Hi4).
  { intros x Hx. apply Ho. intros Hin.
    apply (run_off_storage (mem_of s) bm p _ x Hi ltac:(lia) Hle Hr); [lia|done]. }
  exists m4. split; [|done]. unfold ext2.on_p, zoom. rewrite bitmap_drop_box by (simpl; lia).
  cbn [with_disk with_mem e_p]. rewrite Hal. cbn [copy_of bm_ptr bm_size]. rewrite E.
  unfold with_disk, with_mem. cbn. by rewrite Hal.
Qed.

(** What an allocation leaves on the disk: the bits [f], the descriptor [raw], and
    every other byte as it was. *)
Record group_after fs d d' (g block : Z) (f : Z -> bool) (raw : BlockGroupDescriptor) : Prop := {
  ga_bits : forall j, 0 <= j < 8 * block_size fs -> disk_bit d' (addr fs block 0 0) j = f j;
  ga_desc : group_at d' fs g = mkBg raw g;
  ga_frame : forall x, ~ (addr fs block 0 0 <= x < addr fs block 0 0 + block_size fs) ->
    ~ (group_desc fs g <= x < group_desc fs g + BGD_SIZE) -> content d' x = content d x;
  ga_capacity : capacity d' = capacity d;
}.

Lemma group_desc_nonneg fs g : fs_ok fs -> 0 <= g -> 0 <= group_desc fs g.
Proof.
  intros Hok Hg. apply addr_nonneg; [done| |done|done]. unfold ext2.bgdt_block. case_match; lia.
Qed.

Lemma bg_flush_eq fs s g raw : fs_ok fs -> e_fs s = Some fs -> 0 <= g -> bgd_ok raw ->
  group_desc fs g + BGD_SIZE <= capacity (e_disk s) < 2 ^ 64 ->
  exists d', ext2.bg_flush (mkBg raw g) s = (Ret tt, with_disk s d') /\
    capacity d' = capacity (e_disk s) /\ written (e_disk s) d' (group_desc fs g) (bgd_bytes raw).
Proof.
  intros Hok Hfs Hg Hraw Hc. pose proof Hok as [H1 H2 _ _].
  pose proof (group_desc_nonneg fs g Hok Hg) as Hnn. pose proof (bgd_bytes_length raw Hraw) as Hl.
  destruct (write_unwrap_eq (group_desc fs g) (bgd_bytes raw) s) as (d' & E & Hcap & Hw).
  - done.
  - intros E. by rewrite E in Hl.
  - by apply bgd_bytes_bytes.
  - rewrite Hl. unfold BGD_SIZE in *. lia.
  - exists d'. split; [|done]. unfold ext2.bg_flush, bind. rewrite (fs_get_eq s fs Hfs).
    cbn [bg_index bg_raw]. unfold group_desc in *. rewrite locate_eq; [exact E|lia|lia| |done|done|unfold BGD_SIZE in *; lia].
    unfold ext2.bgdt_block. case_match; lia.
Qed.

(** The block of the copy in [m3] and the descriptor are written back. *)
Lemma put_back fs s g block bm p m3 raw : group_ok fs s g block bm p -> bgd_ok raw ->
  let B := rd_bytes (Z.to_nat (block_size fs)) m3 (p * PAGE_SIZE) in
  exists d1 d2, ext2.write_unwrap (addr fs block 0 0) B (with_mem s m3) = (Ret tt, with_disk (with_mem s m3) d1) /\
    ext2.bg_flush (mkBg raw g) (with_disk (with_mem s m3) d1) = (Ret tt, with_disk (with_mem s m3) d2) /\
    group_after fs (e_disk s) d2 g block (test m3 (copy_of fs p)) raw.
Proof.
  intros Hg Hraw B. pose proof Hg as [[Hok Hfs] Hi0 Hb0 (Hd1 & Hd2 & Hd3) Ha _ _].
  pose proof (fo_bs fs Hok) as Hbs. destruct (copy_wf _ _ _ _ _ _ Hg) as (Hwf & Hbase & _).
  pose proof (addr_nonneg fs block 0 0 Hok Hb0 ltac:(done) ltac:(done)) as Hnn.
  assert (HlB : length B = Z.to_nat (block_size fs)) by apply rd_bytes_length.
  destruct (write_unwrap_eq (addr fs block 0 0) B (with_mem s m3)) as (d1 & E1 & Hc1 & Hw1).
  - done.
  - intros E%(f_equal length). rewrite HlB in E. simpl in E. lia.
  - apply rd_bytes_bytes.
  - rewrite HlB. cbn [with_mem e_disk]. lia.
  - cbn [with_mem e_disk] in Hc1, Hw1.
    destruct (bg_flush_eq fs (with_disk (with_mem s m3) d1) g raw Hok Hfs Hi0 Hraw) as (d2 & E2 & Hc2 & Hw2).
    { cbn [with_disk e_disk]. rewrite Hc1. lia. }
    cbn [with_disk e_disk] in Hc2, Hw2. exists d1, d2. split; [exact E1|]. split; [exact E2|].
    pose proof (bgd_bytes_length raw Hraw) as Hl.
    assert (Hout : forall x, ~ (group_desc fs g <= x < group_desc fs g + BGD_SIZE) -> content d2 x = content d1 x).
    { intros x Hx. rewrite Hw2. case_decide; [|done]. rewrite lookup_ge_None_2; [done|].
      unfold BGD_SIZE in *. lia. }
    split.
    + intros j Hj. unfold disk_bit, test. rewrite bit_addr_eq, Hbase by done.
      pose proof (bits_bound (copy_of fs p) j Hj) as Hj8. simpl in Hj8. f_equal.
      rewrite Hout by (unfold far in Ha; lia). rewrite Hw1, decide_True by lia.
      replace (addr fs block 0 0 + j / 8 - addr fs block 0 0) with (j / 8) by lia.
      unfold B. rewrite lookup_rd_bytes by lia. by rewrite Z2Nat.id by lia.
    + unfold group_at. pose proof (written_same _ _ _ _ Hw2) as Hs. rewrite Hl in Hs.
      change (Z.of_nat 32) with BGD_SIZE in Hs. by rewrite Hs, bgd_codec.
    + intros x Hx1 Hx2. rewrite Hout, Hw1 by done. case_decide; [|done].
      rewrite lookup_ge_None_2; [done|]. lia.
    + congruence.
Qed.

(** ** The loops *)

Lemma e_mem_run {A} (c : M mem A) a m' s : c (mem_of s) = (Ret a, m') ->
  ext2.on_mem c s = (Ret a, with_mem s m').
Proof.
  intros E. destruct s as [[m al] d f t]. unfold ext2.on_mem, ext2.on_p, Pmm.on_mem, zoom, mem_of in *.
  cbn in *. by rewrite E.
Qed.

Lemma with_mem_id s : with_mem s (mem_of s) = s.
Proof. by destruct s as [[] ? ? ?]. Qed.

Lemma is_set_run b i s : 0 <= i < 8 * bm_len b ->
  ext2.on_mem (bitmap.is_set b i) s = (Ret (test (mem_of s) b i), s).
Proof. intros Hi. erewrite e_mem_run by (by apply is_set_ok). by rewrite with_mem_id. Qed.

(** Bits that are set are passed over. *)
Lemma alloc_inode_skip fs b self s k : forall n i, 0 <= i -> i + Z.of_nat k <= 8 * bm_len b ->
  (forall j, i <= j < i + Z.of_nat k -> test (mem_of s) b j = true) ->
  ext2.alloc_inode_loop fs b (k + n) i self s = ext2.alloc_inode_loop fs b n (i + Z.of_nat k) self s.
Proof.
  induction k as [|k IH]; intros n i Hi Hle Hs; [by rewrite Z.add_0_r|].
  cbn [Nat.add ext2.alloc_inode_loop]. rewrite (bind_run _ _ _ _ _ (is_set_run b i s ltac:(lia))).
  rewrite Hs by lia. cbn [negb]. rewrite IH; [f_equal; lia|lia|lia|]. intros j Hj. apply Hs. lia.
Qed.

Lemma alloc_block_skip fs b self s k : forall n i, 0 <= i -> i + Z.of_nat k <= 8 * bm_len b ->
  (forall j, i <= j < i + Z.of_nat k -> test (mem_of s) b j = true) ->
  ext2.alloc_block_loop fs b 1 (k + n) i 0 [] self s =
    ext2.alloc_block_loop fs b 1 n (i + Z.of_nat k) 0 [] self s.
Proof.
  induction k as [|k IH]; intros n i Hi Hle Hs; [by rewrite Z.add_0_r|].
  cbn [Nat.add ext2.alloc_block_loop]. rewrite (bind_run _ _ _ _ _ (is_set_run b i s ltac:(lia))).
  rewrite Hs by lia. cbn [negb]. rewrite IH; [f_equal; lia|lia|lia|]. intros j Hj. apply Hs. lia.
Qed.

(** The lowest clear bit, as the loops meet it. *)
Lemma first_clear_Some d off n i : 0 <= n -> first_clear d off n = Some i ->
  0 <= i < n /\ disk_bit d off i = false /\ forall j, 0 <= j < i -> disk_bit d off j = true.
Proof.
  intros Hn H. unfold first_clear in H. rewrite <- (Z2Nat.id n) in H by done.
  apply find_seqZ_Some in H as (Hi & Hb & Hl). rewrite Z2Nat.id in Hi by done.
  split; [lia|]. split; [by destruct (disk_bit d off i)|]. intros j Hj.
  specialize (Hl j ltac:(lia)). by destruct (disk_bit d off j).
Qed.

Lemma first_clear_None d off n : 0 <= n -> first_clear d off n = None ->
  forall j, 0 <= j < n -> disk_bit d off j = true.
Proof.
  intros Hn H j Hj. assert (Hin : In j (seqZ 0 n)) by (apply list_elem_of_In, elem_of_seqZ; lia).
  pose proof (List.find_none _ _ H j Hin) as Hb. cbn beta in Hb. by destruct (disk_bit d off j).
Qed.

(** The descriptor with one inode, or one block, less to give. *)
Definition less_inode (raw : BlockGroupDescriptor) : BlockGroupDescriptor :=
  mkBgd (block_bitmap raw) (inode_bitmap raw) (inode_table raw) (unallocated_blocks raw)
        (unallocated_inodes raw - 1) (directories_cnt raw) (unused raw).
Definition less_block (raw : BlockGroupDescriptor) : BlockGroupDescriptor :=
  mkBgd (block_bitmap raw) (inode_bitmap raw) (inode_table raw) (unallocated_blocks raw - 1)
        (unallocated_inodes raw) (directories_cnt raw) (unused raw).

Lemma bgd_ok_counts raw : bgd_ok raw ->
  0 <= unallocated_blocks raw < 2 ^ 16 /\ 0 <= unallocated_inodes raw < 2 ^ 16.
Proof.
  intros [H _ _]. unfold bgd_ws in H. repeat (apply list.Forall2_cons in H as [? H]).
  unfold field_ok in *. change (256 ^ Z.of_nat 2) with (2 ^ 16) in *. lia.
Qed.

Lemma less_inode_ok raw : bgd_ok raw -> 0 < unallocated_inodes raw -> bgd_ok (less_inode raw).
Proof.
  intros [H Hl Hb] Hpos. split; [|done|done]. unfold bgd_ws in *.
  repeat (apply list.Forall2_cons in H as [? H]).
  repeat apply list.Forall2_cons_2; try done. unfold field_ok in *.
  cbn [less_inode less_block unallocated_inodes unallocated_blocks]. lia.
Qed.

Lemma less_block_ok raw : bgd_ok raw -> 0 < unallocated_blocks raw -> bgd_ok (less_block raw).
Proof.
  intros [H Hl Hb] Hpos. split; [|done|done]. unfold bgd_ws in *.
  repeat (apply list.Forall2_cons in H as [? H]).
  repeat apply list.Forall2_cons_2; try done. unfold field_ok in *.
  cbn [less_inode less_block unallocated_inodes unallocated_blocks]. lia.
Qed.

Lemma mem_of_with s m : mem_of (with_mem s m) = m.
Proof. done. Qed.

Lemma set_run b i s m : 0 <= i < 8 * bm_len b ->
  ext2.on_mem (bitmap.set b i) (with_mem s m) = (Ret tt, with_mem s (upd m b i true)).
Proof. intros Hi. by rewrite (e_mem_run _ tt (upd m b i true)) by (by apply set_ok). Qed.

(** The numbers of the group's inodes and blocks fit their types. *)
Definition numbers_fit fs (g : Z) : Prop :=
  0 <= inodes_per_group (superblock fs) /\ 0 <= blocks_per_group (superblock fs) /\
  8 * block_size fs + g * inodes_per_group (superblock fs) < 2 ^ 32 /\
  8 * block_size fs + g * blocks_per_group (superblock fs) < 2 ^ 32 /\ g < 2 ^ 32.

Lemma alloc_inode_take fs s g raw bm p m2 i n : group_ok fs s g (inode_bitmap raw) bm p -> bgd_ok raw ->
  numbers_fit fs g -> 0 < unallocated_inodes raw ->
  0 <= i < 8 * block_size fs -> test m2 (copy_of fs p) i = false ->
  let m3 := upd m2 (copy_of fs p) i true in
  exists d2, ext2.alloc_inode_loop fs (copy_of fs p) (S n) i (mkBg raw g) (with_mem s m2) =
      (Ret (Some (i + 1 + g * inodes_per_group (superblock fs))), with_disk (with_mem s m3) d2) /\
    group_after fs (e_disk s) d2 g (inode_bitmap raw) (test m3 (copy_of fs p)) (less_inode raw).
Proof.
  intros Hg Hraw (N1 & N2 & N3 & N4 & N5) Hpos Hi Ht m3.
  pose proof Hg as [[Hok Hfs] Hi0 Hb0 (Hd1 & Hd2 & Hd3) _ _ _].
  pose proof (fo_bs fs Hok). pose proof (fo_lba fs Hok). pose proof (bgd_ok_counts raw Hraw) as [_ Hcnt].
  destruct (put_back fs s g (inode_bitmap raw) bm p m3 (less_inode raw) Hg (less_inode_ok raw Hraw Hpos))
    as (d1 & d2 & E1 & E2 & Hga).
  destruct (copy_wf _ _ _ _ _ _ Hg) as (_ & Hbase & _).
  exists d2. split; [|exact Hga]. cbn [ext2.alloc_inode_loop].
  rewrite (bind_run _ _ _ _ _ (is_set_run (copy_of fs p) i _ Hi)). rewrite mem_of_with, Ht. cbn [negb].
  rewrite (bind_run _ _ _ _ _ (set_run (copy_of fs p) i s m2 Hi)). fold m3.
  cbn [bg_raw bg_index].
  rewrite (bind_run _ _ _ (unallocated_inodes raw - 1) (with_mem s m3)) by (apply chk_ok; unfold u16; lia).
  change (mkBgd (block_bitmap raw) (inode_bitmap raw) (inode_table raw) (unallocated_blocks raw)
    (unallocated_inodes raw - 1) (directories_cnt raw) (unused raw)) with (less_inode raw).
  cbn [less_inode inode_bitmap]. fold (less_inode raw).
  rewrite (bind_run _ _ _ (addr fs (inode_bitmap raw) 0 0) (with_mem s m3)) by (apply locate_eq; done || lia).
  rewrite (bind_run _ _ _ _ _ (bytes_at_eq _ _ _)).
  change (phys_of (bm_ptr (copy_of fs p))) with (bm_base (copy_of fs p)). rewrite Hbase, mem_of_with.
  rewrite (bind_run _ _ _ _ _ E1), (bind_run _ _ _ _ _ E2).
  unfold uadd, umul, usize.
  rewrite (bind_run _ _ _ (i + 1) _) by (apply chk_ok; lia).
  rewrite (bind_run _ _ _ (g * inodes_per_group (superblock fs)) _) by (apply chk_ok; nia).
  rewrite (bind_run _ _ _ (i + 1 + g * inodes_per_group (superblock fs)) _) by (apply chk_ok; lia).
  unfold ret, as_u, u32. by rewrite Z.mod_small by lia.
Qed.

Lemma alloc_block_take fs s g raw bm p m2 i n : group_ok fs s g (block_bitmap raw) bm p -> bgd_ok raw ->
  numbers_fit fs g -> 0 < unallocated_blocks raw ->
  0 <= i < 8 * block_size fs -> test m2 (copy_of fs p) i = false ->
  let m3 := upd m2 (copy_of fs p) i true in
  ext2.alloc_block_loop fs (copy_of fs p) 1 (S n) i 0 [] (mkBg raw g) (with_mem s m2) =
    (Ret (1, [i + g * blocks_per_group (superblock fs)], mkBg (less_block raw) g), with_mem s m3).
Proof.
  intros Hg Hraw (N1 & N2 & N3 & N4 & N5) Hpos Hi Ht m3. pose proof Hg as [_ Hi0 _ _ _ _ _].
  pose proof (bgd_ok_counts raw Hraw) as [Hcnt _]. cbn [ext2.alloc_block_loop].
  rewrite (bind_run _ _ _ _ _ (is_set_run (copy_of fs p) i _ Hi)). rewrite mem_of_with, Ht. cbn [negb].
  rewrite (bind_run _ _ _ _ _ (set_run (copy_of fs p) i s m2 Hi)). fold m3.
  cbn [bg_raw bg_index]. unfold as_u, u32. rewrite !Z.mod_small by nia.
  rewrite (bind_run _ _ _ (g * blocks_per_group (superblock fs)) (with_mem s m3)) by (apply chk_ok; nia).
  rewrite (bind_run _ _ _ (i + g * blocks_per_group (superblock fs)) (with_mem s m3)) by (apply chk_ok; nia).
  rewrite (bind_run _ _ _ (0 + 1) (with_mem s m3)) by (apply chk_ok; done).
  rewrite (bind_run _ _ _ (unallocated_blocks raw - 1) (with_mem s m3)) by (apply chk_ok; unfold u16; lia).
  done.
Qed.

(** Frames taken for the copy and given back. *)
Definition frames_kept s s' (bm : Bitmap) : Prop :=
  p_alloc (e_p s') = Some bm /\ pmm_inv (mem_of s') bm /\
  forall q, 0 <= q < frames bm -> test (mem_of s') bm q = test (mem_of s) bm q.

(** The bits after bit [i] was set. *)
Lemma after_set fs s g block bm p m2 d2 raw i : group_ok fs s g block bm p ->
  (forall j, 0 <= j < 8 * block_size fs -> test m2 (copy_of fs p) j = disk_bit (e_disk s) (addr fs block 0 0) j) ->
  0 <= i < 8 * block_size fs ->
  group_after fs (e_disk s) d2 g block (test (upd m2 (copy_of fs p) i true) (copy_of fs p)) raw ->
  group_after fs (e_disk s) d2 g block
    (fun j => bool_decide (j = i) || disk_bit (e_disk s) (addr fs block 0 0) j) raw.
Proof.
  intros Hg Hbits Hi [A1 A2 A3 A4]. destruct (copy_wf _ _ _ _ _ _ Hg) as (Hwf & _).
  split; [|done..]. intros j Hj. rewrite A1, test_upd, Hbits by done.
  case_decide; [by rewrite bool_decide_true|by rewrite bool_decide_false].
Qed.

Lemma upd_copy_only fs s g block bm p m1 m2 i : group_ok fs s g block bm p ->
  only m1 m2 (p * PAGE_SIZE) (block_size fs) -> 0 <= i < 8 * block_size fs ->
  only m1 (upd m2 (copy_of fs p) i true) (p * PAGE_SIZE) (block_size fs).
Proof.
  intros Hg Ho Hi x Hx. destruct (copy_wf _ _ _ _ _ _ Hg) as (Hwf & Hb & _).
  pose proof (upd_only m2 (copy_of fs p) i true Hwf Hi) as Hu. rewrite Hb in Hu. cbn [copy_of bm_len] in Hu.
  rewrite Hu by done. by apply Ho.
Qed.

(** What both do before their loop: a copy of the bitmap. *)
Lemma copy_prefix {A} fs s g block bm p m1 m2 (k : Bitmap -> M (estate D) A) :
  group_ok fs s g block bm p ->
  ext2.on_p (bitmap_alloc.new (block_size fs)) s = (Ret (copy_of fs p), with_mem s m1) ->
  ext2.read_to (addr fs block 0 0) (block_size fs) (bm_ptr (copy_of fs p)) (with_mem s m1) =
    (Ret (Some tt), with_mem s m2) ->
  (let! b := ext2.on_p (bitmap_alloc.new (block_size fs)) in
   let! off := ext2.locate fs block 0 0 in
   let! r := ext2.read_to off (block_size fs) (bm_ptr b) in
   do! expect r in k b) s = k (copy_of fs p) (with_mem s m2).
Proof.
  intros [[Hok Hfs] Hi0 Hb0 (Hd1 & Hd2 & Hd3) _ _ _] E1 E2. pose proof (fo_bs fs Hok). pose proof (fo_lba fs Hok).
  rewrite (bind_run _ _ _ _ _ E1).
  rewrite (bind_run _ _ _ (addr fs block 0 0) (with_mem s m1)) by (apply locate_eq; done || lia).
  by rewrite (bind_run _ _ _ _ _ E2).
Qed.

Lemma bits_run fs (A : Type) (k : Z -> M (estate D) A) s : fs_ok fs ->
  (let! bits := umul usize (block_size fs) 8 in k bits) s = k (block_size fs * 8) s.
Proof. intros [_ ? _ _]. by rewrite (bind_run _ _ _ (block_size fs * 8) s) by (apply chk_ok; unfold usize; lia). Qed.

(** [BlockGroup::alloc_inode] *)
Lemma alloc_inode_frame fs s g bm p m1 m2 r s1 s2 :
  let raw := bg_raw (group_at (e_disk s) fs g) in
  group_ok fs s g (inode_bitmap raw) bm p -> 0 < unallocated_inodes raw ->
  ext2.on_p (bitmap_alloc.new (block_size fs)) s = (Ret (copy_of fs p), with_mem s m1) ->
  ext2.read_to (addr fs (inode_bitmap raw) 0 0) (block_size fs) (bm_ptr (copy_of fs p)) (with_mem s m1) =
    (Ret (Some tt), with_mem s m2) ->
  ext2.alloc_inode_loop fs (copy_of fs p) (Z.to_nat (block_size fs * 8)) 0 (group_at (e_disk s) fs g)
    (with_mem s m2) = (Ret r, s1) ->
  ext2.on_p (bitmap_alloc.drop (copy_of fs p)) s1 = (Ret tt, s2) ->
  ext2.bg_alloc_inode (group_at (e_disk s) fs g) s = (Ret r, s2).
Proof.
  intros raw Hg Hpos E1 E2 El Ed. pose proof Hg as [[Hok Hfs] _ _ _ _ _ _].
  unfold ext2.bg_alloc_inode. fold raw. rewrite (proj2 (Z.eqb_neq _ _)) by lia.
  rewrite (bind_run _ _ _ _ _ (fs_get_eq s fs Hfs)), (copy_prefix _ _ _ _ _ _ _ _ _ Hg E1 E2).
  rewrite bits_run by done. by rewrite (bind_run _ _ _ _ _ El), (bind_run _ _ _ _ _ Ed).
Qed.

Lemma alloc_inode_run fs s g bm p :
  let raw := bg_raw (group_at (e_disk s) fs g) in
  let off := addr fs (inode_bitmap raw) 0 0 in
  group_ok fs s g (inode_bitmap raw) bm p -> numbers_fit fs g -> 0 < unallocated_inodes raw ->
  exists s', e_fs s' = e_fs s /\ e_table s' = e_table s /\ frames_kept s s' bm /\
  match first_clear (e_disk s) off (8 * block_size fs) with
  | Some i =>
      ext2.bg_alloc_inode (group_at (e_disk s) fs g) s =
        (Ret (Some (i + 1 + g * inodes_per_group (superblock fs))), s') /\
      group_after fs (e_disk s) (e_disk s') g (inode_bitmap raw)
        (fun j => bool_decide (j = i) || disk_bit (e_disk s) off j) (less_inode raw)
  | None => ext2.bg_alloc_inode (group_at (e_disk s) fs g) s = (Ret None, s') /\ e_disk s' = e_disk s
  end.
Proof.
  intros raw off Hg Hn Hpos. pose proof Hg as [[Hok _] _ _ _ _ [Hal _] _]. pose proof (fo_bs fs Hok).
  destruct (copy_made _ _ _ _ _ _ Hg) as (m1 & m2 & E1 & E2 & Ht & Ho & Hbits). fold off in Hbits.
  pose proof (fun r s1 s2 => alloc_inode_frame fs s g bm p m1 m2 r s1 s2 Hg Hpos E1 E2) as Hrun.
  set (n := Z.to_nat (block_size fs * 8)) in *.
  destruct (first_clear (e_disk s) off (8 * block_size fs)) as [i|] eqn:Ef.
  - apply first_clear_Some in Ef as (Hi & Hc & Hlow); [|lia].
    destruct (alloc_inode_take fs s g raw bm p m2 i (n - S (Z.to_nat i)) Hg (group_at_ok _ _ _) Hn Hpos Hi)
      as (d2 & El & Hga); [by rewrite Hbits|].
    destruct (copy_dropped _ _ _ _ _ _ _ _ d2 Hg Ht (upd_copy_only _ _ _ _ _ _ _ _ _ Hg Ho Hi))
      as (m4 & Ed & Hq & Hi4).
    exists (with_disk (with_mem s m4) d2). split_and!; [done|done|by split_and!| |].
    + eapply Hrun; [|exact Ed].
      replace n with (Z.to_nat i + S (n - S (Z.to_nat i)))%nat by (unfold n; lia).
      rewrite alloc_inode_skip; [|lia|cbn [copy_of bm_len]; lia|].
      * rewrite Z.add_0_l, Z2Nat.id by lia. exact El.
      * intros j Hj. rewrite mem_of_with, Hbits by lia. apply Hlow. lia.
    + exact (after_set _ _ _ _ _ _ _ _ _ _ Hg Hbits Hi Hga).
  - destruct (copy_dropped _ _ _ _ _ _ _ _ (e_disk s) Hg Ht Ho) as (m4 & Ed & Hq & Hi4).
    exists (with_disk (with_mem s m4) (e_disk s)). split_and!; [done|done|by split_and!| |done].
    eapply Hrun; [|exact Ed]. rewrite <- (Nat.add_0_r n).
    rewrite alloc_inode_skip; [done|lia|cbn [copy_of bm_len]; unfold n; lia|].
    intros j Hj. rewrite mem_of_with, Hbits by (unfold n in *; lia).
    eapply first_clear_None; [|exact Ef|unfold n in *; lia]. lia.
Qed.

(** [BlockGroup::alloc_block] for one block: what follows its loop. *)
Definition block_tail fs b (t : Z * list Z * BlockGroup) : M (estate D) (option (list Z)) :=
  let '(t, self') := t in
  let '(allocated, blocks) := t in
  if negb (allocated =? 1) then
    do! ext2.on_p (bitmap_alloc.drop b) in
    ret None
  else
    let! off := ext2.locate fs (block_bitmap (bg_raw self')) 0 0 in
    let! bs := ext2.bytes_at (bm_ptr b) (block_size fs) in
    do! ext2.write_unwrap off bs in
    do! ext2.bg_flush self' in
    do! ext2.on_p (bitmap_alloc.drop b) in
    ret (Some blocks).

Lemma alloc_block_frame fs s g bm p m1 m2 t s1 :
  let raw := bg_raw (group_at (e_disk s) fs g) in
  group_ok fs s g (block_bitmap raw) bm p -> 0 < unallocated_blocks raw ->
  ext2.on_p (bitmap_alloc.new (block_size fs)) s = (Ret (copy_of fs p), with_mem s m1) ->
  ext2.read_to (addr fs (block_bitmap raw) 0 0) (block_size fs) (bm_ptr (copy_of fs p)) (with_mem s m1) =
    (Ret (Some tt), with_mem s m2) ->
  ext2.alloc_block_loop fs (copy_of fs p) 1 (Z.to_nat (block_size fs * 8)) 0 0 [] (group_at (e_disk s) fs g)
    (with_mem s m2) = (Ret t, s1) ->
  ext2.bg_alloc_block (group_at (e_disk s) fs g) 1 s = block_tail fs (copy_of fs p) t s1.
Proof.
  intros raw Hg Hpos E1 E2 El. pose proof Hg as [[Hok Hfs] _ _ _ _ _ _].
  unfold ext2.bg_alloc_block. fold raw. rewrite (proj2 (Z.ltb_ge _ _)) by lia.
  rewrite (bind_run _ _ _ _ _ (fs_get_eq s fs Hfs)), (copy_prefix _ _ _ _ _ _ _ _ _ Hg E1 E2).
  rewrite bits_run by done. rewrite (bind_run _ _ _ _ _ El). by destruct t as [[a l] q].
Qed.

Lemma block_tail_some fs s g raw bm p m1 m3 blocks :
  group_ok fs s g (block_bitmap raw) bm p -> bgd_ok raw -> 0 < unallocated_blocks raw ->
  taken (mem_of s) m1 bm p (cdiv (block_size fs) PAGE_SIZE) ->
  only m1 m3 (p * PAGE_SIZE) (block_size fs) ->
  exists d2 m4, block_tail fs (copy_of fs p) (1, blocks, mkBg (less_block raw) g) (with_mem s m3) =
      (Ret (Some blocks), with_disk (with_mem s m4) d2) /\
    frames_kept s (with_disk (with_mem s m4) d2) bm /\
    group_after fs (e_disk s) d2 g (block_bitmap raw) (test m3 (copy_of fs p)) (less_block raw).
Proof.
  intros Hg Hraw Hpos Ht Ho. pose proof Hg as [[Hok Hfs] Hi0 Hb0 (Hd1 & Hd2 & Hd3) _ [Hal _] _].
  pose proof (fo_bs fs Hok). pose proof (fo_lba fs Hok). destruct (copy_wf _ _ _ _ _ _ Hg) as (_ & Hbase & _).
  destruct (put_back fs s g (block_bitmap raw) bm p m3 (less_block raw) Hg (less_block_ok raw Hraw Hpos))
    as (d1 & d2 & E1 & E2 & Hga).
  destruct (copy_dropped _ _ _ _ _ _ _ _ d2 Hg Ht Ho) as (m4 & Ed & Hq & Hi4).
  exists d2, m4. split; [|split; [by split_and!|exact Hga]].
  unfold block_tail. cbn [Z.eqb Pos.eqb negb bg_raw less_block block_bitmap]. fold (less_block raw).
  rewrite (bind_run _ _ _ (addr fs (block_bitmap raw) 0 0) (with_mem s m3)) by (apply locate_eq; done || lia).
  rewrite (bind_run _ _ _ _ _ (bytes_at_eq _ _ _)).
  change (phys_of (bm_ptr (copy_of fs p))) with (bm_base (copy_of fs p)). rewrite Hbase, mem_of_with.
  by rewrite (bind_run _ _ _ _ _ E1), (bind_run _ _ _ _ _ E2), (bind_run _ _ _ _ _ Ed).
Qed.

Lemma alloc_block_run fs s g bm p :
  let raw := bg_raw (group_at (e_disk s) fs g) in
  let off := addr fs (block_bitmap raw) 0 0 in
  group_ok fs s g (block_bitmap raw) bm p -> numbers_fit fs g -> 0 < unallocated_blocks raw ->
  exists s', e_fs s' = e_fs s /\ e_table s' = e_table s /\ frames_kept s s' bm /\
  match first_clear (e_disk s) off (8 * block_size fs) with
  | Some i =>
      ext2.bg_alloc_block (group_at (e_disk s) fs g) 1 s =
        (Ret (Some [i + g * blocks_per_group (superblock fs)]), s') /\
      group_after fs (e_disk s) (e_disk s') g (block_bitmap raw)
        (fun j => bool_decide (j = i) || disk_bit (e_disk s) off j) (less_block raw)
  | None => ext2.bg_alloc_block (group_at (e_disk s) fs g) 1 s = (Ret None, s') /\ e_disk s' = e_disk s
  end.
Proof.
  intros raw off Hg Hn Hpos. pose proof Hg as [[Hok _] _ _ _ _ [Hal _] _]. pose proof (fo_bs fs Hok).
  destruct (copy_made _ _ _ _ _ _ Hg) as (m1 & m2 & E1 & E2 & Ht & Ho & Hbits). fold off in Hbits.
  pose proof (fun t s1 => alloc_block_frame fs s g bm p m1 m2 t s1 Hg Hpos E1 E2) as Hrun.
  set (n := Z.to_nat (block_size fs * 8)) in *.
  destruct (first_clear (e_disk s) off (8 * block_size fs)) as [i|] eqn:Ef.
  - apply first_clear_Some in Ef as (Hi & Hc & Hlow); [|lia].
    pose proof (alloc_block_take fs s g raw bm p m2 i (n - S (Z.to_nat i)) Hg (group_at_ok _ _ _) Hn Hpos Hi)
      as El. cbn zeta in El.
    destruct (block_tail_some fs s g raw bm p m1 _ [i + g * blocks_per_group (superblock fs)] Hg
      (group_at_ok _ _ _) Hpos Ht (upd_copy_only _ _ _ _ _ _ _ _ _ Hg Ho Hi)) as (d2 & m4 & Et & Hk & Hga).
    exists (with_disk (with_mem s m4) d2). split_and!; [done|done|done| |].
    + rewrite <- Et. apply Hrun.
      replace n with (Z.to_nat i + S (n - S (Z.to_nat i)))%nat by (unfold n; lia).
      rewrite alloc_block_skip; [|lia|cbn [copy_of bm_len]; lia|].
      * rewrite Z.add_0_l, Z2Nat.id by lia. apply El. by rewrite Hbits.
      * intros j Hj. rewrite mem_of_with, Hbits by lia. apply Hlow. lia.
    + exact (after_set _ _ _ _ _ _ _ _ _ _ Hg Hbits Hi Hga).
  - destruct (copy_dropped _ _ _ _ _ _ _ _ (e_disk s) Hg Ht Ho) as (m4 & Ed & Hq & Hi4).
    exists (with_disk (with_mem s m4) (e_disk s)). split_and!; [done|done|by split_and!| |done].
    rewrite (Hrun (0, [], group_at (e_disk s) fs g) (with_mem s m2)).
    + unfold block_tail. cbn [Z.eqb negb].
      by rewrite (bind_run _ _ _ tt (with_disk (with_mem s m4) (e_disk s))) by exact Ed.
    + rewrite <- (Nat.add_0_r n).
      rewrite alloc_block_skip; [done|lia|cbn [copy_of bm_len]; unfold n; lia|].
      intros j Hj. rewrite mem_of_with, Hbits by (unfold n in *; lia).
      eapply first_clear_None; [|exact Ef|unfold n in *; lia]. lia.
Qed.

End alloc.

(** ** Properties *)

Section claims.
Context {D : Type} `{!Disk D} `{!DiskLaws D}.
Implicit Types (fs : Ext2Filesystem) (s : estate D).

(** C18. [BlockGroup::alloc_inode]: while the descriptor counts free inodes it takes the
    lowest clear bit of the inode bitmap and returns the number that
    [get_block_group] and [get_table_index] take back to this group and bit; on
    the disk exactly that bit and the descriptor's count change; the pages of the
    copy are returned.  Without a free inode nothing changes on the disk. *)
Theorem inode_allocation fs s g bm p :
  let self := group_at (e_disk s) fs g in
  let raw := bg_raw self in
  let off := addr fs (inode_bitmap raw) 0 0 in
  let ipg := inodes_per_group (superblock fs) in
  group_ok fs s g (inode_bitmap raw) bm p -> numbers_fit fs g ->
  (unallocated_inodes raw = 0 -> ext2.bg_alloc_inode self s = (Ret None, s)) /\
  (0 < unallocated_inodes raw ->
   exists s', e_fs s' = e_fs s /\ e_table s' = e_table s /\ frames_kept s s' bm /\
   match first_clear (e_disk s) off (8 * block_size fs) with
   | Some i =>
       ext2.bg_alloc_inode self s = (Ret (Some (i + 1 + g * ipg)), s') /\
       (i < ipg -> ext2.get_block_group (i + 1 + g * ipg) s' = (Ret g, s') /\
                   ext2.get_table_index (i + 1 + g * ipg) s' = (Ret i, s')) /\
       group_after fs (e_disk s) (e_disk s') g (inode_bitmap raw)
         (fun j => bool_decide (j = i) || disk_bit (e_disk s) off j) (less_inode raw)
   | None => ext2.bg_alloc_inode self s = (Ret None, s') /\ e_disk s' = e_disk s
   end).
Proof.
  intros self raw off ipg Hg Hn. split.
  - intros H0. unfold ext2.bg_alloc_inode. fold raw. by rewrite H0.
  - intros Hpos. destruct (alloc_inode_run fs s g bm p Hg Hn Hpos) as (s' & Hf & Htb & Hk & Hrun).
    exists s'. split_and!; [done..|]. fold self in Hrun. fold raw off in Hrun.
    revert Hrun. destruct (first_clear (e_disk s) off (8 * block_size fs)) as [i|] eqn:Ef; [|done]. intros Hrun.
    apply first_clear_Some in Ef as (Hi & _); [|destruct Hg as [[[_ ? _ _] _] _]; lia].
    destruct Hrun as [E Hga]. split_and!; [done| |done]. intros Hlt.
    destruct Hn as (N1 & _ & N3 & _ & _). destruct Hg as [[Hok Hfs] Hg0 _ _ _ _ _].
    destruct (get_block_group_eq fs (i + 1 + g * ipg) s' Hok) as [E1 E2]; [congruence|unfold ipg in *; nia|].
    rewrite E1, E2. unfold group_of, index_of. fold ipg.
    replace (i + 1 + g * ipg - 1) with (g * ipg + i) by lia.
    split.
    + by rewrite Z.div_add_l, (Z.div_small i), Z.add_0_r by lia.
    + by rewrite Z.add_comm, Z_mod_plus_full, Z.mod_small by lia.
Qed.

(** C19. [BlockGroup::alloc_block] of one block: the lowest clear bit of the block
    bitmap is set, the descriptor's count goes down by one, nothing else on the
    disk changes, and the pages of the copy are returned. *)
Theorem block_allocation fs s g bm p :
  let self := group_at (e_disk s) fs g in
  let raw := bg_raw self in
  let off := addr fs (block_bitmap raw) 0 0 in
  group_ok fs s g (block_bitmap raw) bm p -> numbers_fit fs g ->
  (unallocated_blocks raw = 0 -> ext2.bg_alloc_block self 1 s = (Ret None, s)) /\
  (0 < unallocated_blocks raw ->
   exists s', e_fs s' = e_fs s /\ e_table s' = e_table s /\ frames_kept s s' bm /\
   match first_clear (e_disk s) off (8 * block_size fs) with
   | Some i =>
       ext2.bg_alloc_block self 1 s = (Ret (Some [i + g * blocks_per_group (superblock fs)]), s') /\
       group_after fs (e_disk s) (e_disk s') g (block_bitmap raw)
         (fun j => bool_decide (j = i) || disk_bit (e_disk s) off j) (less_block raw)
   | None => ext2.bg_alloc_block self 1 s = (Ret None, s') /\ e_disk s' = e_disk s
   end).
Proof.
  intros self raw off Hg Hn. split; [|intros Hpos; by apply (alloc_block_run fs s g bm p)].
  intros H0. unfold ext2.bg_alloc_block. fold raw. by rewrite H0.
Qed.

(** In EXT2 bit [i] of group [g] stands for block
    [superblock_block + g * blocks_per_group + i]. *)
Definition block_number fs (g i : Z) : Z :=
  superblock_block (superblock fs) + g * blocks_per_group (superblock fs) + i.

(** C36. [alloc_block] leaves [superblock_block] out.  With blocks of 1024 bytes it is 1:
    the number returned is that of the block before the one whose bit was set, and
    that block is in use, unless it was the first of the group. *)
Theorem alloc_block_in_use fs s g bm p i :
  let self := group_at (e_disk s) fs g in
  let off := addr fs (block_bitmap (bg_raw self)) 0 0 in
  group_ok fs s g (block_bitmap (bg_raw self)) bm p -> numbers_fit fs g ->
  0 < unallocated_blocks (bg_raw self) -> superblock_block (superblock fs) = 1 ->
  first_clear (e_disk s) off (8 * block_size fs) = Some i -> 0 < i ->
  exists s', ext2.bg_alloc_block self 1 s = (Ret (Some [block_number fs g (i - 1)]), s') /\
    disk_bit (e_disk s) off (i - 1) = true /\ disk_bit (e_disk s') off i = true.
Proof.
  intros self off Hg Hn Hpos Hsb Hf Hi.
  destruct (alloc_block_run fs s g bm p Hg Hn Hpos) as (s' & _ & _ & _ & Hrun).
  fold self off in Hrun. rewrite Hf in Hrun. destruct Hrun as [E Hga]. exists s'.
  apply first_clear_Some in Hf as (Hir & _ & Hlow); [|destruct Hg as [[[_ ? _ _] _] _]; lia].
  split_and!.
  - rewrite E. unfold block_number. rewrite Hsb. do 4 f_equal. lia.
  - apply Hlow. lia.
  - rewrite (ga_bits _ _ _ _ _ _ _ Hga) by done. by rewrite bool_decide_true.
Qed.

(** [BlockGroup::get]. *)
Lemma bg_get_at fs s g : fs_ok fs -> e_fs s = Some fs -> 0 <= g ->
  group_desc fs g + BGD_SIZE <= capacity (e_disk s) < 2 ^ 64 ->
  ext2.bg_get g s = (Ret (group_at (e_disk s) fs g), s).
Proof.
  intros Hok Hfs Hg Hc. pose proof Hok as [H1 H2 _ _]. pose proof (group_desc_nonneg fs g Hok Hg) as Hnn.
  unfold ext2.bg_get, bind. rewrite (fs_get_eq s fs Hfs). unfold group_desc, BGD_SIZE in *.
  rewrite locate_eq; [|lia|lia|unfold ext2.bgdt_block; case_match; lia|done|done|lia].
  by rewrite read_bytes_unwrap_eq by lia.
Qed.

(** Groups without a free inode are passed over. *)
Lemma alloc_inode_groups_skip fs s : fs_ok fs -> e_fs s = Some fs ->
  forall k n g, 0 <= g ->
  (forall h, g <= h < g + Z.of_nat k -> group_desc fs h + BGD_SIZE <= capacity (e_disk s) < 2 ^ 64 /\
     unallocated_inodes (bg_raw (group_at (e_disk s) fs h)) = 0) ->
  ext2.alloc_inode_groups (k + n) g s = ext2.alloc_inode_groups n (g + Z.of_nat k) s.
Proof.
  intros Hok Hfs. induction k as [|k IH]; intros n g Hg Hall; [by rewrite Z.add_0_r|].
  destruct (Hall g ltac:(lia)) as [Hd H0]. cbn [Nat.add ext2.alloc_inode_groups].
  rewrite (bind_run _ _ _ _ _ (bg_get_at fs s g Hok Hfs Hg Hd)).
  rewrite (bind_run _ _ _ None s) by (unfold ext2.bg_alloc_inode; by rewrite H0).
  rewrite IH; [f_equal; lia|lia|]. intros h Hh. apply Hall. lia.
Qed.

(** [Ext2Filesystem::alloc_inode] takes the inode from the first group whose
    descriptor counts free ones. *)
Theorem alloc_inode_first_group fs s g bm p i :
  let raw := bg_raw (group_at (e_disk s) fs g) in
  let off := addr fs (inode_bitmap raw) 0 0 in
  sb_unallocated_inodes (superblock fs) <> 0 -> g < block_group_cnt fs ->
  (forall h, 0 <= h < g -> group_desc fs h + BGD_SIZE <= capacity (e_disk s) < 2 ^ 64 /\
     unallocated_inodes (bg_raw (group_at (e_disk s) fs h)) = 0) ->
  group_ok fs s g (inode_bitmap raw) bm p -> numbers_fit fs g -> 0 < unallocated_inodes raw ->
  first_clear (e_disk s) off (8 * block_size fs) = Some i ->
  exists s', ext2.alloc_inode fs s = (Ret (Some (i + 1 + g * inodes_per_group (superblock fs))), s') /\
    frames_kept s s' bm /\
    group_after fs (e_disk s) (e_disk s') g (inode_bitmap raw)
      (fun j => bool_decide (j = i) || disk_bit (e_disk s) off j) (less_inode raw).
Proof.
  intros raw off Hsb Hlt Hfull Hg Hn Hpos Hf.
  destruct (alloc_inode_run fs s g bm p Hg Hn Hpos) as (s' & _ & _ & Hk & Hrun).
  fold raw in Hrun. fold off in Hrun. rewrite Hf in Hrun. destruct Hrun as [E Hga].
  pose proof Hg as [[Hok Hfs] Hg0 _ (Hd1 & _ & Hd3) _ _ _]. exists s'. split_and!; [|done..|done].
  unfold ext2.alloc_inode. rewrite (proj2 (Z.eqb_neq _ _)) by done.
  replace (Z.to_nat (block_group_cnt fs)) with (Z.to_nat g + S (Z.to_nat (block_group_cnt fs) - S (Z.to_nat g)))%nat by lia.
  rewrite (alloc_inode_groups_skip fs s Hok Hfs); [|lia|intros h Hh; apply Hfull; lia].
  rewrite Z.add_0_l, Z2Nat.id by done. cbn [ext2.alloc_inode_groups].
  rewrite (bind_run _ _ _ _ _ (bg_get_at fs s g Hok Hfs Hg0 ltac:(lia))).
  by rewrite (bind_run _ _ _ _ _ E).
Qed.

End claims.

(** ** Witnesses *)

(** One group with blocks of 1024 bytes: block bitmap in block 3, inode bitmap in
    block 4, inodes from block 5; five blocks and two inodes are in use. *)
Definition group_fs : Ext2Filesystem := mkExt2 (super_of (<[5%nat := 1]> (replicate 25 64))) 1024 1 0.
Definition group_disk : ramdisk :=
  mkRam (wr8 (wr8 (wrn 2 (wrn 2 (wr32 (wr32 (wr32 empty 2048 3) 2052 4) 2056 5) 2060 59) 2062 62) 3072 0x1f) 4096 0x03) 65536.
Definition group_state : estate ramdisk := mkE (mkP mem_w (Some bm_w)) group_disk (Some group_fs) [].

Lemma group_state_inodes :
  group_ok group_fs group_state 0 (inode_bitmap (bg_raw (group_at group_disk group_fs 0))) bm_w 2.
Proof.
  split; [split; [split; vm_compute; intuition congruence|reflexivity]|lia|vm_compute; discriminate|
    vm_compute; intuition congruence|vm_compute; intuition congruence|split; [reflexivity|apply mem_w_inv]|
    vm_compute; reflexivity].
Qed.

Lemma group_state_blocks :
  group_ok group_fs group_state 0 (block_bitmap (bg_raw (group_at group_disk group_fs 0))) bm_w 2.
Proof.
  split; [split; [split; vm_compute; intuition congruence|reflexivity]|lia|vm_compute; discriminate|
    vm_compute; intuition congruence|vm_compute; intuition congruence|split; [reflexivity|apply mem_w_inv]|
    vm_compute; reflexivity].
Qed.

Lemma group_state_fit : numbers_fit group_fs 0.
Proof. vm_compute. intuition congruence. Qed.

Lemma inode_allocation_witness :
  exists s', ext2.bg_alloc_inode (group_at group_disk group_fs 0) group_state = (Ret (Some 3), s') /\
    disk_bit (e_disk s') 4096 2 = true.
Proof.
  destruct (inode_allocation group_fs group_state 0 bm_w 2 group_state_inodes group_state_fit) as [_ H].
  destruct H as (s' & _ & _ & _ & Hrun); [vm_compute; reflexivity|].
  change (first_clear _ _ _) with (Some 2) in Hrun. destruct Hrun as (E & _ & Hga).
  exists s'. split; [exact E|]. apply (ga_bits _ _ _ _ _ _ _ Hga). vm_compute. intuition congruence.
Defined.

Lemma block_allocation_witness :
  exists s', ext2.bg_alloc_block (group_at group_disk group_fs 0) 1 group_state = (Ret (Some [5]), s') /\
    disk_bit (e_disk s') 3072 5 = true.
Proof.
  destruct (block_allocation group_fs group_state 0 bm_w 2 group_state_blocks group_state_fit) as [_ H].
  destruct H as (s' & _ & _ & _ & Hrun); [vm_compute; reflexivity|].
  change (first_clear _ _ _) with (Some 5) in Hrun. destruct Hrun as (E & Hga).
  exists s'. split; [exact E|]. apply (ga_bits _ _ _ _ _ _ _ Hga). vm_compute. intuition congruence.
Defined.

(** Bit 5 is taken, for block 6; the caller gets block 5, which is in use. *)
Lemma alloc_block_in_use_witness :
  exists s', ext2.bg_alloc_block (group_at group_disk group_fs 0) 1 group_state =
      (Ret (Some [block_number group_fs 0 4]), s') /\ disk_bit group_disk 3072 4 = true.
Proof.
  destruct (alloc_block_in_use group_fs group_state 0 bm_w 2 5 group_state_blocks group_state_fit)
    as (s' & E & H & _); [vm_compute; reflexivity|reflexivity|vm_compute; reflexivity|lia|].
  exists s'. split; [exact E|exact H].
Defined.

Lemma alloc_inode_first_group_witness :
  exists s', ext2.alloc_inode group_fs group_state = (Ret (Some 3), s') /\ disk_bit (e_disk s') 4096 2 = true.
Proof.
  destruct (alloc_inode_first_group group_fs group_state 0 bm_w 2 2) as (s' & E & _ & Hga).
  - discriminate.
  - reflexivity.
  - intros h Hh. lia.
  - exact group_state_inodes.
  - exact group_state_fit.
  - vm_compute. reflexivity.
  - vm_compute. reflexivity.
  - exists s'. split; [exact E|]. apply (ga_bits _ _ _ _ _ _ _ Hga). vm_compute. intuition congruence.
Defined.
