(* ===== verification/Ext2Dir.v ===== *)
(** * Directories and path lookup

    What [DirectoryEntry::search] and [Ext2Filesystem::open] of [fs/ext2.rs] find:
    directories as lists of entries on the disk, a file system's names as a tree
    over inode numbers, and [open] as the lookup in that tree. *)

From stdpp Require Import strings.
From S2P Require Import Prelude Memory MathUtil Bitmap Pmm Vfs Disk Ext2 Ext2Alloc.
Local Open Scope Z_scope.

#[export] Instance inode_eq_dec : EqDecision Inode.
Proof. solve_decision. Defined.

(** ** Entries *)

(** An entry; [de_pad] is what is between its name and the next entry. *)
Record dirent := mkDe { de_inode : Z; de_type : Z; de_name : list Z; de_pad : list Z }.

Definition de_size (e : dirent) : Z := 8 + Z.of_nat (length (de_name e)) + Z.of_nat (length (de_pad e)).

Definition de_bytes (e : dirent) : list Z :=
  le_bytes 4 (de_inode e) ++ le_bytes 2 (de_size e) ++ le_bytes 1 (Z.of_nat (length (de_name e))) ++
  [de_type e] ++ de_name e ++ de_pad e.

Record dirent_ok (e : dirent) : Prop := {
  dk_inode : 0 <= de_inode e < 2 ^ 32;
  dk_size : de_size e < 2 ^ 16;
  dk_name : Z.of_nat (length (de_name e)) < 256;
}.

(** The entry for a name: the first in use that has it. *)
Definition entry_for (es : list dirent) (name : list Z) : option dirent :=
  List.find (fun e => negb (de_inode e =? 0) && bool_decide (de_name e = name)) es.

Definition dir_bytes (es : list dirent) : list Z := concat (map de_bytes es).

Lemma de_bytes_length e : Z.of_nat (length (de_bytes e)) = de_size e.
Proof. unfold de_bytes, de_size. rewrite !length_app, !le_bytes_length. simpl. lia. Qed.

Lemma dir_bytes_cons e es : dir_bytes (e :: es) = de_bytes e ++ dir_bytes es.
Proof. done. Qed.

Section entries.
Context {D : Type} `{!Disk D} `{!DiskLaws D}.
Implicit Types (fs : Ext2Filesystem) (s : estate D) (d : D).

(** The fields of an entry in memory. *)
Lemma dirent_fields m a e rest : dirent_ok e ->
  rd_bytes (length (de_bytes e ++ rest)) m a = de_bytes e ++ rest ->
  rdn 4 m a = de_inode e /\ rdn 2 m (a + 4) = de_size e /\
  rdn 1 m (a + 6) = Z.of_nat (length (de_name e)) /\
  rd_bytes (length (de_name e)) m (a + 8) = de_name e /\
  rd_bytes (length rest) m (a + de_size e) = rest.
Proof.
  intros [Hi Hs Hn] H. pose proof (de_bytes_length e) as Hl.
  assert (Hr : rd_bytes (length rest) m (a + de_size e) = rest).
  { rewrite length_app, rd_bytes_app in H. apply app_inj_1 in H as [_ H]; [|by rewrite rd_bytes_length].
    by rewrite Hl in H. }
  rewrite length_app in H. unfold de_bytes in H.
  rewrite !length_app, !le_bytes_length in H. rewrite <- !app_assoc in H.
  assert (0 <= de_size e) by (unfold de_size; lia).
  replace (4 + (2 + (1 + (length [de_type e] + (length (de_name e) + length (de_pad e))))) + length rest)%nat
    with (4 + (2 + (1 + (1 + (length (de_name e) + (length (de_pad e) + length rest))))))%nat in H by (simpl; lia).
  apply rd_bytes_word in H as [H1 H]; [|done].
  apply rd_bytes_word in H as [H2 H]; [|change (256 ^ Z.of_nat 2) with (2 ^ 16); lia].
  apply rd_bytes_word in H as [H3 H]; [|change (256 ^ Z.of_nat 1) with 256; lia].
  rewrite rd_bytes_app in H. apply app_inj_1 in H as [_ H]; [|done].
  rewrite rd_bytes_app in H. apply app_inj_1 in H as [H4 _]; [|by rewrite rd_bytes_length].
  replace (a + Z.of_nat 4 + Z.of_nat 2 + Z.of_nat 1 + Z.of_nat 1) with (a + 8) in H4 by lia.
  replace (a + Z.of_nat 4 + Z.of_nat 2) with (a + 6) in H3 by lia.
  split_and!; done.
Qed.

Lemma gets_run {A} (f : mem -> A) s : ext2.on_mem (gets f) s = (Ret (f (mem_of s)), s).
Proof. by destruct s as [[] ? ? ?]. Qed.

(** The loop of [search] over entries in memory. *)
Lemma search_loop_eq base size name : 0 <= base -> base + size < 2 ^ 47 -> size < 2 ^ 31 ->
  forall es fuel i s, Forall dirent_ok es -> 0 <= i ->
  i + Z.of_nat (length (dir_bytes es)) = size -> (length es <= fuel)%nat ->
  rd_bytes (length (dir_bytes es)) (mem_of s) (base + i) = dir_bytes es ->
  ext2.search_loop fuel (base + PHYS_BASE) size i name s = (Ret (de_inode <$> entry_for es name), s).
Proof.
  intros Hb0 Hb1 Hsz es. induction es as [|e es IH]; intros fuel i s Hok Hi Hlen Hf Hm.
  { simpl in Hlen. destruct fuel; cbn [ext2.search_loop]; by rewrite (proj2 (Z.ltb_ge _ _)) by lia. }
  apply list.Forall_cons in Hok as [He Hes]. rewrite dir_bytes_cons in Hlen, Hm.
  pose proof (de_bytes_length e) as Hl. rewrite length_app in Hlen. destruct (dirent_fields _ _ _ _ He Hm) as (F1 & F2 & F3 & F4 & F5).
  assert (8 + Z.of_nat (length (de_name e)) <= de_size e) by (unfold de_size; lia).
  destruct fuel as [|fuel]; [simpl in Hf; lia|]. cbn [ext2.search_loop].
  rewrite (proj2 (Z.ltb_lt _ _)) by lia.
  unfold ext2.dirent_size, ext2.dirent_inode, ext2.dirent_name_length, load16, load32, load8, ext2.bytes_at.
  assert (Hp : forall o, 0 <= o <= 8 -> phys_of (base + PHYS_BASE + i + o) = base + i + o).
  { intros o Ho. replace (base + PHYS_BASE + i + o) with (base + PHYS_BASE + (i + o)) by lia.
    rewrite phys_of_base_add by lia. lia. }
  rewrite (bind_run _ _ _ _ _ (gets_run _ s)). rewrite Hp, F2 by lia.
  rewrite (bind_run _ _ _ (i + de_size e) s) by (apply chk_ok; unfold u32; lia).
  rewrite (bind_run _ _ _ _ _ (gets_run _ s)).
  rewrite (phys_of_base_add base i), F1 by lia.
  rewrite (bind_run _ _ _ _ _ (gets_run _ s)). rewrite Hp by lia.
  assert (F3' : rd8 (mem_of s) (base + i + 6) = Z.of_nat (length (de_name e))) by (rewrite <- F3; symmetry; apply rdn_one).
  rewrite F3'.
  assert (Hrec : ext2.search_loop fuel (base + PHYS_BASE) size (i + de_size e) name s =
                 (Ret (de_inode <$> entry_for es name), s)).
  { apply IH; [done|lia|lia|simpl in Hf; lia|]. by rewrite Z.add_assoc. }
  unfold entry_for. cbn [List.find]. fold (entry_for es name).
  destruct (Z.eqb_spec (de_inode e) 0) as [E0|E0]; cbn [negb andb orb]; [exact Hrec|].
  destruct (Z.eqb_spec (Z.of_nat (length (de_name e))) (Z.of_nat (length name))) as [El|El]; cbn [negb].
  2:{ rewrite bool_decide_false by (intros <-; done). exact Hrec. }
  rewrite (bind_run _ _ _ _ _ (gets_run _ s)). rewrite Hp, Nat2Z.id, F4 by lia.
  case_bool_decide; [done|exact Hrec].
Qed.

(** ** [search] *)

(** The directory [ino] has the entries [es]: it is one block, which they fill. *)
Record dir_ok d fs (ino : Inode) (es : list dirent) : Prop := {
  do_dir : is_directory ino = true;
  do_block : in_first_block d fs ino 0 (sizel ino);
  do_bytes : slice d (addr fs (fld (direct_pointer ino) 0) 0 1) (sizel ino) = dir_bytes es;
  do_entries : Forall dirent_ok es;
}.

(** Nothing but scratch pages changed. *)
Record quiet s s' (bm : Bitmap) : Prop := {
  qt_disk : e_disk s' = e_disk s;
  qt_fs : e_fs s' = e_fs s;
  qt_table : e_table s' = e_table s;
  qt_frames : frames_kept s s' bm;
  qt_mem : forall x, kept (mem_of s) bm x 1 -> rd8 (mem_of s') x = rd8 (mem_of s) x;
}.

(** A page for scratch, in less than 128 TiB of memory. *)
Record scratch s (bm : Bitmap) (a : Z) : Prop := {
  sc_alloc : p_alloc (e_p s) = Some bm;
  sc_inv : pmm_inv (mem_of s) bm;
  sc_page : room (mem_of s) bm a 1;
  sc_mem : frames bm * PAGE_SIZE < 2 ^ 47;
}.

Lemma quiet_refl s bm a : scratch s bm a -> quiet s s bm.
Proof. intros [H1 H2 _ _]. split; [done..| |done]. by split_and!. Qed.

Lemma quiet_trans s1 s2 s3 bm : quiet s1 s2 bm -> quiet s2 s3 bm -> quiet s1 s3 bm.
Proof.
  intros [A1 A2 A3 (_ & _ & A4) A5] [B1 B2 B3 (B6 & B7 & B4) B5]. split; [congruence..| |].
  - split_and!; [done..|]. intros q Hq. by rewrite B4, A4.
  - intros x Hx. rewrite B5, A5; [done..|]. by eapply kept_bits.
Qed.

Lemma quiet_scratch s s' bm a : scratch s bm a -> quiet s s' bm -> scratch s' bm a.
Proof.
  intros [_ _ (R1 & R2 & R3) Hm] [_ _ _ (Q1 & Q2 & Q3) _]. split; [done..| |done]. split_and!; [done..|].
  intros j Hj. rewrite Q3 by lia. by apply R3.
Qed.

Lemma dir_bytes_count es : (length es <= length (dir_bytes es))%nat.
Proof.
  induction es as [|e es IH]; [done|]. rewrite dir_bytes_cons, length_app.
  pose proof (de_bytes_length e). unfold de_size in *. cbn [length]. lia.
Qed.

Lemma e_p_run {A} (c : M pstate A) r q s : c (e_p s) = (Ret r, q) ->
  ext2.on_p c s = (Ret r, mkE q (e_disk s) (e_fs s) (e_table s)).
Proof. intros E. unfold ext2.on_p, zoom. by rewrite E. Qed.

Lemma search_run fs ino es name s bm a :
  fs_ok fs -> e_fs s = Some fs -> block_size fs <= PAGE_SIZE -> scratch s bm a ->
  dir_ok (e_disk s) fs ino es ->
  exists s', ext2.search ino name s = (Ret (de_inode <$> entry_for es (str_bytes name)), s') /\ quiet s s' bm.
Proof.
  intros Hok Hfs Hbs [Hal Hi Hroom Hlim] [Hdir Hfb Hbytes Hes]. pose proof Hfb as [_ Hpos Hend _ _ _].
  rewrite Z.add_0_l in Hend. pose proof (cdiv_one (sizel ino) PAGE_SIZE ltac:(lia)) as Hone.
  destruct (calloc_room (e_p s) bm a 1 1 Hal Hi Hroom ltac:(lia)) as (p & _ & _ & Hf & _).
  rewrite <- Hone in Hf.
  destruct (box_new (e_p s) bm (sizel ino) p Hal Hi ltac:(unfold PAGE_SIZE in *; lia) Hf) as (m1 & E1 & Ht & _).
  rewrite Hone in E1, Ht, Hf.
  pose proof (first_fit_bounds _ _ _ _ (eq_refl : 0 < 1) Hf) as (Hp & Hle & Hr & _).
  rewrite higher_half_add in E1 by (unfold PAGE_SIZE in *; lia).
  set (s1 := mkE (mkP m1 (Some bm)) (e_disk s) (e_fs s) (e_table s)).
  pose proof (inode_read_first fs ino 0 (sizel ino) (p * PAGE_SIZE + PHYS_BASE) s1 Hok Hfs Hfb) as E2.
  rewrite phys_of_base in E2 by (unfold PAGE_SIZE in *; lia). cbn [s1 e_disk] in E2. rewrite Hbytes in E2.
  set (m2 := wr_bytes m1 (p * PAGE_SIZE) (dir_bytes es)) in *. change (mem_of s1) with m1 in E2. fold m2 in E2.
  assert (Hl : Z.of_nat (length (dir_bytes es)) = sizel ino).
  { rewrite <- Hbytes, slice_length by lia. lia. }
  destruct (wr_slice m1 (p * PAGE_SIZE) (e_disk s) (addr fs (fld (direct_pointer ino) 0) 0 1) (sizel ino))
    as [Hrd Honly]; [lia|]. rewrite Hbytes in Hrd, Honly. fold m2 in Hrd, Honly.
  assert (E3 : ext2.search_loop (Z.to_nat (sizel ino)) (p * PAGE_SIZE + PHYS_BASE) (sizel ino) 0 (str_bytes name)
    (with_mem s1 m2) = (Ret (de_inode <$> entry_for es (str_bytes name)), with_mem s1 m2)).
  { pose proof (dir_bytes_count es). apply search_loop_eq; unfold PAGE_SIZE in *; try lia; [done|].
    rewrite mem_of_with, Z.add_0_r. by replace (length (dir_bytes es)) with (Z.to_nat (sizel ino)) by lia. }
  destruct (box_drop (mem_of s) m1 m2 bm p 1 Hi ltac:(lia) Hf Ht) as (m3 & E4 & Hq & Honly3 & Hi3).
  { intros x Hx. apply Honly. intros Hin.
    apply (run_off_storage (mem_of s) bm p 1 x Hi Hp Hle Hr); [unfold PAGE_SIZE in *; lia|done]. }
  rewrite higher_half_add in E4 by (unfold PAGE_SIZE in *; lia).
  exists (mkE (mkP m3 (Some bm)) (e_disk s) (e_fs s) (e_table s)). split.
  2:{ split; [reflexivity..| |].
      - split; [reflexivity|]. split; [exact Hi3|exact Hq].
      - intros x Hx. pose proof (kept_run _ _ _ _ p 1 Hx ltac:(lia) Hp ltac:(lia) Hle Hr) as Hfar.
        pose proof (kp_off _ _ _ _ Hx) as Hoff. unfold far in *.
        change (rd8 m3 x = rd8 (mem_of s) x).
        rewrite Honly3, Honly by (unfold PAGE_SIZE in *; lia). apply (tk_frame _ _ _ _ _ Ht); lia. }
  unfold ext2.search. rewrite Hdir. cbn [negb].
  rewrite (bind_run _ _ _ _ _ (e_p_run _ _ _ s E1)). fold s1. cbn [pb_data].
  rewrite (bind_run _ _ _ _ _ E2). unfold expect. rewrite (bind_run _ _ _ (sizel ino) (with_mem s1 m2)) by done.
  rewrite (bind_run _ _ _ _ _ E3). by rewrite (bind_run _ _ _ _ _ (e_p_run _ _ _ (with_mem s1 m2) E4)).
Qed.

(** ** Path lookup *)

(** The inode with number [n]. *)
Definition inode_at d fs (n : Z) : Inode :=
  with_number (inode_of (dec inode_ws (slice d (inode_addr d fs n) INODE_SIZE))) n.

(** The names of a file system: for the number of each directory its entries. *)
Abbreviation tree := (gmap Z (list dirent)).

Record tree_ok d fs (F : tree) : Prop := {
  tr_root : placed d fs ROOT_DIR_INODE /\ is_Some (F !! ROOT_DIR_INODE);
  tr_dirs : forall n es, F !! n = Some es -> dir_ok d fs (inode_at d fs n) es;
  tr_entries : forall n es e, F !! n = Some es -> e ∈ es -> de_inode e <> 0 ->
    placed d fs (de_inode e) /\
    (F !! de_inode e = None -> is_directory (inode_at d fs (de_inode e)) = false);
}.

(** The number of the file that a path leads to from directory [n]. *)
Fixpoint resolve (F : tree) (n : Z) (frags : list string) : option Z :=
  match frags with
  | [] => None
  | frag :: rest =>
      if bool_decide (frag = EmptyString) then resolve F n rest
      else
        es ← F !! n;
        e ← entry_for es (str_bytes frag);
        match rest with [] => Some (de_inode e) | _ => resolve F (de_inode e) rest end
  end.

Lemma resolve_file F n frags : F !! n = None -> resolve F n frags = None.
Proof.
  intros H. induction frags as [|f frags IH]; [done|]. simpl. case_bool_decide; [done|]. by rewrite H.
Qed.

Lemma entry_for_Some es name e : entry_for es name = Some e ->
  e ∈ es /\ de_inode e <> 0 /\ de_name e = name.
Proof.
  intros H. apply List.find_some in H as [Hin Hb]. apply andb_true_iff in Hb as [H1 H2].
  split; [by apply list_elem_of_In|]. split; [by apply Z.eqb_neq, negb_true_iff|by apply bool_decide_eq_true in H2].
Qed.

Lemma open_loop_run fs F self flags bm a : fs_ok fs -> block_size fs <= PAGE_SIZE ->
  forall frags n es s, e_fs s = Some fs -> tree_ok (e_disk s) fs F -> F !! n = Some es -> scratch s bm a ->
  (contains flags O_CREAT = false \/ is_Some (resolve F n frags)) ->
  exists s1, quiet s s1 bm /\
    ext2.open_loop self frags (inode_at (e_disk s) fs n) flags s =
      match resolve F n frags with
      | Some k => ext2.new_fd (inode_at (e_disk s) fs k) flags s1
      | None => (Ret None, s1)
      end.
Proof.
  intros Hok Hbs. induction frags as [|f rest IH]; intros n es s Hfs Htr Hn Hsc Hcr.
  { exists s. split; [by eapply quiet_refl|done]. }
  cbn [ext2.open_loop resolve] in *. case_bool_decide as Hf; [by apply (IH n es)|].
  destruct (search_run fs _ es f s bm a Hok Hfs Hbs Hsc (tr_dirs _ _ _ Htr n es Hn)) as (s1 & E & Hq).
  rewrite (bind_run _ _ _ _ _ E). rewrite Hn in *. cbn [mbind option_bind fmap option_fmap option_map] in *.
  destruct (entry_for es (str_bytes f)) as [e|] eqn:He; cbn [mbind option_bind fmap option_fmap option_map] in *.
  2:{ exists s1. split; [done|]. destruct Hcr as [->|[? [=]]]. by rewrite andb_false_r. }
  apply entry_for_Some in He as (Hin & Hne & _).
  destruct (tr_entries _ _ _ Htr n es e Hn Hin Hne) as [Hpl Hdir].
  pose proof Hq as [Q1 Q2 Q3 _ _].
  assert (E2 : ext2.inode_get (de_inode e) s1 = (Ret (inode_at (e_disk s) fs (de_inode e)), s1)).
  { rewrite (inode_get_eq fs); [by rewrite Q1|done|congruence|by rewrite Q1]. }
  rewrite (bind_run _ _ _ _ _ E2). destruct rest as [|f' rest]; [by exists s1|].
  set (rest' := f' :: rest) in *.
  destruct (F !! de_inode e) as [es'|] eqn:HF.
  - rewrite (do_dir _ _ _ _ (tr_dirs _ _ _ Htr _ _ HF)). cbn [negb].
    destruct (IH (de_inode e) es' s1) as (s2 & Hq2 & E3);
      [congruence|by rewrite Q1|done|by eapply quiet_scratch|done|].
    exists s2. split; [by eapply quiet_trans|]. by rewrite Q1 in E3.
  - rewrite (Hdir eq_refl). cbn [negb]. rewrite (resolve_file F _ rest' HF). by exists s1.
Qed.

Lemma new_fd_eq fs ino flags s : e_fs s = Some fs ->
  ext2.new_fd ino flags s =
    match ext2.first_slot (e_table s) 0 with
    | Some i => (Ret (Some (fd_new (Z.of_nat i) flags fs)),
                 mkE (e_p s) (e_disk s) (e_fs s) (<[i := Some ino]> (e_table s)))
    | None => (Ret None, s)
    end.
Proof.
  intros Hfs. unfold ext2.new_fd. rewrite (bind_run _ _ _ (e_table s) s) by done.
  destruct (ext2.first_slot (e_table s) 0) as [i|]; [|done].
  rewrite (bind_run _ _ _ tt (mkE (e_p s) (e_disk s) (e_fs s) (<[i := Some ino]> (e_table s)))) by done.
  by rewrite (bind_run _ _ _ _ _ (fs_get_eq (mkE _ _ (e_fs s) _) fs Hfs)).
Qed.

(** The slot [first_slot] finds: it is empty, and the ones before it are not. *)
Lemma first_slot_is t : forall n i, t !! i = Some None ->
  (forall j, (j < i)%nat -> exists ino, t !! j = Some (Some ino)) -> ext2.first_slot t n = Some (n + i)%nat.
Proof.
  induction t as [|[x|] t IH]; intros n i Hi Hb; [done| |].
  - destruct i as [|i]; [done|]. cbn [ext2.first_slot]. rewrite (IH (S n) i Hi); [f_equal; lia|].
    intros j Hj. apply (Hb (S j)). lia.
  - destruct i as [|i]; [by rewrite Nat.add_0_r|].
    destruct (Hb 0%nat ltac:(lia)) as [ino [=]].
Qed.

Lemma first_slot_full t : forall n, None ∉ t -> ext2.first_slot t n = None.
Proof.
  induction t as [|[x|] t IH]; intros n Hno; [done| |].
  - apply IH. intros Hin. apply Hno. by right.
  - exfalso. apply Hno. left.
Qed.

(** A table with an empty slot has a first one. *)
Lemma first_empty (t : list (option Inode)) : None ∈ t ->
  exists i, t !! i = Some None /\ forall j, (j < i)%nat -> exists ino, t !! j = Some (Some ino).
Proof.
  induction t as [|[x|] t IH]; intros Hin; [by apply elem_of_nil in Hin| |].
  - apply elem_of_cons in Hin as [[=]|Hin]. destruct (IH Hin) as (i & Hi & Hb).
    exists (S i). split; [done|]. intros [|j] Hj; [by exists x|]. apply (Hb j). lia.
  - exists 0%nat. split; [done|]. lia.
Qed.

(** ** [open] *)

Lemma open_run fs F path flags mode s bm a : fs_ok fs -> block_size fs <= PAGE_SIZE ->
  e_fs s = Some fs -> tree_ok (e_disk s) fs F -> scratch s bm a ->
  (contains flags O_CREAT = false \/ is_Some (resolve F ROOT_DIR_INODE (split_slash path))) ->
  exists s1, quiet s s1 bm /\
    ext2.open fs path flags mode s =
      match resolve F ROOT_DIR_INODE (split_slash path), ext2.first_slot (e_table s) 0 with
      | Some k, Some i => (Ret (Some (fd_new (Z.of_nat i) flags fs)),
          mkE (e_p s1) (e_disk s) (e_fs s) (<[i := Some (inode_at (e_disk s) fs k)]> (e_table s)))
      | _, _ => (Ret None, s1)
      end.
Proof.
  intros Hok Hbs Hfs Htr Hsc Hcr. destruct (tr_root _ _ _ Htr) as [Hpl [es Hes]].
  destruct (open_loop_run fs F fs flags bm a Hok Hbs (split_slash path) ROOT_DIR_INODE es s) as (s1 & Hq & E);
    [done..|]. exists s1. split; [done|]. unfold ext2.open.
  rewrite (bind_run _ _ _ _ _ (inode_get_eq fs _ s Hok Hfs Hpl)).
  fold (inode_at (e_disk s) fs ROOT_DIR_INODE). rewrite E.
  destruct (resolve F ROOT_DIR_INODE (split_slash path)) as [k|]; [|done].
  destruct Hq as [Q1 Q2 Q3 _ _]. rewrite (new_fd_eq fs) by congruence. rewrite Q1, Q2, Q3.
  by destruct (ext2.first_slot (e_table s) 0).
Qed.

End entries.

(** ** Properties *)

Section claims.
Context {D : Type} `{!Disk D} `{!DiskLaws D}.
Implicit Types (fs : Ext2Filesystem) (s : estate D).

(** C14. [open] is the lookup of the path in the tree of names, for directories of one
    block that fits in a page, and for a path that leads to an entry or flags
    without [O_CREAT].  When the path leads to an entry, that entry's inode goes
    to the empty slot of [INODE_TABLE] with the lowest index, and the description
    holds that index; when it does not, or no slot is empty, the result is [None]
    and the table is as it was.  The disk does not change, the pages used on the
    way are returned, and memory outside them and the allocator's bitmap is as
    it was. *)
Theorem open_resolves fs F path flags mode s bm a :
  fs_ok fs -> block_size fs <= PAGE_SIZE -> e_fs s = Some fs -> tree_ok (e_disk s) fs F ->
  scratch s bm a ->
  (contains flags O_CREAT = false \/ is_Some (resolve F ROOT_DIR_INODE (split_slash path))) ->
  exists r s', ext2.open fs path flags mode s = (Ret r, s') /\
    e_disk s' = e_disk s /\ e_fs s' = e_fs s /\ frames_kept s s' bm /\
    (forall x, kept (mem_of s) bm x 1 -> rd8 (mem_of s') x = rd8 (mem_of s) x) /\
    (forall k i, resolve F ROOT_DIR_INODE (split_slash path) = Some k ->
       e_table s !! i = Some None ->
       (forall j, (j < i)%nat -> exists ino, e_table s !! j = Some (Some ino)) ->
       r = Some (fd_new (Z.of_nat i) flags fs) /\
       e_table s' = <[i := Some (inode_at (e_disk s) fs k)]> (e_table s)) /\
    (resolve F ROOT_DIR_INODE (split_slash path) = None \/ None ∉ e_table s ->
       r = None /\ e_table s' = e_table s).
Proof.
  intros Hok Hbs Hfs Htr Hsc Hcr.
  destruct (open_run fs F path flags mode s bm a Hok Hbs Hfs Htr Hsc Hcr) as (s1 & [Q1 Q2 Q3 Q4 Q5] & E).
  destruct (resolve F ROOT_DIR_INODE (split_slash path)) as [k|].
  2:{ exists None, s1. split; [exact E|]. split; [done|]. split; [done|]. split; [exact Q4|].
      split; [exact Q5|]. split; [|done]. by intros k i [=]. }
  destruct (decide (None ∈ e_table s)) as [Hin|Hno].
  - destruct (first_empty _ Hin) as (i & Hi & Hb). rewrite (first_slot_is _ 0 i Hi Hb) in E.
    eexists _, _. split; [exact E|]. split; [done|]. split; [done|]. split; [exact Q4|]. split; [exact Q5|].
    split; [|by intros [[=]|?]]. intros k' i' [= <-] Hi' Hb'.
    pose proof (first_slot_is _ 0 i' Hi' Hb') as E'. rewrite (first_slot_is _ 0 i Hi Hb) in E'.
    injection E' as <-. done.
  - rewrite (first_slot_full _ 0 Hno) in E. exists None, s1. split; [exact E|].
    split; [done|]. split; [done|]. split; [exact Q4|]. split; [exact Q5|]. split; [|done].
    intros k' i _ Hi _. exfalso. apply Hno. by eapply list_elem_of_lookup_2.
Qed.

(** C13. What the kernel does after the mount: with EXT2 mounted at the root, an empty
    slot in the inode table and directories of one block that fits in a page,
    opening a file through the VFS and reading [cnt] bytes of its first block
    from its description puts the first [cnt] bytes of the file into the buffer.
    The disk is as it was, every frame is free or in use as before the open, and
    of the memory outside the frames that were free and the allocator's bitmap
    only the buffer has changed. *)
Theorem vfs_open_read fs F path flags mode s bm a k cnt buffer :
  fs_ok fs -> block_size fs <= PAGE_SIZE -> e_fs s = Some fs -> tree_ok (e_disk s) fs F ->
  scratch s bm a -> char_boundary (String slash path) 1 = true ->
  resolve F ROOT_DIR_INODE (split_slash path) = Some k ->
  None ∈ e_table s ->
  in_first_block (e_disk s) fs (inode_at (e_disk s) fs k) 0 cnt ->
  exists fd s1 m2,
    vfs.open (String slash path) flags mode (mkF [mkMount (String slash EmptyString) (Some fs)] s) =
      (Ret (Some fd), mkF [mkMount (String slash EmptyString) (Some fs)] s1) /\
    vfs.read (fd_fs fd) (fd_file_index fd) buffer cnt (fd_offset fd)
      (mkF [mkMount (String slash EmptyString) (Some fs)] s1) =
      (Ret cnt, mkF [mkMount (String slash EmptyString) (Some fs)] (with_mem s1 m2)) /\
    rd_bytes (Z.to_nat cnt) m2 (phys_of buffer) =
      map (file_byte (e_disk s) fs (inode_at (e_disk s) fs k)) (seqZ 0 cnt) /\
    only (mem_of s1) m2 (phys_of buffer) cnt /\ frames_kept s s1 bm /\ e_disk s1 = e_disk s /\
    (forall x, kept (mem_of s) bm x 1 -> ~ (phys_of buffer <= x < phys_of buffer + cnt) ->
       rd8 m2 x = rd8 (mem_of s) x).
Proof.
  intros Hok Hbs Hfs Htr Hsc Hcb Hres Hslot Hfb.
  destruct (open_run fs F path flags mode s bm a Hok Hbs Hfs Htr Hsc) as (s1 & [Q1 Q2 Q3 Q4 Q5] & E);
    [right; by rewrite Hres|]. rewrite Hres in E.
  destruct (first_empty _ Hslot) as (j & Hj & Hb). rewrite (first_slot_is _ 0 j Hj Hb), Nat.add_0_l in E.
  apply lookup_lt_Some in Hj.
  set (s2 := mkE (e_p s1) (e_disk s) (e_fs s) (<[j := Some (inode_at (e_disk s) fs k)]> (e_table s))) in *.
  pose proof (inode_read_first fs _ 0 cnt buffer s2 Hok Hfs Hfb) as Er.
  pose proof (file_bytes_slice _ _ _ _ _ Hfb) as Hs. pose proof (fb_bytes _ _ _ _ _ Hfb).
  eexists _, s2, _. split_and!.
  - unfold vfs.open. cbn [starts_slash]. rewrite bool_decide_true by done. cbn [negb].
    rewrite (bind_run _ _ _ (Some (mkMount (String slash EmptyString) (Some fs)))
      (mkF [mkMount (String slash EmptyString) (Some fs)] s)).
    2:{ unfold vfs.get_mount_point, gets. cbn [f_mounts vfs.best_mount mp_name].
        rewrite prefix_contains; [done|]. by destruct path. }
    cbn [mp_fs mp_name expect]. rewrite (bind_run _ _ _ fs (mkF [mkMount (String slash EmptyString) (Some fs)] s)) by done.
    unfold str_from. change (String.length (String slash EmptyString)) with 1%nat. rewrite Hcb.
    rewrite (bind_run _ _ _ path (mkF [mkMount (String slash EmptyString) (Some fs)] s)) by done.
    unfold vfs.on_st, zoom. cbn [f_st f_mounts fs_open ext2_filesystem]. by rewrite E.
  - unfold vfs.read, vfs.on_st, zoom. cbn [f_st f_mounts fs_read ext2_filesystem fd_new fd_file_index fd_offset].
    unfold ext2.read, ext2.slot. rewrite (bind_run _ _ _ (Some (inode_at (e_disk s) fs k)) s2).
    2:{ rewrite (bind_run _ _ _ (e_table s2) s2) by done. cbn [s2 e_table]. rewrite Nat2Z.id.
        by rewrite list_lookup_insert_eq. }
    rewrite (bind_run _ _ _ _ _ Er). reflexivity.
  - rewrite Hs. apply wr_slice. lia.
  - apply wr_slice. lia.
  - exact Q4.
  - done.
  - intros x Hx Hout. rewrite <- (Q5 x Hx). apply wr_slice; [lia|exact Hout].
Qed.

End claims.

(** ** Witnesses *)

(** A volume with the directory [home], in which there is one file. *)
Definition vol_fs : Ext2Filesystem := mkExt2 (super_of (<[5%nat := 1]> (replicate 25 64))) 1024 1 0.
Definition vol_inode (n mode size block : Z) : Inode :=
  mkInode mode 0 size 0 0 0 0 0 1 2 0 n [block; 0; 0; 0; 0; 0; 0; 0; 0; 0; 0; 0] 0 0 0 0 0 0 0 [0; 0; 0].
Definition vol_root : list dirent := [mkDe 3 2 (str_bytes "home") (replicate 1012 0)].
Definition vol_home : list dirent := [mkDe 4 1 (str_bytes "limine.cfg") (replicate 1006 0)].
Definition vol_tree : gmap Z (list dirent) := <[2 := vol_root]> {[3 := vol_home]}.

Definition vol_mem : mem :=
  let m := wr32 empty 2056 5 in
  let m := wr_bytes m 5248 (enc inode_ws (inode_fields (vol_inode 2 0x41ed 1024 20))) in
  let m := wr_bytes m 5376 (enc inode_ws (inode_fields (vol_inode 3 0x41ed 1024 21))) in
  let m := wr_bytes m 5504 (enc inode_ws (inode_fields (vol_inode 4 0x81ed 9 22))) in
  let m := wr_bytes m 20480 (dir_bytes vol_root) in
  let m := wr_bytes m 21504 (dir_bytes vol_home) in
  wr_bytes m 22528 (str_bytes "TIMEOUT=5").
Definition vol_disk : ramdisk := mkRam vol_mem 65536.
Definition vol_state : estate ramdisk := mkE (mkP mem_w (Some bm_w)) vol_disk (Some vol_fs) [None; None].

Lemma vol_fs_ok : fs_ok vol_fs.
Proof. split; vm_compute; intuition congruence. Qed.

Lemma vol_scratch : scratch vol_state bm_w 2.
Proof.
  split; [reflexivity|apply mem_w_inv|apply room_check_sound; vm_compute; reflexivity|vm_compute; reflexivity].
Qed.

Lemma vol_placed n : n ∈ [2; 3; 4] -> placed vol_disk vol_fs n.
Proof.
  intros Hn. repeat (apply elem_of_cons in Hn as [->|Hn]); [..|by apply elem_of_nil in Hn];
    split; vm_compute; intuition congruence.
Qed.

Lemma vol_dirs n es : vol_tree !! n = Some es -> dir_ok vol_disk vol_fs (inode_at vol_disk vol_fs n) es.
Proof.
  unfold vol_tree. intros [[<- <-]|[_ [<- <-]%lookup_singleton_Some]]%lookup_insert_Some.
  - split; [vm_compute; reflexivity|split; vm_compute; intuition congruence|vm_compute; reflexivity|].
    constructor; [split; vm_compute; intuition congruence|constructor].
  - split; [vm_compute; reflexivity|split; vm_compute; intuition congruence|vm_compute; reflexivity|].
    constructor; [split; vm_compute; intuition congruence|constructor].
Qed.

Lemma vol_tree_ok : tree_ok vol_disk vol_fs vol_tree.
Proof.
  split.
  - split; [apply vol_placed; by left|by eexists].
  - apply vol_dirs.
  - unfold vol_tree. intros n es e [[<- <-]|[_ [<- <-]%lookup_singleton_Some]]%lookup_insert_Some
      ->%list_elem_of_singleton _.
    + split; [apply vol_placed; right; by left|]. vm_compute. discriminate.
    + split; [apply vol_placed; right; right; by left|]. intros _. vm_compute. reflexivity.
Qed.

Lemma vol_resolve : resolve vol_tree ROOT_DIR_INODE (split_slash "home/limine.cfg") = Some 4.
Proof. vm_compute. reflexivity. Qed.

Lemma open_resolves_witness :
  exists s', ext2.open vol_fs "home/limine.cfg" 0 0 vol_state = (Ret (Some (fd_new 0 0 vol_fs)), s') /\
    e_table s' = [Some (inode_at vol_disk vol_fs 4); None].
Proof.
  destruct (open_resolves vol_fs vol_tree "home/limine.cfg" 0 0 vol_state bm_w 2 vol_fs_ok)
    as (r & s' & E & _ & _ & _ & _ & H & _).
  - vm_compute. discriminate.
  - reflexivity.
  - exact vol_tree_ok.
  - exact vol_scratch.
  - left. vm_compute. reflexivity.
  - destruct (H 4 0%nat vol_resolve eq_refl) as [-> Ht]; [lia|]. exists s'. split; [exact E|exact Ht].
Defined.

Lemma vfs_open_read_witness :
  exists fd s1 m2,
    vfs.open "/home/limine.cfg" 0 0 (mkF [mkMount "/" (Some vol_fs)] vol_state) =
      (Ret (Some fd), mkF [mkMount "/" (Some vol_fs)] s1) /\
    vfs.read (fd_fs fd) (fd_file_index fd) (PHYS_BASE + 0x4000) 9 (fd_offset fd) (mkF [mkMount "/" (Some vol_fs)] s1) =
      (Ret 9, mkF [mkMount "/" (Some vol_fs)] (with_mem s1 m2)) /\
    rd_bytes 9 m2 0x4000 = str_bytes "TIMEOUT=5".
Proof.
  destruct (vfs_open_read vol_fs vol_tree "home/limine.cfg" 0 0 vol_state bm_w 2 4 9 (PHYS_BASE + 0x4000) vol_fs_ok)
    as (fd & s1 & m2 & E1 & E2 & Hb & _).
  - vm_compute. discriminate.
  - reflexivity.
  - exact vol_tree_ok.
  - exact vol_scratch.
  - reflexivity.
  - exact vol_resolve.
  - left.
  - split; vm_compute; intuition congruence.
  - exists fd, s1, m2. split; [exact E1|]. split; [exact E2|]. etransitivity; [exact Hb|]. vm_compute. reflexivity.
Defined.
