(* ===== verification/Partitions.v ===== *)
(** * [fs/partitions.rs]: GPT partitions

    [scan] reads the GPT header at sector 1 and the array of partition entries,
    and offers every partition to [ext2::try_and_init].  The header, allocated on
    the kernel heap for the time of the call, is its value; the entries live in
    a [PmmBox] in memory. *)

From S2P Require Import Prelude Memory MathUtil Bitmap Pmm Vfs Disk Ext2.

(** [GptHeader], a packed struct. *)
Record GptHeader := mkGpt {
  gpt_signature : list Z;
  gpt_revision : Z;
  gpt_hdr_size : Z;
  gpt_checksum : Z;
  gpt_reserved : Z;
  gpt_hdr_lba : Z;
  gpt_alt_hdr_lba : Z;
  gpt_first_usable : Z;
  gpt_last_usable : Z;
  gpt_disk_guid : list Z;
  gpt_start_lba : Z;
  gpt_partition_entries : Z;
  gpt_entry_size : Z;
  gpt_pea_checksum : Z;
}.

(** [size_of::<GptHeader>()], and the struct behind its bytes. *)
Definition GPT_HEADER_SIZE : Z := 8 + 4 * 4 + 4 * 8 + 16 + 8 + 3 * 4.

Definition gpt_of (bs : list Z) : GptHeader :=
  let l := dec [4; 4; 4; 4; 8; 8; 8; 8]%nat (drop 8 bs) in
  let k := dec [8; 4; 4; 4]%nat (drop 72 bs) in
  mkGpt (take 8 bs) (fld l 0) (fld l 1) (fld l 2) (fld l 3) (fld l 4) (fld l 5) (fld l 6) (fld l 7)
        (take 16 (drop 56 bs)) (fld k 0) (fld k 1) (fld k 2) (fld k 3).

(** The fields of [GptPartitionEntry] that the code uses. *)
Module GptPartitionEntry.
Definition pt_guid : Z := 0.
Definition start_lba : Z := 2 * 8 + 2 * 8.
Definition size : Z := 2 * 8 + 2 * 8 + 8 + 8 + 8 + 72.
End GptPartitionEntry.

(** [b"EFI PART"]. *)
Definition EFI_PART : list Z := [69; 70; 73; 32; 80; 65; 82; 84].

Module partitions.
Section partitions.
Context {D : Type} `{!Disk D}.
Abbreviation E := (M (estate D)).

Definition scan_mbr : E (option unit) := throw Todo.

(** The body of the loop over the entries. *)
Definition try_entry (gpt_entries_ptr i : Z) : E unit :=
  let entry := gpt_entries_ptr + GptPartitionEntry.size * i in
  let! guid0 := ext2.on_mem (load64 (entry + GptPartitionEntry.pt_guid)) in
  if guid0 =? 0 then ret tt
  else
    let! start_lba := ext2.on_mem (load64 (entry + GptPartitionEntry.start_lba)) in
    do! ext2.try_and_init start_lba in
    ret tt.

(** [scan]; [Some] for [Ok(())].  The box of the entries is dropped on every way
    out. *)
Definition scan : E (option unit) :=
  let! r := ext2.read_bytes 512 GPT_HEADER_SIZE in
  match r with
  | None => ret None
  | Some bs =>
      let gpt_header := gpt_of bs in
      if forallb (fun ab => negb (fst ab =? snd ab)) (zip (gpt_signature gpt_header) EFI_PART)
      then scan_mbr
      else
        let! bytes := umul usize (gpt_partition_entries gpt_header) GptPartitionEntry.size in
        let! gpt_entries := ext2.on_p (pmmbox.new bytes) in
        let gpt_entries_ptr := pb_data gpt_entries in
        let! off := umul u64 (gpt_start_lba gpt_header) 512 in
        let! r := ext2.read_to off bytes gpt_entries_ptr in
        let! res :=
          match r with
          | None => ret None
          | Some _ =>
              do! for_range 0 (gpt_partition_entries gpt_header) (try_entry gpt_entries_ptr) in
              ret (Some tt)
          end in
        do! ext2.on_p (pmmbox.drop gpt_entries) in
        ret res
  end.

End partitions.
End partitions.

(** ** The partitions on a disk *)

Section gpt.
Context {D : Type} `{!Disk D, !DiskLaws D}.
Implicit Types (d : D) (s : estate D).

Definition header_of d : GptHeader := gpt_of (slice d 512 92).

(** Entry [i] of the array at sector [lba]: the first half of its type and its
    first sector. *)
Definition entry_guid d (lba i : Z) : Z := le_val (slice d (lba * 512 + 128 * i) 8).
Definition entry_lba d (lba i : Z) : Z := le_val (slice d (lba * 512 + 128 * i + 32) 8).

(** The first sectors of the partitions, in the order of the entries. *)
Definition partitions_of d : list Z :=
  let h := header_of d in
  map (entry_lba d (gpt_start_lba h))
    (filter (fun i => entry_guid d (gpt_start_lba h) i <> 0)
       (seqZ 0 (gpt_partition_entries h))).

(** The superblock of a volume at sector [lba], whether it is EXT2, and the file
    system on it. *)
Definition super_at d (lba : Z) : Superblock :=
  super_of (dec super_ws (slice d ((lba + 2) * 512) 84)).
Definition is_ext2 d (lba : Z) : bool := signature (super_at d lba) =? EXT2_SIGNATURE.
Definition volume d (lba : Z) : Ext2Filesystem :=
  let sb := super_at d lba in
  mkExt2 sb (1024 * 2 ^ sb_block_size sb) (cdiv (block_cnt sb) (blocks_per_group sb)) lba.

(** The last EXT2 volume of a list. *)
Definition last_ext2 d (lbas : list Z) : option Z := list.last (filter (fun l => is_ext2 d l = true) lbas).

(** A volume whose superblock lies on the disk and, for EXT2, makes sense. *)
Record volume_ok d (lba : Z) : Prop := {
  vo_lba : 0 <= lba /\ (lba + 2) * 512 + 84 <= capacity d;
  vo_size : is_ext2 d lba = true -> sb_block_size (super_at d lba) < 22;
  vo_group : is_ext2 d lba = true -> 0 < blocks_per_group (super_at d lba);
}.

Definition with_fs s (o : option Ext2Filesystem) : estate D := mkE (e_p s) (e_disk s) o (e_table s).

Lemma super_fields_range d lba : 
  0 <= sb_block_size (super_at d lba) /\ 0 <= block_cnt (super_at d lba) < 2 ^ 32 /\
  blocks_per_group (super_at d lba) < 2 ^ 32.
Proof.
  assert (Forall2 field_ok super_ws (dec super_ws (slice d ((lba + 2) * 512) 84))) as Hf.
  { apply dec_fields. rewrite slice_length by lia. done. }
  unfold super_at. revert Hf. generalize (dec super_ws (slice d ((lba + 2) * 512) 84)). intros l Hf.
  do 25 (apply Forall2_cons_inv_l in Hf as (? & ? & ? & Hf & ->)).
  cbn. unfold field_ok in *. simpl Z.of_nat in *. lia.
Qed.

(** One attempt: [EXT2_FS] becomes the volume when it is EXT2. *)
Lemma try_and_init_run s lba :
  volume_ok (e_disk s) lba -> capacity (e_disk s) < 2 ^ 64 ->
  exists r, ext2.try_and_init lba s =
    (Ret r, if is_ext2 (e_disk s) lba then with_fs s (Some (volume (e_disk s) lba)) else s).
Proof.
  intros [[H0 H1] Hs Hg] Hc. unfold ext2.try_and_init, uadd, umul.
  destruct (super_fields_range (e_disk s) lba) as (Hb0 & Hcnt & Hbg).
  rewrite (bind_run _ _ _ (lba + 2) s) by (apply chk_ok; unfold u64; lia).
  rewrite (bind_run _ _ _ ((lba + 2) * 512) s) by (apply chk_ok; unfold u64; lia).
  unfold SUPER_SIZE. rewrite (bind_run _ _ _ _ _ (read_bytes_eq ((lba + 2) * 512) 84 s ltac:(lia) ltac:(lia) H1)).
  cbv zeta. fold (super_at (e_disk s) lba). fold (is_ext2 (e_disk s) lba).
  destruct (is_ext2 (e_disk s) lba) eqn:He; cbn [negb]; [|by exists None].
  specialize (Hs eq_refl). specialize (Hg eq_refl). exists (Some tt).
  assert (2 ^ sb_block_size (super_at (e_disk s) lba) <= 2 ^ 21) as Hpow by (apply Z.pow_le_mono_r; lia).
  assert (0 < 2 ^ sb_block_size (super_at (e_disk s) lba)) by lia.
  unfold ushl at 1. rewrite fits_true by lia. replace (_ <? 32) with true by lia.
  cbn [andb]. unfold bind at 1, ret at 1. unfold ext2.ext2_new.
  rewrite (bind_run _ _ _ (volume (e_disk s) lba) s).
  - unfold bind, modify, ret. done.
  - unfold ushl, usize. rewrite fits_true by lia. replace (_ <? 64) with true by lia. cbn [andb].
    unfold bind at 1, ret at 1. rewrite Z.shiftl_mul_pow2, Z.mod_small by lia.
    rewrite (bind_run _ _ _ (cdiv (block_cnt (super_at (e_disk s) lba)) (blocks_per_group (super_at (e_disk s) lba))) s)
      by (apply div_ceil_eq; lia). done.
Qed.

(** ** The loop over the entries *)

(** [EXT2_FS] after the volumes [lbas] were tried. *)
Definition fs_after d (o : option Ext2Filesystem) (lbas : list Z) : option Ext2Filesystem :=
  match last_ext2 d lbas with Some lba => Some (volume d lba) | None => o end.

Lemma fs_after_cons d o lba lbas :
  fs_after d o (lba :: lbas) =
  fs_after d (if is_ext2 d lba then Some (volume d lba) else o) lbas.
Proof.
  unfold fs_after, last_ext2. rewrite filter_cons. case_decide as He; rewrite ?He; [|by destruct (is_ext2 d lba)].
  rewrite last_cons. by destruct (list.last _).
Qed.

(** The entries of the array at sector [lba] are in memory at [a]. *)
Definition loaded_at m d (lba a n : Z) : Prop := forall i, 0 <= i < n ->
  rd64 m (a + 128 * i) = entry_guid d lba i /\ rd64 m (a + 128 * i + 32) = entry_lba d lba i.

(** The partitions of [n] entries from [i]. *)
Definition lbas_from d (lba i n : Z) : list Z :=
  map (entry_lba d lba) (filter (fun i => entry_guid d lba i <> 0) (seqZ i n)).

Lemma load_entry s p k :
  0 <= phys_of p -> 0 <= k -> phys_of p + k < 2 ^ 47 ->
  ext2.on_mem (load64 (p + k)) s = (Ret (rd64 (p_mem (e_p s)) (phys_of p + k)), s).
Proof.
  intros Hp Hk Hlt. unfold ext2.on_mem, ext2.on_p, Pmm.on_mem, zoom, load64, gets.
  rewrite phys_of_add by lia. by destruct s as [[] ? ? ?].
Qed.

Lemma try_entries_run lba p N n : forall i s,
  0 <= i -> i + Z.of_nat n <= N -> phys_of p + 128 * N <= 2 ^ 47 ->
  loaded_at (p_mem (e_p s)) (e_disk s) lba (phys_of p) N -> capacity (e_disk s) < 2 ^ 64 ->
  Forall (volume_ok (e_disk s)) (lbas_from (e_disk s) lba i (Z.of_nat n)) ->
  for_loop n i (partitions.try_entry p) s =
    (Ret tt, with_fs s (fs_after (e_disk s) (e_fs s) (lbas_from (e_disk s) lba i (Z.of_nat n)))).
Proof.
  induction n as [|n IH]; intros i s Hi Hn Hp Hl Hc Hv.
  { cbn. unfold ret. by destruct s. }
  pose proof (phys_of_range p) as Hp0. destruct (Hl i ltac:(lia)) as [Hg Hs].
  unfold lbas_from in *. rewrite seqZ_cons in * by lia.
  replace (Z.pred (Z.of_nat (S n))) with (Z.of_nat n) in * by lia.
  replace (Z.succ i) with (i + 1) in * by lia.
  rewrite filter_cons in *. cbn [for_loop].
  rewrite (bind_run _ _ _ tt (if decide (entry_guid (e_disk s) lba i <> 0)
    then with_fs s (fs_after (e_disk s) (e_fs s) [entry_lba (e_disk s) lba i]) else s)).
  - case_decide as Hd.
    + cbn [map] in *. apply list.Forall_cons in Hv as [_ Hv].
      rewrite IH; cbn [with_fs e_p e_disk]; try done; try lia.
      rewrite !fs_after_cons. done.
    + by rewrite IH by (try done; lia).
  - unfold partitions.try_entry. cbv zeta. change GptPartitionEntry.size with 128.
    change GptPartitionEntry.pt_guid with 0. change GptPartitionEntry.start_lba with 32.
    rewrite (bind_run _ _ _ (entry_guid (e_disk s) lba i) s)
      by (rewrite Z.add_0_r, load_entry by lia; by rewrite Hg).
    case_decide as Hd; [|by replace (_ =? 0) with true by lia].
    replace (_ =? 0) with false by lia. cbn [map] in Hv. apply list.Forall_cons in Hv as [Hv _].
    rewrite (bind_run _ _ _ (entry_lba (e_disk s) lba i) s)
      by (rewrite <- Z.add_assoc, load_entry, Z.add_assoc by lia; by rewrite Hs).
    destruct (try_and_init_run s _ Hv Hc) as [r E]. rewrite (bind_run _ _ _ _ _ E).
    unfold ret. rewrite fs_after_cons. unfold fs_after, last_ext2. cbn.
    destruct (is_ext2 _ _); [done|by destruct s].
Qed.

(** ** The whole scan *)

Lemma slice_word m d a off len k n :
  0 <= k -> k + Z.of_nat n <= len ->
  rdn n (wr_bytes m a (slice d off len)) (a + k) = le_val (slice d (off + k) (Z.of_nat n)).
Proof.
  intros Hk Hn. rewrite rdn_rd_bytes. f_equal. apply list_eq. intros i.
  destruct (decide (i < n)%nat) as [Hi|Hi].
  - rewrite lookup_rd_bytes, rd8_wr_bytes, slice_length, decide_True by lia.
    unfold slice. rewrite !list_lookup_fmap.
    rewrite (proj2 (lookup_seqZ (off + k) (Z.of_nat n) i (off + k + Z.of_nat i))) by lia.
    rewrite (proj2 (lookup_seqZ off len _ (off + (k + Z.of_nat i)))) by lia.
    simpl. f_equal. rewrite Z.mod_small by apply content_byte. f_equal. lia.
  - rewrite !lookup_ge_None_2; [done|rewrite slice_length; lia|rewrite rd_bytes_length; lia].
Qed.

(** One byte of the signature is right: that is what the test of [scan] asks
    for. *)
Definition shares_byte (sig : list Z) : Prop :=
  exists i b, sig !! i = Some b /\ EFI_PART !! i = Some b.

Lemma signature_test sig : shares_byte sig ->
  forallb (fun ab => negb (fst ab =? snd ab)) (zip sig EFI_PART) = false.
Proof.
  intros (i & b & H1 & H2). destruct (forallb _ _) eqn:E; [|done].
  rewrite forallb_forall in E. specialize (E (b, b)). cbn in E. rewrite Z.eqb_refl in E.
  symmetry. apply E, list_elem_of_In, list_elem_of_lookup.
  exists i. apply lookup_zip_with_Some. eauto 10.
Qed.

(** What a scan of the disk relies on: a header that passes for a GPT header, its entries
    on the disk, a free run of frames for them at [q], and sound volumes. *)
Record gpt_setting s (bm : Bitmap) (q : Z) : Prop := {
  gs_alloc : p_alloc (e_p s) = Some bm;
  gs_pmm : pmm_inv (p_mem (e_p s)) bm;
  gs_disk : 512 + 92 <= capacity (e_disk s) < 2 ^ 64;
  gs_sig : shares_byte (gpt_signature (header_of (e_disk s)));
  gs_some : 0 < gpt_partition_entries (header_of (e_disk s));
  gs_start : 0 <= gpt_start_lba (header_of (e_disk s));
  gs_array : gpt_start_lba (header_of (e_disk s)) * 512
             + 128 * gpt_partition_entries (header_of (e_disk s)) <= capacity (e_disk s);
  gs_free : first_fit (test (p_mem (e_p s)) bm) (frames bm)
              (cdiv (gpt_partition_entries (header_of (e_disk s)) * 128) PAGE_SIZE) = Some q;
  gs_volumes : Forall (volume_ok (e_disk s)) (partitions_of (e_disk s));
}.

Lemma on_p_run_e {X} (c : M pstate X) s a p' :
  c (e_p s) = (Ret a, p') ->
  ext2.on_p c s = (Ret a, mkE p' (e_disk s) (e_fs s) (e_table s)).
Proof. intros E. unfold ext2.on_p. by rewrite (zoom_ret _ _ _ _ _ _ E). Qed.

Lemma header_entries_range d : gpt_partition_entries (header_of d) < 2 ^ 32.
Proof.
  unfold header_of, gpt_of. cbn [gpt_partition_entries].
  assert (Forall2 field_ok [8; 4; 4; 4]%nat (dec [8; 4; 4; 4]%nat (drop 72 (slice d 512 92)))) as Hf.
  { apply dec_fields. rewrite length_drop, slice_length by lia. simpl. lia. }
  revert Hf. generalize (dec [8; 4; 4; 4]%nat (drop 72 (slice d 512 92))). intros l Hf.
  do 2 (apply Forall2_cons_inv_l in Hf as (? & ? & ? & Hf & ->)).
  cbn. unfold field_ok in *. simpl Z.of_nat in *. lia.
Qed.

Lemma scan_run s bm q :
  gpt_setting s bm q ->
  exists m', partitions.scan s = (Ret (Some tt),
      mkE (mkP m' (Some bm)) (e_disk s)
        (fs_after (e_disk s) (e_fs s) (partitions_of (e_disk s))) (e_table s)) /\
    pmm_inv m' bm /\ (forall f, 0 <= f < frames bm -> test m' bm f = test (p_mem (e_p s)) bm f) /\
    (forall x, kept (p_mem (e_p s)) bm x 1 -> rd8 m' x = rd8 (p_mem (e_p s)) x).
Proof.
  intros [Hal Hpmm [Hd1 Hd2] Hsig Hsome Hst Harr Hfree Hvol].
  pose proof (header_entries_range (e_disk s)) as Hmax.
  set (h := header_of (e_disk s)) in *. set (N := gpt_partition_entries h) in *.
  set (n := cdiv (N * 128) PAGE_SIZE) in *. set (L := gpt_start_lba h) in *.
  pose proof (cdiv_pos (N * 128) PAGE_SIZE ltac:(lia) ltac:(done)) as Hn. fold n in Hn.
  pose proof (cdiv_bounds (N * 128) PAGE_SIZE ltac:(done)) as Hcd. fold n in Hcd.
  destruct (first_fit_bounds _ _ _ _ Hn Hfree) as (Hq & Hle & Hrun & _).
  destruct (box_new (e_p s) bm (N * 128) q Hal Hpmm ltac:(lia) Hfree) as (m1 & Eb & Ht & Hi1).
  pose proof (pi_addr _ _ Hpmm) as Hadd.
  assert (Hph : phys_of (PhysAddr.higher_half (q * PAGE_SIZE)) = q * PAGE_SIZE)
    by (apply phys_higher_half; unfold PAGE_SIZE in *; lia).
  set (ptr := PhysAddr.higher_half (q * PAGE_SIZE)) in *.
  set (bs := slice (e_disk s) (L * 512) (N * 128)).
  set (m2 := wr_bytes m1 (q * PAGE_SIZE) bs).
  assert (Hlen : length bs = Z.to_nat (N * 128)) by (apply slice_length; lia).
  assert (Hoff : agree m1 m2 (bm_base bm) (bm_len bm)).
  { intros x Hx. apply wr_bytes_only. rewrite Hlen. intros Hin.
    apply (run_off_storage (p_mem (e_p s)) bm q n x Hpmm Hq Hle Hrun); unfold PAGE_SIZE in *; lia. }
  destruct (box_drop (p_mem (e_p s)) m1 m2 bm q n Hpmm Hn Hfree Ht Hoff) as (m3 & Ed & Hbits & Honly & Hi3).
  exists m3. split_and!; [|done|done|].
  - unfold partitions.scan. change GPT_HEADER_SIZE with 92.
    rewrite (bind_run _ _ _ (Some (slice (e_disk s) 512 92)) s) by (apply read_bytes_eq; lia).
    cbv zeta. fold (header_of (e_disk s)). fold h. rewrite signature_test by done.
    cbn beta iota. change GptPartitionEntry.size with 128. fold N. fold L. unfold umul.
    rewrite (bind_run _ _ _ (N * 128) s) by (apply chk_ok; unfold usize; lia).
    rewrite (bind_run _ _ _ _ _ (on_p_run_e _ s _ _ Eb)). cbn [pb_data].
    set (s1 := mkE _ _ _ _).
    rewrite (bind_run _ _ _ (L * 512) s1) by (apply chk_ok; unfold u64; lia).
    set (s2 := mkE (mkP m2 (Some bm)) (e_disk s) (e_fs s) (e_table s)).
    rewrite (bind_run _ _ _ (Some tt) s2).
    2:{ rewrite read_to_eq by (unfold s1; cbn [e_disk]; lia). unfold with_mem, mem_of. cbn. by rewrite Hph. }
    set (s3 := with_fs s2 (fs_after (e_disk s) (e_fs s) (partitions_of (e_disk s)))).
    rewrite (bind_run _ _ _ (Some tt) s3).
    2:{ rewrite (bind_run _ _ _ tt s3); [done|]. unfold for_range. rewrite Z.sub_0_r.
        rewrite (try_entries_run L ptr N); cbn [e_p e_disk e_fs p_mem s2]; try lia; try done.
        - unfold s3, partitions_of, lbas_from. fold h N L. by rewrite Z2Nat.id by lia.
        - rewrite Hph. unfold PAGE_SIZE in *. lia.
        - intros i Hi. rewrite Hph. unfold m2, entry_guid, entry_lba.
          split; [|rewrite <- Z.add_assoc]; unfold bs; rewrite slice_word by lia; do 2 f_equal; lia.
        - unfold partitions_of in Hvol. fold h N L in Hvol. unfold lbas_from. by rewrite Z2Nat.id by lia. }
    by rewrite (bind_run _ _ _ _ _ (on_p_run_e _ s3 _ _ Ed)).
  - intros x [Hk1 Hk2 Hk3]. unfold far in Hk3.
    assert (Hout : ~ (q * PAGE_SIZE <= x < (q + n) * PAGE_SIZE)).
    { intros Hin. assert (q <= x / PAGE_SIZE < q + n) as Hdiv.
      { unfold PAGE_SIZE in *. split; [apply Z.div_le_lower_bound|apply Z.div_lt_upper_bound]; lia. }
      pose proof (Hk2 x ltac:(lia) ltac:(lia)) as Hused. by rewrite Hrun in Hused. }
    rewrite Honly by lia. unfold m2. rewrite wr_bytes_only by (rewrite Hlen; unfold PAGE_SIZE in *; lia).
    apply (tk_frame _ _ _ _ _ Ht); [done|lia].
Qed.

(** A header whose signature differs in every byte, and one without entries. *)
Lemma scan_other s :
  512 + 92 <= capacity (e_disk s) ->
  forallb (fun ab => negb (fst ab =? snd ab))
    (zip (gpt_signature (header_of (e_disk s))) EFI_PART) = true ->
  partitions.scan s = (Fault Todo, s).
Proof.
  intros Hc Hf. unfold partitions.scan. change GPT_HEADER_SIZE with 92.
  rewrite (bind_run _ _ _ (Some (slice (e_disk s) 512 92)) s) by (apply read_bytes_eq; lia).
  cbv zeta. fold (header_of (e_disk s)). by rewrite Hf.
Qed.

Lemma scan_empty s bm :
  p_alloc (e_p s) = Some bm -> pmm_inv (p_mem (e_p s)) bm -> 512 + 92 <= capacity (e_disk s) ->
  shares_byte (gpt_signature (header_of (e_disk s))) ->
  gpt_partition_entries (header_of (e_disk s)) = 0 ->
  partitions.scan s = (Fault Expect, s).
Proof.
  intros Hal Hp Hc Hs Hz. unfold partitions.scan. change GPT_HEADER_SIZE with 92.
  rewrite (bind_run _ _ _ (Some (slice (e_disk s) 512 92)) s) by (apply read_bytes_eq; lia).
  cbv zeta. fold (header_of (e_disk s)). rewrite signature_test, Hz by done.
  cbn beta iota. change GptPartitionEntry.size with 128. unfold umul.
  rewrite (bind_run _ _ _ 0 s) by (by apply chk_ok).
  unfold bind at 1, ext2.on_p, zoom, pmmbox.new. unfold bind at 1. rewrite div_ceil_eq by done.
  change (cdiv 0 PAGE_SIZE) with 0.
  unfold bind, pmm.get_calloc, pmm.get, bind, gets, expect, ret, on_mem, zoom.
  destruct s as [[m al] d fs t]. cbn in Hal, Hp |- *. subst al. by rewrite calloc_zero.
Qed.

(** ** Properties *)

(** C29.  [scan] of a disk with a GPT: every partition is tried in the order of the
    entries and [EXT2_FS] becomes the last one whose superblock has the EXT2
    signature (it stays as it was when there is none); the page allocator is as
    before, the disk and all memory in use are unchanged.  One correct byte of
    the signature is enough; a header with none ends in [todo!], and a table
    without entries in a panic. *)
Theorem scan_mounts_last s bm q :
  p_alloc (e_p s) = Some bm -> pmm_inv (p_mem (e_p s)) bm -> 512 + 92 <= capacity (e_disk s) ->
  (gpt_setting s bm q ->
   exists m', partitions.scan s = (Ret (Some tt),
       mkE (mkP m' (Some bm)) (e_disk s)
         match last_ext2 (e_disk s) (partitions_of (e_disk s)) with
         | Some lba => Some (volume (e_disk s) lba)
         | None => e_fs s
         end (e_table s)) /\
     pmm_inv m' bm /\ (forall f, 0 <= f < frames bm -> test m' bm f = test (p_mem (e_p s)) bm f) /\
     forall x, kept (p_mem (e_p s)) bm x 1 -> rd8 m' x = rd8 (p_mem (e_p s)) x) /\
  (~ shares_byte (gpt_signature (header_of (e_disk s))) -> partitions.scan s = (Fault Todo, s)) /\
  (shares_byte (gpt_signature (header_of (e_disk s))) ->
   gpt_partition_entries (header_of (e_disk s)) = 0 -> partitions.scan s = (Fault Expect, s)).
Proof.
  intros Hal Hp Hc. split_and!.
  - apply scan_run.
  - intros Hn. apply scan_other; [done|]. apply forallb_forall. intros [a b] Hin.
    apply list_elem_of_In, list_elem_of_lookup in Hin as [i Hi].
    apply lookup_zip_with_Some in Hi as (x & y & [= -> ->] & H1 & H2).
    cbn. destruct (Z.eqb_spec x y) as [->|]; [|done]. exfalso. apply Hn. by exists i, y.
  - intros Hs Hz. by apply (scan_empty s bm).
Qed.

End gpt.

(** ** Witness: a disk with one EXT2 partition at sector 4 *)

Definition gpt_bytes : mem :=
  let m := wr_bytes ∅ 512 EFI_PART in
  let m := wr_bytes m (512 + 72) (enc [8; 4; 4]%nat [2; 2; 128]) in
  let m := wr64 (wr64 m 1024 5) (1024 + 32) 4 in
  let m := wr32 (wr32 m (3072 + 4) 100) (3072 + 32) 8192 in
  wr16 m (3072 + 56) EXT2_SIGNATURE.

Definition gpt_state : estate ramdisk :=
  mkE (mkP mem_w (Some bm_w)) (mkRam gpt_bytes 8192) None [].

Lemma gpt_state_ok : gpt_setting gpt_state bm_w 2.
Proof.
  assert (Hn : gpt_partition_entries (header_of (e_disk gpt_state)) = 2) by (vm_compute; reflexivity).
  assert (Hl : gpt_start_lba (header_of (e_disk gpt_state)) = 2) by (vm_compute; reflexivity).
  split; rewrite ?Hn, ?Hl; try (cbn; lia).
  - reflexivity.
  - exact mem_w_inv.
  - exists 0%nat, 69. split; vm_compute; reflexivity.
  - vm_compute. reflexivity.
  - replace (partitions_of (e_disk gpt_state)) with [4] by (vm_compute; reflexivity).
    apply list.Forall_cons. split; [|by apply list.Forall_nil]. split.
    + cbn. lia.
    + intros _. vm_compute. reflexivity.
    + intros _. vm_compute. reflexivity.
Qed.

Lemma scan_mounts_last_witness :
  exists s', partitions.scan gpt_state = (Ret (Some tt), s') /\
    e_fs s' = Some (volume (e_disk gpt_state) 4).
Proof.
  destruct (scan_mounts_last gpt_state bm_w 2) as (H & _ & _).
  - reflexivity.
  - exact mem_w_inv.
  - cbn. lia.
  - destruct (H gpt_state_ok) as (m' & E & _). eexists. split; [exact E|].
    cbn [e_fs]. replace (last_ext2 _ _) with (Some 4) by (vm_compute; reflexivity). reflexivity.
Defined.
