(* ===== verification/Io.v ===== *)
(** * [arch/x86_64/io.rs]: ports and device registers

    What the drivers reach outside of memory.  The hardware's state is a type
    [H]; [PortBus] and [MmioBus] say what an access does to it.  An access to a
    device register may also change memory, since devices have DMA.  What the
    drivers rely on is stated with each driver. *)

From S2P Require Import Prelude Memory.

(** An [in] or [out] instruction: width in bits, port, and value. *)
Class PortBus (H : Type) := {
  port_in : Z -> Z -> M H Z;
  port_out : Z -> Z -> Z -> M H unit;
}.

(** A load or store of a device register: width in bits, physical address, and
    value. *)
Class MmioBus (H : Type) := {
  bus_read : Z -> Z -> M (mem * H) Z;
  bus_write : Z -> Z -> Z -> M (mem * H) unit;
}.

Module io.
Section ports.
Context {H : Type} `{!PortBus H}.

Definition outb (port byte : Z) : M H unit := port_out u8 port byte.
Definition outw (port word : Z) : M H unit := port_out u16 port word.
Definition outl (port dword : Z) : M H unit := port_out u32 port dword.

(** The instruction leaves a value of its width in the register. *)
Definition inb (port : Z) : M H Z := let! val := port_in u8 port in ret (as_u u8 val).
Definition inw (port : Z) : M H Z := let! val := port_in u16 port in ret (as_u u16 val).
Definition inl (port : Z) : M H Z := let! val := port_in u32 port in ret (as_u u32 val).

End ports.

(** [Mmio<T>], for a register of [w] bits behind the pointer [p]. *)
Section mmio.
Context {H : Type} `{!MmioBus H}.

Definition get (w p : Z) : M (mem * H) Z :=
  let! v := bus_read w (phys_of p) in ret (as_u w v).
Definition set (w p value : Z) : M (mem * H) unit := bus_write w (phys_of p) value.

End mmio.
End io.

(** ** Sequences of port writes *)

Section outs.
Context {H : Type} `{!PortBus H}.

(** The [outb] of a sequence of pairs of port and byte, one after the other. *)
Fixpoint outs (x : Z * Z) (l : list (Z * Z)) : M H unit :=
  match l with
  | [] => io.outb (fst x) (snd x)
  | y :: l' => do! io.outb (fst x) (snd x) in outs y l'
  end.

(** Chains of a relation along a list. *)
Inductive steps {X} (R : X -> H -> H -> Prop) : list X -> H -> H -> Prop :=
| steps_nil h : steps R [] h h
| steps_cons x l h h1 h' : R x h h1 -> steps R l h1 h' -> steps R (x :: l) h h'.

(** If each write is a step of [R], the sequence is a chain. *)
Lemma outs_steps (ok : Z * Z -> Prop) (R : Z * Z -> H -> H -> Prop) :
  (forall x h, ok x -> exists h', port_out u8 (fst x) (snd x) h = (Ret tt, h') /\ R x h h') ->
  forall l x h, Forall ok (x :: l) -> exists h', outs x l h = (Ret tt, h') /\ steps R (x :: l) h h'.
Proof.
  intros Hstep. induction l as [|y l IH]; intros x h [Hx Hl]%list.Forall_cons;
    destruct (Hstep x h Hx) as (h1 & E & HR).
  - exists h1. split; [exact E|]. econstructor; [exact HR|constructor].
  - destruct (IH y h1 Hl) as (h' & E' & HR'). exists h'. split; [|by econstructor].
    cbn [outs]. unfold io.outb at 1. by rewrite (bind_run _ _ _ _ _ E).
Qed.

End outs.
