(* ===== verification/Pci.v ===== *)
(** * [arch/x86_64/pci.rs]: configuration space and its enumeration

    Configuration space behind the two ports of the PCI host bridge, the
    devices found by probing every function, base addresses, message-signalled
    interrupts.  [pci_config] is the space a client sees; the theorems are
    against [PciBridge], what the PCI specification says of the bridge. *)

From stdpp Require Import sorting.
From S2P Require Import Prelude Memory Io.

Definition CONFIG_ADDR : Z := 0xCF8.
Definition CONFIG_DATA : Z := 0xCFC.
Definition MSI_CAPABILITY_ID : Z := 0x5.

Record PciDevice := mkPci {
  bus : Z;
  device : Z;
  function : Z;
  device_id : Z;
  vendor_id : Z;
  class : Z;
  subclass : Z;
  prog_if : Z;
  revision : Z;
  msi_offset : Z;
}.

#[export] Instance PciDevice_eq_dec : EqDecision PciDevice.
Proof. solve_decision. Defined.

Definition with_msi (d : PciDevice) (o : Z) : PciDevice :=
  mkPci (bus d) (device d) (function d) (device_id d) (vendor_id d) (class d) (subclass d)
        (prog_if d) (revision d) o.

(** The address of a register of a function, as [read] and [write] build it. *)
Definition config_address (bus device function offset : Z) : Z :=
  Z.lor (Z.lor (Z.lor (Z.lor 0x80000000 (Z.shiftl bus 16))
                      (Z.shiftl (Z.land device 0x1f) 11))
               (Z.shiftl (Z.land function 0x7) 8))
        (Z.land offset 0xfc).

Module pci.
Section pci.
Context {H : Type} `{!PortBus H}.

(** The free functions [read] and [write]. *)
Definition read (bus device function offset : Z) : M H Z :=
  do! io.outl CONFIG_ADDR (config_address bus device function offset) in
  io.inl CONFIG_DATA.

Definition write (data bus device function offset : Z) : M H unit :=
  do! io.outl CONFIG_ADDR (config_address bus device function offset) in
  io.outl CONFIG_DATA data.

(** [PciDevice::read] and [write]. *)
Definition dev_read (self : PciDevice) (offset : Z) : M H Z :=
  read (bus self) (device self) (function self) offset.

Definition dev_write (self : PciDevice) (data offset : Z) : M H unit :=
  write data (bus self) (device self) (function self) offset.

Definition has_capabilities (self : PciDevice) : M H bool :=
  let! r := dev_read self 0x4 in
  ret (negb (Z.land (Z.shiftr r 16) (Z.shiftl 1 4) =? 0)).

(** The loop of [PciDevice::new] over the capabilities. *)
Fixpoint find_msi (self : PciDevice) (fuel : nat) (cap_offset : Z) : M H PciDevice :=
  if negb (cap_offset =? 0) then
    match fuel with
    | O => throw OutOfFuel
    | S fuel' =>
        let! capability := dev_read self cap_offset in
        if as_u u8 capability =? MSI_CAPABILITY_ID then ret (with_msi self cap_offset)
        else find_msi self fuel' (as_u u8 (Z.shiftr capability 8))
    end
  else ret self.

(** [PciDevice::new].  A capability offset is a [u8], so a walk of 256 steps has
    visited one twice and never ends. *)
Definition new (bus device function : Z) : M H PciDevice :=
  let! device_vendor := read bus device function 0 in
  let! class := read bus device function 0x8 in
  let device := mkPci bus device function
    (as_u u16 (Z.shiftr device_vendor 16)) (as_u u16 device_vendor)
    (as_u u8 (Z.shiftr class 24)) (as_u u8 (Z.shiftr class 16)) (as_u u8 (Z.shiftr class 8))
    (as_u u8 class) 0 in
  let! caps := has_capabilities device in
  if caps : bool then
    let! r := dev_read device 0x34 in
    find_msi device 256 (as_u u8 r)
  else ret device.

Definition get_bar (self : PciDevice) (bar_num : Z) : M H Z :=
  let! t := umul u8 bar_num 4 in
  let! offset := uadd u8 0x10 t in
  let! bar := dev_read self offset in
  if Z.land bar 1 =? 1 then ret (Z.ldiff bar 3)
  else if Z.land bar 6 =? 4 then
    let! next := uadd u8 offset 4 in
    let! hi := dev_read self next in
    ret (Z.lor (Z.land bar 0xfffffff0) (Z.shiftl hi 32))
  else ret (Z.land bar 0xfffffff0).

Definition bus_master (self : PciDevice) : M H unit :=
  let! command_reg := dev_read self 0x4 in
  dev_write self (Z.lor command_reg 4) 0x4.

Definition enable_mmio (self : PciDevice) : M H unit :=
  let! command_reg := dev_read self 0x4 in
  dev_write self (Z.lor command_reg 2) 0x4.

Definition set_msi (self : PciDevice) (vector : Z) : M H unit :=
  if msi_offset self =? 0 then throw Panicked
  else
    let! r := dev_read self (msi_offset self) in
    let control := Z.land (Z.shiftr r 16) 0xffff in
    let data_reg_offset :=
      if negb (Z.land control (Z.shiftl 1 7) =? 0) then 0xc else 0x8 in
    let msi_address := Z.lor 0xfee00000 (Z.shiftl 1 3) in
    let! data_reg := uadd u8 (msi_offset self) data_reg_offset in
    let! old := dev_read self data_reg in
    let msi_data := Z.lor (Z.land old 0xffff0000) (as_u u32 (Z.land vector 0xff)) in
    let! address_reg := uadd u8 (msi_offset self) 0x4 in
    do! dev_write self msi_address address_reg in
    do! dev_write self msi_data data_reg in
    dev_write self (Z.shiftl (Z.lor control 1) 16) (msi_offset self).

Definition get_header_type (bus device function : Z) : M H Z :=
  let! res := read bus device function 0xc in
  ret (as_u u8 (Z.shiftr res 16)).

(** The body of the three loops of [enumerate_devices]: the device to push. *)
Definition probe (bus device function : Z) : M H (option PciDevice) :=
  let! cnfg := read bus device function 0 in
  if cnfg =? 2 ^ 32 - 1 then ret None
  else let! d := new bus device function in ret (Some d).

(** The first part of [enumerate_devices]: [for bus in 0..=255], [for device in
    0..=31], [for function in 0..=7]. *)
Definition functions : list (Z * Z * Z) :=
  flat_map (fun b => flat_map (fun d => map (fun f => (b, d, f)) (seqZ 0 8)) (seqZ 0 32)) (seqZ 0 256).

Fixpoint scan (fs : list (Z * Z * Z)) (found : list PciDevice) : M H (list PciDevice) :=
  match fs with
  | [] => ret found
  | (b, d, f) :: fs' =>
      let! o := probe b d f in
      scan fs' (match o with Some x => found ++ [x] | None => found end)
  end.

(** The test of the second part: an AHCI controller. *)
Definition is_ahci (dev : PciDevice) : bool :=
  (class dev =? 0x1) && (subclass dev =? 0x6) && (prog_if dev =? 0x1).

End pci.
End pci.

(** ** What the PCI specification says of the bridge

    [CONFIG_ADDR] selects a register, [CONFIG_DATA] is that register; loads have
    no side effects; a store changes registers of the selected function only,
    and bits 1 and 2 of the command register take the value stored. *)

Class PciBridge (H : Type) `{!PortBus H} := {
  pci_config : H -> Z -> Z;
  pci_latch : H -> Z;
  pci_config_range : forall h a, 0 <= pci_config h a < 2 ^ 32;
  pci_select : forall h a, 0 <= a < 2 ^ 32 ->
    total (port_out u32 CONFIG_ADDR a) h (fun _ h' =>
      pci_latch h' = a /\ forall b, pci_config h' b = pci_config h b);
  pci_load : forall h,
    total (port_in u32 CONFIG_DATA) h (fun v h' =>
      v = pci_config h (pci_latch h) /\ pci_latch h' = pci_latch h /\
      forall b, pci_config h' b = pci_config h b);
  pci_store : forall h v, 0 <= v < 2 ^ 32 ->
    total (port_out u32 CONFIG_DATA v) h (fun _ h' =>
      (forall b, b / 256 <> pci_latch h / 256 -> pci_config h' b = pci_config h b) /\
      (pci_latch h mod 256 = 4 -> forall k, k = 1 \/ k = 2 ->
         Z.testbit (pci_config h' (pci_latch h)) k = Z.testbit v k));
}.

(** ** Addresses *)

Lemma land_fc o : 0 <= o < 256 -> Z.land o 0xfc = o / 4 * 4.
Proof.
  intros Ho. assert (forallb (fun o => Z.land o 0xfc =? o / 4 * 4) (seqZ 0 256) = true) as F
    by (vm_compute; reflexivity).
  rewrite forallb_forall in F. apply Z.eqb_eq, F, list_elem_of_In, elem_of_seqZ. lia.
Qed.

Record function_ok (b d f : Z) : Prop := {
  fn_bus : 0 <= b < 256;
  fn_device : 0 <= d < 32;
  fn_function : 0 <= f < 8;
}.

Lemma config_address_eq b d f o :
  function_ok b d f -> 0 <= o < 256 ->
  config_address b d f o = 2 ^ 31 + b * 2 ^ 16 + d * 2 ^ 11 + f * 2 ^ 8 + o / 4 * 4.
Proof.
  intros [Hb Hd Hf] Ho. unfold config_address. rewrite land_fc by done.
  change 0x1f with (2 ^ 5 - 1). change 0x7 with (2 ^ 3 - 1). rewrite !land_ones_mod by lia.
  rewrite (Z.mod_small d), (Z.mod_small f), !Z.shiftl_mul_pow2 by lia.
  pose proof (Z.div_mod o 4). pose proof (Z.mod_pos_bound o 4).
  change 0x80000000 with (2 ^ 7 * 2 ^ 24). rewrite (lor_mul_pow2_small _ (b * 2 ^ 16)) by lia.
  replace (2 ^ 7 * 2 ^ 24 + b * 2 ^ 16) with ((2 ^ 15 + b) * 2 ^ 16) by lia.
  rewrite (lor_mul_pow2_small _ (d * 2 ^ 11)) by lia.
  replace ((2 ^ 15 + b) * 2 ^ 16 + d * 2 ^ 11) with (((2 ^ 15 + b) * 2 ^ 5 + d) * 2 ^ 11) by lia.
  rewrite (lor_mul_pow2_small _ (f * 2 ^ 8)) by lia.
  replace (((2 ^ 15 + b) * 2 ^ 5 + d) * 2 ^ 11 + f * 2 ^ 8)
    with ((((2 ^ 15 + b) * 2 ^ 5 + d) * 2 ^ 3 + f) * 2 ^ 8) by lia.
  rewrite lor_mul_pow2_small by lia. lia.
Qed.

Lemma config_address_range b d f o :
  function_ok b d f -> 0 <= o < 256 -> 0 <= config_address b d f o < 2 ^ 32.
Proof.
  intros Hf Ho. rewrite config_address_eq by done. destruct Hf.
  pose proof (Z.div_mod o 4). pose proof (Z.mod_pos_bound o 4). lia.
Qed.

(** ** Reads through the bridge *)

Section reads.
Context {H : Type} `{!PortBus H, !PciBridge H}.
Implicit Types (h : H) (c : Z -> Z) (dev : PciDevice).

(** The space is [c]. *)
Definition view h c : Prop := forall a, pci_config h a = c a.

(** The registers of one function in [c]. *)
Definition regs c (b d f : Z) : Z -> Z := fun o => c (config_address b d f o).

Lemma view_range h c a : view h c -> 0 <= c a < 2 ^ 32.
Proof. intros Hv. rewrite <- Hv. apply pci_config_range. Qed.

Lemma read_ok h c b d f o (Q : Z -> H -> Prop) E :
  view h c -> function_ok b d f -> 0 <= o < 256 ->
  (forall h', view h' c -> pci_latch h' = config_address b d f o -> Q (regs c b d f o) h') ->
  wp (pci.read b d f o) h Q E.
Proof.
  intros Hv Hf Ho HQ. unfold pci.read, io.outl, io.inl. wp_step.
  eapply wp_total; [apply pci_select, config_address_range; done|]. cbn beta.
  intros [] h1 [Hl Hc]. wp_step. eapply wp_total; [apply pci_load|]. cbn beta.
  intros v h2 (-> & Hl2 & Hc2). wp_step. rewrite Hl.
  assert (view h2 c) as Hv2 by (intros a; rewrite Hc2, Hc; apply Hv).
  rewrite (Hc (config_address b d f o)), Hv. unfold as_u.
  rewrite Z.mod_small by (by eapply view_range). apply HQ; [done|]. by rewrite Hl2.
Qed.

Definition dev_ok dev : Prop := function_ok (bus dev) (device dev) (function dev).
Definition dregs c dev : Z -> Z := regs c (bus dev) (device dev) (function dev).

Lemma dev_read_ok h c dev o (Q : Z -> H -> Prop) E :
  view h c -> dev_ok dev -> 0 <= o < 256 ->
  (forall h', view h' c -> Q (dregs c dev o) h') -> wp (pci.dev_read dev o) h Q E.
Proof. intros Hv Hd Ho HQ. apply (read_ok h c); auto. Qed.

(** A store to the command register, through [bus_master] or [enable_mmio]. *)
Lemma write_ok h b d f v (Q : unit -> H -> Prop) E :
  function_ok b d f -> 0 <= v < 2 ^ 32 ->
  (forall h', (forall k, k = 1 \/ k = 2 ->
       Z.testbit (pci_config h' (config_address b d f 4)) k = Z.testbit v k) ->
     (forall a, a / 256 <> config_address b d f 4 / 256 -> pci_config h' a = pci_config h a) ->
     Q tt h') ->
  wp (pci.write v b d f 0x4) h Q E.
Proof.
  intros Hf Hv HQ. unfold pci.write, io.outl. wp_step.
  eapply wp_total; [apply pci_select, config_address_range; done|]. cbn beta.
  intros [] h1 [Hl Hc]. eapply wp_total; [by apply pci_store|]. cbn beta.
  intros [] h2 [Ho Hk]. rewrite Hl in *. apply HQ.
  - apply Hk. rewrite config_address_eq by (done || lia). destruct Hf.
    replace (2 ^ 31 + b * 2 ^ 16 + d * 2 ^ 11 + f * 2 ^ 8 + 4 / 4 * 4)
      with (4 + (2 ^ 23 + b * 2 ^ 8 + d * 2 ^ 3 + f) * 256) by (change (4 / 4) with 1; lia).
    rewrite Z_mod_plus_full. reflexivity.
  - intros a Ha. by rewrite Ho, Hc.
Qed.

End reads.

(** ** The list of capabilities *)

(** From offset [o], the capabilities [l] lie on the way to the result [r]: the
    offset of the first with the identifier of MSI, or 0. *)
Inductive cap_path (c : Z -> Z) : Z -> list Z -> Z -> Prop :=
| path_end : cap_path c 0 [] 0
| path_msi o : o <> 0 -> c o mod 256 = MSI_CAPABILITY_ID -> cap_path c o [o] o
| path_next o l r : o <> 0 -> c o mod 256 <> MSI_CAPABILITY_ID ->
    cap_path c (c o / 256 mod 256) l r -> cap_path c o (o :: l) r.

(** The same walk as a function, with fuel. *)
Fixpoint walk (c : Z -> Z) (fuel : nat) (o : Z) : option Z :=
  if o =? 0 then Some 0
  else match fuel with
       | O => None
       | S fuel' =>
           if c o mod 256 =? MSI_CAPABILITY_ID then Some o
           else walk c fuel' (c o / 256 mod 256)
       end.

Section walks.
Implicit Types c : Z -> Z.

Lemma cap_path_det c o l r : cap_path c o l r -> forall l' r', cap_path c o l' r' -> l' = l /\ r' = r.
Proof.
  induction 1 as [|o Ho Hm|o l r Ho Hm Hp IH]; intros l' r' H'; inversion H'; subst; try done.
  match goal with Hx : cap_path _ _ _ _ |- _ => destruct (IH _ _ Hx) as [-> ->] end. done.
Qed.

Lemma cap_path_suffix c o l r o' l1 l2 :
  cap_path c o l r -> l = l1 ++ o' :: l2 -> cap_path c o' (o' :: l2) r.
Proof.
  intros Hp. revert l1. induction Hp as [|o Ho Hm|o l r Ho Hm Hp IH]; intros l1 E.
  - by destruct l1.
  - destruct l1 as [|x [|]]; simplify_eq/=. by constructor.
  - destruct l1 as [|x l1]; simplify_eq/=; [by constructor|]. by eapply IH.
Qed.

Lemma cap_path_NoDup c o l r : cap_path c o l r -> NoDup l.
Proof.
  induction 1 as [|o Ho Hm|o l r Ho Hm Hp IH].
  - constructor.
  - apply list.NoDup_singleton.
  - apply list.NoDup_cons. split; [|done]. intros (l1 & l2 & ->)%list_elem_of_split.
    pose proof (cap_path_suffix c _ _ _ o l1 l2 Hp eq_refl) as Hs.
    pose proof (path_next c o _ r Ho Hm Hp) as Hlong.
    destruct (cap_path_det _ _ _ _ Hs _ _ Hlong) as [E _].
    apply (f_equal length) in E. rewrite !length_cons, length_app, length_cons in E. lia.
Qed.

Lemma cap_path_range c o l r : cap_path c o l r -> 0 <= o < 256 -> Forall (fun x => 1 <= x < 256) l.
Proof.
  induction 1 as [|o Ho Hm|o l r Ho Hm Hp IH]; intros Hr; repeat constructor; try lia.
  apply IH, Z.mod_pos_bound. lia.
Qed.

(** Offsets are bytes, so a walk that ends does so within 255 steps. *)
Lemma cap_path_short c o l r : cap_path c o l r -> 0 <= o < 256 -> (length l <= 255)%nat.
Proof.
  intros Hp Hr. pose proof (cap_path_range _ _ _ _ Hp Hr) as Hl.
  change 255%nat with (length (seqZ 1 255)). apply submseteq_length, NoDup_submseteq.
  - by eapply cap_path_NoDup.
  - intros x Hx. apply elem_of_seqZ. apply (proj1 (list.Forall_forall _ _) Hl) in Hx.
    cbn beta in Hx. lia.
Qed.

Lemma walk_path c o l r : cap_path c o l r -> forall n, (length l <= n)%nat -> walk c n o = Some r.
Proof.
  induction 1 as [|o Ho Hm|o l r Ho Hm Hp IH]; intros n Hn; destruct n as [|n]; simpl in *;
    try lia; try done; rewrite (proj2 (Z.eqb_neq o 0)) by done.
  - by rewrite Hm.
  - rewrite (proj2 (Z.eqb_neq _ _)) by done. apply IH. lia.
Qed.

Lemma path_walk c n : forall o r, walk c n o = Some r -> exists l, cap_path c o l r.
Proof.
  induction n as [|n IH]; intros o r; simpl; destruct (Z.eqb_spec o 0) as [->|Ho]; try done.
  - intros [= <-]. exists []. constructor.
  - intros [= <-]. exists []. constructor.
  - destruct (Z.eqb_spec (c o mod 256) MSI_CAPABILITY_ID) as [E|E].
    + intros [= <-]. exists [o]. by constructor.
    + intros Hw. destruct (IH _ _ Hw) as [l Hl]. exists (o :: l). by constructor.
Qed.

End walks.

(** ** The devices of a configuration space *)

(** What [new] stores of a function whose registers are [c]. *)
Definition header (b d f : Z) (c : Z -> Z) : PciDevice :=
  mkPci b d f (c 0 / 2 ^ 16 mod 2 ^ 16) (c 0 mod 2 ^ 16)
        (c 8 / 2 ^ 24 mod 256) (c 8 / 2 ^ 16 mod 256) (c 8 / 2 ^ 8 mod 256) (c 8 mod 256) 0.

(** Bit 4 of the status register: there is a list of capabilities at 0x34. *)
Definition has_list (c : Z -> Z) : bool := Z.testbit (c 4) 20.

Definition present (c : Z -> Z) : bool := negb (c 0 =? 2 ^ 32 - 1).

(** The list of capabilities ends. *)
Definition finite_list (c : Z -> Z) : Prop :=
  has_list c = true -> exists l r, cap_path c (c 0x34 mod 256) l r.

Definition described (b d f : Z) (c : Z -> Z) : PciDevice :=
  if has_list c then with_msi (header b d f c) (default 0 (walk c 256 (c 0x34 mod 256)))
  else header b d f c.

Definition found_at (c : Z -> Z) (x : Z * Z * Z) : option PciDevice :=
  let '(b, d, f) := x in
  let r := regs c b d f in
  if present r then Some (described b d f r) else None.

Lemma functions_ok x : x ∈ pci.functions -> function_ok x.1.1 x.1.2 x.2.
Proof.
  intros Hx. unfold pci.functions in Hx.
  apply list_elem_of_In, in_flat_map in Hx as (b & Hb & Hx).
  apply in_flat_map in Hx as (d & Hd & Hx). apply in_map_iff in Hx as (f & <- & Hf).
  apply list_elem_of_In, elem_of_seqZ in Hb, Hd, Hf. split; simpl; lia.
Qed.

Lemma functions_elem b d f : function_ok b d f -> (b, d, f) ∈ pci.functions.
Proof.
  intros [Hb Hd Hf]. apply list_elem_of_In, in_flat_map. exists b.
  split; [apply list_elem_of_In, elem_of_seqZ; lia|]. apply in_flat_map. exists d.
  split; [apply list_elem_of_In, elem_of_seqZ; lia|]. apply in_map_iff. exists f.
  split; [done|]. apply list_elem_of_In, elem_of_seqZ. lia.
Qed.

(** Strictly increasing lists, through [flat_map], [map] and [omap]. *)
Lemma sorted_flat_map {A B} (R : A -> A -> Prop) (S : B -> B -> Prop) (g : A -> list B) l :
  StronglySorted R l -> (forall a, a ∈ l -> StronglySorted S (g a)) ->
  (forall a a' x y, R a a' -> x ∈ g a -> y ∈ g a' -> S x y) -> StronglySorted S (flat_map g l).
Proof.
  intros Hl Hg HR. induction Hl as [|a l Hl IH Ha]; simpl; [constructor|].
  apply StronglySorted_app_2; [|apply Hg; left|apply IH; intros; apply Hg; by right].
  intros x y Hx Hy. apply list_elem_of_In, in_flat_map in Hy as (a' & Ha' & Hy).
  apply list_elem_of_In in Ha', Hy. rewrite list.Forall_forall in Ha. eauto.
Qed.

Lemma sorted_omap {A B} (R : A -> A -> Prop) (S : B -> B -> Prop) (g : A -> option B) l :
  StronglySorted R l -> (forall a a' x y, R a a' -> g a = Some x -> g a' = Some y -> S x y) ->
  StronglySorted S (omap g l).
Proof.
  intros Hl HR. induction Hl as [|a l Hl IH Ha]; cbn [omap list_omap]; [constructor|].
  destruct (g a) as [x|] eqn:Ex; [|done]. constructor; [done|]. apply list.Forall_forall.
  intros y Hy. apply list_elem_of_omap in Hy as (a' & Ha' & Ey).
  rewrite list.Forall_forall in Ha. eauto.
Qed.

Lemma seqZ_sorted n : forall m, StronglySorted Z.lt (seqZ m (Z.of_nat n)).
Proof.
  induction n as [|n IH]; intros m; [constructor|].
  rewrite seqZ_cons by lia. replace (Z.pred (Z.of_nat (S n))) with (Z.of_nat n) by lia.
  constructor; [apply IH|]. apply list.Forall_forall. intros x Hx. apply elem_of_seqZ in Hx. lia.
Qed.

(** The order of the three loops. *)
Definition bdf_lt (x y : Z * Z * Z) : Prop :=
  x.1.1 < y.1.1 \/ (x.1.1 = y.1.1 /\ (x.1.2 < y.1.2 \/ (x.1.2 = y.1.2 /\ x.2 < y.2))).

Lemma functions_sorted : StronglySorted bdf_lt pci.functions.
Proof.
  unfold pci.functions. apply (sorted_flat_map Z.lt); [apply (seqZ_sorted 256)| |].
  - intros b _. apply (sorted_flat_map Z.lt); [apply (seqZ_sorted 32)| |].
    + intros d _. change (map ?g) with (fmap (M := list) g).
      eapply StronglySorted_fmap; [|apply (seqZ_sorted 8)].
      intros f f' Hlt. unfold bdf_lt. simpl. lia.
    + intros d d' x y Hlt Hx Hy. apply list_elem_of_fmap in Hx as (f & -> & _).
      apply list_elem_of_fmap in Hy as (f' & -> & _). unfold bdf_lt. simpl. lia.
  - intros b b' x y Hlt Hx Hy. unfold bdf_lt. left.
    apply list_elem_of_In, in_flat_map in Hx as (d & _ & Hx). apply in_map_iff in Hx as (f & <- & _).
    apply list_elem_of_In, in_flat_map in Hy as (d' & _ & Hy). apply in_map_iff in Hy as (f' & <- & _).
    done.
Qed.

(** What the list is to hold of the function at [dev]: the identification its
    registers give, and the first MSI capability of its list, or 0. *)
Definition identified (c : Z -> Z) (dev : PciDevice) : Prop :=
  let r := regs c (bus dev) (device dev) (function dev) in
  dev = with_msi (header (bus dev) (device dev) (function dev) r) (msi_offset dev) /\
  (if has_list r then exists l, cap_path r (r 0x34 mod 256) l (msi_offset dev)
   else msi_offset dev = 0).

Definition bdf (dev : PciDevice) : Z * Z * Z := (bus dev, device dev, function dev).

Lemma found_at_bdf c x dev : found_at c x = Some dev -> bdf dev = x.
Proof.
  destruct x as [[b d] f]. unfold found_at, described.
  generalize (default 0 (walk (regs c b d f) 256 (regs c b d f 0x34 mod 256))). intros o.
  destruct (present _); intros Hs; [|done]. apply (inj Some) in Hs as <-.
  destruct (has_list _); reflexivity.
Qed.

Lemma found_at_iff c dev :
  finite_list (regs c (bus dev) (device dev) (function dev)) ->
  found_at c (bdf dev) = Some dev <->
  present (regs c (bus dev) (device dev) (function dev)) = true /\ identified c dev.
Proof.
  intros Hfin. unfold found_at, bdf, identified, described.
  set (r := regs c _ _ _) in *. unfold finite_list in Hfin.
  destruct (present r); [|naive_solver]. destruct (has_list r).
  - destruct (Hfin eq_refl) as (l & o & Hp).
    assert (Ew : walk r 256 (r 0x34 mod 256) = Some o).
    { apply (walk_path _ _ _ _ Hp). pose proof (cap_path_short _ _ _ _ Hp (Z.mod_pos_bound _ 256 ltac:(lia))). lia. }
    rewrite Ew. simpl default. split.
    + intros [= E]. split; [done|]. rewrite <- E. simpl. eauto 10.
    + intros (_ & -> & l' & Hp'). f_equal. simpl in Hp'. f_equal. by destruct (cap_path_det _ _ _ _ Hp _ _ Hp') as [_ ->].
  - split.
    + intros [= E]. split; [done|]. rewrite <- E. done.
    + intros (_ & -> & Ho). simpl in Ho. by rewrite Ho.
Qed.

Section devices.
Context {H : Type} `{!PortBus H, !PciBridge H}.
Implicit Types (h : H) (c : Z -> Z) (dev : PciDevice).

Lemma byte_shift v k : 0 <= k -> as_u u8 (Z.shiftr v k) = v / 2 ^ k mod 256.
Proof. intros. unfold as_u, u8. by rewrite Z.shiftr_div_pow2. Qed.

Lemma byte_range v : 0 <= v mod 256 < 256.
Proof. apply Z.mod_pos_bound. lia. Qed.

Lemma find_msi_ok c n : forall o r h dev,
  view h c -> dev_ok dev -> 0 <= o < 256 -> msi_offset dev = 0 ->
  walk (dregs c dev) n o = Some r ->
  total (pci.find_msi dev n o) h (fun d h' => d = with_msi dev r /\ view h' c).
Proof.
  induction n as [|n IH]; intros o r h dev Hv Hd Ho Hm; simpl;
    destruct (Z.eqb_spec o 0) as [->|Hne]; simpl; try done.
  - intros [= <-]. split; [|done]. destruct dev. simpl in Hm. by subst.
  - intros [= <-]. split; [|done]. destruct dev. simpl in Hm. by subst.
  - intros Hw. wp_step. eapply (dev_read_ok h c); [done|done|done|]. intros h1 Hv1.
    rewrite byte_shift by lia. change (as_u u8 (dregs c dev o)) with (dregs c dev o mod 256).
    change (2 ^ 8) with 256 in *. destruct (dregs c dev o mod 256 =? MSI_CAPABILITY_ID).
    + injection Hw as <-. by apply wp_ret.
    + apply IH; [done|done|apply byte_range|done|done].
Qed.

Lemma find_msi_stuck c n : forall o h dev,
  view h c -> dev_ok dev -> 0 <= o < 256 -> (forall l r, ~ cap_path (dregs c dev) o l r) ->
  wp (pci.find_msi dev n o) h (fun _ _ => False) (fun f _ => f = OutOfFuel).
Proof.
  induction n as [|n IH]; intros o h dev Hv Hd Ho Hno; simpl.
  all: destruct (Z.eqb_spec o 0) as [->|Hne]; [exfalso; eapply Hno; constructor|simpl; try done].
  wp_step. eapply (dev_read_ok h c); [done|done|done|]. intros h1 Hv1.
  rewrite byte_shift by lia. change (as_u u8 (dregs c dev o)) with (dregs c dev o mod 256).
  change (2 ^ 8) with 256. destruct (Z.eqb_spec (dregs c dev o mod 256) MSI_CAPABILITY_ID) as [E|E].
  - exfalso. eapply Hno. by apply path_msi.
  - apply IH; [done|done|apply byte_range|]. intros l r Hp. eapply Hno. by apply path_next.
Qed.

Lemma has_list_bit v : negb (Z.land (Z.shiftr v 16) (Z.shiftl 1 4) =? 0) = Z.testbit v 20.
Proof. rewrite land_bit_testbit by lia. by rewrite Z.shiftr_spec by lia. Qed.

Lemma new_ok h c b d f : view h c -> function_ok b d f -> finite_list (regs c b d f) ->
  total (pci.new b d f) h (fun x h' => x = described b d f (regs c b d f) /\ view h' c).
Proof.
  intros Hv Hf Hfin. unfold pci.new, pci.has_capabilities.
  wp_step. eapply (read_ok h c); [done|done|lia|]. intros h1 Hv1 _.
  wp_step. eapply (read_ok h1 c); [done|done|lia|]. intros h2 Hv2 _.
  set (r := regs c b d f) in *. rewrite !byte_shift by lia.
  replace (as_u u16 (Z.shiftr (r 0) 16)) with (r 0 / 2 ^ 16 mod 2 ^ 16)
    by (unfold as_u, u16; by rewrite Z.shiftr_div_pow2 by lia).
  change (mkPci b d f _ _ _ _ _ _ _) with (header b d f r).
  wp_step. wp_step. eapply (dev_read_ok h2 c); [done|done|lia|]. intros h3 Hv3.
  wp_step. rewrite has_list_bit. change (dregs c (header b d f r) 4) with (r 4). fold (has_list r).
  unfold described. destruct (has_list r) eqn:Hl; [|by apply wp_ret].
  wp_step. eapply (dev_read_ok h3 c); [done|done|lia|]. intros h4 Hv4.
  change (as_u u8 (dregs c (header b d f r) 0x34)) with (r 0x34 mod 256).
  destruct (Hfin Hl) as (l & x & Hp). pose proof (cap_path_short _ _ _ _ Hp (byte_range _)) as Hs.
  pose proof (walk_path _ _ _ _ Hp 256 ltac:(lia)) as Hw. rewrite Hw.
  apply find_msi_ok; [done|done|apply byte_range|done|exact Hw].
Qed.

Lemma scan_ok c fs : forall found h, view h c ->
  (forall b d f, (b, d, f) ∈ fs -> function_ok b d f) ->
  (forall b d f, (b, d, f) ∈ fs -> present (regs c b d f) = true -> finite_list (regs c b d f)) ->
  total (pci.scan fs found) h (fun ds h' => ds = found ++ omap (found_at c) fs /\ view h' c).
Proof.
  induction fs as [|[[b d] f] fs IH]; intros found h Hv Hok Hfin; cbn [pci.scan].
  { apply wp_ret. by rewrite app_nil_r. }
  assert (Hf : function_ok b d f) by (apply Hok; left).
  unfold pci.probe. wp_step. wp_step. eapply (read_ok h c); [done|done|lia|]. intros h1 Hv1 _.
  specialize (Hfin b d f) as Hfin1. cbn [omap list_omap found_at]. unfold present in *.
  assert (Hrest : forall found' h', view h' c ->
    total (pci.scan fs found') h' (fun ds h'' => ds = found' ++ omap (found_at c) fs /\ view h'' c)).
  { intros found' h' Hv'. apply IH; [done|intros; apply Hok; by right|].
    intros b' d' f' Hin. apply Hfin. by right. }
  destruct (regs c b d f 0 =? 2 ^ 32 - 1); simpl negb; [by apply Hrest|].
  wp_step. eapply wp_total; [apply new_ok; [done|done|apply Hfin1; [by left|done]]|].
  intros x h2 [-> Hv2]. wp_step. eapply wp_mono; [by apply Hrest| |done].
  intros ds h3 [-> Hv3]. by rewrite <- app_assoc.
Qed.

End devices.

(** ** Base addresses *)

(** The registers at [o] of a base address register for [base]: I/O space, 32-bit
    memory, 64-bit memory; [p] is the prefetchable bit. *)
Inductive bar_encodes (c : Z -> Z) (o : Z) : Z -> Prop :=
| bar_io base : base mod 4 = 0 -> c o = base + 1 -> bar_encodes c o base
| bar_mem32 base (p : bool) :
    base mod 16 = 0 -> c o = base + 8 * Z.b2z p -> bar_encodes c o base
| bar_mem64 base (p : bool) :
    base mod 16 = 0 -> c o = base mod 2 ^ 32 + 8 * Z.b2z p + 4 -> c (o + 4) = base / 2 ^ 32 ->
    bar_encodes c o base.

Lemma land_low x k n : 0 <= n -> 0 <= k < 2 ^ n -> Z.land x k = Z.land (x mod 2 ^ n) k.
Proof.
  intros Hn Hk. rewrite <- Z.land_ones, <- Z.land_assoc by lia. f_equal.
  by rewrite Z.land_comm, Z.land_ones, Z.mod_small by lia.
Qed.

Lemma clear_low x n : 0 <= n -> Z.ldiff x (2 ^ n - 1) = x - x mod 2 ^ n.
Proof.
  intros Hn. replace (2 ^ n - 1) with (Z.ones n) by (rewrite Z.ones_equiv; lia).
  rewrite Z.ldiff_ones_r, Z.shiftl_mul_pow2, Z.shiftr_div_pow2 by lia.
  pose proof (Z.div_mod x (2 ^ n)). pose proof (Z.pow_pos_nonneg 2 n). lia.
Qed.

Lemma mask_base x : 0 <= x < 2 ^ 32 -> Z.land x 0xfffffff0 = x - x mod 16.
Proof.
  intros Hx. change 16 with (2 ^ 4). rewrite <- clear_low by lia. apply Z.bits_inj'. intros i Hi.
  rewrite Z.land_spec, Z.ldiff_spec. change (2 ^ 4 - 1) with (Z.ones 4).
  change 0xfffffff0 with (Z.shiftl (Z.ones 28) 4). rewrite Z.shiftl_spec by lia.
  destruct (decide (i < 4)).
  - rewrite (Z.testbit_neg_r (Z.ones 28)), (Z.ones_spec_low 4) by lia. by rewrite !andb_false_r.
  - rewrite (Z.ones_spec_high 4) by lia. destruct (decide (i < 32)).
    + by rewrite Z.ones_spec_low by lia.
    + by rewrite (testbit_above x 32) by lia.
Qed.

Section bars.
Context {H : Type} `{!PortBus H, !PciBridge H}.
Implicit Types (h : H) (c : Z -> Z) (dev : PciDevice).

Lemma get_bar_ok h c dev n base : view h c -> dev_ok dev -> 0 <= n <= 5 ->
  bar_encodes (dregs c dev) (0x10 + 4 * n) base ->
  total (pci.get_bar dev n) h (fun a h' => a = base /\ view h' c).
Proof.
  intros Hv Hd Hn Hb. unfold pci.get_bar. wp_step. apply wp_umul; [unfold u8; lia|].
  wp_step. apply wp_uadd; [unfold u8; lia|]. wp_step.
  eapply (dev_read_ok h c); [done|done|lia|]. intros h1 Hv1.
  pose proof (view_range h c (config_address (bus dev) (device dev) (function dev) (0x10 + 4 * n)) Hv) as Hr.
  fold (dregs c dev (0x10 + 4 * n)) in Hr.
  replace (16 + n * 4) with (0x10 + 4 * n) by lia. set (v := dregs c dev (0x10 + 4 * n)) in *.
  assert (H1 : Z.land v 1 = v mod 2) by (change 1 with (2 ^ 1 - 1) at 1; apply (land_ones_mod v 1); lia).
  assert (H6 : Z.land v 6 = Z.land (v mod 8) 6) by (apply (land_low v 6 3); lia).
  rewrite H1, H6. destruct Hb as [base Ha E|base p Ha E|base p Ha E E'].
  - fold v in E. pose proof (Z.div_mod base 4). replace (v mod 2) with 1.
    2:{ apply (Z.mod_unique_pos _ _ (2 * (base / 4))); lia. }
    simpl. apply wp_ret. split; [|done]. change 3 with (2 ^ 2 - 1). rewrite clear_low by lia.
    replace (v mod 2 ^ 2) with 1; [lia|]. apply (Z.mod_unique_pos _ _ (base / 4)); lia.
  - fold v in E. pose proof (Z.div_mod base 16). replace (v mod 2) with 0.
    2:{ apply (Z.mod_unique_pos _ _ (8 * (base / 16) + 4 * Z.b2z p)); destruct p; simpl Z.b2z in *; lia. }
    replace (v mod 8) with 0.
    2:{ apply (Z.mod_unique_pos _ _ (2 * (base / 16) + Z.b2z p)); destruct p; simpl Z.b2z in *; lia. }
    simpl. apply wp_ret. split; [|done]. rewrite mask_base by done.
    replace (v mod 16) with (8 * Z.b2z p); [lia|].
    apply (Z.mod_unique_pos _ _ (base / 16)); destruct p; simpl Z.b2z in *; lia.
  - fold v in E. set (lo := base mod 2 ^ 32) in *.
    assert (Hlo : lo mod 16 = 0).
    { unfold lo. rewrite Z.mod_mod_divide by (by exists (2 ^ 28)). done. }
    pose proof (Z.div_mod lo 16). replace (v mod 2) with 0.
    2:{ apply (Z.mod_unique_pos _ _ (8 * (lo / 16) + 4 * Z.b2z p + 2)); destruct p; simpl Z.b2z in *; lia. }
    replace (v mod 8) with 4.
    2:{ apply (Z.mod_unique_pos _ _ (2 * (lo / 16) + Z.b2z p)); destruct p; simpl Z.b2z in *; lia. }
    simpl. wp_step. apply wp_uadd; [unfold u8; lia|]. wp_step.
    eapply (dev_read_ok h1 c); [done|done|lia|]. intros h2 Hv2. apply wp_ret. split; [|done].
    rewrite E', mask_base by done. rewrite Z.shiftl_mul_pow2 by lia.
    replace (v mod 16) with (8 * Z.b2z p + 4).
    2:{ apply (Z.mod_unique_pos _ _ (lo / 16)); destruct p; simpl Z.b2z in *; lia. }
    replace (v - (8 * Z.b2z p + 4)) with lo by lia.
    rewrite Z.lor_comm, lor_mul_pow2_small; [|lia|apply Z.mod_pos_bound; lia].
    unfold lo. pose proof (Z.div_mod base (2 ^ 32)). lia.
Qed.

(** [bus_master] and [enable_mmio], as the AHCI driver calls them. *)
Lemma enable_ok h c dev (Q : unit -> H -> Prop) E : view h c -> dev_ok dev ->
  (forall h' c', view h' c' -> Z.testbit (dregs c' dev 4) 1 = true ->
     Z.testbit (dregs c' dev 4) 2 = true ->
     (forall a, a / 256 <> config_address (bus dev) (device dev) (function dev) 4 / 256 -> c' a = c a) ->
     Q tt h') ->
  wp (do! pci.bus_master dev in pci.enable_mmio dev) h Q E.
Proof.
  intros Hv Hd HQ. unfold pci.bus_master, pci.enable_mmio. wp_step. wp_step.
  eapply (dev_read_ok h c); [done|done|lia|]. intros h1 Hv1.
  pose proof (view_range h c (config_address (bus dev) (device dev) (function dev) 4) Hv) as Hr.
  eapply write_ok; [exact Hd|apply lor_range; [exact Hr|lia|lia]|].
  intros h2 Hk Ho. wp_step. eapply (dev_read_ok h2 (pci_config h2)); [done|done|lia|].
  intros h3 Hv3. eapply write_ok; [exact Hd|apply lor_range; [apply pci_config_range|lia|lia]|].
  intros h4 Hk4 Ho4. apply (HQ h4 (pci_config h4)); [done| | |].
  - unfold dregs, regs. rewrite Hk4, Z.lor_spec by lia. apply orb_true_r.
  - unfold dregs, regs. rewrite Hk4, Z.lor_spec by lia. rewrite Hk, Z.lor_spec by lia.
    by rewrite orb_true_r.
  - intros a Ha. rewrite Ho4, Hv3, Ho, Hv1 by done. done.
Qed.

End bars.

(** ** A bridge in a map *)

Record pcisim := mkPciSim { sim_latch : Z; sim_regs : gmap Z Z }.

Definition sim_config (h : pcisim) (a : Z) : Z :=
  default (2 ^ 32 - 1) (sim_regs h !! a) mod 2 ^ 32.

#[export] Instance pcisim_ports : PortBus pcisim := {
  port_in w p := fun h =>
    (Ret (if p =? CONFIG_DATA then sim_config h (sim_latch h) else 0), h);
  port_out w p v := fun h =>
    (Ret tt,
     if p =? CONFIG_ADDR then mkPciSim v (sim_regs h)
     else if p =? CONFIG_DATA then mkPciSim (sim_latch h) (<[sim_latch h := v]> (sim_regs h))
     else h);
}.

#[export] Instance pcisim_bridge : PciBridge pcisim.
Proof.
  refine {| pci_config := sim_config; pci_latch := sim_latch |}.
  - intros h a. apply Z.mod_pos_bound. lia.
  - intros h a Ha. split; [done|]. done.
  - intros h. split; [done|]. done.
  - intros h v Hv. unfold wp, sim_config. simpl. split.
    + intros b Hb. by rewrite lookup_insert_ne by congruence.
    + intros _ k Hk. by rewrite lookup_insert_eq, Z.mod_small by done.
Defined.

(** Function 0:3.0 is an AHCI controller with one capability before its MSI
    capability at 0x80, and a 64-bit base address. *)
Definition demo_regs : gmap Z Z :=
  list_to_map (map (fun '(o, v) => (config_address 0 3 0 o, v))
    [(0, 0x29228086); (4, 0x00100006); (8, 0x01060102); (0x10, 0xc001);
     (0x24, 0xfebf100c); (0x28, 0x12); (0x34, 0x70); (0x70, 0x8001); (0x80, 0x00800005)]).
Definition demo_bus : pcisim := mkPciSim 0 demo_regs.
Definition demo_dev : PciDevice := mkPci 0 3 0 0x2922 0x8086 1 6 1 2 0x80.

(** ** Properties *)

Section claims.
Context {H : Type} `{!PortBus H, !PciBridge H}.
Implicit Types (h : H) (c : Z -> Z) (dev : PciDevice).

(** C35.  Register addresses: in range, and two of them are equal exactly when they
    name the same 32-bit register of the same function. *)
Theorem config_address_injective b d f o b' d' f' o' :
  function_ok b d f -> function_ok b' d' f' -> 0 <= o < 256 -> 0 <= o' < 256 ->
  0 <= config_address b d f o < 2 ^ 32 /\
  (config_address b d f o = config_address b' d' f' o' <->
   b = b' /\ d = d' /\ f = f' /\ o / 4 = o' / 4).
Proof.
  intros Hf Hf' Ho Ho'. split; [by apply config_address_range|].
  rewrite !config_address_eq by done. destruct Hf, Hf'.
  pose proof (Z.div_mod o 4). pose proof (Z.mod_pos_bound o 4).
  pose proof (Z.div_mod o' 4). pose proof (Z.mod_pos_bound o' 4).
  split; [intros E; repeat split; lia|]. intros (-> & -> & -> & E). lia.
Qed.

(** C27.  The capability walk of [PciDevice::new]: either the list ends, and the walk
    returns the offset of the first MSI capability on it, or 0; or the list is
    endless, and so is the loop, whatever its bound. *)
Theorem msi_walk h c dev o :
  view h c -> dev_ok dev -> msi_offset dev = 0 -> 0 <= o < 256 ->
  (exists l r, cap_path (dregs c dev) o l r /\
     total (pci.find_msi dev 256 o) h (fun d h' => d = with_msi dev r /\ view h' c)) \/
  ((forall l r, ~ cap_path (dregs c dev) o l r) /\
   forall fuel, wp (pci.find_msi dev fuel o) h (fun _ _ => False) (fun f _ => f = OutOfFuel)).
Proof.
  intros Hv Hd Hm Ho. destruct (walk (dregs c dev) 256 o) as [r|] eqn:Hw.
  - left. destruct (path_walk _ _ _ _ Hw) as [l Hp]. exists l, r. split; [done|].
    by apply find_msi_ok.
  - right. assert (Hno : forall l r, ~ cap_path (dregs c dev) o l r).
    { intros l r Hp. pose proof (cap_path_short _ _ _ _ Hp Ho).
      by rewrite (walk_path _ _ _ _ Hp 256) in Hw by lia. }
    split; [done|]. intros fuel. by apply (find_msi_stuck c).
Qed.

(** C33.  Enumeration is complete: a device is in the list exactly when some function
    of some device (0 to 31, 0 to 7) of some bus (0 to 255) answers there; it is
    recorded with that function's identifiers and class and with the first MSI
    capability of its list (0 without one).  The list is strictly increasing by
    bus, device and function, so no function is in it twice, and the
    configuration space is only read. *)
Theorem enumeration_complete h c found :
  view h c ->
  (forall b d f, 0 <= b < 256 -> 0 <= d < 32 -> 0 <= f < 8 ->
     present (regs c b d f) = true -> finite_list (regs c b d f)) ->
  total (pci.scan pci.functions found) h (fun ds h' =>
    exists new, ds = found ++ new /\ view h' c /\
    StronglySorted (fun x y => bdf_lt (bdf x) (bdf y)) new /\
    forall dev, dev ∈ new <->
      0 <= bus dev < 256 /\ 0 <= device dev < 32 /\ 0 <= function dev < 8 /\
      present (regs c (bus dev) (device dev) (function dev)) = true /\ identified c dev).
Proof.
  intros Hv Hfin. eapply wp_mono; [apply scan_ok; [done| |] | |done].
  - intros b d f Hin. by apply functions_ok in Hin.
  - intros b d f Hin. apply functions_ok in Hin as []. by apply Hfin.
  - intros ds h' [-> Hv']. eexists. split_and!; [done|done|..].
    + apply (sorted_omap bdf_lt); [apply functions_sorted|].
      intros x y dx dy Hxy Hx Hy. by rewrite (found_at_bdf _ _ _ Hx), (found_at_bdf _ _ _ Hy).
    + intros dev. rewrite list_elem_of_omap. split.
      * intros (x & Hx & E). pose proof (found_at_bdf _ _ _ E) as <-.
        apply functions_ok in Hx as [Hb Hd Hf]. simpl in *.
        assert (Hp : present (regs c (bus dev) (device dev) (function dev)) = true).
        { unfold found_at, bdf in E. by destruct (present _). }
        split_and!; try lia; [done|]. apply found_at_iff in E; [naive_solver|]. by apply Hfin.
      * intros (Hb & Hd & Hf & Hp & Hi). exists (bdf dev).
        split; [by apply functions_elem|]. apply found_at_iff; [by apply Hfin|done].
Qed.

(** C34.  Round trip: [get_bar] decodes what the specification encodes in a base
    address register, for I/O space, 32-bit and 64-bit memory. *)
Theorem get_bar_decodes h c dev n base :
  view h c -> dev_ok dev -> 0 <= n <= 5 -> bar_encodes (dregs c dev) (0x10 + 4 * n) base ->
  total (pci.get_bar dev n) h (fun a h' => a = base /\ view h' c).
Proof. apply get_bar_ok. Qed.

End claims.

(** ** Witnesses *)

Lemma demo_dev_ok : dev_ok demo_dev.
Proof. split; simpl; lia. Qed.

Lemma config_address_injective_witness :
  0 <= config_address 0 3 0 0x25 < 2 ^ 32 /\
  (config_address 0 3 0 0x25 = config_address 0 3 0 0x27 <-> 0 = 0 /\ 3 = 3 /\ 0 = 0 /\ 0x25 / 4 = 0x27 / 4).
Proof.
  apply (config_address_injective 0 3 0 0x25 0 3 0 0x27); [apply demo_dev_ok|apply demo_dev_ok|lia|lia].
Defined.

Lemma msi_walk_witness :
  total (pci.find_msi (with_msi demo_dev 0) 256 0x70) demo_bus (fun d _ => msi_offset d = 0x80).
Proof.
  destruct (msi_walk demo_bus (pci_config demo_bus) (with_msi demo_dev 0) 0x70)
    as [(l & r & Hp & Ht)|[Hno _]]; [done|exact demo_dev_ok|done|lia| |].
  - assert (r = 0x80) as ->.
    { pose proof (walk_path _ _ _ _ Hp 256) as Hw.
      pose proof (cap_path_short _ _ _ _ Hp ltac:(lia)). specialize (Hw ltac:(lia)).
      vm_compute in Hw. congruence. }
    eapply wp_mono; [exact Ht| |done]. intros d h' [-> _]. reflexivity.
  - exfalso. eapply (Hno [0x70; 0x80] 0x80).
    apply path_next; [lia|vm_compute; congruence|].
    apply path_msi; [vm_compute; congruence|vm_compute; reflexivity].
Defined.

(** Only one function of the bus answers. *)
Lemma demo_present b d f :
  function_ok b d f -> present (regs (sim_config demo_bus) b d f) = true -> (b, d, f) = (0, 3, 0).
Proof.
  intros Hf Hp. unfold present, regs, sim_config in Hp.
  destruct (sim_regs demo_bus !! config_address b d f 0) as [v|] eqn:E; [|done].
  apply elem_of_list_to_map_2, list_elem_of_In in E.
  rewrite config_address_eq in E by (done || lia). destruct Hf as [H1 H2 H3].
  change (0 / 4 * 4) with 0 in E. vm_compute map in E. cbn [In] in E.
  assert (b = 0 /\ d = 3 /\ f = 0) as (-> & -> & ->); [|done].
  repeat destruct E as [E|E]; try (injection E as E _; lia). done.
Qed.

Lemma demo_list : finite_list (regs (sim_config demo_bus) 0 3 0).
Proof.
  intros _. exists [0x70; 0x80], 0x80. apply path_next; [vm_compute; congruence..|].
  apply path_msi; [vm_compute; congruence|vm_compute; reflexivity].
Qed.

Lemma enumeration_complete_witness :
  total (pci.scan pci.functions []) demo_bus (fun ds _ => demo_dev ∈ ds).
Proof.
  refine (wp_total _ _ _ _ _ (enumeration_complete demo_bus (sim_config demo_bus) [] _ _) _).
  - intros a. reflexivity.
  - intros b d f Hb Hd Hf Hp.
    pose proof (demo_present b d f (Build_function_ok _ _ _ Hb Hd Hf) Hp) as [= -> -> ->]. exact demo_list.
  - intros ds h' (new & -> & _ & _ & Hnew). apply Hnew. split_and!; simpl; try lia.
    + vm_compute. reflexivity.
    + split; [vm_compute; reflexivity|]. exists [0x70; 0x80].
      apply path_next; [vm_compute; congruence..|].
      apply path_msi; [vm_compute; congruence|vm_compute; reflexivity].
Defined.

Lemma get_bar_decodes_witness :
  total (pci.get_bar demo_dev 5) demo_bus (fun a _ => a = 0x12febf1000).
Proof.
  pose proof (get_bar_decodes demo_bus (sim_config demo_bus) demo_dev 5 0x12febf1000) as Hg.
  eapply wp_mono; [apply Hg; [done|exact demo_dev_ok|lia|]| |done].
  - apply (bar_mem64 _ _ _ true); vm_compute; reflexivity.
  - intros a h' [-> _]. reflexivity.
Defined.
