(* ===== verification/Ahci.v ===== *)
(** * [drivers/ahci.rs]: the AHCI disk driver

    Commands are built in memory (a header in the port's command list, a table
    with a FIS and one region descriptor), issued through a register and polled.
    The host controller is any [MmioBus]; [Hba] states what the AHCI
    specification says of a port that runs one command at a time.  The theorems
    show that [read] and [write] implement the disk of [Disk.v] in memory. *)

From S2P Require Import Prelude Memory MathUtil Bitmap Pmm Vfs Vmm Disk Io Pci.

Definition SATA_ATA : Z := 0x101.
Definition FIS_TYPE_REG_H2D : Z := 0x27.
Definition ATA_READ_DMA : Z := 0x25.
Definition ATA_WRITE_DMA : Z := 0x35.
Definition ATA_IDENTIFY : Z := 0xec.

(** ** Layout of the packed structs: offsets of fields, and sizes *)

Module FisRegH2D.
Definition fis_type : Z := 0.
Definition mul_cmd : Z := 1.
Definition command : Z := 2.
Definition lba0 : Z := 4.
Definition lba1 : Z := 5.
Definition lba2 : Z := 6.
Definition device : Z := 7.
Definition lba3 : Z := 8.
Definition lba4 : Z := 9.
Definition lba5 : Z := 10.
Definition countl : Z := 12.
Definition counth : Z := 13.
Definition size : Z := 16 * 1 + 4.
End FisRegH2D.

Module CommandHeader.
Definition cfl_awp : Z := 0.
Definition prdtl : Z := 2.
Definition prdbc : Z := 4.
Definition ctaddr_lower : Z := 8.
Definition ctaddr_upper : Z := 12.
Definition size : Z := 16 + 4 * 4.
End CommandHeader.

Module Prdt.
Definition data_lower : Z := 0.
Definition data_upper : Z := 4.
Definition reserved : Z := 8.
Definition bc_i : Z := 12.
Definition size : Z := 16.
End Prdt.

Module CommandTable.
Definition cmd_fis : Z := 0.
Definition prdt_entries : Z := 64 + 16 + 48.
Definition size : Z := 64 + 16 + 48 + 1 * Prdt.size.
End CommandTable.

Module PortRegisters.
Definition clb_lower : Z := 0x00.
Definition clb_higher : Z := 0x04.
Definition interrupt_status : Z := 0x10.
Definition interrupt_enable : Z := 0x14.
Definition signature : Z := 0x24.
Definition sact : Z := 0x34.
Definition ci : Z := 0x38.
(** 18 registers, [reserved2: [Mmio<u32>; 11]] and [vendor_specific: [_; 4]]. *)
Definition size : Z := 18 * 4 + 11 * 4 + 4 * 4.
End PortRegisters.

Module ControllerRegisters.
Definition capabilities : Z := 0x00.
Definition ghc : Z := 0x04.
Definition port_implemented : Z := 0x0c.
Definition ports : Z := 11 * 4 + 29 * 4 + 24 * 4.
End ControllerRegisters.

(** The state: address spaces and page allocator, the hardware,
    [AHCI_DEVICES] as the addresses of their registers, and [PCI_DEVICES]. *)
Record astate (F H : Type) := mkA {
  a_v : vstate F;
  a_hw : H;
  a_devices : list Z;
  a_pci : list PciDevice;
}.
Arguments mkA {F H} _ _ _ _.
Arguments a_v {F H} _.
Arguments a_hw {F H} _.
Arguments a_devices {F H} _.
Arguments a_pci {F H} _.

Module ahci.
Section commands.
Context {H : Type} `{!MmioBus H}.

Definition on_m {A} : M mem A -> M (mem * H) A := zoom fst (fun m s => (m, snd s)).

(** [FisRegH2D::set_lba] and [set_count]. *)
Definition set_lba (fis lba : Z) : M mem unit :=
  do! store8 (fis + FisRegH2D.lba0) (as_u u8 lba) in
  do! store8 (fis + FisRegH2D.lba1) (as_u u8 (Z.shiftr lba 8)) in
  do! store8 (fis + FisRegH2D.lba2) (as_u u8 (Z.shiftr lba 16)) in
  do! store8 (fis + FisRegH2D.lba3) (as_u u8 (Z.shiftr lba 24)) in
  do! store8 (fis + FisRegH2D.lba4) (as_u u8 (Z.shiftr lba 32)) in
  do! store8 (fis + FisRegH2D.lba5) (as_u u8 (Z.shiftr lba 40)) in
  store8 (fis + FisRegH2D.device) (Z.shiftl 1 6).

Definition set_count (fis count : Z) : M mem unit :=
  do! store8 (fis + FisRegH2D.countl) (as_u u8 count) in
  store8 (fis + FisRegH2D.counth) (as_u u8 (Z.shiftr count 8)).

(** [CommandHeader::get_command_table]. *)
Definition get_command_table (self : Z) : M mem Z :=
  let! lo := load32 (self + CommandHeader.ctaddr_lower) in
  let! hi := load32 (self + CommandHeader.ctaddr_upper) in
  uadd u64 (Z.lor lo (Z.shiftl hi 32)) PHYS_BASE.

(** [Prdt::set_buffer]. *)
Definition set_buffer (self address sector_cnt : Z) : M mem unit :=
  do! store32 (self + Prdt.data_lower) (as_u u32 address) in
  do! store32 (self + Prdt.data_upper) (as_u u32 (Z.shiftr address 32)) in
  do! store32 (self + Prdt.reserved) 0 in
  let! b := umul u32 sector_cnt 512 in
  let! b := usub u32 b 1 in
  store32 (self + Prdt.bc_i) (Z.lor b (Z.shiftl 1 31)).

(** [PortRegisters::get_command_header]; [cmd_header.offset(slot)]. *)
Definition get_command_header (self slot : Z) : M (mem * H) Z :=
  let! lo := io.get u32 (self + PortRegisters.clb_lower) in
  let! hi := io.get u32 (self + PortRegisters.clb_higher) in
  let! cmd_header := uadd u64 (Z.lor lo (Z.shiftl hi 32)) PHYS_BASE in
  ret (cmd_header + CommandHeader.size * slot).

(** [PortRegisters::get_slot]: the loop over the slots from [i]. *)
Fixpoint get_slot_loop (self : Z) (n : nat) (i : Z) : M (mem * H) (option Z) :=
  match n with
  | O => ret None
  | S n' =>
      let! sact := io.get u32 (self + PortRegisters.sact) in
      let! ci := io.get u32 (self + PortRegisters.ci) in
      if Z.land (Z.lor sact ci) (Z.shiftl 1 i) =? 0 then ret (Some i)
      else get_slot_loop self n' (i + 1)
  end.

Definition get_slot (self : Z) : M (mem * H) (option Z) := get_slot_loop self 32 0.

(** The polling loop of [send_command]; [false] for [return Err(())]. *)
Fixpoint wait (self slot : Z) (fuel : nat) : M (mem * H) bool :=
  let! ci := io.get u32 (self + PortRegisters.ci) in
  if negb (Z.land ci (Z.shiftl 1 slot) =? 0) then
    let! ist := io.get u32 (self + PortRegisters.interrupt_status) in
    if negb (Z.land ist (Z.shiftl 1 30) =? 0) then ret false
    else match fuel with
         | O => throw OutOfFuel
         | S fuel' => wait self slot fuel'
         end
  else ret true.

(** The command that [send_command] builds: header, region and FIS. *)
Definition build (cmd_header lba sectors buffer : Z) (write : bool) : M mem unit :=
  do! store8 (cmd_header + CommandHeader.cfl_awp) (as_u u8 (FisRegH2D.size / 4)) in
  do! (if write then
         let! b := load8 (cmd_header + CommandHeader.cfl_awp) in
         store8 (cmd_header + CommandHeader.cfl_awp) (Z.lor b (Z.shiftl 1 6))
       else ret tt) in
  do! store16 (cmd_header + CommandHeader.prdtl) 1 in
  let! cmd_table := get_command_table cmd_header in
  let buffer_addr := PhysAddr.lower_half buffer in
  do! set_buffer (cmd_table + CommandTable.prdt_entries) buffer_addr sectors in
  let fis := cmd_table + CommandTable.cmd_fis in
  do! store8 (fis + FisRegH2D.fis_type) FIS_TYPE_REG_H2D in
  do! store8 (fis + FisRegH2D.mul_cmd) (Z.shiftl 1 7) in
  do! store8 (fis + FisRegH2D.command) (if write then ATA_WRITE_DMA else ATA_READ_DMA) in
  do! set_lba fis lba in
  set_count fis sectors.

(** [PortRegisters::send_command]: [Some] of the byte count for [Ok]; [fuel]
    bounds the polling loop. *)
Definition send_command (fuel : nat) (self lba sectors buffer : Z) (write : bool)
    : M (mem * H) (option Z) :=
  let! o := get_slot self in
  let! slot := expect o in
  let! cmd_header := get_command_header self slot in
  do! on_m (build cmd_header lba sectors buffer write) in
  do! io.set u32 (self + PortRegisters.ci) (Z.shiftl 1 slot) in
  let! ok := wait self slot fuel in
  if negb ok then ret None
  else
    let! ist := io.get u32 (self + PortRegisters.interrupt_status) in
    if negb (Z.land ist (Z.shiftl 1 30) =? 0) then ret None
    else
      let! bc := on_m (load32 (cmd_header + CommandHeader.prdbc)) in
      ret (Some bc).

End commands.

Section driver.
Context {F H : Type} `{!MmioBus H, !PortBus H}.
Abbreviation A := (M (astate F H)).

Definition on_v {X} : M (vstate F) X -> A X :=
  zoom a_v (fun v s => mkA v (a_hw s) (a_devices s) (a_pci s)).
Definition on_p {X} (c : M pstate X) : A X := on_v (vmm.on_p c).
Definition on_mem {X} (c : M mem X) : A X := on_p (Pmm.on_mem c).
Definition on_hw {X} : M H X -> A X :=
  zoom a_hw (fun h s => mkA (a_v s) h (a_devices s) (a_pci s)).

(** Memory and hardware together. *)
Definition bus_of (s : astate F H) : mem * H := (p_mem (v_p (a_v s)), a_hw s).
Definition put_bus (x : mem * H) (s : astate F H) : astate F H :=
  mkA (mkVS (set_mem (fst x) (v_p (a_v s))) (v_kernel (a_v s)) (v_cr3 (a_v s)) (v_flushed (a_v s)))
      (snd x) (a_devices s) (a_pci s).
Definition on_bus {X} : M (mem * H) X -> A X := zoom bus_of put_bus.

(** [PageFlags::PRESENT | WRITABLE | UNCACHEABLE]. *)
Definition mmio_flags : Z :=
  Z.lor (Z.lor PageFlags.PRESENT PageFlags.WRITABLE) PageFlags.UNCACHEABLE.

(** One page of a command table: [vmm::get().map_page(..)]. *)
Definition map_table_page (cmd_table i : Z) : A unit :=
  let! kernel := on_v vmm.get in
  let! t := uadd u64 cmd_table PHYS_BASE in
  let! v := uadd u64 t i in
  let! p := uadd u64 cmd_table i in
  on_v (vmm.map_page kernel v p mmio_flags true).

(** [(0..cmd_table_pages * PAGE_SIZE).step_by(PAGE_SIZE)]. *)
Fixpoint map_table (n : nat) (cmd_table i : Z) : A unit :=
  match n with
  | O => ret tt
  | S n' => do! map_table_page cmd_table i in map_table n' cmd_table (i + PAGE_SIZE)
  end.

(** The body of the loop of [AhciDevice::new]. *)
Definition new_table (regs i : Z) : A unit :=
  let! cmd_header := on_bus (get_command_header regs i) in
  let! cmd_table_pages := div_ceil CommandTable.size PAGE_SIZE in
  let! r := on_p (pmm.get_calloc cmd_table_pages) in
  let! cmd_table := expect r in
  let! bytes := umul usize cmd_table_pages PAGE_SIZE in
  do! map_table (Z.to_nat (cdiv bytes PAGE_SIZE)) cmd_table 0 in
  do! on_mem (store32 (cmd_header + CommandHeader.ctaddr_lower) (as_u u32 cmd_table)) in
  on_mem (store32 (cmd_header + CommandHeader.ctaddr_upper) (as_u u32 (Z.shiftr cmd_table 32))).

(** [AhciDevice::new]; the device is its registers. *)
Definition new (regs : Z) : A Z :=
  let! ie := on_bus (io.get u32 (regs + PortRegisters.interrupt_enable)) in
  do! on_bus (io.set u32 (regs + PortRegisters.interrupt_enable) (Z.lor ie 1)) in
  do! for_range 0 32 (new_table regs) in
  ret regs.

(** The registers of port [i]. *)
Definition port_regs (hba_mem i : Z) : Z :=
  hba_mem + ControllerRegisters.ports + PortRegisters.size * i.

(** The body of the loop of [init] over the ports. *)
Definition init_port (hba_mem i : Z) : A unit :=
  let! pi := on_bus (io.get u32 (hba_mem + ControllerRegisters.port_implemented)) in
  if negb (Z.land pi (Z.shiftl 1 i) =? 0) then
    let port := port_regs hba_mem i in
    let! sig := on_bus (io.get u32 (port + PortRegisters.signature)) in
    if sig =? SATA_ATA then
      let! d := new port in
      modify (fun s => mkA (a_v s) (a_hw s) (a_devices s ++ [d]) (a_pci s))
    else ret tt
  else ret tt.

Definition init (hba : PciDevice) : A unit :=
  let! bar5 := on_hw (pci.get_bar hba 5) in
  do! on_hw (pci.bus_master hba) in
  do! on_hw (pci.enable_mmio hba) in
  let hba_mem := PhysAddr.higher_half bar5 in
  let! kernel := on_v vmm.get in
  do! on_v (vmm.map_page kernel (PhysAddr.higher_half bar5) bar5 mmio_flags true) in
  let! cap := on_bus (io.get u32 (hba_mem + ControllerRegisters.capabilities)) in
  if Z.land cap (Z.shiftl 1 31) =? 0 then ret tt
  else
    let! ghc := on_bus (io.get u32 (hba_mem + ControllerRegisters.ghc)) in
    do! on_bus (io.set u32 (hba_mem + ControllerRegisters.ghc) (Z.lor ghc 2)) in
    for_range 0 32 (init_port hba_mem).

(** [AHCI_DEVICES[device_index]]. *)
Definition device_at (device_index : Z) : A Z :=
  let! ds := gets a_devices in
  match ds !! Z.to_nat device_index with Some d => ret d | None => throw OutOfBounds end.

(** The number of sectors that [read] and [write] ask for. *)
Definition sectors_of (offset bytes : Z) : A Z :=
  let! n := uadd usize bytes (offset mod 512) in
  let! s := div_ceil n 512 in
  ret (as_u u16 s).

Definition read (fuel : nat) (device_index offset bytes buffer : Z) : A (option Z) :=
  let! device := device_at device_index in
  let! tmp_buffer := on_p (pmmbox.new bytes) in
  let tmp_buffer_ptr := pb_data tmp_buffer in
  let! sectors := sectors_of offset bytes in
  let! access_result := on_bus (send_command fuel device (offset / 512) sectors tmp_buffer_ptr false) in
  let! r := match access_result with
            | Some bc =>
                do! on_mem (copy_from buffer (tmp_buffer_ptr + offset mod 512) bytes) in
                ret (Some bc)
            | None => ret None
            end in
  do! on_p (pmmbox.drop tmp_buffer) in
  ret r.

Definition write (fuel : nat) (device_index offset bytes buffer : Z) : A (option Z) :=
  let! device := device_at device_index in
  let! tmp_buffer := on_p (pmmbox.new bytes) in
  let tmp_buffer_ptr := pb_data tmp_buffer in
  let! sectors := sectors_of offset bytes in
  let! access_result := on_bus (send_command fuel device (offset / 512) sectors tmp_buffer_ptr false) in
  let! r := match access_result with
            | Some _ =>
                do! on_mem (copy_from (tmp_buffer_ptr + offset mod 512) buffer bytes) in
                on_bus (send_command fuel device (offset / 512) sectors tmp_buffer_ptr true)
            | None => ret None
            end in
  do! on_p (pmmbox.drop tmp_buffer) in
  ret r.

(** [pci::enumerate_devices]: the scan, then [ahci::init] for each controller
    of [PCI_DEVICES]. *)
Fixpoint init_controllers (ds : list PciDevice) : A unit :=
  match ds with
  | [] => ret tt
  | dev :: ds' =>
      do! (if pci.is_ahci dev then init dev else ret tt) in
      init_controllers ds'
  end.

Definition enumerate_devices : A unit :=
  let! found := gets a_pci in
  let! ds := on_hw (pci.scan pci.functions found) in
  do! modify (fun s => mkA (a_v s) (a_hw s) (a_devices s) ds) in
  init_controllers ds.

End driver.
End ahci.

(** ** What the AHCI specification says of a port *)

(** The disk behind a port, and the memory the port uses: command list and
    received FIS. *)
Record pview := mkView {
  pv_content : Z -> Z;
  pv_capacity : Z;
  pv_clb : Z;
  pv_fb : Z;
}.

Definition RFIS_SIZE : Z := 256.

(** A command as the controller finds it in memory: direction, first sector,
    number of sectors, and the memory region. *)
Record command := mkCmd {
  c_write : bool;
  c_lba : Z;
  c_count : Z;
  c_addr : Z;
  c_bytes : Z;
}.

Definition table_addr (m : mem) (hdr : Z) : Z := rd32 m (hdr + 8) + 2 ^ 32 * rd32 m (hdr + 12).

Definition fis_bytes (m : mem) (tab : Z) (os : list Z) : Z := le_val (map (fun o => rd8 m (tab + o)) os).

Definition command_at (m : mem) (hdr : Z) : option command :=
  let tab := table_addr m hdr in
  let flags := rd8 m hdr in
  let w := Z.testbit flags 6 in
  if (flags mod 32 =? 5) && (rd16 m (hdr + 2) =? 1) && (rd8 m tab =? 0x27) &&
     Z.testbit (rd8 m (tab + 1)) 7 && (rd8 m (tab + 2) =? if w then 0x35 else 0x25) &&
     Z.testbit (rd8 m (tab + 7)) 6
  then Some (mkCmd w (fis_bytes m tab [4; 5; 6; 8; 9; 10]) (fis_bytes m tab [12; 13])
                   (rd32 m (tab + 128) + 2 ^ 32 * rd32 m (tab + 132))
                   (rd32 m (tab + 140) mod 2 ^ 22 + 1))
  else None.

(** A command that the disk can serve. *)
Record cmd_ok (v : pview) (hdr : Z) (c : command) : Prop := {
  co_count : 0 < c_count c;
  co_lba : 0 <= c_lba c;
  co_bytes : c_bytes c = 512 * c_count c;
  co_disk : 512 * (c_lba c + c_count c) <= pv_capacity v;
  co_fis : far (c_addr c) (c_bytes c) (pv_fb v) RFIS_SIZE;
  co_prdbc : far (c_addr c) (c_bytes c) (hdr + 4) 4;
  co_hdr : far (hdr + 4) 4 (pv_fb v) RFIS_SIZE;
}.

(** The effect of a command: data moves in its direction, the byte count goes to
    the header, a FIS may be received. *)
Record transferred (c : command) (hdr : Z) (m : mem) (v : pview) (m' : mem) (v' : pview) : Prop := {
  tf_count : rd32 m' (hdr + 4) = c_bytes c;
  tf_capacity : pv_capacity v' = pv_capacity v;
  tf_clb : pv_clb v' = pv_clb v;
  tf_fb : pv_fb v' = pv_fb v;
  tf_disk : forall x, pv_content v' x =
    if c_write c && bool_decide (512 * c_lba c <= x < 512 * c_lba c + c_bytes c)
    then rd8 m (c_addr c + (x - 512 * c_lba c)) else pv_content v x;
  tf_mem : forall x, ~ (pv_fb v <= x < pv_fb v + RFIS_SIZE) -> ~ (hdr + 4 <= x < hdr + 8) ->
    rd8 m' x =
    if negb (c_write c) && bool_decide (c_addr c <= x < c_addr c + c_bytes c)
    then pv_content v (512 * c_lba c + (x - c_addr c)) else rd8 m x;
}.

(** An idle port as its registers show it: the address of the command list, and
    no slot in use; reading them has no side effects. *)
Record idle_regs {H} `{!MmioBus H} (h : H) (p clb : Z) : Prop := {
  ir_range : 0 <= clb < 2 ^ 64;
  ir_clb : forall m,
    bus_read u32 (p + 0x00) (m, h) = (Ret (clb mod 2 ^ 32), (m, h)) /\
    bus_read u32 (p + 0x04) (m, h) = (Ret (clb / 2 ^ 32), (m, h));
  ir_slots : forall m,
    bus_read u32 (p + 0x34) (m, h) = (Ret 0, (m, h)) /\
    bus_read u32 (p + 0x38) (m, h) = (Ret 0, (m, h));
}.

(** A port at physical address [p].  In an idle port the registers that the driver
    reads have no side effects and show no command and no error.  A command
    issued on it is running until, after at most [hba_delay] polls of its bit in
    [CI], the bit is clear and the command has had its effect. *)
Class Hba (H : Type) `{!MmioBus H} := {
  hba_view : H -> Z -> pview;
  hba_idle : H -> Z -> Prop;
  hba_running : Z -> Z -> command -> mem * H -> nat -> mem * H -> Prop;
  hba_delay : nat;
  hba_byte : forall h p x, is_byte (pv_content (hba_view h p) x);
  hba_sectors : forall h p, pv_capacity (hba_view h p) mod 512 = 0 /\
    0 <= pv_capacity (hba_view h p) <= 512 * 2 ^ 48;
  hba_regs : forall h p, hba_idle h p -> idle_regs h p (pv_clb (hba_view h p));
  idle_status : forall h p m, hba_idle h p -> exists v,
    bus_read u32 (p + 0x10) (m, h) = (Ret v, (m, h)) /\ Z.testbit v 30 = false;
  hba_issue : forall h p m slot c, hba_idle h p -> 0 <= slot < 32 ->
    command_at m (pv_clb (hba_view h p) + 32 * slot) = Some c ->
    cmd_ok (hba_view h p) (pv_clb (hba_view h p) + 32 * slot) c ->
    exists n s', (n <= hba_delay)%nat /\
      bus_write u32 (p + 0x38) (2 ^ slot) (m, h) = (Ret tt, s') /\
      hba_running p slot c (m, h) n s';
  hba_poll : forall p slot c s0 n s, hba_running p slot c s0 n s ->
    exists v s', bus_read u32 (p + 0x38) s = (Ret v, s') /\
    ((Z.testbit v slot = true /\ exists n', (n' < n)%nat /\ hba_running p slot c s0 n' s') \/
     (Z.testbit v slot = false /\ hba_idle (snd s') p /\
      transferred c (pv_clb (hba_view (snd s0) p) + 32 * slot) (fst s0) (hba_view (snd s0) p)
                  (fst s') (hba_view (snd s') p)));
  hba_status : forall p slot c s0 n s, hba_running p slot c s0 n s ->
    exists v s', bus_read u32 (p + 0x10) s = (Ret v, s') /\ Z.testbit v 30 = false /\
      hba_running p slot c s0 n s';
}.

(** A port whose next command ends in a task file error.  The error is in bit 30 of
    the interrupt status, which is sticky, after at most [hf_delay] readings of
    that register that do not show it yet; [n] counts the ones left.  The
    command's bit in [CI] may be cleared, then the error shows, or stay.  Until
    then and after it the command may have received a FIS, counted bytes and
    moved part of the data of a read. *)
Class FaultyHba (H : Type) `{!MmioBus H} := {
  hf_view : H -> Z -> pview;
  hf_idle : H -> Z -> Prop;
  hf_failing : Z -> Z -> command -> mem * H -> nat -> mem * H -> Prop;
  hf_delay : nat;
  hf_regs : forall h p, hf_idle h p -> idle_regs h p (pv_clb (hf_view h p));
  hf_issue : forall h p m slot c, hf_idle h p -> 0 <= slot < 32 ->
    command_at m (pv_clb (hf_view h p) + 32 * slot) = Some c ->
    exists n s', (n <= hf_delay)%nat /\
      bus_write u32 (p + 0x38) (2 ^ slot) (m, h) = (Ret tt, s') /\
      hf_failing p slot c (m, h) n s';
  hf_poll : forall p slot c s0 n s, hf_failing p slot c s0 n s ->
    exists v s' n', bus_read u32 (p + 0x38) s = (Ret v, s') /\
      hf_failing p slot c s0 n' s' /\ (n' <= n)%nat /\ (Z.testbit v slot = false -> n' = 0%nat);
  hf_status : forall p slot c s0 n s, hf_failing p slot c s0 n s ->
    exists v s' n', bus_read u32 (p + 0x10) s = (Ret v, s') /\
      hf_failing p slot c s0 n' s' /\ (Z.testbit v 30 = true \/ (n' < n)%nat);
  hf_effect : forall p slot c s0 n s, hf_failing p slot c s0 n s ->
    let v := hf_view (snd s0) p in
    forall x, ~ (pv_fb v <= x < pv_fb v + RFIS_SIZE) ->
      ~ (pv_clb v + 32 * slot + 4 <= x < pv_clb v + 32 * slot + 8) ->
      (c_write c = true \/ ~ (c_addr c <= x < c_addr c + c_bytes c)) ->
      rd8 (fst s) x = rd8 (fst s0) x;
}.

(** ** Building a command *)

Lemma shiftl_hi lo hi : 0 <= lo < 2 ^ 32 -> Z.lor lo (Z.shiftl hi 32) = lo + 2 ^ 32 * hi.
Proof.
  intros Hl. rewrite Z.shiftl_mul_pow2, Z.lor_comm, lor_mul_pow2_small by lia. lia.
Qed.

(** The memory of a port's slot: its header at [hdr], its table at [tab]. *)
Record slot_mem (m : mem) (hdr tab : Z) : Prop := {
  sm_hdr : 0 <= hdr /\ hdr + 32 <= 2 ^ 47;
  sm_tab : 0 <= tab /\ tab + 144 <= 2 ^ 47;
  sm_addr : table_addr m hdr = tab;
  sm_far : far hdr 32 tab 144;
}.

Section build.
Implicit Types m : mem.

Lemma rdn_wr8_ne n m a v b :
  a + 1 <= b \/ b + Z.of_nat n <= a -> rdn n (wr8 m a v) b = rdn n m b.
Proof. intros. change (wr8 m a v) with (wrn 1 m a v). apply rdn_wrn_ne. simpl. lia. Qed.

Lemma get_command_table_ok m hdr tab :
  slot_mem m hdr tab ->
  ahci.get_command_table (hdr + PHYS_BASE) m = (Ret (tab + PHYS_BASE), m).
Proof.
  intros [H1 H2 H3 _]. unfold ahci.get_command_table, load32, bind, gets, uadd, u64.
  unfold CommandHeader.ctaddr_lower, CommandHeader.ctaddr_upper.
  rewrite !phys_of_base_add by lia. rewrite shiftl_hi by apply rd32_range.
  fold (table_addr m hdr). rewrite H3, chk_ok by (unfold PHYS_BASE; lia). done.
Qed.

(** The two memories the command is written in: the header's flags, then the
    table. *)
Definition head_mem m hdr (w : bool) : mem :=
  wr16 (wr8 m hdr (if w then 0x45 else 0x05)) (hdr + 2) 1.

Definition table_mem m tab lba sectors buffer (w : bool) : mem :=
  let m := wr32 m (tab + 128) (buffer mod 2 ^ 32) in
  let m := wr32 m (tab + 132) (buffer / 2 ^ 32 mod 2 ^ 32) in
  let m := wr32 m (tab + 136) 0 in
  let m := wr32 m (tab + 140) (512 * sectors - 1 + 2 ^ 31) in
  let m := wr8 m tab 0x27 in
  let m := wr8 m (tab + 1) 0x80 in
  let m := wr8 m (tab + 2) (if w then 0x35 else 0x25) in
  let m := wr8 m (tab + 4) (lba mod 256) in
  let m := wr8 m (tab + 5) (lba / 2 ^ 8 mod 256) in
  let m := wr8 m (tab + 6) (lba / 2 ^ 16 mod 256) in
  let m := wr8 m (tab + 8) (lba / 2 ^ 24 mod 256) in
  let m := wr8 m (tab + 9) (lba / 2 ^ 32 mod 256) in
  let m := wr8 m (tab + 10) (lba / 2 ^ 40 mod 256) in
  let m := wr8 m (tab + 7) 0x40 in
  let m := wr8 m (tab + 12) (sectors mod 256) in
  wr8 m (tab + 13) (sectors / 2 ^ 8 mod 256).

Lemma head_mem_only m hdr w : only m (head_mem m hdr w) hdr 4.
Proof.
  intros x Hx. unfold head_mem. rewrite rd8_wrn_frame by (simpl; lia).
  apply rd8_wr8_ne. lia.
Qed.

Lemma wr8_only m m0 a v b n : only m0 m b n -> b <= a < b + n -> only m0 (wr8 m a v) b n.
Proof. intros Ho Ha x Hx. rewrite rd8_wr8_ne by lia. by apply Ho. Qed.

Lemma wr32_only m m0 a v b n : only m0 m b n -> b <= a -> a + 4 <= b + n -> only m0 (wr32 m a v) b n.
Proof. intros Ho H1 H2 x Hx. rewrite rd8_wrn_frame by (simpl; lia). by apply Ho. Qed.

Lemma table_mem_only m tab lba sectors buffer w :
  only m (table_mem m tab lba sectors buffer w) tab 144.
Proof.
  unfold table_mem. repeat first [apply wr8_only; [|lia]|apply wr32_only; [|lia|lia]]. apply only_refl.
Qed.

Lemma slot_mem_agree m m' hdr tab :
  slot_mem m hdr tab -> agree m m' (hdr + 8) 8 -> slot_mem m' hdr tab.
Proof.
  intros [H1 H2 H3 H4] Ha. split; [done|done| |done]. rewrite <- H3. unfold table_addr.
  rewrite (rdn_agree 4 m m'), (rdn_agree 4 m m'); [done| |]; intros x Hx; apply Ha; simpl in Hx; lia.
Qed.

Lemma build_eq m hdr tab lba sectors buffer w :
  slot_mem m hdr tab -> 0 < sectors <= 8192 ->
  ahci.build (hdr + PHYS_BASE) lba sectors buffer w m =
    (Ret tt, table_mem (head_mem m hdr w) tab lba sectors (phys_of buffer) w).
Proof.
  intros Hs Hc. pose proof Hs as [H1 H2 _ H4].
  assert (Hs' : slot_mem (head_mem m hdr w) hdr tab).
  { eapply slot_mem_agree; [done|]. intros x Hx. apply (head_mem_only m hdr w x). lia. }
  pose proof (get_command_table_ok _ _ _ Hs') as Ht.
  assert (E0 : store8 (hdr + PHYS_BASE + CommandHeader.cfl_awp) (as_u u8 (FisRegH2D.size / 4)) m =
               (Ret tt, wr8 m hdr 5)).
  { unfold store8, modify, CommandHeader.cfl_awp. by rewrite phys_of_base_add, Z.add_0_r by lia. }
  unfold ahci.build. erewrite bind_run by exact E0.
  assert (Eb : (if w then let! b := load8 (hdr + PHYS_BASE + 0) in
                 store8 (hdr + PHYS_BASE + 0) (Z.lor b (Z.shiftl 1 6)) else ret tt) (wr8 m hdr 5)
               = (Ret tt, wr8 m hdr (if w then 0x45 else 5))).
  { destruct w; [|done]. unfold bind, load8, store8, gets, modify.
    rewrite phys_of_base_add, Z.add_0_r, rd8_wr8_eq by lia.
    unfold wr8. by rewrite insert_insert_eq. }
  erewrite bind_run by exact Eb.
  assert (E2 : store16 (hdr + PHYS_BASE + CommandHeader.prdtl) 1 (wr8 m hdr (if w then 0x45 else 5)) =
               (Ret tt, head_mem m hdr w)).
  { unfold store16, modify, CommandHeader.prdtl. by rewrite phys_of_base_add by lia. }
  erewrite bind_run by exact E2. erewrite bind_run by exact Ht. rewrite lower_half_phys.
  unfold ahci.set_buffer, ahci.set_lba, ahci.set_count, store32, store8, bind, modify.
  unfold Prdt.data_lower, Prdt.data_upper, Prdt.reserved, Prdt.bc_i, CommandTable.prdt_entries,
    CommandTable.cmd_fis, FisRegH2D.fis_type, FisRegH2D.mul_cmd, FisRegH2D.command,
    FisRegH2D.lba0, FisRegH2D.lba1, FisRegH2D.lba2, FisRegH2D.lba3, FisRegH2D.lba4, FisRegH2D.lba5,
    FisRegH2D.device, FisRegH2D.countl, FisRegH2D.counth, umul, usub, u32.
  rewrite !chk_ok by lia.
  unfold as_u, u8. rewrite !Z.shiftr_div_pow2 by lia.
  rewrite <- !(Z.add_assoc (tab + PHYS_BASE)). rewrite !phys_of_base_add by lia.
  simpl (64 + 16 + 48 + _). simpl (0 + _). rewrite !Z.add_0_r.
  replace (Z.lor (sectors * 512 - 1) (Z.shiftl 1 31)) with (512 * sectors - 1 + 2 ^ 31).
  2:{ change (Z.shiftl 1 31) with (1 * 2 ^ 31). rewrite Z.lor_comm, lor_mul_pow2_small by lia. lia. }
  unfold table_mem. destruct w; reflexivity.
Qed.

(** Reads of the fields of a table. *)
Ltac read_field :=
  repeat first [rewrite rd8_wr8_eq | rewrite rd8_wr8_ne by lia
               | rewrite rd8_wrn_frame by (simpl; lia) | rewrite rdn_wr8_ne by (simpl; lia)
               | rewrite rdn_wrn_eq | rewrite rdn_wrn_ne by (simpl; lia)].

Lemma table_fields m tab lba sectors buffer w :
  let m' := table_mem m tab lba sectors buffer w in
  rd8 m' tab = 0x27 /\ rd8 m' (tab + 1) = 0x80 /\ rd8 m' (tab + 2) = (if w then 0x35 else 0x25) /\
  rd8 m' (tab + 7) = 0x40 /\
  map (fun o => rd8 m' (tab + o)) [4; 5; 6; 8; 9; 10] = le_bytes 6 lba /\
  map (fun o => rd8 m' (tab + o)) [12; 13] = le_bytes 2 sectors /\
  rd32 m' (tab + 128) = buffer mod 2 ^ 32 /\
  rd32 m' (tab + 132) = buffer / 2 ^ 32 mod 2 ^ 32 /\
  rd32 m' (tab + 140) = (512 * sectors - 1 + 2 ^ 31) mod 2 ^ 32.
Proof.
  unfold table_mem. cbv zeta. split_and!; cbn [map le_bytes]; read_field; try done.
  - by destruct w.
  - change (2 ^ 8) with 256. change (2 ^ 16) with (256 * 256). change (2 ^ 24) with (256 * 256 * 256).
    change (2 ^ 32) with (256 * 256 * 256 * 256). change (2 ^ 40) with (256 * 256 * 256 * 256 * 256).
    rewrite <- !Z.div_div by lia. by rewrite !Z.mod_mod by lia.
  - change (2 ^ 8) with 256. by rewrite !Z.mod_mod by lia.
  - change (256 ^ Z.of_nat 4) with (2 ^ 32). by rewrite Z.mod_mod by lia.
  - change (256 ^ Z.of_nat 4) with (2 ^ 32). by rewrite Z.mod_mod by lia.
Qed.

Lemma built_command m hdr tab lba sectors buffer w :
  slot_mem m hdr tab -> 0 <= lba < 2 ^ 48 -> 0 < sectors <= 8192 -> 0 <= buffer < 2 ^ 47 ->
  let m' := table_mem (head_mem m hdr w) tab lba sectors buffer w in
  command_at m' hdr = Some (mkCmd w lba sectors buffer (512 * sectors)) /\ slot_mem m' hdr tab.
Proof.
  intros Hs Hl Hc Hb m'. pose proof Hs as [H1 H2 H3 H4]. unfold far in H4.
  pose proof (table_mem_only (head_mem m hdr w) tab lba sectors buffer w) as Ho. fold m' in Ho.
  assert (Hs' : slot_mem m' hdr tab).
  { eapply slot_mem_agree; [exact Hs|]. intros x Hx. rewrite Ho by lia. apply head_mem_only. lia. }
  split; [|done]. unfold command_at. rewrite (sm_addr _ _ _ Hs').
  assert (E1 : rd8 m' hdr = if w then 0x45 else 5).
  { rewrite Ho by lia. unfold head_mem. rewrite rd8_wrn_frame by (simpl; lia).
    rewrite rd8_wr8_eq. by destruct w. }
  assert (E2 : rd16 m' (hdr + 2) = 1).
  { rewrite (rdn_agree 2 (head_mem m hdr w)); [unfold head_mem; by rewrite rdn_wrn_eq|].
    intros x Hx. apply Ho. simpl in Hx. lia. }
  destruct (table_fields (head_mem m hdr w) tab lba sectors buffer w)
    as (F1 & F2 & F3 & F4 & F5 & F6 & F7 & F8 & F9). fold m' in F1, F2, F3, F4, F5, F6, F7, F8, F9.
  unfold fis_bytes. rewrite E1, E2, F1, F2, F3, F4, F5, F6, F7, F8, F9, !le_val_bytes.
  change (256 ^ Z.of_nat 6) with (2 ^ 48). change (256 ^ Z.of_nat 2) with (2 ^ 16).
  rewrite (Z.mod_small lba), (Z.mod_small sectors) by lia.
  assert (Eb : buffer mod 2 ^ 32 + 2 ^ 32 * (buffer / 2 ^ 32 mod 2 ^ 32) = buffer).
  { rewrite (Z.mod_small (buffer / 2 ^ 32)); [pose proof (Z.div_mod buffer (2 ^ 32)); lia|].
    split; [apply Z.div_pos; lia|]. apply Z.div_lt_upper_bound; lia. }
  rewrite Eb. rewrite (Z.mod_small _ (2 ^ 32)) by lia.
  replace ((512 * sectors - 1 + 2 ^ 31) mod 2 ^ 22) with (512 * sectors - 1).
  2:{ apply (Z.mod_unique_pos _ _ 512); lia. }
  replace (512 * sectors - 1 + 1) with (512 * sectors) by lia. by destruct w.
Qed.

End build.

(** ** Sending a command *)

Section send.
Context {H : Type} `{!MmioBus H, !Hba H}.
Implicit Types (m : mem) (h : H).

Lemma bit_clear v k : 0 <= k < 32 -> (Z.land (as_u u32 v) (Z.shiftl 1 k) =? 0) = negb (Z.testbit v k).
Proof.
  intros Hk. unfold as_u, u32. rewrite <- (negb_involutive (_ =? 0)), land_bit_testbit by lia.
  by rewrite Z.mod_pow2_bits_low by lia.
Qed.

(** The registers of a port are reachable through [self]. *)
Record regs_at (self p : Z) : Prop := {
  ra_phys : phys_of self = p;
  ra_fits : p + 0x100 <= 2 ^ 47;
}.

Lemma reg_addr self p o : regs_at self p -> 0 <= o < 0x100 -> phys_of (self + o) = p + o.
Proof. intros [<- Hf] Ho. apply phys_of_add; lia. Qed.

Lemma get_reg self p o v (s s' : mem * H) :
  regs_at self p -> 0 <= o < 0x100 -> bus_read u32 (p + o) s = (Ret v, s') ->
  io.get u32 (self + o) s = (Ret (as_u u32 v), s').
Proof. intros Hr Ho E. unfold io.get, bind. by rewrite (reg_addr self p), E. Qed.

Lemma wait_ok self p slot c s0 fuel : regs_at self p -> 0 <= slot < 32 ->
  forall n s, hba_running p slot c s0 n s -> (n <= fuel)%nat ->
  exists s', ahci.wait self slot fuel s = (Ret true, s') /\ hba_idle (snd s') p /\
    transferred c (pv_clb (hba_view (snd s0) p) + 32 * slot) (fst s0) (hba_view (snd s0) p)
                (fst s') (hba_view (snd s') p).
Proof.
  intros Hr Hslot. induction fuel as [|fuel IH]; intros n s Hrun Hn.
  all: destruct (hba_poll _ _ _ _ _ _ Hrun) as (v & s1 & E & Hv); cbn [ahci.wait].
  all: erewrite bind_run by (by eapply (get_reg self p); [done|unfold PortRegisters.ci; lia|exact E]).
  all: rewrite bit_clear, negb_involutive by lia.
  all: destruct Hv as [(Hb & n' & Hn' & Hrun')|(Hb & Hi & Ht)]; rewrite Hb; [|by exists s1].
  { lia. }
  destruct (hba_status _ _ _ _ _ _ Hrun') as (w & s2 & E2 & Hw & Hrun2).
  erewrite bind_run by (by eapply (get_reg self p); [done|unfold PortRegisters.interrupt_status; lia|exact E2]).
  rewrite bit_clear, Hw by lia. simpl. apply (IH n'); [done|lia].
Qed.

Lemma get_slot_idle self p clb m h : regs_at self p -> idle_regs h p clb ->
  ahci.get_slot self (m, h) = (Ret (Some 0), (m, h)).
Proof.
  intros Hr Hi. destruct (ir_slots _ _ _ Hi m) as [E1 E2]. unfold ahci.get_slot. cbn [ahci.get_slot_loop].
  erewrite bind_run by (by eapply (get_reg self p); [done|unfold PortRegisters.sact; lia|exact E1]).
  erewrite bind_run by (by eapply (get_reg self p); [done|unfold PortRegisters.ci; lia|exact E2]).
  done.
Qed.

Lemma get_command_header_idle self p clb m h slot : regs_at self p -> idle_regs h p clb ->
  clb < 2 ^ 47 ->
  ahci.get_command_header self slot (m, h) = (Ret (clb + PHYS_BASE + 32 * slot), (m, h)).
Proof.
  intros Hr Hi Hc. destruct (ir_clb _ _ _ Hi m) as [E1 E2]. pose proof (ir_range _ _ _ Hi) as Hcr.
  unfold ahci.get_command_header.
  erewrite bind_run by (by eapply (get_reg self p); [done|unfold PortRegisters.clb_lower; lia|exact E1]).
  erewrite bind_run by (by eapply (get_reg self p); [done|unfold PortRegisters.clb_higher; lia|exact E2]).
  unfold as_u, u32.
  rewrite Z.mod_mod by lia. rewrite (Z.mod_small (clb / 2 ^ 32)).
  2:{ split; [apply Z.div_pos; lia|]. apply Z.div_lt_upper_bound; lia. }
  rewrite shiftl_hi by (apply Z.mod_pos_bound; lia).
  pose proof (Z.div_mod clb (2 ^ 32)). unfold uadd, u64.
  erewrite bind_run by (apply chk_ok; unfold PHYS_BASE; lia).
  unfold ret, CommandHeader.size. do 3 f_equal. simpl (16 + 4 * 4). lia.
Qed.

(** The command that [send_command] issues on an idle port. *)
Definition cmd_of (lba sectors buffer : Z) (w : bool) : command :=
  mkCmd w lba sectors (phys_of buffer) (512 * sectors).

(** The memory in which it is issued. *)
Definition issued m hdr tab lba sectors buffer (w : bool) : mem :=
  table_mem (head_mem m hdr w) tab lba sectors (phys_of buffer) w.

(** [send_command] on an idle port, up to the store to [CI]. *)
Lemma send_prefix fuel self p clb m h tab lba sectors buffer w :
  regs_at self p -> idle_regs h p clb -> slot_mem m clb tab -> 0 < sectors <= 8192 ->
  ahci.send_command fuel self lba sectors buffer w (m, h) =
    (do! io.set u32 (self + PortRegisters.ci) 1 in
     let! ok := ahci.wait self 0 fuel in
     if negb ok then ret None
     else
       let! ist := io.get u32 (self + PortRegisters.interrupt_status) in
       if negb (Z.land ist (Z.shiftl 1 30) =? 0) then ret None
       else
         let! bc := ahci.on_m (load32 (clb + PHYS_BASE + CommandHeader.prdbc)) in
         ret (Some bc)) (issued m clb tab lba sectors buffer w, h).
Proof.
  intros Hr Hi Hs Hc. pose proof (sm_hdr _ _ _ Hs). unfold ahci.send_command.
  erewrite bind_run by (by eapply (get_slot_idle self p)). erewrite bind_run by reflexivity.
  erewrite bind_run by (apply (get_command_header_idle self p clb); [done|done|lia]).
  rewrite Z.mul_0_r, Z.add_0_r. erewrite bind_run.
  2:{ unfold ahci.on_m. apply zoom_ret. simpl. by apply build_eq. }
  reflexivity.
Qed.

Lemma send_command_ok fuel self p m h tab lba sectors buffer w :
  let v := hba_view h p in
  regs_at self p -> hba_idle h p -> (hba_delay <= fuel)%nat ->
  slot_mem m (pv_clb v) tab -> 0 <= lba < 2 ^ 48 -> 0 < sectors <= 8192 ->
  cmd_ok v (pv_clb v) (cmd_of lba sectors buffer w) ->
  exists m' h', ahci.send_command fuel self lba sectors buffer w (m, h) =
      (Ret (Some (512 * sectors)), (m', h')) /\ hba_idle h' p /\
    transferred (cmd_of lba sectors buffer w) (pv_clb v)
      (issued m (pv_clb v) tab lba sectors buffer w) v m' (hba_view h' p).
Proof.
  intros v Hr Hi Hf Hs Hl Hc Hok. pose proof (phys_of_range buffer) as Hb.
  pose proof Hs as [H1 H2 _ _]. set (hdr := pv_clb v) in *.
  destruct (built_command m hdr tab lba sectors (phys_of buffer) w Hs Hl Hc Hb) as [Hcmd Hs'].
  fold (issued m hdr tab lba sectors buffer w) in Hcmd, Hs'.
  set (m1 := issued m hdr tab lba sectors buffer w) in *.
  destruct (hba_issue h p m1 0 (cmd_of lba sectors buffer w) Hi ltac:(lia)) as (n & s1 & Hn & E & Hrun).
  { fold v hdr. by rewrite Z.mul_0_r, Z.add_0_r. }
  { fold v hdr. by rewrite Z.mul_0_r, Z.add_0_r. }
  destruct (wait_ok self p 0 _ _ fuel Hr ltac:(lia) n s1 Hrun ltac:(lia)) as (s2 & Ew & Hi2 & Ht).
  simpl in Ht. fold v hdr in Ht. rewrite Z.add_0_r in Ht. destruct s2 as [m2 h2]. simpl in Hi2, Ht.
  exists m2, h2. split; [|done]. pose proof (hba_regs h p Hi) as Hir. fold v hdr in Hir.
  rewrite (send_prefix fuel self p hdr m h tab) by done. fold m1.
  erewrite bind_run.
  2:{ unfold io.set, PortRegisters.ci. rewrite (reg_addr self p) by (done || lia). exact E. }
  erewrite bind_run by exact Ew. cbn beta iota delta [negb].
  destruct (idle_status h2 p m2 Hi2) as (ist & Eis & His).
  erewrite bind_run by (by eapply (get_reg self p); [done|unfold PortRegisters.interrupt_status; lia|exact Eis]).
  rewrite bit_clear, His by lia. cbn beta iota delta [negb].
  unfold ahci.on_m, bind, zoom, load32, gets, CommandHeader.prdbc. simpl fst.
  rewrite phys_of_base_add by lia. by rewrite (tf_count _ _ _ _ _ _ Ht).
Qed.

(** The memory a port needs in order to work: its structures do not overlap. *)
Record port_mem m (v : pview) (tab : Z) : Prop := {
  po_slot : slot_mem m (pv_clb v) tab;
  po_hdr : far (pv_clb v) 32 (pv_fb v) RFIS_SIZE;
  po_tab : far tab 144 (pv_fb v) RFIS_SIZE;
}.

(** A transfer of [n] sectors from [lba] with a region at [b] that is clear of
    them. *)
Record xfer_ok (v : pview) (tab lba n b : Z) : Prop := {
  xo_lba : 0 <= lba;
  xo_count : 0 < n <= 8192;
  xo_disk : 512 * (lba + n) <= pv_capacity v;
  xo_fb : far b (512 * n) (pv_fb v) RFIS_SIZE;
  xo_hdr : far b (512 * n) (pv_clb v) 32;
  xo_tab : far b (512 * n) tab 144;
}.

(** The addresses that a command overwrites besides its data. *)
Definition in_port (v : pview) (tab x : Z) : Prop :=
  pv_clb v <= x < pv_clb v + 8 \/ tab <= x < tab + 144 \/ pv_fb v <= x < pv_fb v + RFIS_SIZE.

Record sent m (v : pview) m' (v' : pview) (tab lba n b : Z) (w : bool) : Prop := {
  st_mem : port_mem m' v' tab;
  st_capacity : pv_capacity v' = pv_capacity v;
  st_clb : pv_clb v' = pv_clb v;
  st_fb : pv_fb v' = pv_fb v;
  st_disk : forall x, pv_content v' x =
    if w && bool_decide (512 * lba <= x < 512 * (lba + n)) then rd8 m (b + (x - 512 * lba))
    else pv_content v x;
  st_data : forall x, ~ in_port v tab x -> rd8 m' x =
    if negb w && bool_decide (b <= x < b + 512 * n) then pv_content v (512 * lba + (x - b))
    else rd8 m x;
}.

Lemma send_sent fuel self p m h tab lba n buffer w :
  let v := hba_view h p in
  regs_at self p -> hba_idle h p -> (hba_delay <= fuel)%nat -> port_mem m v tab ->
  xfer_ok v tab lba n (phys_of buffer) ->
  exists m' h', ahci.send_command fuel self lba n buffer w (m, h) =
      (Ret (Some (512 * n)), (m', h')) /\ hba_idle h' p /\
    sent m v m' (hba_view h' p) tab lba n (phys_of buffer) w.
Proof.
  intros v Hr Hi Hf [Hs Ph Pt] [Xl Xn Xd Xf Xh Xt]. pose proof (hba_sectors h p) as [_ Hcap].
  fold v in Hcap. set (b := phys_of buffer) in *. set (hdr := pv_clb v) in *.
  unfold far, RFIS_SIZE in *.
  destruct (send_command_ok fuel self p m h tab lba n buffer w Hr Hi Hf Hs ltac:(lia) Xn)
    as (m' & h' & E & Hi' & [T1 T2 T3 T4 T5 T6]).
  { fold v hdr. split; simpl; fold b; unfold far, RFIS_SIZE; lia. }
  fold v hdr in T1, T2, T3, T4, T5, T6. simpl in T5, T6. fold b in T5, T6. unfold RFIS_SIZE in T6.
  exists m', h'. split; [done|]. split; [done|].
  pose proof Hs as [S1 S2 S3 S4]. unfold far in S4.
  assert (Hiss : forall x, ~ (hdr <= x < hdr + 4) -> ~ (tab <= x < tab + 144) ->
            rd8 (issued m hdr tab lba n buffer w) x = rd8 m x).
  { intros x H1 H2. unfold issued. rewrite (table_mem_only (head_mem m hdr w) tab) by done.
    by apply head_mem_only. }
  assert (Hdata : forall x, ~ in_port v tab x -> rd8 m' x =
    if negb w && bool_decide (b <= x < b + 512 * n) then pv_content v (512 * lba + (x - b)) else rd8 m x).
  { intros x Hx. unfold in_port, RFIS_SIZE in Hx. fold hdr in Hx. rewrite T6, Hiss by lia. done. }
  split; rewrite ?T2, ?T3, ?T4; try done.
  - split; rewrite ?T3, ?T4; fold hdr; [|done|done]. eapply slot_mem_agree; [exact Hs|].
    intros x Hx. rewrite Hdata by (unfold in_port, RFIS_SIZE; fold hdr; lia).
    destruct w; [done|]. by rewrite bool_decide_eq_false_2 by lia.
  - intros x. rewrite T5. destruct w; [|done]. simpl.
    replace (512 * (lba + n)) with (512 * lba + 512 * n) by lia.
    case_bool_decide; [|done]. apply Hiss; lia.
Qed.

End send.

(** ** [read] and [write] *)

Section driver.
Context {F H : Type} `{!MmioBus H, !PortBus H, !Hba H}.
Implicit Types (m : mem) (h : H) (s : astate F H).

(** The state with memory [m] and hardware [h]. *)
Definition at_state s (bm : Bitmap) m h : astate F H :=
  mkA (mkVS (mkP m (Some bm)) (v_kernel (a_v s)) (v_cr3 (a_v s)) (v_flushed (a_v s)))
      h (a_devices s) (a_pci s).

Lemma on_p_run {X} (c : M pstate X) s bm m h x m' :
  c (mkP m (Some bm)) = (Ret x, mkP m' (Some bm)) ->
  ahci.on_p c (at_state s bm m h) = (Ret x, at_state s bm m' h).
Proof. intros E. unfold ahci.on_p, ahci.on_v, vmm.on_p, zoom. simpl. by rewrite E. Qed.

Lemma on_mem_run {X} (c : M mem X) s bm m h x m' :
  c m = (Ret x, m') -> ahci.on_mem c (at_state s bm m h) = (Ret x, at_state s bm m' h).
Proof. intros E. apply on_p_run. unfold Pmm.on_mem, zoom. simpl. by rewrite E. Qed.

Lemma on_bus_run {X} (c : M (mem * H) X) s bm m h x m' h' :
  c (m, h) = (Ret x, (m', h')) ->
  ahci.on_bus c (at_state s bm m h) = (Ret x, at_state s bm m' h').
Proof. intros E. unfold ahci.on_bus, zoom, ahci.bus_of, ahci.put_bus. simpl. by rewrite E. Qed.

Lemma device_at_run i s bm m h d : a_devices s !! Z.to_nat i = Some d ->
  ahci.device_at i (at_state s bm m h) = (Ret d, at_state s bm m h).
Proof. intros E. unfold ahci.device_at, bind, gets. simpl. by rewrite E. Qed.

Definition sector_cnt (offset bytes : Z) : Z := cdiv (bytes + offset mod 512) 512.

Lemma sectors_of_run offset bytes s bm m h :
  0 < bytes -> 0 <= offset -> sector_cnt offset bytes <= 8192 ->
  ahci.sectors_of offset bytes (at_state s bm m h) = (Ret (sector_cnt offset bytes), at_state s bm m h).
Proof.
  intros Hb Ho Hn. pose proof (Z.mod_pos_bound offset 512 ltac:(lia)) as Hm.
  pose proof (cdiv_bounds (bytes + offset mod 512) 512 ltac:(lia)) as Hc.
  pose proof (cdiv_pos (bytes + offset mod 512) 512 ltac:(lia) ltac:(lia)) as Hp.
  unfold sector_cnt in *. unfold ahci.sectors_of, uadd, usize.
  erewrite bind_run by (apply chk_ok; lia). erewrite bind_run by (apply div_ceil_eq; lia).
  unfold ret, as_u, u16. by rewrite Z.mod_small by lia.
Qed.

Lemma copy_run dst src n s bm m h a b :
  phys_of dst = a -> phys_of src = b ->
  ahci.on_mem (copy_from dst src n) (at_state s bm m h) =
    (Ret tt, at_state s bm (copy (Z.to_nat n) m a b) h).
Proof. intros <- <-. by apply on_mem_run. Qed.

Lemma map_seqZ_rd m f a off n : 0 <= n ->
  (forall j, 0 <= j < n -> rd8 m (a + j) = f (off + j)) ->
  rd_bytes (Z.to_nat n) m a = map f (seqZ off n).
Proof.
  intros Hn Hf. rewrite rd_bytes_map, Z2Nat.id by done. apply list_eq. intros i.
  rewrite !list_lookup_fmap. destruct (decide (Z.of_nat i < n)) as [Hi|Hi].
  - rewrite (proj2 (lookup_seqZ a n i (a + Z.of_nat i))), (proj2 (lookup_seqZ off n i (off + Z.of_nat i))) by lia.
    simpl. f_equal. apply Hf. lia.
  - rewrite !lookup_ge_None_2; [done| |]; rewrite length_seqZ; lia.
Qed.

(** The situation in which a transfer between the disk and [buffer] is asked for:
    a port that is idle, a request inside the disk that one command can carry,
    room for the temporary pages, and memory that is the driver's or the
    caller's, not the allocator's. *)
Record request (fuel : nat) (bm : Bitmap) m h (regs p tab offset bytes buffer q : Z) : Prop := {
  rq_pmm : pmm_inv m bm;
  rq_regs : regs_at regs p;
  rq_idle : hba_idle h p;
  rq_fuel : (hba_delay <= fuel)%nat;
  rq_port : port_mem m (hba_view h p) tab;
  rq_clb : kept m bm (pv_clb (hba_view h p)) 32;
  rq_tab : kept m bm tab 144;
  rq_fb : kept m bm (pv_fb (hba_view h p)) RFIS_SIZE;
  rq_bytes : 0 < bytes;
  rq_offset : 0 <= offset /\ offset + bytes <= pv_capacity (hba_view h p);
  rq_sectors : sector_cnt offset bytes <= 8192;
  rq_room : first_fit (test m bm) (frames bm) (cdiv bytes PAGE_SIZE) = Some q;
  rq_buffer : kept m bm (phys_of buffer) bytes;
  rq_clear : forall x, phys_of buffer <= x < phys_of buffer + bytes ->
    ~ in_port (hba_view h p) tab x /\ ~ (pv_clb (hba_view h p) <= x < pv_clb (hba_view h p) + 32);
}.

(** The memory of a request: the driver's and the caller's is in use, and the
    allocator has the temporary pages. *)
Record layout (bm : Bitmap) m (v : pview) (tab bytes buffer q : Z) : Prop := {
  ly_pmm : pmm_inv m bm;
  ly_clb : kept m bm (pv_clb v) 32;
  ly_tab : kept m bm tab 144;
  ly_fb : kept m bm (pv_fb v) RFIS_SIZE;
  ly_bytes : 0 < bytes;
  ly_room : first_fit (test m bm) (frames bm) (cdiv bytes PAGE_SIZE) = Some q;
  ly_buffer : kept m bm (phys_of buffer) bytes;
}.

(** The temporary pages: frames that are free, clear of everything in use. *)
Lemma layout_pages bm m v tab bytes buffer q : layout bm m v tab bytes buffer q ->
  let k := cdiv bytes PAGE_SIZE in
  0 < k /\ 0 < q /\ (q + k) * PAGE_SIZE <= 2 ^ 47 /\
  far (q * PAGE_SIZE) (k * PAGE_SIZE) (pv_clb v) 32 /\
  far (q * PAGE_SIZE) (k * PAGE_SIZE) tab 144 /\
  far (q * PAGE_SIZE) (k * PAGE_SIZE) (pv_fb v) RFIS_SIZE /\
  far (q * PAGE_SIZE) (k * PAGE_SIZE) (phys_of buffer) bytes /\
  far (q * PAGE_SIZE) (k * PAGE_SIZE) (bm_base bm) (bm_len bm).
Proof.
  intros [Hi Hclb Htab Hfb Hb Hf Hbuf] k.
  assert (Hk : 0 < k) by (apply cdiv_pos; unfold PAGE_SIZE; lia).
  pose proof (first_fit_bounds _ _ _ _ Hk Hf) as (Hp & Hle & Hr & _).
  pose proof (first_fit_pos _ _ _ _ Hi Hk Hf) as Hpos. pose proof (pi_addr _ _ Hi) as Ha.
  split_and!; try done; try (unfold PAGE_SIZE in *; lia).
  - eapply kept_run; [exact Hclb|lia|lia|lia|done|done].
  - eapply kept_run; [exact Htab|lia|lia|lia|done|done].
  - eapply kept_run; [exact Hfb|unfold RFIS_SIZE; lia|lia|lia|done|done].
  - eapply kept_run; [exact Hbuf|lia|lia|lia|done|done].
  - pose proof (run_off_storage m bm q k (Z.max (q * PAGE_SIZE) (bm_base bm)) Hi Hp Hle Hr).
    pose proof (bm_len_nonneg _ (pi_wf _ _ Hi)). unfold far, frames, PAGE_SIZE in *. lia.
Qed.

Lemma port_off_bitmap bm m v tab bytes buffer q x : layout bm m v tab bytes buffer q ->
  bm_base bm <= x < bm_base bm + bm_len bm -> ~ in_port v tab x.
Proof.
  intros [_ [_ _ H1] [_ _ H2] [_ _ H3] _ _ _]. unfold in_port, far, RFIS_SIZE in *. lia.
Qed.

(** The sectors fit in the temporary pages. *)
Definition fits_box (offset bytes : Z) : Prop :=
  512 * sector_cnt offset bytes <= cdiv bytes PAGE_SIZE * PAGE_SIZE.

(** That is: the offset inside the first sector plus the bytes fit.  It holds for
    every request that starts at a sector. *)
Lemma fits_box_iff offset bytes : 0 < bytes ->
  fits_box offset bytes <-> offset mod 512 + bytes <= cdiv bytes PAGE_SIZE * PAGE_SIZE.
Proof.
  intros Hb. unfold fits_box, sector_cnt. pose proof (Z.mod_pos_bound offset 512 ltac:(lia)).
  pose proof (cdiv_bounds (bytes + offset mod 512) 512 ltac:(lia)). unfold PAGE_SIZE. lia.
Qed.

Lemma fits_box_aligned offset bytes : 0 < bytes -> offset mod 512 = 0 -> fits_box offset bytes.
Proof.
  intros Hb Ho. apply fits_box_iff; [done|]. rewrite Ho.
  pose proof (cdiv_bounds bytes PAGE_SIZE (eq_refl : 0 < PAGE_SIZE)). lia.
Qed.

(** The bytes from the start of the temporary pages to the end of the pages, and
    of the sectors, when these do not fit. *)
Definition span (offset bytes : Z) : Z :=
  Z.max (cdiv bytes PAGE_SIZE * PAGE_SIZE) (512 * sector_cnt offset bytes).

(** The sectors keep clear of the port, of the caller's buffer and of the
    allocator's bitmap. *)
Record region_ok (bm : Bitmap) (v : pview) (tab offset bytes buffer q : Z) : Prop := {
  rg_xfer : xfer_ok v tab (offset / 512) (sector_cnt offset bytes) (q * PAGE_SIZE);
  rg_bitmap : far (q * PAGE_SIZE) (span offset bytes) (bm_base bm) (bm_len bm);
  rg_buffer : far (q * PAGE_SIZE) (span offset bytes) (phys_of buffer) bytes;
  rg_clb : far (q * PAGE_SIZE) (span offset bytes) (pv_clb v) 32;
}.

Section request.
Context (fuel : nat) (bm : Bitmap) (m : mem) (h : H) (regs p tab offset bytes buffer q : Z).
Context (Hq : request fuel bm m h regs p tab offset bytes buffer q).
Local Abbreviation n := (sector_cnt offset bytes).
Local Abbreviation k := (cdiv bytes PAGE_SIZE).
Local Abbreviation v := (hba_view h p).
Local Abbreviation tmp := (PhysAddr.higher_half (q * PAGE_SIZE)).
Local Abbreviation b := (phys_of buffer).

Lemma request_span :
  0 <= offset / 512 /\ 0 < n /\ 0 <= offset mod 512 < 512 /\ offset = 512 * (offset / 512) + offset mod 512 /\
  offset mod 512 + bytes <= 512 * n /\ 512 * (offset / 512 + n) <= pv_capacity v.
Proof.
  destruct (rq_offset _ _ _ _ _ _ _ _ _ _ _ Hq) as [Ho He].
  pose proof (rq_bytes _ _ _ _ _ _ _ _ _ _ _ Hq) as Hb.
  pose proof (hba_sectors h p) as [Hc _]. set (cap := pv_capacity v) in *.
  pose proof (Z.mod_pos_bound offset 512 ltac:(lia)) as Hm. pose proof (Z.div_mod offset 512 ltac:(lia)) as Hdm.
  pose proof (cdiv_bounds (bytes + offset mod 512) 512 ltac:(lia)) as Hcd. fold (sector_cnt offset bytes) in Hcd.
  pose proof (Z.div_mod cap 512 ltac:(lia)) as Hcm. split_and!; lia.
Qed.

Lemma request_layout : layout bm m v tab bytes buffer q.
Proof. destruct Hq. by split. Qed.

Lemma request_pages :
  0 < k /\ 0 < q /\ (q + k) * PAGE_SIZE <= 2 ^ 47 /\
  far (q * PAGE_SIZE) (k * PAGE_SIZE) (pv_clb v) 32 /\
  far (q * PAGE_SIZE) (k * PAGE_SIZE) tab 144 /\
  far (q * PAGE_SIZE) (k * PAGE_SIZE) (pv_fb v) RFIS_SIZE /\
  far (q * PAGE_SIZE) (k * PAGE_SIZE) b bytes /\
  far (q * PAGE_SIZE) (k * PAGE_SIZE) (bm_base bm) (bm_len bm).
Proof. exact (layout_pages _ _ _ _ _ _ _ request_layout). Qed.

Lemma fits_region : fits_box offset bytes -> region_ok bm v tab offset bytes buffer q.
Proof.
  unfold fits_box. intros Hfit. destruct request_span as (Sl & Sn & Sm & So & Se & Sc).
  destruct request_pages as (Pk & Pq & Pa & Fh & Ft & Ff & Fb & Fbm).
  pose proof (rq_sectors _ _ _ _ _ _ _ _ _ _ _ Hq). unfold far, RFIS_SIZE in *.
  split; unfold span; try split; unfold far, RFIS_SIZE; try done; lia.
Qed.

Context (Hg : region_ok bm v tab offset bytes buffer q).

(** What both operations do first: take the temporary pages and read the sectors
    into them. *)
Record loaded m2 h2 : Prop := {
  ld_idle : hba_idle h2 p;
  ld_sent : port_mem m2 (hba_view h2 p) tab;
  ld_clb : pv_clb (hba_view h2 p) = pv_clb v;
  ld_fb : pv_fb (hba_view h2 p) = pv_fb v;
  ld_capacity : pv_capacity (hba_view h2 p) = pv_capacity v;
  ld_disk : forall x, pv_content (hba_view h2 p) x = pv_content v x;
  ld_data : forall x, 0 <= x < 512 * n ->
    rd8 m2 (q * PAGE_SIZE + x) = pv_content v (512 * (offset / 512) + x);
  ld_frame : forall x, ~ in_port v tab x ->
    ~ (q * PAGE_SIZE <= x < q * PAGE_SIZE + span offset bytes) ->
    ~ (bm_base bm <= x < bm_base bm + bm_len bm) -> rd8 m2 x = rd8 m x;
}.

Lemma tmp_phys : phys_of tmp = q * PAGE_SIZE.
Proof. destruct request_pages as (Pk & Pq & Pa & _). apply phys_higher_half. unfold PAGE_SIZE in *. lia. Qed.

(** The address of the data in the temporary pages. *)
Lemma tmp_data : phys_of (tmp + offset mod 512) = q * PAGE_SIZE + offset mod 512.
Proof.
  destruct request_span as (_ & _ & Sm & _ & Se & _). destruct request_pages as (Pk & Pq & Pa & _).
  rewrite higher_half_add by (unfold PAGE_SIZE in *; lia). apply phys_of_base_add; unfold PAGE_SIZE in *; lia.
Qed.

Lemma load_ok : exists m1 m2 h2,
  pmmbox.new bytes (mkP m (Some bm)) = (Ret (mkBox tmp k), mkP m1 (Some bm)) /\
  taken m m1 bm q k /\
  ahci.send_command fuel regs (offset / 512) n tmp false (m1, h) = (Ret (Some (512 * n)), (m2, h2)) /\
  loaded m2 h2 /\ agree m1 m2 (bm_base bm) (bm_len bm).
Proof.
  destruct Hg as [Hx Gbm Gbuf Gclb]. pose proof Hq as [I1 I2 I3 I4 I5 I6 I7 I8 I9 I10 I11 I12 I13 I14].
  pose proof (hba_sectors h p) as [_ Hcap]. unfold far, span in *.
  destruct (box_new (mkP m (Some bm)) bm bytes q eq_refl I1 ltac:(lia) I12) as (m1 & E1 & Ht & Hi1).
  simpl in Ht.
  assert (Hm1 : forall x, ~ (q * PAGE_SIZE <= x < (q + k) * PAGE_SIZE) ->
            ~ (bm_base bm <= x < bm_base bm + bm_len bm) -> rd8 m1 x = rd8 m x) by apply Ht.
  assert (Hport : port_mem m1 v tab).
  { destruct I5 as [Q1 Q2 Q3]. split; [|done|done]. eapply slot_mem_agree; [exact Q1|].
    intros x Hx'. pose proof (kp_off _ _ _ _ I6). apply Hm1; unfold far in *; lia. }
  rewrite <- tmp_phys in Hx.
  destruct (send_sent fuel regs p m1 h tab (offset / 512) n tmp false I2 I3 I4 Hport Hx)
    as (m2 & h2 & E2 & Hi2 & [T1 T2 T3 T4 T5 T6]). simpl in T5, T6.
  rewrite tmp_phys in T6, Hx. destruct Hx as [X1 X2 X3 X4 X5 X6]. unfold far, RFIS_SIZE in *.
  exists m1, m2, h2. split_and!; [done|done|done| |].
  - split; try done.
    + intros x Hxr. rewrite T6 by (unfold in_port, RFIS_SIZE; lia).
      rewrite bool_decide_eq_true_2 by lia. f_equal. lia.
    + intros x Hp Hs Hbm. unfold span in Hs. rewrite T6 by done.
      rewrite bool_decide_eq_false_2 by lia. apply Hm1; lia.
  - intros x Hxb. rewrite T6 by (by eapply port_off_bitmap; [apply request_layout|]). by rewrite bool_decide_eq_false_2 by lia.
Qed.

(** What holds after both operations: the port works as before, the allocator has
    its pages back, and memory changed only where it may. *)
Record served m' h' (touched : Z -> Prop) : Prop := {
  sv_idle : hba_idle h' p;
  sv_pmm : pmm_inv m' bm;
  sv_bits : forall j, 0 <= j < frames bm -> test m' bm j = test m bm j;
  sv_port : port_mem m' (hba_view h' p) tab;
  sv_clb : pv_clb (hba_view h' p) = pv_clb v;
  sv_fb : pv_fb (hba_view h' p) = pv_fb v;
  sv_capacity : pv_capacity (hba_view h' p) = pv_capacity v;
  sv_frame : forall x, ~ touched x -> ~ in_port v tab x ->
    ~ (q * PAGE_SIZE <= x < q * PAGE_SIZE + span offset bytes) ->
    ~ (bm_base bm <= x < bm_base bm + bm_len bm) -> rd8 m' x = rd8 m x;
}.

(** What both do last: give the temporary pages back. *)
Lemma unload_ok m1 m3 h3 touched :
  taken m m1 bm q k -> agree m1 m3 (bm_base bm) (bm_len bm) ->
  hba_idle h3 p -> port_mem m3 (hba_view h3 p) tab -> pv_clb (hba_view h3 p) = pv_clb v ->
  pv_fb (hba_view h3 p) = pv_fb v -> pv_capacity (hba_view h3 p) = pv_capacity v ->
  (forall x, ~ touched x -> ~ in_port v tab x ->
     ~ (q * PAGE_SIZE <= x < q * PAGE_SIZE + span offset bytes) ->
     ~ (bm_base bm <= x < bm_base bm + bm_len bm) -> rd8 m3 x = rd8 m x) ->
  exists m4, pmmbox.drop (mkBox tmp k) (mkP m3 (Some bm)) = (Ret tt, mkP m4 (Some bm)) /\
    only m3 m4 (bm_base bm) (bm_len bm) /\ served m4 h3 touched.
Proof.
  intros Ht Hag Hidle Hport Ec Ef Ecap Hfr. destruct request_pages as (Pk & _).
  destruct (box_drop m m1 m3 bm q _ (rq_pmm _ _ _ _ _ _ _ _ _ _ _ Hq) Pk
              (rq_room _ _ _ _ _ _ _ _ _ _ _ Hq) Ht Hag) as (m4 & E4 & Hbits & Honly & Hi4).
  exists m4. split; [done|]. split; [done|]. split; try done.
  - destruct Hport as [Q1 Q2 Q3]. split; [|done|done]. eapply slot_mem_agree; [exact Q1|].
    intros x Hx. apply Honly. rewrite Ec in Hx.
    pose proof (kp_off _ _ _ _ (rq_clb _ _ _ _ _ _ _ _ _ _ _ Hq)). unfold far in *. lia.
  - intros x H1 H2 H3 H4. rewrite Honly by done. by apply Hfr.
Qed.

Lemma read_run s i : a_devices s !! Z.to_nat i = Some regs ->
  exists m' h', ahci.read fuel i offset bytes buffer (at_state s bm m h) =
      (Ret (Some (512 * n)), at_state s bm m' h') /\
    rd_bytes (Z.to_nat bytes) m' b = map (pv_content v) (seqZ offset bytes) /\
    (forall x, pv_content (hba_view h' p) x = pv_content v x) /\
    (forall x, 0 <= x < 512 * n -> ~ (b <= q * PAGE_SIZE + x < b + bytes) ->
       rd8 m' (q * PAGE_SIZE + x) = pv_content v (512 * (offset / 512) + x)) /\
    served m' h' (fun x => b <= x < b + bytes).
Proof.
  intros Hd. destruct load_ok as (m1 & m2 & h2 & E1 & Ht & E2 & Hld & Hag).
  destruct request_span as (Sl & Sn & Sm & So & Se & Sc). destruct Hg as [Hx Gbm Gbuf Gclb].
  pose proof (rq_bytes _ _ _ _ _ _ _ _ _ _ _ Hq) as Hb.
  pose proof (kp_off _ _ _ _ (rq_buffer _ _ _ _ _ _ _ _ _ _ _ Hq)) as Hboff.
  pose proof (rq_clear _ _ _ _ _ _ _ _ _ _ _ Hq) as Hclear. unfold far, span in *.
  set (m3 := copy (Z.to_nat bytes) m2 b (q * PAGE_SIZE + offset mod 512)).
  assert (Hm3 : forall x, rd8 m3 x = if decide (b <= x < b + bytes)
            then pv_content v (offset + (x - b)) else rd8 m2 x).
  { intros x. unfold m3. rewrite rd8_copy, Z2Nat.id by lia. case_decide; [|done].
    rewrite <- Z.add_assoc, (ld_data _ _ Hld) by lia. f_equal. lia. }
  destruct (unload_ok m1 m3 h2 (fun x => b <= x < b + bytes) Ht) as (m4 & E4 & Honly & Hsv); try apply Hld.
  { intros x Hx'. rewrite Hm3, decide_False by lia. by apply Hag. }
  { destruct (ld_sent _ _ Hld) as [Q1 Q2 Q3]. split; [|done|done].
    eapply slot_mem_agree; [exact Q1|]. rewrite (ld_clb _ _ Hld). intros x Hx'.
    rewrite Hm3, decide_False; [done|]. intros Hb'. destruct (Hclear x Hb') as [_ Hc]. lia. }
  { intros x H1 H2 H3 H4. rewrite Hm3, decide_False by done. by apply Hld. }
  exists m4, h2. split_and!; [|apply map_seqZ_rd; [lia|]|apply Hld| |done].
  - unfold ahci.read. erewrite bind_run by (by apply device_at_run).
    erewrite bind_run by (apply on_p_run; exact E1). cbn [pb_data].
    erewrite bind_run by (apply sectors_of_run; [done|lia|apply Hq]).
    erewrite bind_run by (apply on_bus_run; exact E2). cbv iota beta.
    erewrite bind_run.
    2:{ erewrite bind_run by (by apply copy_run; [|apply tmp_data]). reflexivity. }
    by erewrite bind_run by (apply on_p_run; exact E4).
  - intros j Hj. rewrite Honly by lia. rewrite Hm3, decide_True by lia. f_equal. lia.
  - intros x Hx' Hnb. rewrite Honly by lia. rewrite Hm3, decide_False by done. by apply Hld.
Qed.

(** The second half of [write]: the caller's bytes go over the sectors, and the
    sectors to the disk. *)
Lemma store_ok m2 h2 : loaded m2 h2 ->
  exists m4 h4,
    ahci.send_command fuel regs (offset / 512) n tmp true
      (copy (Z.to_nat bytes) m2 (q * PAGE_SIZE + offset mod 512) b, h2) = (Ret (Some (512 * n)), (m4, h4)) /\
    hba_idle h4 p /\ port_mem m4 (hba_view h4 p) tab /\ pv_clb (hba_view h4 p) = pv_clb v /\
    pv_fb (hba_view h4 p) = pv_fb v /\ pv_capacity (hba_view h4 p) = pv_capacity v /\
    (forall x, pv_content (hba_view h4 p) x =
       if decide (offset <= x < offset + bytes) then rd8 m (b + (x - offset)) else pv_content v x) /\
    (forall x, ~ in_port v tab x -> ~ (q * PAGE_SIZE <= x < q * PAGE_SIZE + span offset bytes) ->
       rd8 m4 x = rd8 m2 x).
Proof.
  intros Hld. destruct request_span as (Sl & Sn & Sm & So & Se & Sc). destruct Hg as [Hx Gbm Gbuf Gclb].
  pose proof (rq_bytes _ _ _ _ _ _ _ _ _ _ _ Hq) as Hb.
  pose proof (kp_off _ _ _ _ (rq_buffer _ _ _ _ _ _ _ _ _ _ _ Hq)) as Hboff.
  pose proof (rq_clear _ _ _ _ _ _ _ _ _ _ _ Hq) as Hclear. unfold far, span in *.
  set (t := q * PAGE_SIZE) in *. set (m3 := copy (Z.to_nat bytes) m2 (t + offset mod 512) b).
  assert (Hm3 : forall x, rd8 m3 x = if decide (t + offset mod 512 <= x < t + offset mod 512 + bytes)
            then rd8 m (b + (x - (t + offset mod 512))) else rd8 m2 x).
  { intros x. unfold m3. rewrite rd8_copy, Z2Nat.id by lia. case_decide; [|done].
    apply Hld; [apply Hclear; lia|unfold span; lia|lia]. }
  destruct (send_sent fuel regs p m3 h2 tab (offset / 512) n tmp true)
    as (m4 & h4 & E4 & Hi4 & [T1 T2 T3 T4 T5 T6]); [apply Hq|apply Hld|apply Hq| | |].
  { destruct (ld_sent _ _ Hld) as [Q1 Q2 Q3]. split; [|done|done].
    eapply slot_mem_agree; [exact Q1|]. rewrite (ld_clb _ _ Hld). intros x Hx'.
    rewrite Hm3, decide_False by lia. done. }
  { rewrite tmp_phys. destruct Hx as [X1 X2 X3 X4 X5 X6].
    split; rewrite ?(ld_clb _ _ Hld), ?(ld_fb _ _ Hld), ?(ld_capacity _ _ Hld); done. }
  simpl in T5, T6. rewrite tmp_phys in T5. fold t in T5.
  rewrite (ld_clb _ _ Hld) in T3. rewrite (ld_fb _ _ Hld) in T4. rewrite (ld_capacity _ _ Hld) in T2.
  exists m4, h4. split_and!; try done.
  - intros x. rewrite T5. case_bool_decide as Hin.
    + rewrite Hm3. repeat case_decide; try lia; [f_equal; lia|].
      rewrite (ld_data _ _ Hld) by lia. f_equal. lia.
    + rewrite decide_False by lia. apply Hld.
  - intros x Hp Hs. rewrite T6. 2:{ unfold in_port in *. by rewrite (ld_clb _ _ Hld), (ld_fb _ _ Hld). }
    rewrite Hm3, decide_False by (unfold span in Hs; lia). done.
Qed.

Lemma write_run s i : a_devices s !! Z.to_nat i = Some regs ->
  exists m' h', ahci.write fuel i offset bytes buffer (at_state s bm m h) =
      (Ret (Some (512 * n)), at_state s bm m' h') /\
    (forall x, pv_content (hba_view h' p) x =
       if decide (offset <= x < offset + bytes) then rd8 m (b + (x - offset)) else pv_content v x) /\
    served m' h' (fun _ => False).
Proof.
  intros Hd. destruct load_ok as (m1 & m2 & h2 & E1 & Ht & E2 & Hld & Hag).
  destruct (store_ok m2 h2 Hld) as (m4 & h4 & E4 & Hi4 & Hp4 & Ec & Ef & Ecap & Hcont & Hm4).
  destruct (rq_offset _ _ _ _ _ _ _ _ _ _ _ Hq) as [Ho _].
  destruct (unload_ok m1 m4 h4 (fun _ => False) Ht) as (m5 & E5 & Honly & Hsv); try done.
  { intros x Hx'. pose proof (rg_bitmap _ _ _ _ _ _ _ Hg).
    rewrite Hm4; [by apply Hag|by eapply port_off_bitmap; [apply request_layout|]|unfold far in *; lia]. }
  { intros x _ H2 H3 H4. rewrite Hm4 by done. by apply Hld. }
  exists m5, h4. split_and!; [|done|done].
  unfold ahci.write. erewrite bind_run by (by apply device_at_run).
  erewrite bind_run by (apply on_p_run; exact E1). cbn [pb_data].
  erewrite bind_run by (apply sectors_of_run; [apply Hq|done|apply Hq]).
  erewrite bind_run by (apply on_bus_run; exact E2). cbv iota beta.
  erewrite bind_run.
  2:{ erewrite bind_run by (apply copy_run; [apply tmp_data|reflexivity]). apply on_bus_run. exact E4. }
  by erewrite bind_run by (apply on_p_run; exact E5).
Qed.

End request.

End driver.

(** ** A command that fails *)

Section fault.
Context {H : Type} `{!MmioBus H, !FaultyHba H}.
Implicit Types (m : mem) (h : H).

(** The polling loop ends with the error seen, or with the bit clear and the error
    to be seen. *)
Lemma wait_failing self p slot c s0 fuel : regs_at self p -> 0 <= slot < 32 ->
  forall n s, hf_failing p slot c s0 n s -> (n <= fuel)%nat ->
  exists ok s' n', ahci.wait self slot fuel s = (Ret ok, s') /\ hf_failing p slot c s0 n' s' /\
    (ok = true -> n' = 0%nat).
Proof.
  intros Hr Hslot. induction fuel as [|fuel IH]; intros n s Hf Hn.
  all: destruct (hf_poll _ _ _ _ _ _ Hf) as (v & s1 & n1 & E & Hf1 & Hn1 & Hclear); cbn [ahci.wait].
  all: erewrite bind_run by (by eapply (get_reg self p); [done|unfold PortRegisters.ci; lia|exact E]).
  all: rewrite bit_clear, negb_involutive by lia.
  all: destruct (Z.testbit v slot); [|by exists true, s1, n1; auto].
  all: destruct (hf_status _ _ _ _ _ _ Hf1) as (w & s2 & n2 & E2 & Hf2 & Hw).
  all: erewrite bind_run by (by eapply (get_reg self p); [done|unfold PortRegisters.interrupt_status; lia|exact E2]).
  all: rewrite bit_clear, negb_involutive by lia.
  all: destruct (Z.testbit w 30); [by exists false, s2, n2|].
  all: destruct Hw as [[=]|Hlt].
  - lia.
  - apply (IH n2); [done|lia].
Qed.

(** [send_command] reports the error; memory changed in the port's structures and
    the region of a read. *)
Lemma send_failing fuel self p m h tab lba n buffer w :
  let v := hf_view h p in
  regs_at self p -> hf_idle h p -> (hf_delay <= fuel)%nat -> slot_mem m (pv_clb v) tab ->
  0 <= lba < 2 ^ 48 -> 0 < n <= 8192 ->
  exists m' h', ahci.send_command fuel self lba n buffer w (m, h) = (Ret None, (m', h')) /\
    forall x, ~ in_port v tab x -> (w = true \/ ~ (phys_of buffer <= x < phys_of buffer + 512 * n)) ->
      rd8 m' x = rd8 m x.
Proof.
  intros v Hr Hi Hf Hs Hl Hn. pose proof (phys_of_range buffer) as Hb. set (hdr := pv_clb v) in *.
  destruct (built_command m hdr tab lba n (phys_of buffer) w Hs Hl Hn Hb) as [Hcmd _].
  fold (issued m hdr tab lba n buffer w) in Hcmd. set (m1 := issued m hdr tab lba n buffer w) in *.
  destruct (hf_issue h p m1 0 (cmd_of lba n buffer w) Hi ltac:(lia)) as (j & s1 & Hj & E & Hf1).
  { fold v hdr. by rewrite Z.mul_0_r, Z.add_0_r. }
  destruct (wait_failing self p 0 _ _ fuel Hr ltac:(lia) j s1 Hf1 ltac:(lia)) as (ok & s2 & j2 & Ew & Hf2 & Hok).
  pose proof (hf_regs h p Hi) as Hir. fold v hdr in Hir.
  assert (Hend : exists s3 j3, ahci.send_command fuel self lba n buffer w (m, h) = (Ret None, s3) /\
            hf_failing p 0 (cmd_of lba n buffer w) (m1, h) j3 s3).
  { rewrite (send_prefix fuel self p hdr m h tab) by done. fold m1.
    erewrite bind_run.
    2:{ unfold io.set, PortRegisters.ci. rewrite (reg_addr self p) by (done || lia). exact E. }
    erewrite bind_run by exact Ew. destruct ok; cbn [negb]; [|by exists s2, j2].
    rewrite (Hok eq_refl) in Hf2. destruct (hf_status _ _ _ _ _ _ Hf2) as (u & s3 & j3 & Eu & Hf3 & [Hu|]); [|lia].
    exists s3, j3. split; [|done].
    erewrite bind_run by (by eapply (get_reg self p); [done|unfold PortRegisters.interrupt_status; lia|exact Eu]).
    by rewrite bit_clear, Hu by lia. }
  destruct Hend as ([m3 h3] & j3 & Es & Hf3). exists m3, h3. split; [done|]. intros x Hx Hreg.
  pose proof (hf_effect _ _ _ _ _ _ Hf3) as He. simpl in He. fold v hdr in He.
  unfold in_port in Hx. fold hdr in Hx. rewrite He by (lia || done). unfold m1, issued.
  rewrite (table_mem_only (head_mem m hdr w) tab) by lia. apply head_mem_only. lia.
Qed.

(** A request to such a port: it need not be inside the disk. *)
Record fault_request (fuel : nat) (bm : Bitmap) m h (regs p tab offset bytes buffer q : Z) : Prop := {
  fr_layout : layout bm m (hf_view h p) tab bytes buffer q;
  fr_regs : regs_at regs p;
  fr_idle : hf_idle h p;
  fr_fuel : (hf_delay <= fuel)%nat;
  fr_slot : slot_mem m (pv_clb (hf_view h p)) tab;
  fr_offset : 0 <= offset < 512 * 2 ^ 48;
  fr_sectors : sector_cnt offset bytes <= 8192;
  fr_clear : forall x, phys_of buffer <= x < phys_of buffer + bytes -> ~ in_port (hf_view h p) tab x;
}.

(** The two halves of the operations: the temporary pages are taken and the
    command fails; the pages are given back. *)
Lemma load_failing fuel bm m h regs p tab offset bytes buffer q :
  fault_request fuel bm m h regs p tab offset bytes buffer q -> fits_box offset bytes ->
  let tmp := mkBox (PhysAddr.higher_half (q * PAGE_SIZE)) (cdiv bytes PAGE_SIZE) in
  exists m1 m2 h2 m3,
    pmmbox.new bytes (mkP m (Some bm)) = (Ret tmp, mkP m1 (Some bm)) /\
    ahci.send_command fuel regs (offset / 512) (sector_cnt offset bytes) (pb_data tmp) false (m1, h) =
      (Ret None, (m2, h2)) /\
    pmmbox.drop tmp (mkP m2 (Some bm)) = (Ret tt, mkP m3 (Some bm)) /\
    pmm_inv m3 bm /\ (forall j, 0 <= j < frames bm -> test m3 bm j = test m bm j) /\
    (forall x, ~ in_port (hf_view h p) tab x ->
       ~ (q * PAGE_SIZE <= x < (q + cdiv bytes PAGE_SIZE) * PAGE_SIZE) ->
       ~ (bm_base bm <= x < bm_base bm + bm_len bm) -> rd8 m3 x = rd8 m x).
Proof.
  intros [Hly Hr Hi Hf Hs Ho Hn Hc] Hfit tmp. pose proof (layout_pages _ _ _ _ _ _ _ Hly) as (Pk & Pq & Pa & Fh & Ft & Ff & Fb & Fbm).
  pose proof (fun x => port_off_bitmap _ _ _ _ _ _ _ x Hly) as Hoff.
  pose proof Hly as [Hpm Kc _ _ Hb Hroom _].
  pose proof (cdiv_bounds bytes PAGE_SIZE (eq_refl : 0 < PAGE_SIZE)) as Hcb.
  pose proof (Z.mod_pos_bound offset 512 ltac:(lia)) as Hm.
  pose proof (cdiv_bounds (bytes + offset mod 512) 512 ltac:(lia)) as Hsc. fold (sector_cnt offset bytes) in Hsc.
  destruct (box_new (mkP m (Some bm)) bm bytes q eq_refl Hpm ltac:(lia) Hroom) as (m1 & E1 & Ht & _).
  cbn [p_mem] in Ht. pose proof (kp_off _ _ _ _ Kc) as Hkc. unfold far, fits_box in *.
  assert (Hs1 : slot_mem m1 (pv_clb (hf_view h p)) tab).
  { eapply slot_mem_agree; [exact Hs|]. intros x Hx. apply (tk_frame _ _ _ _ _ Ht); lia. }
  destruct (send_failing fuel regs p m1 h tab (offset / 512) (sector_cnt offset bytes) (pb_data tmp) false
              Hr Hi Hf Hs1) as (m2 & h2 & E2 & Hfr); [split; [apply Z.div_pos|apply Z.div_lt_upper_bound]; lia|lia|].
  cbn [pb_data tmp] in Hfr. rewrite phys_higher_half in Hfr by (unfold PAGE_SIZE in *; lia).
  destruct (box_drop m m1 m2 bm q _ Hpm Pk Hroom Ht) as (m3 & E3 & Hbits & Honly & Hi3).
  { intros x Hx. apply Hfr; [by apply Hoff|right; lia]. }
  exists m1, m2, h2, m3. split_and!; try done. intros x H1 H2 H3. rewrite Honly, Hfr by (done || lia || (right; lia)).
  by apply (tk_frame _ _ _ _ _ Ht).
Qed.

End fault.

(** ** A controller with one port

    It serves a command on the third poll, from a disk in a map. *)

Record hbasim := mkHba {
  hb_pci : pcisim;
  hb_port : Z;
  hb_disk : mem;
  hb_sectors : Z;
  hb_clb : Z;
  hb_fb : Z;
  hb_pending : option (Z * nat);
}.

#[export] Instance hbasim_ports : PortBus hbasim := {
  port_in w p := zoom hb_pci (fun x h => mkHba x (hb_port h) (hb_disk h) (hb_sectors h) (hb_clb h) (hb_fb h) (hb_pending h))
                      (port_in w p);
  port_out w p v := zoom hb_pci (fun x h => mkHba x (hb_port h) (hb_disk h) (hb_sectors h) (hb_clb h) (hb_fb h) (hb_pending h))
                      (port_out w p v);
}.

Definition with_pending (h : hbasim) (x : option (Z * nat)) : hbasim :=
  mkHba (hb_pci h) (hb_port h) (hb_disk h) (hb_sectors h) (hb_clb h) (hb_fb h) x.

Definition sim_view (h : hbasim) : pview :=
  mkView (rd8 (hb_disk h)) (512 * (hb_sectors h mod 2 ^ 48)) (hb_clb h mod 2 ^ 64) (hb_fb h).

(** Run the command in slot [slot]. *)
Definition execute (slot : Z) (m : mem) (h : hbasim) : mem * hbasim :=
  let hdr := pv_clb (sim_view h) + 32 * slot in
  match command_at m hdr with
  | None => (m, with_pending h None)
  | Some c =>
      let n := Z.to_nat (c_bytes c) in
      if c_write c then
        (wr32 m (hdr + 4) (c_bytes c),
         mkHba (hb_pci h) (hb_port h) (wr_bytes (hb_disk h) (512 * c_lba c) (rd_bytes n m (c_addr c)))
               (hb_sectors h) (hb_clb h) (hb_fb h) None)
      else
        (wr32 (wr_bytes m (c_addr c) (rd_bytes n (hb_disk h) (512 * c_lba c))) (hdr + 4) (c_bytes c),
         with_pending h None)
  end.

#[export] Instance hbasim_bus : MmioBus hbasim := {
  bus_read w a := fun '(m, h) =>
    if a =? hb_port h + 0x00 then (Ret (pv_clb (sim_view h) mod 2 ^ 32), (m, h))
    else if a =? hb_port h + 0x04 then (Ret (pv_clb (sim_view h) / 2 ^ 32), (m, h))
    else if a =? hb_port h + 0x38 then
      match hb_pending h with
      | None => (Ret 0, (m, h))
      | Some (slot, O) => (Ret 0, execute slot m h)
      | Some (slot, S j) => (Ret (2 ^ slot), (m, with_pending h (Some (slot, j))))
      end
    else (Ret 0, (m, h));
  bus_write w a v := fun '(m, h) =>
    if a =? hb_port h + 0x38 then (Ret tt, (m, with_pending h (Some (Z.log2 v, 2%nat))))
    else (Ret tt, (m, h));
}.

Lemma rd8_move n m d a b x :
  rd8 (wr_bytes m a (rd_bytes n d b)) x =
    if decide (a <= x < a + Z.of_nat n) then rd8 d (b + (x - a)) else rd8 m x.
Proof.
  rewrite rd8_wr_bytes, rd_bytes_length. case_decide as Hx; [|done].
  rewrite lookup_rd_bytes by lia. simpl. rewrite Z2Nat.id by lia. apply Z.mod_small, rd8_range.
Qed.

Lemma command_bytes m hdr c : command_at m hdr = Some c -> 0 < c_bytes c <= 2 ^ 22.
Proof.
  unfold command_at. case_match; [|done]. intros [= <-]. simpl.
  pose proof (Z.mod_pos_bound (rd32 m (table_addr m hdr + 140)) (2 ^ 22)). lia.
Qed.

Lemma execute_ok slot m h c :
  let hdr := pv_clb (sim_view h) + 32 * slot in
  command_at m hdr = Some c -> cmd_ok (sim_view h) hdr c ->
  transferred c hdr m (sim_view h) (fst (execute slot m h)) (sim_view (snd (execute slot m h))) /\
  hb_pending (snd (execute slot m h)) = None /\ hb_port (snd (execute slot m h)) = hb_port h.
Proof.
  intros hdr Hc [K1 K2 K3 K4 K5 K6 K7]. pose proof (command_bytes _ _ _ Hc) as Hb. unfold far in *.
  unfold execute. fold hdr. rewrite Hc. destruct (c_write c) eqn:Ew; simpl; (split; [|done]).
  all: split; [|done|done|done| |]; rewrite ?Ew; simpl.
  all: try (rewrite rdn_wrn_eq; apply Z.mod_small; change (256 ^ Z.of_nat 4) with (2 ^ 32); lia).
  - intros x. rewrite rd8_move, Z2Nat.id by lia. repeat case_decide; case_bool_decide; done || lia.
  - intros x _ Hx. apply rd8_wrn_frame. simpl. lia.
  - done.
  - intros x _ Hx. rewrite rd8_wrn_frame by (simpl; lia). rewrite rd8_move, Z2Nat.id by lia.
    case_decide; case_bool_decide; done || lia.
Qed.

Definition sim_running (p slot : Z) (c : command) (s0 : mem * hbasim) (n : nat) (s : mem * hbasim) : Prop :=
  let hdr := pv_clb (sim_view (snd s0)) + 32 * slot in
  p = hb_port (snd s0) /\ 0 <= slot < 32 /\ command_at (fst s0) hdr = Some c /\
  cmd_ok (sim_view (snd s0)) hdr c /\
  exists j, n = S j /\ s = (fst s0, with_pending (snd s0) (Some (slot, j))).

#[export] Instance hbasim_hba : Hba hbasim.
Proof.
  refine {| hba_view := fun h _ => sim_view h;
            hba_idle := fun h p => p = hb_port h /\ hb_pending h = None;
            hba_running := sim_running; hba_delay := 3%nat |}.
  - intros h _ x. apply rd8_range.
  - intros h _. simpl. split; [rewrite Z.mul_comm; apply Z.mod_mul; lia|].
    pose proof (Z.mod_pos_bound (hb_sectors h) (2 ^ 48)). lia.
  - intros h p [-> Hp]. split; cbn [bus_read hbasim_bus].
    + apply Z.mod_pos_bound. lia.
    + intros m. rewrite Z.eqb_refl. split; [done|].
      rewrite (proj2 (Z.eqb_neq (hb_port h + 4) (hb_port h + 0))) by lia. by rewrite Z.eqb_refl.
    + intros m. rewrite Hp. split; repeat (case_match; [lia || done|]); done.
  - intros h p m [-> Hp]. exists 0. cbn [bus_read hbasim_bus]. split; [|apply Z.bits_0].
    repeat (case_match; [lia|]); done.
  - intros h p m slot c [-> Hp] Hs Hc Hok. exists 3%nat, (m, with_pending h (Some (slot, 2%nat))).
    split; [lia|]. cbn [bus_write hbasim_bus]. rewrite Z.eqb_refl, Z.log2_pow2 by lia. split; [done|].
    split_and!; try done; try lia. by exists 2%nat.
  - intros p slot c s0 n s (-> & Hs & Hc & Hok & j & -> & ->). destruct s0 as [m h]. simpl in *.
    assert (E4 : (hb_port h + 56 =? hb_port h + 4) = false) by (apply Z.eqb_neq; lia).
    assert (E0 : (hb_port h + 56 =? hb_port h + 0) = false) by (apply Z.eqb_neq; lia).
    rewrite E4, E0, Z.eqb_refl. destruct j as [|j].
    + eexists 0, _. split; [reflexivity|]. right. split; [apply Z.bits_0|].
      destruct (execute_ok slot m (with_pending h (Some (slot, 0%nat))) c Hc Hok) as (Ht & Hpe & Hpo).
      split; [|exact Ht]. by rewrite Hpo.
    + eexists _, _. split; [reflexivity|]. left. split; [by rewrite Z.pow2_bits_true by lia|].
      exists (S j). split; [lia|]. split_and!; try done; try lia. by exists j.
  - intros p slot c s0 n s (-> & Hs & Hc & Hok & j & -> & ->). destruct s0 as [m h].
    exists 0. eexists. split; [|split; [apply Z.bits_0|]].
    + cbn [bus_read hbasim_bus fst snd hb_port with_pending]. repeat (case_match; [lia|]). reflexivity.
    + split_and!; try done; try lia. by exists j.
Defined.

(** ** Properties *)

Section claims.
Context {F H : Type} `{!MmioBus H, !PortBus H, !Hba H}.
Implicit Types (m : mem) (h : H) (s : astate F H).

(** C10.  [ahci::read] implements the read of a disk, for a request that is inside the
    disk, of at most 8192 sectors, and whose sectors fit in the temporary pages
    ([fits_box]): the buffer gets the bytes of the disk at that byte offset,
    aligned or not; the disk is unchanged; the page allocator has its temporary
    pages back; memory outside the buffer, the temporary pages, the port's own
    structures and the allocator's bitmap is unchanged. *)
Theorem ahci_read_correct fuel s bm m h i regs p tab offset bytes buffer q :
  a_devices s !! Z.to_nat i = Some regs ->
  request fuel bm m h regs p tab offset bytes buffer q -> fits_box offset bytes ->
  exists m' h', ahci.read fuel i offset bytes buffer (at_state s bm m h) =
      (Ret (Some (512 * sector_cnt offset bytes)), at_state s bm m' h') /\
    rd_bytes (Z.to_nat bytes) m' (phys_of buffer) = map (pv_content (hba_view h p)) (seqZ offset bytes) /\
    (forall x, pv_content (hba_view h' p) x = pv_content (hba_view h p) x) /\
    served bm m h p tab offset bytes q m' h' (fun x => phys_of buffer <= x < phys_of buffer + bytes).
Proof.
  intros Hd Hq Hf. pose proof (fits_region _ _ _ _ _ _ _ _ _ _ _ Hq Hf) as Hg.
  destruct (read_run _ _ _ _ _ _ _ _ _ _ _ Hq Hg s i Hd) as (m' & h' & E & Hr & Hc & _ & Hs). eauto 10.
Qed.

(** C11.  [ahci::write] implements the write of a disk, for a request that is inside
    the disk, of at most 8192 sectors, and whose sectors fit in the temporary
    pages ([fits_box]): exactly the bytes asked for change, to those of the
    buffer, also when the request starts or ends inside a sector; memory outside
    the temporary pages, the port's own structures and the allocator's bitmap is
    unchanged. *)
Theorem ahci_write_correct fuel s bm m h i regs p tab offset bytes buffer q :
  a_devices s !! Z.to_nat i = Some regs ->
  request fuel bm m h regs p tab offset bytes buffer q -> fits_box offset bytes ->
  exists m' h', ahci.write fuel i offset bytes buffer (at_state s bm m h) =
      (Ret (Some (512 * sector_cnt offset bytes)), at_state s bm m' h') /\
    (forall x, pv_content (hba_view h' p) x =
       if decide (offset <= x < offset + bytes) then rd8 m (phys_of buffer + (x - offset))
       else pv_content (hba_view h p) x) /\
    served bm m h p tab offset bytes q m' h' (fun _ => False).
Proof.
  intros Hd Hq Hf. pose proof (fits_region _ _ _ _ _ _ _ _ _ _ _ Hq Hf) as Hg.
  apply (write_run _ _ _ _ _ _ _ _ _ _ _ Hq Hg s i Hd).
Qed.

(** C37.  A read whose sectors do not fit in the temporary pages, the temporary pages
    and the sector behind them being clear of the port, the bitmap and the
    caller's buffer: the driver takes the [k] frames from [q], the transfer is
    one sector longer than these, and the first 512 bytes of the frame behind
    them get the content of the disk.  That frame is not one the driver took: it
    is in use or free during and after the transfer as it was before. *)
Theorem ahci_read_overruns fuel s bm m h i regs p tab offset bytes buffer q :
  a_devices s !! Z.to_nat i = Some regs ->
  request fuel bm m h regs p tab offset bytes buffer q ->
  region_ok bm (hba_view h p) tab offset bytes buffer q ->
  ~ fits_box offset bytes ->
  let k := cdiv bytes PAGE_SIZE in
  exists m1 m' h',
    pmmbox.new bytes (mkP m (Some bm)) =
      (Ret (mkBox (PhysAddr.higher_half (q * PAGE_SIZE)) k), mkP m1 (Some bm)) /\
    ahci.read fuel i offset bytes buffer (at_state s bm m h) =
      (Ret (Some (512 * sector_cnt offset bytes)), at_state s bm m' h') /\
    512 * sector_cnt offset bytes = k * PAGE_SIZE + 512 /\
    (forall x, 0 <= x < 512 -> rd8 m' ((q + k) * PAGE_SIZE + x) =
       pv_content (hba_view h p) (512 * (offset / 512) + k * PAGE_SIZE + x)) /\
    (q + k < frames bm -> test m1 bm (q + k) = test m bm (q + k) /\ test m' bm (q + k) = test m bm (q + k)).
Proof.
  intros Hd Hq Hg Hno k.
  destruct (load_ok _ _ _ _ _ _ _ _ _ _ _ Hq Hg) as (m1 & _ & _ & E1 & Ht & _).
  destruct (read_run _ _ _ _ _ _ _ _ _ _ _ Hq Hg s i Hd) as (m' & h' & E & _ & _ & Hdata & Hsv).
  destruct (request_pages _ _ _ _ _ _ _ _ _ _ _ Hq) as (Pk & Pq & _). fold k in Pk, E1, Ht.
  assert (En : 512 * sector_cnt offset bytes = k * PAGE_SIZE + 512).
  { unfold fits_box in Hno. fold k in Hno. pose proof (Z.mod_pos_bound offset 512 ltac:(lia)) as Hm.
    pose proof (cdiv_bounds (bytes + offset mod 512) 512 ltac:(lia)) as Hsc.
    fold (sector_cnt offset bytes) in Hsc.
    pose proof (cdiv_bounds bytes PAGE_SIZE (eq_refl : 0 < PAGE_SIZE)) as Hcb. fold k in Hcb.
    unfold PAGE_SIZE in *. lia. }
  exists m1, m', h'. split_and!; [done|done|done| |].
  - intros x Hx. pose proof (rg_buffer _ _ _ _ _ _ _ Hg) as Hbuf. unfold far, span in Hbuf.
    fold k in Hbuf. rewrite En in Hbuf, Hdata.
    replace ((q + k) * PAGE_SIZE + x) with (q * PAGE_SIZE + (k * PAGE_SIZE + x)) by lia.
    rewrite Hdata by (unfold PAGE_SIZE in *; lia). f_equal. lia.
  - intros Hlt. split; [|apply Hsv; lia]. rewrite (tk_bits _ _ _ _ _ Ht) by lia. by rewrite decide_False by lia.
Qed.

End claims.

Section fault_claims.
Context {F H : Type} `{!MmioBus H, !PortBus H, !FaultyHba H}.
Implicit Types (m : mem) (h : H) (s : astate F H).

(** C38.  The error paths: on a port that answers the first command with a task file
    error, whether it clears the command's bit in [CI] or not, [ahci::read] and
    [ahci::write] of at most 8192 sectors that fit in the temporary pages end
    with [Err]; every byte of the caller's buffer is what it was before the
    call, the temporary pages are free again, and memory outside them, the
    port's own structures and the allocator's bitmap is unchanged. *)
Theorem ahci_read_error fuel s bm m h i regs p tab offset bytes buffer q :
  a_devices s !! Z.to_nat i = Some regs ->
  fault_request fuel bm m h regs p tab offset bytes buffer q -> fits_box offset bytes ->
  exists m' h',
    ahci.read fuel i offset bytes buffer (at_state s bm m h) = (Ret None, at_state s bm m' h') /\
    ahci.write fuel i offset bytes buffer (at_state s bm m h) = (Ret None, at_state s bm m' h') /\
    (forall x, phys_of buffer <= x < phys_of buffer + bytes -> rd8 m' x = rd8 m x) /\
    pmm_inv m' bm /\ (forall j, 0 <= j < frames bm -> test m' bm j = test m bm j) /\
    (forall x, ~ in_port (hf_view h p) tab x ->
       ~ (q * PAGE_SIZE <= x < (q + cdiv bytes PAGE_SIZE) * PAGE_SIZE) ->
       ~ (bm_base bm <= x < bm_base bm + bm_len bm) -> rd8 m' x = rd8 m x).
Proof.
  intros Hd Hq Hfit.
  destruct (load_failing _ _ _ _ _ _ _ _ _ _ _ Hq Hfit) as (m1 & m2 & h2 & m3 & E1 & E2 & E3 & Hi & Hbits & Hfr).
  destruct Hq as [Hly _ _ _ _ Ho Hn Hc].
  pose proof (layout_pages _ _ _ _ _ _ _ Hly) as (_ & _ & _ & _ & _ & _ & Fb & _).
  destruct Hly as [_ _ _ _ Hb _ [_ _ Hoff]]. unfold far in *.
  exists m3, h2. split_and!; try done.
  - unfold ahci.read. erewrite bind_run by (by apply device_at_run).
    erewrite bind_run by (apply on_p_run; exact E1).
    erewrite bind_run by (apply sectors_of_run; [done|lia|done]).
    erewrite bind_run by (apply on_bus_run; exact E2). cbv iota beta.
    erewrite bind_run by reflexivity. by erewrite bind_run by (apply on_p_run; exact E3).
  - unfold ahci.write. erewrite bind_run by (by apply device_at_run).
    erewrite bind_run by (apply on_p_run; exact E1).
    erewrite bind_run by (apply sectors_of_run; [done|lia|done]).
    erewrite bind_run by (apply on_bus_run; exact E2). cbv iota beta.
    erewrite bind_run by reflexivity. by erewrite bind_run by (apply on_p_run; exact E3).
  - intros x Hx. apply Hfr; [by apply Hc|lia|lia].
Qed.

End fault_claims.

(**  The registers of port [i] are where the AHCI specification puts them, at
    [0x100 + 0x80 * i], for port 0 alone: [PortRegisters] is four bytes too
    long, so the driver's view drifts by that much with every port. *)
Theorem port_registers_drift hba_mem i :
  ahci.port_regs hba_mem i = hba_mem + 0x100 + 0x80 * i + 4 * i /\
  (ahci.port_regs hba_mem i = hba_mem + 0x100 + 0x80 * i <-> i = 0).
Proof.
  unfold ahci.port_regs, ControllerRegisters.ports, PortRegisters.size. lia.
Qed.

(** ** Witnesses *)

(** Frames 2, 3 and 5 are free; command list, table, received FIS and the
    caller's buffer lie above the allocator's frames. *)
Definition disk_mem : mem := wr32 mem_w 0x8008 0x9000.
Definition disk_hw : hbasim :=
  mkHba (mkPciSim 0 ∅) 0x100000 (wr8 (wr8 ∅ 510 1) 513 4) 100 0x8000 0xa000 None.
Definition disk_state : astate unit hbasim :=
  mkA (mkVS (mkP disk_mem (Some bm_w)) None 0 []) disk_hw [0x100000] [].

Lemma kept_high a n : 0x8000 <= a -> 0 < n -> a + n <= 2 ^ 47 -> kept disk_mem bm_w a n.
Proof.
  intros Ha Hn Hr. split; [lia| |].
  - intros x Hx. change (frames bm_w) with 8. unfold PAGE_SIZE.
    assert (8 <= x / 4096) by (apply Z.div_le_lower_bound; lia). lia.
  - right. change (bm_base bm_w + bm_len bm_w) with 0x1001. lia.
Qed.

Lemma disk_pmm : pmm_inv disk_mem bm_w.
Proof.
  eapply pmm_inv_agree; [|exact mem_w_inv]. intros x Hx. change (bm_base bm_w) with 0x1000 in Hx.
  change (bm_len bm_w) with 1 in Hx. unfold disk_mem. apply rd8_wrn_frame. simpl. lia.
Qed.

Lemma disk_request offset bytes :
  0 <= offset < 10000 -> 0 < bytes <= 8192 ->
  request 3 bm_w disk_mem disk_hw 0x100000 0x100000 0x9000 offset bytes 0xb000 2.
Proof.
  intros Ho Hb. assert (Eb : phys_of 0xb000 = 0xb000) by reflexivity.
  assert (Ek : cdiv bytes PAGE_SIZE = 1 \/ cdiv bytes PAGE_SIZE = 2).
  { pose proof (cdiv_bounds bytes PAGE_SIZE (eq_refl : 0 < PAGE_SIZE)). unfold PAGE_SIZE in *. lia. }
  assert (Hn : sector_cnt offset bytes <= 17).
  { apply cdiv_le; [lia|]. pose proof (Z.mod_pos_bound offset 512). lia. }
  split.
  - exact disk_pmm.
  - split; vm_compute; congruence.
  - done.
  - simpl. lia.
  - split; [split|left|left]; vm_compute; intuition congruence.
  - apply kept_high; vm_compute; congruence.
  - apply kept_high; lia.
  - apply kept_high; vm_compute; congruence.
  - lia.
  - change (pv_capacity (hba_view disk_hw 0x100000)) with 51200. lia.
  - lia.
  - destruct Ek as [-> | ->]; vm_compute; reflexivity.
  - rewrite Eb. apply kept_high; lia.
  - rewrite Eb. intros x Hx. unfold in_port, RFIS_SIZE.
    change (pv_clb (hba_view disk_hw 0x100000)) with 0x8000.
    change (pv_fb (hba_view disk_hw 0x100000)) with 0xa000. lia.
Qed.

Lemma ahci_read_correct_witness :
  exists m' h', ahci.read 3 0 510 4 0xb000 (at_state disk_state bm_w disk_mem disk_hw) =
      (Ret (Some 1024), at_state disk_state bm_w m' h') /\
    rd_bytes 4 m' 0xb000 = [1; 0; 0; 4].
Proof.
  destruct (ahci_read_correct 3 disk_state bm_w disk_mem disk_hw 0 0x100000 0x100000 0x9000 510 4 0xb000 2
              eq_refl (disk_request 510 4 ltac:(lia) ltac:(lia)) ltac:(vm_compute; congruence))
    as (m' & h' & E & Hr & _).
  exists m', h'. split; [exact E|]. etransitivity; [exact Hr|]. vm_compute. reflexivity.
Defined.

Lemma ahci_write_correct_witness :
  exists m' h', ahci.write 3 0 512 2 0xb000 (at_state disk_state bm_w disk_mem disk_hw) =
      (Ret (Some 512), at_state disk_state bm_w m' h') /\
    map (pv_content (hba_view h' 0x100000)) [510; 511; 512; 513] = [1; 0; 0; 0].
Proof.
  destruct (ahci_write_correct 3 disk_state bm_w disk_mem disk_hw 0 0x100000 0x100000 0x9000 512 2 0xb000 2
              eq_refl (disk_request 512 2 ltac:(lia) ltac:(lia)) ltac:(vm_compute; congruence))
    as (m' & h' & E & Hc & _).
  exists m', h'. split; [exact E|]. cbn [map]. rewrite !Hc. vm_compute. reflexivity.
Defined.

(** The two free frames 2 and 3 are taken, the transfer runs into frame 4, which is
    in use. *)
Lemma ahci_read_overruns_witness :
  test disk_mem bm_w 4 = false /\
  exists m' h', ahci.read 3 0 510 8192 0xb000 (at_state disk_state bm_w disk_mem disk_hw) =
      (Ret (Some 8704), at_state disk_state bm_w m' h') /\
    rd8 m' 0x4000 = pv_content (hba_view disk_hw 0x100000) 8192.
Proof.
  split; [vm_compute; reflexivity|].
  destruct (ahci_read_overruns 3 disk_state bm_w disk_mem disk_hw 0 0x100000 0x100000 0x9000 510 8192 0xb000 2
              eq_refl (disk_request 510 8192 ltac:(lia) ltac:(lia))) as (m1 & m' & h' & _ & E & _ & Hx & _).
  - split; [split|..]; vm_compute; intuition congruence.
  - vm_compute. congruence.
  - exists m', h'. split; [exact E|]. exact (Hx 0 ltac:(lia)).
Defined.

(** A controller whose commands fail: [CI] keeps the bit, and the second reading of
    the status register has the error bit. *)
Inductive deadhba := Ready | Failing (ci : Z) (n : nat).

#[export] Instance deadhba_bus : MmioBus deadhba := {
  bus_read w a := fun '(m, h) =>
    if a =? 0x100000 then (Ret 0x8000, (m, h))
    else if a =? 0x100038 then (Ret (match h with Ready => 0 | Failing ci _ => ci end), (m, h))
    else if a =? 0x100010 then
      match h with
      | Ready => (Ret 0, (m, h))
      | Failing _ O => (Ret (2 ^ 30), (m, h))
      | Failing ci (S n) => (Ret 0, (m, Failing ci n))
      end
    else (Ret 0, (m, h));
  bus_write w a v := fun '(m, h) => (Ret tt, (m, if a =? 0x100038 then Failing v 1 else h));
}.

#[export] Instance deadhba_ports : PortBus deadhba := {
  port_in w p := ret 0;
  port_out w p v := ret tt;
}.

#[export] Instance deadhba_faulty : FaultyHba deadhba.
Proof.
  refine {| hf_view := fun _ _ => mkView (fun _ => 0) 0 0x8000 0xa000;
            hf_idle := fun h p => h = Ready /\ p = 0x100000;
            hf_failing := fun p slot _ s0 n s => p = 0x100000 /\ 0 <= slot /\ s = (fst s0, Failing (2 ^ slot) n);
            hf_delay := 1%nat |}.
  - intros h p [-> ->]. split; [vm_compute; intuition congruence|intros m; by split..].
  - intros h p m slot c [-> ->] Hs _. exists 1%nat. eexists. split; [lia|]. split; [reflexivity|].
    split_and!; [done|lia|done].
  - intros p slot c s0 n s (-> & Hs & ->). eexists _, _, n. split; [reflexivity|].
    split_and!; try done. intros Hb. by rewrite Z.pow2_bits_true in Hb.
  - intros p slot c s0 n s (-> & Hs & ->). destruct n as [|n].
    + eexists _, _, 0%nat. split; [reflexivity|]. split_and!; try done. by left.
    + eexists _, _, n. split; [reflexivity|]. split_and!; try done. right. lia.
  - intros p slot c s0 n s (-> & Hs & ->). done.
Defined.

Definition dead_state : astate unit deadhba :=
  mkA (mkVS (mkP disk_mem (Some bm_w)) None 0 []) Ready [0x100000] [].

Lemma dead_request : fault_request 1 bm_w disk_mem Ready 0x100000 0x100000 0x9000 510 4 0xb000 2.
Proof.
  pose proof (disk_request 510 4 ltac:(lia) ltac:(lia)) as [I1 I2 _ _ I5 I6 I7 I8 I9 _ I11 I12 I13 I14].
  split; try done.
  - apply I5.
  - intros x Hx. by apply I14.
Qed.

Lemma ahci_read_error_witness :
  exists m' h', ahci.read 1 0 510 4 0xb000 (at_state dead_state bm_w disk_mem Ready) =
      (Ret None, at_state dead_state bm_w m' h') /\
    rd_bytes 4 m' 0xb000 = rd_bytes 4 disk_mem 0xb000.
Proof.
  destruct (ahci_read_error 1 dead_state bm_w disk_mem Ready 0 0x100000 0x100000 0x9000 510 4 0xb000 2
              eq_refl dead_request ltac:(vm_compute; congruence)) as (m' & h' & E & _ & Hb & _).
  exists m', h'. split; [exact E|]. apply list_eq. intros j.
  destruct (decide (j < 4)%nat) as [Hj|Hj].
  - rewrite !lookup_rd_bytes by lia. f_equal. apply Hb. change (phys_of 0xb000) with 0xb000. lia.
  - rewrite !lookup_ge_None_2; [done|rewrite rd_bytes_length; lia..].
Defined.
