(* ===== verification/Storage.v ===== *)
(** * The file system's disk is the AHCI driver's disk

    [Ext2.v] and [Partitions.v] are written against the interface [Disk]: reads
    and writes of bytes at an offset.  The kernel's disk is [drivers/ahci.rs].
    This file proves that the driver implements the interface: [disk_sim] relates
    the state that the file system is reasoned about in (memory, page allocator
    and an abstract disk) with the state of the driver (where the same memory
    also holds the port's structures and the disk is behind the controller), and
    every sequence of reads and writes that satisfy [op_ok] is simulated. *)

From S2P Require Import Prelude Memory MathUtil Bitmap Pmm Vfs Disk Ext2 Vmm Io Pci Ahci.

(** ** The abstract disk *)

Record vdisk := mkVd { vd_bytes : Z -> Z; vd_capacity : Z }.

Definition vd_content (d : vdisk) (x : Z) : Z := vd_bytes d x mod 256.

#[export] Instance vdisk_disk : Disk vdisk := {
  disk_read off n := fun d =>
    if (off + n <=? vd_capacity d) && (0 <? n)
    then (Ret (Some (map (vd_content d) (seqZ off n))), d) else (Ret None, d);
  disk_write off bs := fun d =>
    if off + Z.of_nat (length bs) <=? vd_capacity d
    then (Ret true, mkVd (fun x => match (if decide (off <= x) then bs !! Z.to_nat (x - off) else None) with
                                   | Some b => b
                                   | None => vd_content d x
                                   end) (vd_capacity d))
    else (Ret false, d);
}.

#[export] Instance vdisk_laws : DiskLaws vdisk.
Proof.
  refine {| content := vd_content; capacity := vd_capacity |}.
  - intros d x. apply Z.mod_pos_bound. lia.
  - intros d off n Ho Hn Hc. cbn. by rewrite (proj2 (Z.leb_le _ _) Hc), (proj2 (Z.ltb_lt _ _) Hn).
  - intros d off bs Ho Hne Hb Hc. cbn. rewrite (proj2 (Z.leb_le _ _) Hc).
    eexists. split; [reflexivity|]. split; [done|]. intros x. unfold vd_content at 1. cbn [vd_bytes].
    destruct (if decide (off <= x) then _ else None) as [b|] eqn:E.
    + case_decide; [|done]. apply Z.mod_small. by apply (list.Forall_lookup_1 _ _ _ _ Hb E).
    + unfold vd_content. by rewrite Z.mod_mod.
Defined.

(** ** What the client of the driver does *)

Inductive dop :=
| DRead (offset bytes buffer : Z)
| DWrite (offset bytes buffer : Z).

Definition dop_args (o : dop) : Z * Z * Z :=
  match o with DRead a b c => (a, b, c) | DWrite a b c => (a, b, c) end.

(** On the abstract disk, as [Ext2.v] has it; on the driver. *)
Definition fs_op {D} `{!Disk D} (o : dop) : M (estate D) unit :=
  match o with
  | DRead off n buf => let! r := ext2.read_to off n buf in expect r
  | DWrite off n buf => let! bs := ext2.bytes_at buf n in ext2.write_unwrap off bs
  end.

Definition driver_op {F H} `{!MmioBus H, !PortBus H} (fuel : nat) (i : Z) (o : dop)
    : M (astate F H) unit :=
  let! r := match o with
            | DRead off n buf => ahci.read fuel i off n buf
            | DWrite off n buf => ahci.write fuel i off n buf
            end in
  let! _ := expect r in ret tt.

Fixpoint run_ops {S O} (step : O -> M S unit) (ops : list O) : M S unit :=
  match ops with
  | [] => ret tt
  | o :: ops' => do! step o in run_ops step ops'
  end.

(** ** The simulation *)

Section sim.
Context {F H : Type} `{!MmioBus H, !PortBus H, !Hba H}.
Context (fuel : nat) (bm : Bitmap) (regs p tab i : Z).
Context (Hfuel : (hba_delay <= fuel)%nat) (Hregs : regs_at regs p).
Implicit Types (m : mem) (h : H) (s : astate F H) (e : estate vdisk).

(** Bytes that a client may use: in use, and not the port's. *)
Definition client m (v : pview) (x : Z) : Prop :=
  kept m bm x 1 /\ ~ in_port v tab x /\ ~ (pv_clb v <= x < pv_clb v + 32).

Record disk_sim e s m h : Prop := {
  ds_state : s = at_state s bm m h;
  ds_dev : a_devices s !! Z.to_nat i = Some regs;
  ds_alloc : p_alloc (e_p e) = Some bm;
  ds_pmm : pmm_inv m bm;
  ds_bits : forall j, 0 <= j < frames bm -> test (mem_of e) bm j = test m bm j;
  ds_mem : forall x, client m (hba_view h p) x -> rd8 (mem_of e) x = rd8 m x;
  ds_idle : hba_idle h p;
  ds_port : port_mem m (hba_view h p) tab;
  ds_clb : kept m bm (pv_clb (hba_view h p)) 32;
  ds_tab : kept m bm tab 144;
  ds_fb : kept m bm (pv_fb (hba_view h p)) RFIS_SIZE;
  ds_cap : vd_capacity (e_disk e) = pv_capacity (hba_view h p);
  ds_disk : forall x, vd_content (e_disk e) x = pv_content (hba_view h p) x;
}.

(** An operation that the driver can serve: it depends on the use of frames and
    on the place of the port's structures, which operations do not change. *)
Record op_ok m (v : pview) (o : dop) : Prop := {
  oo_bytes : 0 < snd (fst (dop_args o));
  oo_offset : 0 <= fst (fst (dop_args o)) /\
    fst (fst (dop_args o)) + snd (fst (dop_args o)) <= pv_capacity v;
  oo_sectors : sector_cnt (fst (fst (dop_args o))) (snd (fst (dop_args o))) <= 8192;
  oo_fits : fits_box (fst (fst (dop_args o))) (snd (fst (dop_args o)));
  oo_room : exists q, first_fit (test m bm) (frames bm) (cdiv (snd (fst (dop_args o))) PAGE_SIZE) = Some q;
  oo_buffer : kept m bm (phys_of (snd (dop_args o))) (snd (fst (dop_args o)));
  oo_clear : forall x, phys_of (snd (dop_args o)) <= x < phys_of (snd (dop_args o)) + snd (fst (dop_args o)) ->
    ~ in_port v tab x /\ ~ (pv_clb v <= x < pv_clb v + 32);
}.

Lemma first_fit_bits m m' n q :
  0 < n -> (forall j, 0 <= j < frames bm -> test m' bm j = test m bm j) ->
  first_fit (test m bm) (frames bm) n = Some q -> first_fit (test m' bm) (frames bm) n = Some q.
Proof.
  intros Hn Hb Hf. apply first_fit_Some in Hf as (Hq & Hr & Hlow). apply first_fit_Some.
  assert (Hrun : forall q', 0 <= q' <= frames bm - n ->
    run_free (test m' bm) q' n = run_free (test m bm) q' n).
  { intros q' Hq'. apply eq_true_iff_eq. rewrite !run_free_iff.
    split; intros Hj j Hin; [rewrite <- Hb by lia|rewrite Hb by lia]; by apply Hj. }
  split_and!; [lia|lia|by rewrite Hrun|]. intros q' Hq'. rewrite Hrun by lia. by apply Hlow.
Qed.

Lemma op_ok_bits m m' (v v' : pview) o :
  (forall j, 0 <= j < frames bm -> test m' bm j = test m bm j) ->
  pv_clb v' = pv_clb v -> pv_fb v' = pv_fb v -> pv_capacity v' = pv_capacity v ->
  op_ok m v o -> op_ok m' v' o.
Proof.
  intros Hb Ec Ef Ek [H1 H2 H3 H4 [q H5] H6 H7]. split; rewrite ?Ek; try done.
  - exists q. apply (first_fit_bits m); [|done|done]. apply cdiv_pos; [lia|done].
  - by eapply kept_bits.
  - unfold in_port in *. rewrite Ec, Ef. done.
Qed.

Lemma sim_request e s m h o : disk_sim e s m h -> op_ok m (hba_view h p) o ->
  exists q, request fuel bm m h regs p tab (fst (fst (dop_args o))) (snd (fst (dop_args o)))
              (snd (dop_args o)) q.
Proof.
  intros Hs [H1 H2 H3 H4 [q H5] H6 H7]. exists q. split; try done; apply Hs.
Qed.

(** Bytes the client uses are clear of the temporary pages. *)
Lemma client_off_tmp m h offset bytes buffer q x :
  request fuel bm m h regs p tab offset bytes buffer q -> fits_box offset bytes ->
  client m (hba_view h p) x ->
  ~ (q * PAGE_SIZE <= x < q * PAGE_SIZE + span offset bytes).
Proof.
  intros Hq Hf [Hk _].
  pose proof (cdiv_pos bytes PAGE_SIZE (rq_bytes _ _ _ _ _ _ _ _ _ _ _ Hq) ltac:(done)) as Hn.
  destruct (first_fit_bounds _ _ _ _ Hn (rq_room _ _ _ _ _ _ _ _ _ _ _ Hq)) as (Hq0 & Hle & Hrun & _).
  pose proof (kept_run m bm x 1 q _ Hk ltac:(lia) Hq0 Hn Hle Hrun) as Hfar.
  unfold far, span, fits_box in *. lia.
Qed.

Lemma client_bits m m' (v v' : pview) x :
  (forall j, 0 <= j < frames bm -> test m' bm j = test m bm j) ->
  pv_clb v' = pv_clb v -> pv_fb v' = pv_fb v -> client m' v' x -> client m v x.
Proof.
  intros Hb Ec Ef (Hk & Hp & Hc). unfold client, in_port in *. rewrite Ec, Ef in *.
  split; [|done]. apply (kept_bits m' m); [|done]. intros j Hj. symmetry. by apply Hb.
Qed.

(** The relation after an operation, from what the driver's theorems say. *)
Lemma sim_after e s m h m' h' offset bytes buffer q touched mem' d' :
  disk_sim e s m h -> request fuel bm m h regs p tab offset bytes buffer q -> fits_box offset bytes ->
  served bm m h p tab offset bytes q m' h' touched ->
  (forall j, 0 <= j < frames bm -> test mem' bm j = test (mem_of e) bm j) ->
  (forall x, client m (hba_view h p) x -> ~ touched x -> rd8 mem' x = rd8 (mem_of e) x) ->
  (forall x, client m (hba_view h p) x -> touched x -> rd8 mem' x = rd8 m' x) ->
  (forall x, touched x \/ ~ touched x) ->
  vd_capacity d' = vd_capacity (e_disk e) ->
  (forall x, vd_content d' x = pv_content (hba_view h' p) x) ->
  disk_sim (mkE (mkP mem' (Some bm)) d' (e_fs e) (e_table e)) (at_state s bm m' h') m' h'.
Proof.
  intros Hs Hq Hfit [V1 V2 V3 V4 V5 V6 V7 V8] Hb Hout Hin Hdec Hcap Hcont.
  pose proof Hs as [S1 S2 S3 S4 S5 S6 S7 S8 S9 S10 S11 S12 S13].
  split; cbn [e_p e_disk p_alloc mem_of p_mem]; try done.
  - intros j Hj. unfold mem_of. cbn. rewrite Hb, S5, V3 by done. done.
  - intros x Hx. unfold mem_of. cbn.
    pose proof (client_bits m m' _ _ x V3 V5 V6 Hx) as Hx0.
    destruct (Hdec x) as [Ht|Ht]; [by apply Hin|].
    rewrite Hout, S6 by done. symmetry. destruct Hx0 as (Hk & Hp & Hc).
    apply V8; try done; [by eapply client_off_tmp|].
    pose proof (kp_off _ _ _ _ Hk). unfold far in *. lia.
  - rewrite V5. by apply (kept_bits m).
  - by apply (kept_bits m).
  - rewrite V6. by apply (kept_bits m).
  - congruence.
Qed.

Lemma kept_sub m a n x : kept m bm a n -> a <= x < a + n -> kept m bm x 1.
Proof.
  intros [H1 H2 H3] Hx. unfold far in *. split; [lia| |unfold far; lia].
  intros y Hy. apply H2. lia.
Qed.

Lemma buffer_client m v o x : op_ok m v o ->
  phys_of (snd (dop_args o)) <= x < phys_of (snd (dop_args o)) + snd (fst (dop_args o)) ->
  client m v x.
Proof. intros Ho Hx. split; [by apply (kept_sub m _ _ x (oo_buffer _ _ _ Ho))|by apply Ho]. Qed.

Lemma rd_bytes_at m b n f off j :
  rd_bytes (Z.to_nat n) m b = map f (seqZ off n) -> 0 <= j < n -> rd8 m (b + j) = f (off + j).
Proof.
  intros E Hj. apply (f_equal (fun l => l !! Z.to_nat j)) in E.
  rewrite lookup_rd_bytes, list_lookup_fmap in E by lia.
  rewrite (proj2 (lookup_seqZ off n (Z.to_nat j) (off + j))) in E by lia.
  rewrite Z2Nat.id in E by lia. by injection E.
Qed.

(** One operation. *)
Definition stepped e s m h (o : dop) : Prop := exists e' s' m' h',
  fs_op o e = (Ret tt, e') /\ driver_op fuel i o s = (Ret tt, s') /\
  disk_sim e' s' m' h' /\
  (forall j, 0 <= j < frames bm -> test m' bm j = test m bm j) /\
  pv_clb (hba_view h' p) = pv_clb (hba_view h p) /\ pv_fb (hba_view h' p) = pv_fb (hba_view h p) /\
  pv_capacity (hba_view h' p) = pv_capacity (hba_view h p).

Lemma sim_read e s m h off n buf :
  disk_sim e s m h -> op_ok m (hba_view h p) (DRead off n buf) -> stepped e s m h (DRead off n buf).
Proof.
  intros Hs Ho. destruct (sim_request e s m h _ Hs Ho) as [q Hq]. cbn [dop_args fst snd] in Hq.
  pose proof Ho as [B1 B2 B3 B4 B5 B6 B7]. cbn [dop_args fst snd] in *.
  destruct (read_run _ _ _ _ _ _ _ _ _ _ _ Hq (fits_region _ _ _ _ _ _ _ _ _ _ _ Hq B4) s i
              (ds_dev _ _ _ _ Hs)) as (m' & h' & E & Hdata & Hcont & _ & Hsv).
  set (bs := slice (e_disk e) off n).
  assert (Hbs : length bs = Z.to_nat n) by (apply slice_length; lia).
  exists (with_mem e (wr_bytes (mem_of e) (phys_of buf) bs)), (at_state s bm m' h'), m', h'.
  split_and!; try apply Hsv.
  - cbn [fs_op]. rewrite (bind_run _ _ _ (Some tt) (with_mem e (wr_bytes (mem_of e) (phys_of buf) bs))); [done|].
    apply read_to_eq; [lia|lia|]. change (capacity (e_disk e)) with (vd_capacity (e_disk e)).
    rewrite (ds_cap _ _ _ _ Hs). lia.
  - unfold driver_op. rewrite (ds_state _ _ _ _ Hs), (bind_run _ _ _ _ _ E). done.
  - unfold with_mem. rewrite (ds_alloc _ _ _ _ Hs).
    eapply sim_after; [exact Hs|exact Hq|exact B4|exact Hsv| | | | |done|].
    + intros j Hj. apply test_agree; [apply (ds_pmm _ _ _ _ Hs)|done|]. intros x Hx.
      apply wr_bytes_only. rewrite Hbs. pose proof (kp_off _ _ _ _ B6). unfold far in *. lia.
    + intros x _ Hx. cbn beta in Hx. apply wr_bytes_only. rewrite Hbs. lia.
    + intros x _ Hx. cbn beta in Hx. rewrite rd8_wr_bytes, Hbs, decide_True by lia.
      replace x with (phys_of buf + (x - phys_of buf)) at 2 by lia.
      rewrite (rd_bytes_at _ _ _ _ _ _ Hdata) by lia. unfold bs, slice. rewrite list_lookup_fmap.
      rewrite (proj2 (lookup_seqZ off n _ (off + (x - phys_of buf)))) by lia. cbn.
      rewrite (ds_disk _ _ _ _ Hs). apply Z.mod_small, hba_byte.
    + intros x. cbn beta. lia.
    + intros x. rewrite Hcont. apply Hs.
Qed.

Lemma sim_write e s m h off n buf :
  disk_sim e s m h -> op_ok m (hba_view h p) (DWrite off n buf) -> stepped e s m h (DWrite off n buf).
Proof.
  intros Hs Ho. destruct (sim_request e s m h _ Hs Ho) as [q Hq]. cbn [dop_args fst snd] in Hq.
  pose proof Ho as [B1 B2 B3 B4 B5 B6 B7]. cbn [dop_args fst snd] in *.
  destruct (write_run _ _ _ _ _ _ _ _ _ _ _ Hq (fits_region _ _ _ _ _ _ _ _ _ _ _ Hq B4) s i
              (ds_dev _ _ _ _ Hs)) as (m' & h' & E & Hcont & Hsv).
  set (bs := rd_bytes (Z.to_nat n) (mem_of e) (phys_of buf)).
  assert (Hbs : length bs = Z.to_nat n) by apply rd_bytes_length.
  pose proof (ds_cap _ _ _ _ Hs) as Hcap.
  destruct (write_unwrap_eq off bs e) as (d' & Ed & Ecap & Hd'); [lia| |apply rd_bytes_bytes| |].
  { intros E0. apply (f_equal length) in E0. cbn in E0. lia. }
  { change (capacity (e_disk e)) with (vd_capacity (e_disk e)). rewrite Hcap. lia. }
  exists (mkE (e_p e) d' (e_fs e) (e_table e)), (at_state s bm m' h'), m', h'.
  split_and!; try apply Hsv.
  - cbn [fs_op]. by rewrite (bind_run _ _ _ _ _ (bytes_at_eq buf n e)).
  - unfold driver_op. rewrite (ds_state _ _ _ _ Hs), (bind_run _ _ _ _ _ E). done.
  - replace (e_p e) with (mkP (mem_of e) (Some bm))
      by (rewrite <- (ds_alloc _ _ _ _ Hs); by destruct e as [[] ? ? ?]).
    eapply sim_after; [exact Hs|exact Hq|exact B4|exact Hsv|done|done|done| |done|].
    + intros x. right. intros [].
    + intros x. change (vd_content d' x) with (content d' x). rewrite Hd', Hcont.
      case_decide as Hx; [|rewrite decide_False by lia; apply Hs].
      destruct (decide (x < off + n)) as [Hlt|Hge].
      * rewrite decide_True by lia. unfold bs. rewrite lookup_rd_bytes by lia.
        rewrite Z2Nat.id by lia. apply (ds_mem _ _ _ _ Hs). apply (buffer_client m _ _ _ Ho). cbn. lia.
      * rewrite decide_False by lia. rewrite lookup_ge_None_2 by lia. apply Hs.
Qed.

(** Sequences of operations. *)
Lemma sim_ops ops : forall e s m h,
  disk_sim e s m h -> Forall (op_ok m (hba_view h p)) ops ->
  exists e' s' m' h', run_ops fs_op ops e = (Ret tt, e') /\
    run_ops (driver_op fuel i) ops s = (Ret tt, s') /\ disk_sim e' s' m' h'.
Proof.
  induction ops as [|o ops IH]; intros e s m h Hs Hall; [by eauto 10|].
  apply list.Forall_cons in Hall as [Ho Hall].
  assert (stepped e s m h o) as (e1 & s1 & m1 & h1 & E1 & D1 & Hs1 & Hb & Ec & Ef & Ek).
  { destruct o; [by apply sim_read|by apply sim_write]. }
  destruct (IH e1 s1 m1 h1 Hs1) as (e' & s' & m' & h' & E' & D' & Hs').
  { eapply list.Forall_impl; [exact Hall|]. intros o'. by apply op_ok_bits. }
  exists e', s', m', h'. cbn [run_ops]. by rewrite (bind_run _ _ _ _ _ E1), (bind_run _ _ _ _ _ D1).
Qed.

End sim.

(** ** Properties *)

(** C12.  The AHCI driver implements the disk that the file system is written
    against, for requests that satisfy [op_ok]: inside the disk, at most 8192
    sectors, which fit in the temporary pages, these being available, and a
    buffer in memory that is in use and not the port's.  From related states
    every sequence of such reads and writes succeeds on the abstract disk and on
    the driver, and ends in related states, with the same disk content, the same
    bytes in every buffer and the same frames in use.  Other requests, such as a
    whole page at an offset inside a sector, are not covered. *)
Theorem ahci_implements_disk {F H} `{!MmioBus H, !PortBus H, !Hba H}
    fuel bm regs p tab i ops (e : estate vdisk) (s : astate F H) m h :
  (hba_delay <= fuel)%nat -> regs_at regs p ->
  disk_sim bm regs p tab i e s m h -> Forall (op_ok bm tab m (hba_view h p)) ops ->
  exists e' s' m' h', run_ops fs_op ops e = (Ret tt, e') /\
    run_ops (driver_op fuel i) ops s = (Ret tt, s') /\ disk_sim bm regs p tab i e' s' m' h'.
Proof. intros Hf Hr Hs Ho. by apply (sim_ops fuel bm regs p tab i Hf Hr ops e s m h). Qed.

(** ** Witness *)

Lemma op_ok_request fuel bm m (h : hbasim) regs p tab off n buf q o :
  request fuel bm m h regs p tab off n buf q -> fits_box off n -> dop_args o = (off, n, buf) ->
  op_ok bm tab m (hba_view h p) o.
Proof.
  intros Hq Hf E. split; rewrite E; cbn [fst snd]; try apply Hq; [done|].
  exists q. apply Hq.
Qed.

Definition storage_e : estate vdisk :=
  mkE (mkP disk_mem (Some bm_w))
      (mkVd (pv_content (hba_view disk_hw 0x100000)) 51200) None [].

Lemma storage_sim : disk_sim bm_w 0x100000 0x100000 0x9000 0 storage_e
  (at_state disk_state bm_w disk_mem disk_hw) disk_mem disk_hw.
Proof.
  destruct (disk_request 0 1 ltac:(lia) ltac:(lia)). split; try done.
  intros x. cbn [storage_e e_disk]. unfold vd_content. cbn [vd_bytes].
  apply Z.mod_small. apply (hba_byte disk_hw 0x100000).
Qed.

(** Write four bytes across a sector boundary and read two of them back. *)
Lemma ahci_implements_disk_witness :
  exists e' s', run_ops fs_op [DWrite 510 4 0xb000; DRead 512 2 0xb000] storage_e = (Ret tt, e') /\
    run_ops (driver_op 3 0) [DWrite 510 4 0xb000; DRead 512 2 0xb000]
      (at_state disk_state bm_w disk_mem disk_hw) = (Ret tt, s').
Proof.
  destruct (ahci_implements_disk 3 bm_w 0x100000 0x100000 0x9000 0
    [DWrite 510 4 0xb000; DRead 512 2 0xb000] storage_e
    (at_state disk_state bm_w disk_mem disk_hw) disk_mem disk_hw) as (e' & s' & m' & h' & E & D & _).
  - apply le_n.
  - exact (rq_regs _ _ _ _ _ _ _ _ _ _ _ (disk_request 0 1 ltac:(lia) ltac:(lia))).
  - exact storage_sim.
  - apply list.Forall_cons; split; [|apply list.Forall_cons; split; [|by apply list.Forall_nil]].
    + apply (op_ok_request 3 _ _ _ 0x100000 _ _ 510 4 0xb000 2);
        [apply disk_request; lia|vm_compute; congruence|reflexivity].
    + apply (op_ok_request 3 _ _ _ 0x100000 _ _ 512 2 0xb000 2);
        [apply disk_request; lia|vm_compute; congruence|reflexivity].
  - exists e', s'. split; [exact E|exact D].
Defined.
