(* ===== verification/Acpi.v ===== *)
(** * [arch/x86_64/acpi/mod.rs]: the ACPI tables

    The firmware leaves a root pointer (RSDP) to a root table, the RSDT with
    32-bit or the XSDT with 64-bit addresses of the other tables, and
    [find_table] looks for one by its signature.  The packed structs are the
    offsets of the fields the code reads. *)

From S2P Require Import Prelude Memory.

Module Rsdp.
Definition revision : Z := 8 + 1 + 6.
Definition rsdt_addr : Z := revision + 1.
Definition xsdt_addr : Z := rsdt_addr + 4 + 4.
End Rsdp.

Module Sdt.
Definition signature : Z := 0.
Definition length : Z := 4.
Definition size : Z := 4 + 4 + 1 + 1 + 6 + 8 + 4 + 4 + 4.
End Sdt.

(** Memory and the static [RSDP], null before [init]. *)
Record cstate := mkC { c_mem : mem; RSDP : Z }.

Module acpi.

Definition on_mem {A} : M mem A -> M cstate A := zoom c_mem (fun m s => mkC m (RSDP s)).

(** [init]; the argument is [rsdp_tag.rsdp]. *)
Definition init (rsdp : Z) : M cstate unit := modify (fun s => mkC (c_mem s) rsdp).

(** [Sdt::data_address]. *)
Definition data_address (self : Z) : Z := self + Sdt.size.

(** [curr_table.signature.iter().zip(signature.iter()).all(|(a, b)| a == b)]. *)
Definition matches (curr_table : Z) (signature : list Z) : M mem bool :=
  gets (fun m => forallb (fun ab => fst ab =? snd ab)
                   (zip (rd_bytes 4 m (phys_of (curr_table + Sdt.signature))) signature)).

(** The loop over the entries of the root table, which [load] reads and which
    have [w] bytes. *)
Fixpoint search (load : Z -> M mem Z) (w tables : Z) (signature : list Z) (n : nat) (i : Z)
    : M mem (option Z) :=
  match n with
  | O => ret None
  | S n' =>
      let! curr_table := load (tables + w * i) in
      let! found := matches curr_table signature in
      if found : bool then ret (Some curr_table)
      else search load w tables signature n' (i + 1)
  end.

(** The dereference of [RSDP], which is null before [init]. *)
Definition root : M cstate Z :=
  let! p := gets RSDP in
  if p =? 0 then throw BadPointer else ret p.

Definition find_table (signature : list Z) : M cstate (option Z) :=
  let! rsdp := root in
  let! revision := on_mem (load8 (rsdp + Rsdp.revision)) in
  if revision =? 0 then
    let! rsdt_header := on_mem (load32 (rsdp + Rsdp.rsdt_addr)) in
    let! length := on_mem (load32 (rsdt_header + Sdt.length)) in
    let! bytes := usub u32 length (as_u u32 Sdt.size) in
    let! table_cnt := udiv bytes 4 in
    on_mem (search load32 4 (data_address rsdt_header) signature (Z.to_nat table_cnt) 0)
  else
    let! xsdt_header := on_mem (load64 (rsdp + Rsdp.xsdt_addr)) in
    let! length := on_mem (load32 (xsdt_header + Sdt.length)) in
    let! bytes := usub u32 length (as_u u32 Sdt.size) in
    let! table_cnt := udiv bytes 8 in
    on_mem (search load64 8 (data_address xsdt_header) signature (Z.to_nat table_cnt) 0).

End acpi.

(** ** What the firmware leaves in memory

    [entry_width], [root_addr]: by the revision of the root pointer.  A root
    table for [entries] holds its length and the addresses one after the other. *)

Definition entry_width (m : mem) (rsdp : Z) : nat :=
  if rd8 m (rsdp + 15) =? 0 then 4 else 8.

Definition root_addr (m : mem) (rsdp : Z) : Z :=
  if rd8 m (rsdp + 15) =? 0 then rd32 m (rsdp + 16) else rd64 m (rsdp + 24).

Record firmware (m : mem) (rsdp : Z) (entries : list Z) : Prop := {
  fw_rsdp : 0 < rsdp /\ rsdp + 36 <= 2 ^ 47;
  fw_length : rd32 m (root_addr m rsdp + 4)
              = 36 + Z.of_nat (entry_width m rsdp) * Z.of_nat (length entries);
  fw_bytes : rd_bytes (entry_width m rsdp * length entries) m (root_addr m rsdp + 36)
             = concat (map (le_bytes (entry_width m rsdp)) entries);
  fw_entries : Forall (fun e => 0 <= e < 256 ^ Z.of_nat (entry_width m rsdp)) entries;
  fw_room : 0 <= root_addr m rsdp /\
    root_addr m rsdp + 36 + Z.of_nat (entry_width m rsdp) * Z.of_nat (length entries) <= 2 ^ 47;
}.

(** The signature of the table at [t]. *)
Definition signature_of (m : mem) (t : Z) : list Z := rd_bytes 4 m (phys_of t).

Section search.
Context (m : mem).

Lemma zip_all_eq (l k : list Z) :
  length l = length k -> forallb (fun ab => fst ab =? snd ab) (zip l k) = bool_decide (l = k).
Proof.
  revert k. induction l as [|a l IH]; intros [|b k] H; simpl in *; try done.
  rewrite IH by lia. destruct (Z.eqb_spec a b) as [->|Hne]; simpl.
  - apply bool_decide_ext. split; congruence.
  - symmetry. apply bool_decide_eq_false. congruence.
Qed.

(** The loop finds the first of the remaining entries with the signature. *)
Lemma search_ok load w tables sig : forall entries i,
  (forall p, load p m = (Ret (rdn w m (phys_of p)), m)) -> length sig = 4%nat -> 0 <= i ->
  0 <= tables -> tables + Z.of_nat w * (i + Z.of_nat (length entries)) <= 2 ^ 47 ->
  (0 < w)%nat -> Forall (fun e => 0 <= e < 256 ^ Z.of_nat w) entries ->
  rd_bytes (w * length entries) m (tables + Z.of_nat w * i) = concat (map (le_bytes w) entries) ->
  acpi.search load (Z.of_nat w) tables sig (length entries) i m
  = (Ret (find (fun t => bool_decide (signature_of m t = sig)) entries), m).
Proof.
  intros entries. induction entries as [|e es IH]; intros i Hl Hs Hi Ht Hr Hw He Hb; [done|].
  apply list.Forall_cons in He as [He Hes]. simpl length in *.
  replace (w * S (length es))%nat with (w + w * length es)%nat in Hb by lia.
  apply (rd_bytes_word w _ _ _ e (concat (map (le_bytes w) es))) in Hb as [Hv Hb]; [|done].
  cbn [acpi.search]. rewrite (bind_run _ _ _ e m).
  2:{ rewrite Hl, phys_of_small, Hv by nia. done. }
  unfold bind at 1, acpi.matches, gets. cbv beta. unfold Sdt.signature. rewrite Z.add_0_r.
  rewrite zip_all_eq by by rewrite rd_bytes_length, Hs. fold (signature_of m e).
  cbn [find]. case_bool; [done|]. apply IH; try done; [lia|nia|].
  rewrite <- Hb. f_equal. nia.
Qed.

End search.

(** ** Properties *)

Section claims.
Context (s : cstate).

(** The two branches of [find_table], for a root table that holds [n] bytes. *)
Lemma find_table_eq sig :
  0 < RSDP s -> RSDP s + 36 <= 2 ^ 47 -> root_addr (c_mem s) (RSDP s) + 8 <= 2 ^ 47 ->
  acpi.find_table sig s =
    (let! bytes := usub u32 (rd32 (c_mem s) (root_addr (c_mem s) (RSDP s) + 4)) 36 in
     acpi.on_mem (acpi.search (if rd8 (c_mem s) (RSDP s + 15) =? 0 then load32 else load64)
       (Z.of_nat (entry_width (c_mem s) (RSDP s)))
       (root_addr (c_mem s) (RSDP s) + 36) sig
       (Z.to_nat (bytes / Z.of_nat (entry_width (c_mem s) (RSDP s)))) 0)) s.
Proof.
  intros H0 H1 H2. destruct s as [m p]. cbn [c_mem RSDP] in *.
  unfold acpi.find_table, acpi.root, entry_width, root_addr in *.
  unfold bind at 1 2, gets at 1. cbn [RSDP].
  replace (p =? 0) with false by lia. unfold ret at 1.
  rewrite (bind_run _ _ _ (rd8 m (p + 15)) (mkC m p))
    by (unfold acpi.on_mem, zoom, load8, gets; cbn; rewrite phys_of_small by (unfold Rsdp.revision; lia); done).
  pose proof (rdn_range 4 m (p + 16)). pose proof (rdn_range 8 m (p + 24)).
  case_bool.
  - rewrite (bind_run _ _ _ (rd32 m (p + 16)) (mkC m p))
      by (unfold acpi.on_mem, zoom, load32, gets; cbn;
          rewrite phys_of_small by (unfold Rsdp.rsdt_addr, Rsdp.revision; lia); done).
    rewrite (bind_run _ _ _ (rd32 m (rd32 m (p + 16) + 4)) (mkC m p))
      by (unfold acpi.on_mem, zoom, load32, gets; cbn; rewrite phys_of_small by (unfold Sdt.length; lia); done).
    done.
  - rewrite (bind_run _ _ _ (rd64 m (p + 24)) (mkC m p))
      by (unfold acpi.on_mem, zoom, load64, gets; cbn;
          rewrite phys_of_small by (unfold Rsdp.xsdt_addr, Rsdp.rsdt_addr, Rsdp.revision; lia); done).
    rewrite (bind_run _ _ _ (rd32 m (rd64 m (p + 24) + 4)) (mkC m p))
      by (unfold acpi.on_mem, zoom, load32, gets; cbn; rewrite phys_of_small by (unfold Sdt.length; lia); done).
    done.
Qed.

Lemma find_table_found sig entries :
  firmware (c_mem s) (RSDP s) entries -> length sig = 4%nat ->
  acpi.find_table sig s =
    (Ret (find (fun t => bool_decide (signature_of (c_mem s) t = sig)) entries), s).
Proof.
  intros [[H0 H1] Hl Hb He [Hr0 Hr1]] Hs.
  assert (0 < entry_width (c_mem s) (RSDP s) <= 8)%nat as Hw
    by (unfold entry_width; case_bool; lia).
  rewrite find_table_eq by lia.
  pose proof (rdn_range 4 (c_mem s) (root_addr (c_mem s) (RSDP s) + 4)).
  unfold bind, usub. rewrite Hl, chk_ok by (unfold u32; lia).
  set (w := entry_width _ _) in *. replace (36 + _ - 36) with (Z.of_nat (length entries) * Z.of_nat w) by lia.
  rewrite Z.div_mul, Nat2Z.id by lia. unfold acpi.on_mem.
  rewrite (zoom_ret c_mem _ _ s (find (fun t => bool_decide (signature_of (c_mem s) t = sig)) entries)
             (c_mem s)); [by destruct s as [m p]|].
  apply search_ok; try done; try lia.
  - intros q. unfold w, entry_width. by case_bool.
  - rewrite Z.mul_0_r, Z.add_0_r. done.
Qed.

(** C30.  With the tables of the firmware in memory, [find_table] returns the
    first table of the root table with the signature, or [None] when there is
    none, for both revisions, and changes nothing; before [init] it uses the
    null pointer, and a root table shorter than its own header is an overflow. *)
Theorem find_table_correct sig :
  length sig = 4%nat ->
  (forall entries, firmware (c_mem s) (RSDP s) entries ->
     acpi.find_table sig s =
       (Ret (find (fun t => bool_decide (signature_of (c_mem s) t = sig)) entries), s)) /\
  (RSDP s = 0 -> acpi.find_table sig s = (Fault BadPointer, s)) /\
  (0 < RSDP s -> RSDP s + 36 <= 2 ^ 47 -> root_addr (c_mem s) (RSDP s) + 8 <= 2 ^ 47 ->
   rd32 (c_mem s) (root_addr (c_mem s) (RSDP s) + 4) < 36 ->
     acpi.find_table sig s = (Fault Overflow, s)).
Proof.
  intros Hs. split_and!.
  - intros entries Hf. by apply find_table_found.
  - intros H0. unfold acpi.find_table, acpi.root, bind, gets. by rewrite H0.
  - intros H0 H1 H2 Hl. rewrite find_table_eq by done.
    unfold bind, usub. rewrite chk_overflow by lia. done.
Qed.

End claims.

(** A root pointer of revision 2 with two tables, the second an HPET table. *)
Definition HPET_SIG : list Z := [72; 80; 69; 84].
Definition APIC_SIG : list Z := [65; 80; 73; 67].
Definition acpi_mem : mem :=
  let m := wr64 (wr8 ∅ (0x1000 + 15) 2) (0x1000 + 24) 0x2000 in
  let m := wr_bytes (wr32 m (0x2000 + 4) 52) (0x2000 + 36) (le_bytes 8 0x3000 ++ le_bytes 8 0x4000) in
  wr_bytes (wr_bytes m 0x3000 APIC_SIG) 0x4000 HPET_SIG.

Lemma acpi_mem_ok : firmware acpi_mem 0x1000 [0x3000; 0x4000].
Proof.
  assert (Hw : entry_width acpi_mem 0x1000 = 8%nat) by (vm_compute; reflexivity).
  assert (Hr : root_addr acpi_mem 0x1000 = 0x2000) by (vm_compute; reflexivity).
  split; rewrite ?Hw, ?Hr.
  - lia.
  - vm_compute. reflexivity.
  - vm_compute. reflexivity.
  - repeat (apply list.Forall_cons; split; [lia|]). by apply list.Forall_nil.
  - simpl. lia.
Qed.

Lemma find_table_correct_witness :
  acpi.find_table HPET_SIG (mkC acpi_mem 0x1000) = (Ret (Some 0x4000), mkC acpi_mem 0x1000).
Proof.
  destruct (find_table_correct (mkC acpi_mem 0x1000) HPET_SIG eq_refl) as (H & _ & _).
  rewrite (H _ acpi_mem_ok). vm_compute. reflexivity.
Defined.
