(* ===== verification/Hpet.v ===== *)
(** * [drivers/hpet.rs]: the high precision event timer

    [init] finds the timer through ACPI, maps its registers and starts the
    counter; [sleep] polls the counter.  The timer is hardware: what [sleep]
    relies on is the class [HpetTimer], from the HPET specification.  The
    source reads the counter through a plain reference; the model takes every
    read of the loop as written, one access per iteration. *)

From S2P Require Import Prelude Memory Bitmap Pmm Vmm Io Acpi.

Definition MS_IN_FEMTOSECONDS : Z := 1000000000000.

(** The fields of the packed structs the code uses. *)
Module HpetTable.
Definition address : Z := Sdt.size + 1 + 1 + 2 + 1 + 1 + 1 + 1.
End HpetTable.

Module HpetMem.
Definition general_capabilities : Z := 0.
Definition general_config : Z := 8 + 8.
Definition main_counter_value : Z := 8 * 5 + 25 * 8.
End HpetMem.

(** Address spaces and allocator, hardware, [RSDP] and [HPET]. *)
Record tstate (F H : Type) := mkT {
  t_v : vstate F;
  t_hw : H;
  t_rsdp : Z;
  HPET : option Z;
}.
Arguments mkT {F H} _ _ _ _.
Arguments t_v {F H} _.
Arguments t_hw {F H} _.
Arguments t_rsdp {F H} _.
Arguments HPET {F H} _.

Module hpet.
Section hpet.
Context {F H : Type} `{!MmioBus H}.
Abbreviation T := (M (tstate F H)).

Definition on_v {X} : M (vstate F) X -> T X :=
  zoom t_v (fun v s => mkT v (t_hw s) (t_rsdp s) (HPET s)).
Definition on_mem {X} (c : M mem X) : T X := on_v (vmm.on_p (Pmm.on_mem c)).

Definition put_mem (m : mem) (v : vstate F) : vstate F :=
  mkVS (set_mem m (v_p v)) (v_kernel v) (v_cr3 v) (v_flushed v).

Definition on_bus {X} : M (mem * H) X -> T X :=
  zoom (fun s => (p_mem (v_p (t_v s)), t_hw s))
       (fun x s => mkT (put_mem (fst x) (t_v s)) (snd x) (t_rsdp s) (HPET s)).

Definition on_acpi {X} : M cstate X -> T X :=
  zoom (fun s => mkC (p_mem (v_p (t_v s))) (t_rsdp s))
       (fun c s => mkT (put_mem (c_mem c) (t_v s)) (t_hw s) (RSDP c) (HPET s)).

(** [*b"HPET"]. *)
Definition signature : list Z := [72; 80; 69; 84].

Definition flags : Z :=
  Z.lor (Z.lor PageFlags.PRESENT PageFlags.WRITABLE) PageFlags.UNCACHEABLE.

Definition init : T unit :=
  let! t := on_acpi (acpi.find_table signature) in
  let! hpet_table := expect t in
  let! kernel := on_v vmm.get in
  let! address := on_mem (load64 (hpet_table + HpetTable.address)) in
  let! v := uadd u64 address PHYS_BASE in
  do! on_v (vmm.map_page kernel v address flags true) in
  let hpet := address in
  do! on_bus (io.set u64 (hpet + HpetMem.general_config) 1) in
  modify (fun s => mkT (t_v s) (t_hw s) (t_rsdp s) (Some hpet)).

(** [while hpet.main_counter_value < target]. *)
Fixpoint spin (fuel : nat) (hpet target : Z) : T unit :=
  let! now := on_bus (io.get u64 (hpet + HpetMem.main_counter_value)) in
  if now <? target then
    match fuel with
    | O => throw OutOfFuel
    | S fuel' => spin fuel' hpet target
    end
  else ret tt.

Definition sleep (fuel : nat) (ms : Z) : T unit :=
  let! o := gets HPET in
  let! hpet := expect o in
  let! cap := on_bus (io.get u64 (hpet + HpetMem.general_capabilities)) in
  let clock := as_u u32 (Z.shiftr cap 32) in
  let! now := on_bus (io.get u64 (hpet + HpetMem.main_counter_value)) in
  let! fs := umul u64 ms MS_IN_FEMTOSECONDS in
  let! ticks := udiv fs clock in
  let! target := uadd u64 now ticks in
  spin fuel hpet target.

End hpet.
End hpet.

(** ** The timer, from its specification

    [ht_ticks] counts the ticks of the main counter without bound, the register
    shows them modulo 2^[ht_bits]: the specification allows counters of 64 and of
    32 bits, and bit 13 of the capabilities (COUNT_SIZE_CAP), which the code does
    not look at, tells them apart.  A register access takes some time: the counter
    advances by at most [ht_step] ticks meanwhile, and cannot stand still for
    more than [ht_stall] accesses ([ht_lag] is how many are left).  The upper
    half of the capabilities is the period in femtoseconds.  Accesses to the
    timer leave memory alone. *)
Class HpetTimer (H : Type) `{!MmioBus H} := {
  ht_present : Z -> H -> Prop;
  ht_running : Z -> H -> Prop;
  ht_ticks : H -> Z;
  ht_period : H -> Z;
  ht_bits : H -> Z;
  ht_step : Z;
  ht_stall : nat;
  ht_lag : H -> nat;
  ht_lag_bound : forall h, (ht_lag h <= ht_stall)%nat;
  ht_bits_ok : forall h, ht_bits h = 32 \/ ht_bits h = 64;
  ht_start : forall p m h, ht_present p h -> exists h',
    bus_write u64 (p + 0x10) 1 (m, h) = (Ret tt, (m, h')) /\ ht_running p h';
  ht_read_caps : forall p m h, ht_running p h -> exists h' caps,
    bus_read u64 p (m, h) = (Ret caps, (m, h')) /\ ht_running p h' /\
    as_u u32 (Z.shiftr (as_u u64 caps) 32) = ht_period h /\
    Z.testbit caps 13 = (ht_bits h =? 64) /\
    ht_period h' = ht_period h /\ ht_bits h' = ht_bits h /\
    ht_ticks h <= ht_ticks h' <= ht_ticks h + ht_step;
  ht_read_counter : forall p m h, ht_running p h -> exists h',
    bus_read u64 (p + 0xf0) (m, h) = (Ret (ht_ticks h' mod 2 ^ ht_bits h), (m, h')) /\ ht_running p h' /\
    ht_period h' = ht_period h /\ ht_bits h' = ht_bits h /\
    ht_ticks h <= ht_ticks h' <= ht_ticks h + ht_step /\
    (ht_ticks h < ht_ticks h' \/ (ht_lag h' < ht_lag h)%nat);
}.

Section sleep.
Context {F H : Type} `{!MmioBus H, !HpetTimer H}.
Implicit Types (s : tstate F H) (h : H).

Definition set_hw s h : tstate F H := mkT (t_v s) h (t_rsdp s) (HPET s).

Lemma put_mem_same (v : vstate F) : hpet.put_mem (p_mem (v_p v)) v = v.
Proof. by destruct v as [[m b] k c f]. Qed.

(** A register access that leaves memory alone. *)
Lemma reg_run {X} (c : M (mem * H) X) s a h' :
  c (p_mem (v_p (t_v s)), t_hw s) = (Ret a, (p_mem (v_p (t_v s)), h')) ->
  hpet.on_bus c s = (Ret a, set_hw s h').
Proof.
  intros E. unfold hpet.on_bus, zoom. rewrite E. cbn [fst snd]. by rewrite put_mem_same.
Qed.

(** What the register shows fits in 64 bits. *)
Lemma counter_range n h : 0 <= n mod 2 ^ ht_bits h < 2 ^ 64.
Proof. destruct (ht_bits_ok h) as [-> | ->]; pose proof (Z.mod_pos_bound n (2 ^ 32));
  pose proof (Z.mod_pos_bound n (2 ^ 64)); lia. Qed.

Lemma read_counter s p :
  0 <= p -> p + 0xf8 <= 2 ^ 47 -> ht_running p (t_hw s) -> exists h',
  hpet.on_bus (io.get u64 (p + HpetMem.main_counter_value)) s
    = (Ret (ht_ticks h' mod 2 ^ ht_bits (t_hw s)), set_hw s h') /\
  ht_running p h' /\ ht_period h' = ht_period (t_hw s) /\ ht_bits h' = ht_bits (t_hw s) /\
  ht_ticks (t_hw s) <= ht_ticks h' <= ht_ticks (t_hw s) + ht_step /\
  (ht_ticks (t_hw s) < ht_ticks h' \/ (ht_lag h' < ht_lag (t_hw s))%nat).
Proof.
  intros H0 H1 Hr. destruct (ht_read_counter p (p_mem (v_p (t_v s))) _ Hr) as (h' & E & Hrest).
  exists h'. split; [|done]. apply reg_run. unfold io.get, HpetMem.main_counter_value.
  rewrite phys_of_small by lia. change (8 * 5 + 25 * 8) with 0xf0.
  rewrite (bind_run _ _ _ _ _ E). unfold ret, as_u, u64.
  by rewrite (Z.mod_small (_ mod 2 ^ ht_bits _)) by apply counter_range.
Qed.

Lemma read_caps s p :
  0 <= p -> p + 0xf8 <= 2 ^ 47 -> ht_running p (t_hw s) -> exists h' caps,
  hpet.on_bus (io.get u64 (p + HpetMem.general_capabilities)) s = (Ret caps, set_hw s h') /\
  ht_running p h' /\ as_u u32 (Z.shiftr caps 32) = ht_period (t_hw s) /\
  ht_period h' = ht_period (t_hw s) /\ ht_bits h' = ht_bits (t_hw s) /\
  ht_ticks (t_hw s) <= ht_ticks h' <= ht_ticks (t_hw s) + ht_step.
Proof.
  intros H0 H1 Hr. destruct (ht_read_caps p (p_mem (v_p (t_v s))) _ Hr) as (h' & caps & E & Hrest).
  exists h', (as_u u64 caps). split; [|naive_solver]. apply reg_run.
  unfold io.get, HpetMem.general_capabilities.
  rewrite Z.add_0_r, phys_of_small by lia. by rewrite (bind_run _ _ _ _ _ E).
Qed.

(** How many reads the loop needs at most. *)
Definition rounds (n : Z) (lag : nat) : nat := (Z.to_nat n * S ht_stall + lag)%nat.

Lemma spin_ends target p : forall fuel s,
  0 <= p -> p + 0xf8 <= 2 ^ 47 -> ht_running p (t_hw s) ->
  0 <= ht_ticks (t_hw s) -> target + ht_step < 2 ^ ht_bits (t_hw s) ->
  ht_ticks (t_hw s) + ht_step < 2 ^ ht_bits (t_hw s) ->
  (rounds (target - ht_ticks (t_hw s)) (ht_lag (t_hw s)) <= fuel)%nat ->
  exists h', hpet.spin fuel p target s = (Ret tt, set_hw s h') /\ ht_running p h' /\
    ht_period h' = ht_period (t_hw s) /\ target <= ht_ticks h' /\
    (ht_ticks h' <= ht_ticks (t_hw s) + ht_step \/ ht_ticks h' <= target + ht_step).
Proof.
  induction fuel as [|fuel IH]; intros s H0 H1 Hr Hp Ht Hs Hf;
    destruct (read_counter s p H0 H1 Hr) as (h' & E & Hr' & Hper & Hbits & Hadv & Hprog);
    cbn [hpet.spin]; rewrite (bind_run _ _ _ _ _ E); rewrite Z.mod_small by lia;
    destruct (Z.ltb_spec (ht_ticks h') target) as [Hlt|Hge].
  - exfalso. unfold rounds in Hf. nia.
  - exists h'. split_and!; try done. left. lia.
  - destruct (IH (set_hw s h')) as (h'' & E'' & Hr'' & Hper'' & Hge & Hle); try done;
      cbn [set_hw t_hw] in *; rewrite ?Hbits; try lia.
    + unfold rounds in *. pose proof (ht_lag_bound h'). destruct Hprog as [Hadv1|Hlag]; [|nia].
      replace (Z.to_nat (target - ht_ticks (t_hw s)))
        with (S (Z.to_nat (target - ht_ticks h')) + (Z.to_nat (ht_ticks h' - ht_ticks (t_hw s) - 1)))%nat in Hf by lia.
      nia.
    + exists h''. split_and!; try done; [congruence|]. right. lia.
  - exists h'. split_and!; try done. left. lia.
Qed.

(** The number of ticks [sleep] waits for. *)
Definition wait_ticks (ms period : Z) : Z := ms * MS_IN_FEMTOSECONDS / period.

(** [sleep] up to its arithmetic. *)
Lemma sleep_reads fuel ms s p :
  HPET s = Some p -> 0 <= p -> p + 0xf8 <= 2 ^ 47 -> ht_running p (t_hw s) ->
  exists h, ht_running p h /\ ht_period h = ht_period (t_hw s) /\ ht_bits h = ht_bits (t_hw s) /\
    ht_ticks (t_hw s) <= ht_ticks h <= ht_ticks (t_hw s) + 2 * ht_step /\
    hpet.sleep fuel ms s =
      (let! fs := umul u64 ms MS_IN_FEMTOSECONDS in
       let! ticks := udiv fs (ht_period (t_hw s)) in
       let! target := uadd u64 (ht_ticks h mod 2 ^ ht_bits h) ticks in
       hpet.spin fuel p target) (set_hw s h).
Proof.
  intros Ho H0 H1 Hr. unfold hpet.sleep.
  rewrite (bind_run _ _ _ (Some p) s) by (unfold gets; by rewrite Ho).
  rewrite (bind_run _ _ _ p s) by done.
  destruct (read_caps s p H0 H1 Hr) as (h1 & caps & E1 & Hr1 & Hc & Hp1 & Hb1 & Ha1).
  rewrite (bind_run _ _ _ _ _ E1). cbv zeta. rewrite Hc.
  destruct (read_counter (set_hw s h1) p H0 H1 Hr1) as (h2 & E2 & Hr2 & Hp2 & Hb2 & Ha2 & _).
  cbn [set_hw t_hw] in *. rewrite (bind_run _ _ _ _ _ E2).
  exists h2. split_and!; [done|congruence..|lia|lia|]. by rewrite Hb2.
Qed.

(** ... and up to the target, while the counter does not wrap. *)
Lemma sleep_target fuel ms s p :
  HPET s = Some p -> 0 <= p -> p + 0xf8 <= 2 ^ 47 -> ht_running p (t_hw s) ->
  0 <= ht_ticks (t_hw s) -> ht_ticks (t_hw s) + 2 * ht_step < 2 ^ ht_bits (t_hw s) ->
  0 < ht_period (t_hw s) -> 0 <= ms -> ms * MS_IN_FEMTOSECONDS < 2 ^ 64 ->
  exists h, ht_running p h /\ ht_period h = ht_period (t_hw s) /\ ht_bits h = ht_bits (t_hw s) /\
    ht_ticks (t_hw s) <= ht_ticks h <= ht_ticks (t_hw s) + 2 * ht_step /\
    hpet.sleep fuel ms s =
      (let! target := uadd u64 (ht_ticks h) (wait_ticks ms (ht_period (t_hw s))) in
       hpet.spin fuel p target) (set_hw s h).
Proof.
  intros Ho H0 H1 Hr Ht Hw Hper Hms Hfs.
  destruct (sleep_reads fuel ms s p Ho H0 H1 Hr) as (h & Hr' & Hp & Hb & Ha & ->).
  exists h. split_and!; try done; try lia.
  rewrite Hb, (Z.mod_small (ht_ticks h)) by lia.
  unfold umul. rewrite (bind_run _ _ _ (ms * MS_IN_FEMTOSECONDS) (set_hw s h))
    by (apply chk_ok; unfold u64, MS_IN_FEMTOSECONDS in *; lia).
  rewrite (bind_run _ _ _ (wait_ticks ms (ht_period (t_hw s))) (set_hw s h)); [done|].
  unfold udiv. by replace (_ =? 0) with false by lia.
Qed.

Lemma sleep_run fuel ms s p :
  HPET s = Some p -> 0 <= p -> p + 0xf8 <= 2 ^ 47 -> ht_running p (t_hw s) ->
  0 <= ht_ticks (t_hw s) -> 0 <= ht_step -> 0 < ht_period (t_hw s) ->
  0 <= ms -> ms * MS_IN_FEMTOSECONDS < 2 ^ 64 ->
  ht_ticks (t_hw s) + 3 * ht_step + wait_ticks ms (ht_period (t_hw s)) < 2 ^ ht_bits (t_hw s) ->
  (rounds (wait_ticks ms (ht_period (t_hw s))) ht_stall <= fuel)%nat ->
  exists h' t0, hpet.sleep fuel ms s = (Ret tt, set_hw s h') /\ ht_running p h' /\
    ht_period h' = ht_period (t_hw s) /\ ht_ticks (t_hw s) <= t0 <= ht_ticks (t_hw s) + 2 * ht_step /\
    t0 + wait_ticks ms (ht_period (t_hw s)) <= ht_ticks h'
      <= t0 + wait_ticks ms (ht_period (t_hw s)) + ht_step.
Proof.
  intros Ho H0 H1 Hr Ht Hst Hper Hms Hfs Hmax Hfuel.
  set (n := wait_ticks ms (ht_period (t_hw s))) in *.
  assert (0 <= n) as Hn by (apply Z.div_pos; unfold MS_IN_FEMTOSECONDS in *; lia).
  assert (2 ^ ht_bits (t_hw s) <= 2 ^ 64) as Hb64 by (destruct (ht_bits_ok (t_hw s)) as [-> | ->]; lia).
  destruct (sleep_target fuel ms s p) as (h2 & Hr2 & Hp2 & Hb2 & Ha2 & ->); try done; [lia|].
  fold n. unfold uadd. rewrite (bind_run _ _ _ (ht_ticks h2 + n) (set_hw s h2)) by (apply chk_ok; unfold u64; lia).
  destruct (spin_ends (ht_ticks h2 + n) p fuel (set_hw s h2)) as (h' & E & Hr' & Hp' & Hge & Hle);
    cbn [set_hw t_hw] in *; rewrite ?Hb2; try done; try lia.
  - etrans; [|exact Hfuel]. unfold rounds. pose proof (ht_lag_bound h2).
    replace (ht_ticks h2 + n - ht_ticks h2) with n by lia. lia.
  - exists h', (ht_ticks h2). split_and!; try done; try congruence; lia.
Qed.

(** A time that does not fit in 64 bits. *)
Lemma sleep_overflow fuel ms s p :
  HPET s = Some p -> 0 <= p -> p + 0xf8 <= 2 ^ 47 -> ht_running p (t_hw s) ->
  2 ^ 64 <= ms * MS_IN_FEMTOSECONDS ->
  exists s', hpet.sleep fuel ms s = (Fault Overflow, s').
Proof.
  intros Ho H0 H1 Hr Hms. destruct (sleep_reads fuel ms s p Ho H0 H1 Hr) as (h & _ & _ & _ & _ & ->).
  eexists. unfold bind at 1, umul. rewrite chk_overflow by (unfold u64; lia). reflexivity.
Qed.

(** A timer that reports the (reserved) period 0. *)
Lemma sleep_no_period fuel ms s p :
  HPET s = Some p -> 0 <= p -> p + 0xf8 <= 2 ^ 47 -> ht_running p (t_hw s) ->
  ht_period (t_hw s) = 0 -> 0 <= ms -> ms * MS_IN_FEMTOSECONDS < 2 ^ 64 ->
  exists s', hpet.sleep fuel ms s = (Fault DivZero, s').
Proof.
  intros Ho H0 H1 Hr Hp Hms Hfs. destruct (sleep_reads fuel ms s p Ho H0 H1 Hr) as (h & _ & _ & _ & _ & ->).
  rewrite Hp. unfold umul. rewrite (bind_run _ _ _ (ms * MS_IN_FEMTOSECONDS) (set_hw s h))
    by (apply chk_ok; unfold u64, MS_IN_FEMTOSECONDS in *; lia).
  eexists. unfold bind at 1. cbn. reflexivity.
Qed.

(** A target beyond 64 bits. *)
Lemma sleep_target_overflow fuel ms s p :
  HPET s = Some p -> 0 <= p -> p + 0xf8 <= 2 ^ 47 -> ht_running p (t_hw s) ->
  0 <= ht_ticks (t_hw s) -> ht_ticks (t_hw s) + 2 * ht_step < 2 ^ ht_bits (t_hw s) ->
  0 < ht_period (t_hw s) -> 0 <= ms -> ms * MS_IN_FEMTOSECONDS < 2 ^ 64 ->
  2 ^ 64 <= ht_ticks (t_hw s) + wait_ticks ms (ht_period (t_hw s)) ->
  exists s', hpet.sleep fuel ms s = (Fault Overflow, s').
Proof.
  intros Ho H0 H1 Hr Ht Hw Hper Hms Hfs Hbig.
  destruct (sleep_target fuel ms s p) as (h & _ & _ & _ & Ha & ->); try done.
  eexists. unfold bind at 1, uadd. rewrite chk_overflow by (unfold u64; lia). reflexivity.
Qed.

(** A target the counter never shows. *)
Lemma spin_endless target p : forall fuel s,
  0 <= p -> p + 0xf8 <= 2 ^ 47 -> ht_running p (t_hw s) -> 2 ^ ht_bits (t_hw s) <= target ->
  exists s', hpet.spin fuel p target s = (Fault OutOfFuel, s').
Proof.
  induction fuel as [|fuel IH]; intros s H0 H1 Hr Hbig;
    destruct (read_counter s p H0 H1 Hr) as (h' & E & Hr' & _ & Hb & _);
    cbn [hpet.spin]; rewrite (bind_run _ _ _ _ _ E);
    (assert (ht_ticks h' mod 2 ^ ht_bits (t_hw s) < 2 ^ ht_bits (t_hw s))
       by (apply Z.mod_pos_bound; destruct (ht_bits_ok (t_hw s)) as [-> | ->]; lia));
    rewrite (proj2 (Z.ltb_lt _ _)) by lia; [by eexists|].
  apply IH; try done. cbn [set_hw t_hw]. by rewrite Hb.
Qed.

Lemma sleep_endless fuel ms s p :
  HPET s = Some p -> 0 <= p -> p + 0xf8 <= 2 ^ 47 -> ht_running p (t_hw s) ->
  0 <= ht_ticks (t_hw s) -> ht_ticks (t_hw s) + 2 * ht_step < 2 ^ ht_bits (t_hw s) ->
  0 < ht_period (t_hw s) -> 0 <= ms -> ms * MS_IN_FEMTOSECONDS < 2 ^ 64 ->
  2 ^ ht_bits (t_hw s) <= ht_ticks (t_hw s) + wait_ticks ms (ht_period (t_hw s)) ->
  ht_ticks (t_hw s) + 2 * ht_step + wait_ticks ms (ht_period (t_hw s)) < 2 ^ 64 ->
  exists s', hpet.sleep fuel ms s = (Fault OutOfFuel, s').
Proof.
  intros Ho H0 H1 Hr Ht Hw Hper Hms Hfs Hbig Hfit.
  assert (0 <= wait_ticks ms (ht_period (t_hw s))) as Hn
    by (apply Z.div_pos; unfold MS_IN_FEMTOSECONDS in *; lia).
  destruct (sleep_target fuel ms s p) as (h & Hr' & _ & Hb & Ha & ->); try done.
  unfold uadd. rewrite (bind_run _ _ _ (ht_ticks h + wait_ticks ms (ht_period (t_hw s))) (set_hw s h))
    by (apply chk_ok; unfold u64; lia).
  apply spin_endless; try done. cbn [set_hw t_hw]. rewrite Hb. lia.
Qed.

End sleep.

(** ** Finding and starting the timer *)

Section start.
Context {F H : Type} `{!MmioBus H, !HpetTimer H}.
Implicit Types (s : tstate F H) (bm : Bitmap).

(** What [init] relies on: the firmware's tables, one of them (the first with
    the signature) an HPET table at [t] for the timer at [p], and an address
    space with frames for three tables. *)
Record hpet_setting s bm (k : VirtualMemManager F) (t p : Z) : Prop := {
  hs_table : exists entries, firmware (p_mem (v_p (t_v s))) (t_rsdp s) entries /\
    find (fun u => bool_decide (signature_of (p_mem (v_p (t_v s))) u = hpet.signature)) entries = Some t;
  hs_t : 0 <= t /\ t + 52 <= 2 ^ 47;
  hs_p : rd64 (p_mem (v_p (t_v s))) (t + 44) = p /\ p + 0x400 <= 2 ^ 47;
  hs_timer : ht_present p (t_hw s);
  hs_kernel : v_kernel (t_v s) = Some k;
  hs_space : space_ok (t_v s) bm (pagemap k);
  hs_frames : (3 <= free_count (p_mem (v_p (t_v s))) bm)%nat;
}.

Lemma hpet_entry_range p : 0 <= p < 2 ^ 47 -> 0 <= Z.lor p hpet.flags < 2 ^ 64.
Proof.
  intros Hp. enough (0 <= Z.lor p hpet.flags < 2 ^ 47) by lia.
  apply lor_range; [lia|done|]. by vm_compute.
Qed.

Lemma init_run s bm k t p :
  hpet_setting s bm k t p ->
  exists s', hpet.init s = (Ret tt, s') /\ HPET s' = Some p /\ t_rsdp s' = t_rsdp s /\
    ht_running p (t_hw s') /\
    mapped k (t_v s) (t_v s') bm (p + PHYS_BASE) (Z.lor p hpet.flags) true.
Proof.
  intros [(entries & Hfw & Hfind) [Ht0 Ht] [Hp Hpr] Htm Hk Hsp Hfr].
  assert (0 <= p) as Hp0 by (subst p; apply rd64_range).
  unfold hpet.init. rewrite (bind_run _ _ _ (Some t) s).
  2:{ unfold hpet.on_acpi, zoom. rewrite (find_table_found (mkC _ _) _ entries) by done.
      cbn [c_mem RSDP] in *. rewrite Hfind, put_mem_same. by destruct s. }
  rewrite (bind_run _ _ _ t s) by done.
  rewrite (bind_run _ _ _ k s).
  2:{ unfold hpet.on_v, zoom, vmm.get, bind, gets. rewrite Hk. by destruct s. }
  rewrite (bind_run _ _ _ p s).
  2:{ unfold hpet.on_mem, hpet.on_v, vmm.on_p, Pmm.on_mem, zoom, load64, gets.
      rewrite phys_of_small by (unfold HpetTable.address, Sdt.size; lia).
      change HpetTable.address with 44. rewrite Hp. by destruct s as [[[] ? ? ?] ? ? ?]. }
  unfold uadd. rewrite (bind_run _ _ _ (p + PHYS_BASE) s)
    by (apply chk_ok; unfold PHYS_BASE, u64; lia).
  pose proof (map_page_wp k (p + PHYS_BASE) p hpet.flags true (t_v s) bm Hsp
                (hpet_entry_range p ltac:(lia))) as Hm.
  unfold wp in Hm. destruct (vmm.map_page _ _ _ _ _ _) as [[[]|f] v'] eqn:Em.
  2:{ destruct Hm as [_ Hm]. pose proof (um_few _ _ _ _ Hm). lia. }
  set (s1 := mkT v' (t_hw s) (t_rsdp s) (HPET s)).
  rewrite (bind_run _ _ _ tt s1) by (unfold hpet.on_v, zoom; by rewrite Em).
  destruct (ht_start p (p_mem (v_p v')) (t_hw s) Htm) as (h' & Ew & Hr).
  rewrite (bind_run _ _ _ tt (set_hw s1 h')).
  2:{ apply reg_run. unfold io.set. rewrite phys_of_small by (unfold HpetMem.general_config; lia).
      exact Ew. }
  eexists. split; [reflexivity|]. by split_and!.
Qed.

End start.

(** ** A timer that ticks at every second access, as an instance *)

Record timersim := mkTimer { ts_wide : bool; ts_ticks : Z; ts_half : bool; ts_on : bool }.

Definition ts_bits (h : timersim) : Z := if ts_wide h then 64 else 32.

Definition TIMER_BASE : Z := 0xfed00000.
(** 100 ns, the longest period the specification allows. *)
Definition TIMER_PERIOD : Z := 100000000.

(** The time one access takes. *)
Definition tick (h : timersim) : timersim :=
  if ts_half h then mkTimer (ts_wide h) (ts_ticks h + 1) false (ts_on h)
  else mkTimer (ts_wide h) (ts_ticks h) true (ts_on h).

#[export] Instance timersim_bus : MmioBus timersim := {
  bus_read w p := fun s =>
    let h' := if ts_on (snd s) then tick (snd s) else snd s in
    (Ret (if p =? TIMER_BASE then TIMER_PERIOD * 2 ^ 32 + (if ts_wide h' then 2 ^ 13 else 0)
          else if p =? TIMER_BASE + 0xf0 then ts_ticks h' mod 2 ^ ts_bits h' else 0), (fst s, h'));
  bus_write w p v := fun s =>
    (Ret tt, (fst s, if p =? TIMER_BASE + 0x10
                     then mkTimer (ts_wide (snd s)) (ts_ticks (snd s)) (ts_half (snd s)) (Z.testbit v 0)
                     else snd s));
}.

#[export] Instance timersim_hpet : HpetTimer timersim.
Proof.
  refine {| ht_present := fun p _ => p = TIMER_BASE;
            ht_running := fun p h => p = TIMER_BASE /\ ts_on h = true;
            ht_ticks := ts_ticks; ht_period := fun _ => TIMER_PERIOD; ht_bits := ts_bits; ht_step := 1; ht_stall := 1;
            ht_lag := fun h => if ts_half h then 0%nat else 1%nat |}.
  - intros h. destruct (ts_half h); lia.
  - intros h. unfold ts_bits. destruct (ts_wide h); [by right|by left].
  - intros p m h ->. eexists. split; [reflexivity|]. by split.
  - intros p m h [-> Hon]. eexists _, _. split; [reflexivity|]. cbn [snd].
    rewrite Hon. destruct h as [w n hf on]. unfold tick, ts_bits.
    destruct w, hf; cbn; repeat split; try done; lia.
  - intros p m h [-> Hon]. exists (tick h). cbn [bus_read timersim_bus snd fst]. rewrite Hon.
    split; [destruct h as [w n [] on]; reflexivity|].
    destruct h as [w n hf on]. unfold tick, ts_bits. destruct w, hf; cbn; repeat split; try done; try lia.
Defined.

(** ** Properties *)

Section claims.
Context {F H : Type} `{!MmioBus H, !HpetTimer H}.
Implicit Types (s : tstate F H) (bm : Bitmap).

(** C31.  [hpet::init] finds the timer through the ACPI tables, maps its registers
    uncached above [PHYS_BASE] and starts it; the address space and the page
    allocator stay well formed, no other translation changes, and [HPET] is the
    running timer that [sleep] uses. *)
Theorem hpet_init_correct s bm k t p :
  hpet_setting s bm k t p ->
  exists s', hpet.init s = (Ret tt, s') /\ HPET s' = Some p /\ ht_running p (t_hw s') /\
    mapped k (t_v s) (t_v s') bm (p + PHYS_BASE) (Z.lor p hpet.flags) true.
Proof. intros Hs. destruct (init_run s bm k t p Hs) as (s' & E & Ho & _ & Hr & Hm). eauto. Qed.

(** C28.  [hpet::sleep] with a running timer whose counter does not wrap before the
    target is computed: when the target plus the ticks of one register access is
    below the range of the counter it returns, after at least the time asked for
    less one tick, and at most three register accesses more, and nothing but the
    time has changed.  It panics when the timer is not set up, when the time in
    femtoseconds or the target does not fit in 64 bits, and when the timer
    reports the period 0.  On a 32-bit counter a target of 2^32 or more is never
    reached and the loop does not end, whatever its bound. *)
Theorem hpet_sleep_elapses fuel ms s p :
  HPET s = Some p -> 0 <= p -> p + 0xf8 <= 2 ^ 47 -> ht_running p (t_hw s) ->
  0 <= ht_ticks (t_hw s) -> 0 <= ht_step -> ht_ticks (t_hw s) + 2 * ht_step < 2 ^ ht_bits (t_hw s) ->
  0 <= ht_period (t_hw s) -> 0 <= ms ->
  let fs := ms * MS_IN_FEMTOSECONDS in
  let wait := fs / ht_period (t_hw s) in
  (hpet.sleep fuel ms (mkT (t_v s) (t_hw s) (t_rsdp s) None)
     = (Fault Expect, mkT (t_v s) (t_hw s) (t_rsdp s) None)) /\
  (2 ^ 64 <= fs -> exists s', hpet.sleep fuel ms s = (Fault Overflow, s')) /\
  (fs < 2 ^ 64 -> ht_period (t_hw s) = 0 -> exists s', hpet.sleep fuel ms s = (Fault DivZero, s')) /\
  (fs < 2 ^ 64 -> 0 < ht_period (t_hw s) ->
   (2 ^ 64 <= ht_ticks (t_hw s) + wait -> exists s', hpet.sleep fuel ms s = (Fault Overflow, s')) /\
   (2 ^ ht_bits (t_hw s) <= ht_ticks (t_hw s) + wait ->
    ht_ticks (t_hw s) + 2 * ht_step + wait < 2 ^ 64 ->
    exists s', hpet.sleep fuel ms s = (Fault OutOfFuel, s')) /\
   (ht_ticks (t_hw s) + 3 * ht_step + wait < 2 ^ ht_bits (t_hw s) ->
    (rounds wait ht_stall <= fuel)%nat ->
    exists h', hpet.sleep fuel ms s = (Ret tt, set_hw s h') /\ ht_running p h' /\
      let elapsed := ht_ticks h' - ht_ticks (t_hw s) in
      fs < (elapsed + 1) * ht_period (t_hw s) /\
      elapsed * ht_period (t_hw s) <= fs + 3 * ht_step * ht_period (t_hw s))).
Proof.
  intros Ho H0 H1 Hr Ht Hst Hw Hper Hms fs wait. subst fs wait. split; [done|].
  split; [by apply sleep_overflow with (p := p)|].
  split; [intros; by apply sleep_no_period with (p := p)|]. intros Hfs Hpos.
  split; [by apply sleep_target_overflow with (p := p)|].
  split; [intros Hb Hfit; by apply sleep_endless with (p := p)|]. intros Hmax Hf.
  destruct (sleep_run fuel ms s p Ho H0 H1 Hr Ht Hst Hpos Hms Hfs Hmax Hf)
    as (h' & t0 & E & Hr' & _ & Ht0 & Hh').
  exists h'. split_and!; try done; cbv zeta; unfold wait_ticks in *;
    pose proof (Z.div_mod (ms * MS_IN_FEMTOSECONDS) (ht_period (t_hw s)));
    pose proof (Z.mod_pos_bound (ms * MS_IN_FEMTOSECONDS) (ht_period (t_hw s))); nia.
Qed.

End claims.

(** ** Witnesses *)

(** The tables above the managed frames, the timer behind the second one. *)
Definition timer_mem : mem :=
  let m := wr8 (wr32 mem_w (0x9000 + 16) 0xa000) 0x9000 0x52 in
  let m := wr_bytes (wr32 m (0xa000 + 4) 44) (0xa000 + 36) (le_bytes 4 0xb000 ++ le_bytes 4 0xc000) in
  wr64 (wr_bytes (wr_bytes m 0xb000 APIC_SIG) 0xc000 HPET_SIG) (0xc000 + 44) TIMER_BASE.

Definition timer_state : tstate unit timersim :=
  mkT (mkVS (mkP timer_mem (Some bm_w)) (Some self_w) 0x4000 []) (mkTimer true 7 false false) 0x9000 None.

Lemma timer_space : space_ok (t_v timer_state) bm_w 0x4000.
Proof.
  split_and!; [done|apply pmm_check_sound; vm_compute; reflexivity|]. apply pt_inv_empty.
  - split; [done|done|by vm_compute|right; by vm_compute].
  - intros i Hi. unfold idx_ok in Hi. apply rdn_zero. intros x Hx. simpl p_mem. unfold timer_mem.
    rewrite rd8_wrn_frame, !rd8_wr_bytes, !decide_False by (simpl length; lia).
    rewrite rd8_wrn_frame, rd8_wr8_ne, rd8_wrn_frame by lia.
    unfold rd8, mem_w. rewrite lookup_singleton_ne by lia. done.
Qed.

Lemma timer_setting : hpet_setting timer_state bm_w self_w 0xc000 TIMER_BASE.
Proof.
  assert (Hw : entry_width timer_mem 0x9000 = 4%nat) by (vm_compute; reflexivity).
  assert (Hr : root_addr timer_mem 0x9000 = 0xa000) by (vm_compute; reflexivity).
  split; cbn [timer_state t_v v_p p_mem t_rsdp t_hw v_kernel].
  - exists [0xb000; 0xc000]. split; [|vm_compute; reflexivity]. split; rewrite ?Hw, ?Hr.
    + lia.
    + vm_compute. reflexivity.
    + vm_compute. reflexivity.
    + repeat (apply list.Forall_cons; split; [lia|]). by apply list.Forall_nil.
    + simpl. lia.
  - lia.
  - split; [vm_compute; reflexivity|unfold TIMER_BASE; lia].
  - reflexivity.
  - reflexivity.
  - exact timer_space.
  - vm_compute. repeat constructor.
Qed.

Lemma hpet_init_correct_witness :
  exists s', hpet.init timer_state = (Ret tt, s') /\ HPET s' = Some TIMER_BASE.
Proof.
  destruct (hpet_init_correct timer_state bm_w self_w 0xc000 TIMER_BASE timer_setting)
    as (s' & E & Ho & _). exists s'. split; [exact E|exact Ho].
Defined.

Definition timer_running : tstate unit timersim :=
  mkT (t_v timer_state) (mkTimer true 7 false true) 0x9000 (Some TIMER_BASE).

(** The same timer with a 32-bit counter, close to its end. *)
Definition timer_narrow : tstate unit timersim :=
  mkT (t_v timer_state) (mkTimer false (2 ^ 32 - 100) false true) 0x9000 (Some TIMER_BASE).

(** The same timer with its 64-bit counter close to the end. *)
Definition timer_late : tstate unit timersim :=
  mkT (t_v timer_state) (mkTimer true (2 ^ 64 - 100) false true) 0x9000 (Some TIMER_BASE).

(** One millisecond is 10000 ticks of the example timers: the first one waits,
    the narrow one never ends, the late one panics. *)
Lemma hpet_sleep_elapses_witness :
  (exists h', hpet.sleep (rounds 10000 1) 1 timer_running
    = (Ret tt, set_hw timer_running h') /\ 9999 <= ts_ticks h' - 7 <= 10003) /\
  (exists s', hpet.sleep 100 1 timer_narrow = (Fault OutOfFuel, s')) /\
  (exists s', hpet.sleep 100 1 timer_late = (Fault Overflow, s')).
Proof.
  assert (Hb : 0 <= TIMER_BASE /\ TIMER_BASE + 0xf8 <= 2 ^ 47) by (unfold TIMER_BASE; lia).
  assert (Hm : 1 * MS_IN_FEMTOSECONDS < 2 ^ 64) by (unfold MS_IN_FEMTOSECONDS; lia).
  assert (Hp : 0 < TIMER_PERIOD) by (unfold TIMER_PERIOD; lia).
  assert (Hw : 1 * MS_IN_FEMTOSECONDS / TIMER_PERIOD = 10000) by (vm_compute; reflexivity).
  destruct Hb as [Hb0 Hb1]. split_and!.
  - destruct (hpet_sleep_elapses (rounds 10000 1) 1 timer_running TIMER_BASE) as (_ & _ & _ & H);
      [reflexivity|exact Hb0|exact Hb1|split; reflexivity|cbn; lia..|].
    destruct (H Hm Hp) as (_ & _ & H'). destruct H' as (h' & E & _ & H1 & H2).
    + change (7 + 3 * 1 + 1 * MS_IN_FEMTOSECONDS / TIMER_PERIOD < 2 ^ 64). rewrite Hw. lia.
    + change (rounds (1 * MS_IN_FEMTOSECONDS / TIMER_PERIOD) 1 <= rounds 10000 1)%nat. rewrite Hw. apply le_n.
    + exists h'. split; [exact E|].
      cbn [ht_ticks timersim_hpet ht_step ht_period t_hw timer_running ts_ticks] in H1, H2.
      unfold MS_IN_FEMTOSECONDS, TIMER_PERIOD in *. lia.
  - destruct (hpet_sleep_elapses 100 1 timer_narrow TIMER_BASE) as (_ & _ & _ & H);
      [reflexivity|exact Hb0|exact Hb1|split; reflexivity|cbn; lia..|].
    destruct (H Hm Hp) as (_ & H' & _). apply H'.
    + change (2 ^ 32 <= 2 ^ 32 - 100 + 1 * MS_IN_FEMTOSECONDS / TIMER_PERIOD). rewrite Hw. lia.
    + change (2 ^ 32 - 100 + 2 * 1 + 1 * MS_IN_FEMTOSECONDS / TIMER_PERIOD < 2 ^ 64). rewrite Hw. lia.
  - destruct (hpet_sleep_elapses 100 1 timer_late TIMER_BASE) as (_ & _ & _ & H);
      [reflexivity|exact Hb0|exact Hb1|split; reflexivity|cbn; lia..|].
    destruct (H Hm Hp) as (H' & _ & _). apply H'.
    change (2 ^ 64 <= 2 ^ 64 - 100 + 1 * MS_IN_FEMTOSECONDS / TIMER_PERIOD). rewrite Hw. lia.
Defined.
