(* ===== verification/Interrupts.v ===== *)
(** * [arch/x86_64/interrupts.rs]: the IDT and the interrupt stubs

    The table of gates with its registration, and the two stub macros as
    programs of a small stack machine; the Rust handler they call is a
    parameter that keeps the stack, as the calling convention asks. *)

From S2P Require Import Prelude.

(** ** Gates *)

Record IdtGate := mkGate {
  offset1 : Z;
  selector : Z;
  ist : Z;
  gate_type : Z;
  offset2 : Z;
  offset3 : Z;
  zero : Z;
}.

Definition gate_new (offset ist gate_type selector : Z) : IdtGate :=
  mkGate (as_u u16 (Z.land offset 0xffff)) selector ist gate_type
         (as_u u16 (Z.land (Z.shiftr offset 16) 0xffff))
         (as_u u32 (Z.shiftr offset 32)) 0.

Record IdtDescriptor := mkIdtr { idtr_limit : Z; idtr_offset : Z }.

(** [IDT], [IDT_DESCRIPTOR], the IDT register and the interrupt flag. *)
Record istate := mkI {
  i_idt : list IdtGate;
  i_descriptor : IdtDescriptor;
  i_idtr : option IdtDescriptor;
  i_if : bool;
}.

Definition istate_0 : istate :=
  mkI (replicate 256 (gate_new 0 0 0 0)) (mkIdtr (16 * 256) 0) None false.

Module interrupts.

(** [IDT[vector] = ..]: an index out of range panics. *)
Definition register_isr (vector addr ist gate_type : Z) : M istate unit :=
  let! idt := gets i_idt in
  if vector <? Z.of_nat (length idt) then
    modify (fun s => mkI (<[Z.to_nat vector := gate_new addr ist gate_type 0x8]> (i_idt s))
                         (i_descriptor s) (i_idtr s) (i_if s))
  else throw OutOfBounds.

Fixpoint alloc_vector_loop (n : nat) (i : Z) : M istate (option Z) :=
  match n with
  | O => ret None
  | S n' =>
      let! idt := gets i_idt in
      match idt !! Z.to_nat i with
      | None => throw OutOfBounds
      | Some g => if gate_type g =? 0 then ret (Some i) else alloc_vector_loop n' (i + 1)
      end
  end.

(** [for i in 32..256]. *)
Definition alloc_vector : M istate (option Z) := alloc_vector_loop (Z.to_nat (256 - 32)) 32.

(** [init]; [idt_addr], [int3] and [invalid_opcode] are the addresses of the
    table and of the two stubs. *)
Definition init (idt_addr int3 invalid_opcode : Z) : M istate unit :=
  do! register_isr 0x3 int3 0 0x8e in
  do! register_isr 0x6 invalid_opcode 0 0x8e in
  do! modify (fun s => mkI (i_idt s) (mkIdtr (idtr_limit (i_descriptor s)) idt_addr)
                           (i_idtr s) (i_if s)) in
  modify (fun s => mkI (i_idt s) (i_descriptor s) (Some (i_descriptor s)) (i_if s)).

Definition enable : M istate unit :=
  modify (fun s => mkI (i_idt s) (i_descriptor s) (i_idtr s) true).
Definition disable : M istate unit :=
  modify (fun s => mkI (i_idt s) (i_descriptor s) (i_idtr s) false).

End interrupts.

(** ** The stubs *)

Inductive reg :=
  | rax | rbx | rcx | rdx | rsi | rdi | rbp
  | r8 | r9 | r10 | r11 | r12 | r13 | r14 | r15.

#[export] Instance reg_eq_dec : EqDecision reg.
Proof. solve_decision. Defined.

(** The registers, the stack pointer, the words from the stack pointer up, and
    the direction flag. *)
Record cpu_st := mkCpu { gpr : reg -> Z; rsp : Z; stk : list Z; df : bool }.

Definition set_gpr (f : reg -> Z) (r : reg) (v : Z) : reg -> Z :=
  fun r' => if decide (r' = r) then v else f r'.

Inductive instr :=
  | Push (r : reg)
  | Pop (r : reg)
  | XchgTop (r : reg)   (* xchg [rsp], r *)
  | MovRsp (r : reg)    (* mov r, rsp *)
  | AddRsp8             (* add rsp, 8 *)
  | Cld
  | CallIsr.            (* call {isr} *)

Section stubs.
(** The handler, up to and including its return. *)
Context (isr : cpu_st -> cpu_st).

Definition exec1 (i : instr) (s : cpu_st) : option cpu_st :=
  let '(mkCpu g sp k d) := s in
  match i with
  | Push r => Some (mkCpu g (sp - 8) (g r :: k) d)
  | Pop r =>
      match k with
      | w :: k' => Some (mkCpu (set_gpr g r w) (sp + 8) k' d)
      | [] => None
      end
  | XchgTop r =>
      match k with
      | w :: k' => Some (mkCpu (set_gpr g r w) sp (g r :: k') d)
      | [] => None
      end
  | MovRsp r => Some (mkCpu (set_gpr g r sp) sp k d)
  | AddRsp8 =>
      match k with
      | _ :: k' => Some (mkCpu g (sp + 8) k' d)
      | [] => None
      end
  | Cld => Some (mkCpu g sp k false)
  | CallIsr => Some (isr s)
  end.

Fixpoint exec (code : list instr) (s : cpu_st) : option cpu_st :=
  match code with
  | [] => Some s
  | i :: code' => match exec1 i s with Some s' => exec code' s' | None => None end
  end.

End stubs.

(** [isr!]: up to the call, and after it, up to [iretq]. *)
Definition isr_prologue : list instr :=
  [Push r15; Push r14; Push r13; Push r12; Push r11; Push r10; Push r9; Push r8;
   Push rbp; Push rdi; Push rsi; Push rdx; Push rcx; Push rbx; Push rax; Cld; MovRsp rdi].

Definition isr_epilogue : list instr :=
  [Pop rax; Pop rbx; Pop rcx; Pop rdx; Pop rsi; Pop rdi; Pop rbp;
   Pop r8; Pop r9; Pop r10; Pop r11; Pop r12; Pop r13; Pop r14; Pop r15].

Definition isr_stub : list instr := isr_prologue ++ [CallIsr] ++ isr_epilogue.

(** [isr_err!]. *)
Definition isr_err_prologue : list instr :=
  [XchgTop r15; Push r14; Push r13; Push r12; Push r11; Push r10; Push r9; Push r8;
   Push rbp; Push rdi; Push rsi; Push rdx; Push rcx; Push rbx; Push rax; Push r15; Cld; MovRsp rdi].

Definition isr_err_epilogue : list instr :=
  [AddRsp8; Pop rax; Pop rbx; Pop rcx; Pop rdx; Pop rsi; Pop rdi; Pop rbp;
   Pop r8; Pop r9; Pop r10; Pop r11; Pop r12; Pop r13; Pop r14; Pop r15].

Definition isr_err_stub : list instr := isr_err_prologue ++ [CallIsr] ++ isr_err_epilogue.

(** [cpu::InterruptContext], the words the handler's pointer argument sees. *)
Record InterruptContext := mkCtx {
  x_rax : Z; x_rbx : Z; x_rcx : Z; x_rdx : Z; x_rsi : Z; x_rdi : Z; x_rbp : Z;
  x_r8 : Z; x_r9 : Z; x_r10 : Z; x_r11 : Z; x_r12 : Z; x_r13 : Z; x_r14 : Z; x_r15 : Z;
  x_rip : Z; x_cs : Z; x_rflags : Z; x_rsp : Z; x_ss : Z;
}.

Definition context_at (k : list Z) : option InterruptContext :=
  match k with
  | a :: b :: c :: d :: e :: f :: g :: h :: i :: j :: l :: m :: n :: o :: p :: q :: r :: s :: t :: u :: _ =>
      Some (mkCtx a b c d e f g h i j l m n o p q r s t u)
  | _ => None
  end.

(** The context of an interrupted program: its registers and the frame the
    processor pushed. *)
Definition context_of (g : reg -> Z) (rip cs rflags rsp ss : Z) : InterruptContext :=
  mkCtx (g rax) (g rbx) (g rcx) (g rdx) (g rsi) (g rdi) (g rbp) (g r8) (g r9) (g r10) (g r11)
        (g r12) (g r13) (g r14) (g r15) rip cs rflags rsp ss.

(** What the calling convention promises: a handler returns with the stack
    pointer it was called with and leaves its caller's stack alone; it may change
    every register. *)
Definition abi (isr : cpu_st -> cpu_st) : Prop :=
  forall s, rsp (isr s) = rsp s /\ stk (isr s) = stk s.

(** The two stubs restore whatever is on the stack. *)
Lemma epilogue_restores s k a b c d e f g h i j l m n o p :
  stk s = a :: b :: c :: d :: e :: f :: g :: h :: i :: j :: l :: m :: n :: o :: p :: k ->
  forall isr, exists s', exec isr isr_epilogue s = Some s' /\ stk s' = k /\ rsp s' = rsp s + 120 /\
    gpr s' rax = a /\ gpr s' rbx = b /\ gpr s' rcx = c /\ gpr s' rdx = d /\ gpr s' rsi = e /\
    gpr s' rdi = f /\ gpr s' rbp = g /\ gpr s' r8 = h /\ gpr s' r9 = i /\ gpr s' r10 = j /\
    gpr s' r11 = l /\ gpr s' r12 = m /\ gpr s' r13 = n /\ gpr s' r14 = o /\ gpr s' r15 = p.
Proof.
  destruct s as [gg rs st dd]. simpl. intros -> isr. eexists. split; [reflexivity|].
  simpl. split_and!; try reflexivity. lia.
Qed.

Lemma prologue_saves isr g sp k d : exists sp', sp' = sp - 120 /\
  exec isr isr_prologue (mkCpu g sp k d) = Some (mkCpu (set_gpr g rdi sp') sp'
    (g rax :: g rbx :: g rcx :: g rdx :: g rsi :: g rdi :: g rbp :: g r8 :: g r9 :: g r10 ::
     g r11 :: g r12 :: g r13 :: g r14 :: g r15 :: k) false).
Proof. eexists. split; [|reflexivity]. lia. Qed.

Lemma err_prologue_saves isr g sp err k d : exists sp', sp' = sp - 120 /\
  exec isr isr_err_prologue (mkCpu g sp (err :: k) d) =
    Some (mkCpu (set_gpr (set_gpr g r15 err) rdi sp') sp'
    (err :: g rax :: g rbx :: g rcx :: g rdx :: g rsi :: g rdi :: g rbp :: g r8 :: g r9 :: g r10 ::
     g r11 :: g r12 :: g r13 :: g r14 :: g r15 :: k) false).
Proof. eexists. split; [|reflexivity]. lia. Qed.

Lemma exec_app isr c1 c2 s :
  exec isr (c1 ++ c2) s =
    match exec isr c1 s with Some s' => exec isr c2 s' | None => None end.
Proof.
  revert s. induction c1 as [|i c1 IH]; intros s; [done|]. simpl.
  destruct (exec1 isr i s); [apply IH|done].
Qed.

(** ** The table *)

(** The handler address the processor takes from a gate. *)
Definition gate_offset (g : IdtGate) : Z :=
  offset1 g + Z.shiftl (offset2 g) 16 + Z.shiftl (offset3 g) 32.

Lemma gate_offset_new o i t sel : 0 <= o < 2 ^ 64 -> gate_offset (gate_new o i t sel) = o.
Proof.
  intros Ho. unfold gate_offset, gate_new, as_u, u16, u32. cbn [offset1 offset2 offset3].
  change 0xffff with (2 ^ 16 - 1). rewrite !land_ones_mod by lia.
  rewrite !Z.mod_mod, !Z.shiftl_mul_pow2, !Z.shiftr_div_pow2 by lia.
  change (2 ^ 32) with (2 ^ 16 * 2 ^ 16). rewrite <- Z.div_div by lia.
  rewrite (Z.mod_small (o / 2 ^ 16 / 2 ^ 16)).
  - pose proof (Z.div_mod o (2 ^ 16)). pose proof (Z.div_mod (o / 2 ^ 16) (2 ^ 16)). lia.
  - rewrite Z.div_div by lia. split; [apply Z.div_pos; lia|]. apply Z.div_lt_upper_bound; lia.
Qed.

Definition in_use (s : istate) (v : Z) : bool :=
  match i_idt s !! Z.to_nat v with Some g => negb (gate_type g =? 0) | None => true end.

Lemma alloc_vector_loop_eq s n : forall i,
  length (i_idt s) = 256%nat -> 0 <= i -> i + Z.of_nat n <= 256 ->
  interrupts.alloc_vector_loop n i s =
    (Ret (List.find (fun v => negb (in_use s v)) (seqZ i (Z.of_nat n))), s).
Proof.
  induction n as [|n IH]; intros i Hl Hi Hn; [done|].
  rewrite seqZ_cons by lia. replace (Z.pred (Z.of_nat (S n))) with (Z.of_nat n) by lia.
  replace (Z.succ i) with (i + 1) by lia. simpl. unfold bind, gets, in_use at 1.
  destruct (lookup_lt_is_Some_2 (i_idt s) (Z.to_nat i)) as [g Hg]; [lia|]. rewrite Hg.
  destruct (gate_type g =? 0); [done|]. simpl. apply IH; lia.
Qed.

Lemma in_use_register s v a i t w :
  0 <= v < 256 -> 0 <= w < 256 -> length (i_idt s) = 256%nat ->
  in_use (mkI (<[Z.to_nat v := gate_new a i t 0x8]> (i_idt s)) (i_descriptor s) (i_idtr s) (i_if s)) w
    = if decide (w = v) then negb (t =? 0) else in_use s w.
Proof.
  intros Hv Hw Hl. unfold in_use. simpl. case_decide as E.
  - subst w. by rewrite list_lookup_insert_eq by lia.
  - by rewrite list_lookup_insert_ne by lia.
Qed.

(** ** Properties *)

(** C21.  The stub of [isr!] is transparent: whatever the handler does to the
    registers, after the stub every register, the stack pointer and the stack are
    those of the interrupted program, so [iretq] returns to it.  And the
    handler's argument is a pointer to an [InterruptContext] holding exactly the
    interrupted registers and the processor's frame. *)
Theorem isr_transparent isr s rip cs rflags sp ss k :
  abi isr -> stk s = rip :: cs :: rflags :: sp :: ss :: k ->
  (exists s1, exec isr isr_prologue s = Some s1 /\ gpr s1 rdi = rsp s1 /\ df s1 = false /\
     context_at (stk s1) = Some (context_of (gpr s) rip cs rflags sp ss)) /\
  (exists s', exec isr isr_stub s = Some s' /\ rsp s' = rsp s /\ stk s' = stk s /\
     forall r, gpr s' r = gpr s r).
Proof.
  intros Habi Hs. destruct s as [g sp0 st d]. cbn [stk gpr rsp] in *. subst st.
  destruct (prologue_saves isr g sp0 (rip :: cs :: rflags :: sp :: ss :: k) d) as (sp' & Esp & E).
  split.
  - eexists. split; [exact E|]. split_and!; reflexivity.
  - unfold isr_stub. rewrite exec_app, E. cbn [app exec exec1].
    match goal with |- context [isr ?s1] => destruct (Habi s1) as [Hr Hk] end.
    cbn [rsp stk] in Hr, Hk. pose proof (epilogue_restores _ _ _ _ _ _ _ _ _ _ _ _ _ _ _ _ _ Hk) as Hep.
    destruct (Hep isr) as (s' & He & Hst & Hrs & Hg).
    exists s'. split; [exact He|]. split; [lia|]. split; [exact Hst|]. intros []; apply Hg.
Qed.

Definition clobber (s : cpu_st) : cpu_st :=
  mkCpu (fun _ => 0xdead) (rsp s) (stk s) (df s).

Lemma isr_transparent_witness :
  abi clobber /\
  exists s', exec clobber isr_stub (mkCpu (fun _ => 7) 0x8000 [1; 2; 3; 4; 5] true) = Some s' /\
    gpr s' r12 = 7.
Proof.
  assert (Ha : abi clobber) by (intros s; split; reflexivity). split; [exact Ha|].
  destruct (isr_transparent clobber (mkCpu (fun _ => 7) 0x8000 [1; 2; 3; 4; 5] true) 1 2 3 4 5 [] Ha eq_refl)
    as [_ (s' & He & _ & _ & Hg)].
  exists s'. split; [exact He|]. rewrite Hg. reflexivity.
Defined.

(**  The stub of [isr_err!] restores the registers too, dropping the error
    code, but passes its handler the wrong arguments: the context pointer is one
    word too low, so its [rax] field is the error code and every later field is
    the one before it, and the register of the second argument still holds the
    interrupted program's [rsi], not the error code. *)
Theorem isr_err_shifts_context isr s err rip cs rflags sp ss k :
  abi isr -> stk s = err :: rip :: cs :: rflags :: sp :: ss :: k ->
  (exists s1 c, exec isr isr_err_prologue s = Some s1 /\ gpr s1 rdi = rsp s1 /\
     context_at (stk s1) = Some c /\ x_rax c = err /\ x_rbx c = gpr s rax /\
     x_rip c = gpr s r15 /\ x_cs c = rip /\ gpr s1 rsi = gpr s rsi) /\
  (exists s', exec isr isr_err_stub s = Some s' /\ rsp s' = rsp s + 8 /\
     stk s' = rip :: cs :: rflags :: sp :: ss :: k /\ forall r, gpr s' r = gpr s r).
Proof.
  intros Habi Hs. destruct s as [g sp0 st d]. cbn [stk gpr rsp] in *. subst st.
  destruct (err_prologue_saves isr g sp0 err (rip :: cs :: rflags :: sp :: ss :: k) d)
    as (sp' & Esp & E).
  split.
  - eexists. eexists. split; [exact E|]. split_and!; reflexivity.
  - unfold isr_err_stub. rewrite exec_app, E. change isr_err_epilogue with (AddRsp8 :: isr_epilogue).
    cbn [app exec exec1].
    match goal with |- context [isr ?s1] => destruct (Habi s1) as [Hr Hk]; destruct (isr s1) as [g2 sp2 st2 d2] end.
    cbn [rsp stk] in Hr, Hk. subst st2 sp2. cbn [exec exec1].
    match goal with |- context [exec isr isr_epilogue ?s2] =>
      destruct (epilogue_restores s2 _ _ _ _ _ _ _ _ _ _ _ _ _ _ _ _ eq_refl isr)
        as (s' & He & Hst & Hrs & Hg) end.
    cbn [rsp] in Hrs. exists s'. split; [exact He|]. split; [lia|]. split; [exact Hst|].
    intros []; apply Hg.
Qed.

Lemma isr_err_shifts_context_witness :
  abi clobber /\
  exists s1 c, exec clobber isr_err_prologue (mkCpu (fun _ => 7) 0x8000 [0x2; 1; 2; 3; 4; 5] true) = Some s1 /\
    context_at (stk s1) = Some c /\ x_rax c = 0x2.
Proof.
  assert (Ha : abi clobber) by (intros s; split; reflexivity). split; [exact Ha|].
  destruct (isr_err_shifts_context clobber (mkCpu (fun _ => 7) 0x8000 [0x2; 1; 2; 3; 4; 5] true)
    0x2 1 2 3 4 5 [] Ha eq_refl) as [(s1 & c & He & _ & Hc & Hx & _) _].
  exists s1, c. split; [exact He|]. split; [exact Hc|exact Hx].
Defined.

(**  [alloc_vector] gives the lowest vector from 32 on without a handler,
    or [None] when all have one, and reserves nothing.  Registering a handler on
    the vector makes it the target of its gate, changes no other gate, and the
    next [alloc_vector] gives a higher vector. *)
Theorem vector_allocation s v a i t :
  length (i_idt s) = 256%nat -> 0 <= a < 2 ^ 64 -> t <> 0 ->
  interrupts.alloc_vector s = (Ret (Some v), s) ->
  32 <= v < 256 /\ in_use s v = false /\ (forall w, 32 <= w < v -> in_use s w = true) /\
  exists s', interrupts.register_isr v a i t s = (Ret tt, s') /\
    length (i_idt s') = 256%nat /\
    (exists g, i_idt s' !! Z.to_nat v = Some g /\ gate_offset g = a) /\
    (forall w, 0 <= w < 256 -> w <> v -> i_idt s' !! Z.to_nat w = i_idt s !! Z.to_nat w) /\
    match interrupts.alloc_vector s' with
    | (Ret (Some v'), s2) => v < v' < 256 /\ s2 = s'
    | (Ret None, s2) => (forall w, 32 <= w < 256 -> in_use s' w = true) /\ s2 = s'
    | (Fault _, _) => False
    end.
Proof.
  intros Hl Ha Ht Hv. unfold interrupts.alloc_vector in *.
  rewrite alloc_vector_loop_eq in Hv by (done || lia).
  assert (List.find (fun v => negb (in_use s v)) (seqZ 32 (Z.of_nat (Z.to_nat (256 - 32)))) = Some v)
    as Hf by congruence.
  apply find_seqZ_Some in Hf as (Hr & Hu & Hlow). apply negb_true_iff in Hu.
  assert (Hlow' : forall w, 32 <= w < v -> in_use s w = true).
  { intros w Hw. apply negb_false_iff, Hlow. done. }
  split_and!; [lia..|done|done|].
  unfold interrupts.register_isr, bind, gets. rewrite Hl, (proj2 (Z.ltb_lt _ _)) by lia.
  exists (mkI (<[Z.to_nat v := gate_new a i t 0x8]> (i_idt s)) (i_descriptor s) (i_idtr s) (i_if s)).
  split; [reflexivity|]. split_and!.
  - simpl. by rewrite length_insert.
  - eexists. simpl. rewrite list_lookup_insert_eq by lia. split; [done|]. by apply gate_offset_new.
  - intros w Hw Hne. simpl. by rewrite list_lookup_insert_ne by lia.
  - rewrite alloc_vector_loop_eq; [|simpl; by rewrite length_insert|lia..].
    match goal with |- context [List.find ?f ?l] => destruct (List.find f l) as [v'|] eqn:E end.
    + clear Hv. apply find_seqZ_Some in E as (Hr' & Hu' & _). apply negb_true_iff in Hu'.
      rewrite in_use_register in Hu' by (done || lia). split; [|done].
      destruct (decide (v' = v)) as [->|Hne]; [by destruct (Z.eqb_spec t 0)|].
      destruct (decide (v < v')); [lia|]. rewrite Hlow' in Hu' by lia. done.
    + split; [|done]. intros w Hw. apply negb_false_iff.
      apply (List.find_none _ _ E), list_elem_of_In, elem_of_seqZ. lia.
Qed.

Lemma vector_allocation_witness :
  interrupts.alloc_vector istate_0 = (Ret (Some 32), istate_0) /\
  exists s', interrupts.register_isr 32 0xffffffff80001234 0 0x8e istate_0 = (Ret tt, s') /\
    length (i_idt s') = 256%nat.
Proof.
  assert (E : interrupts.alloc_vector istate_0 = (Ret (Some 32), istate_0)) by (vm_compute; reflexivity).
  split; [exact E|].
  destruct (vector_allocation istate_0 32 0xffffffff80001234 0 0x8e) as (_ & _ & _ & s' & Hr & Hl & _).
  - reflexivity.
  - lia.
  - lia.
  - exact E.
  - exists s'. split; [exact Hr|exact Hl].
Defined.
