(* ===== verification/Cpu.v ===== *)
(** * [arch/x86_64/gdt.rs] and [arch/x86_64/cpu.rs]: segments, features, MSRs

    The descriptor table with its byte layout, the selectors the kernel uses, and
    the control register set up from [cpuid].  The processor's [cpuid] leaf 7 and
    its model specific registers are parameters or state. *)

From S2P Require Import Prelude Memory.

(** ** The GDT *)

Record GdtEntry := mkGdtEntry {
  g_limit1 : Z; g_base1 : Z; g_base2 : Z; g_access : Z; g_flags : Z; g_base3 : Z;
}.

Record TssEntry := mkTssEntry {
  t_limit : Z; t_base1 : Z; t_base2 : Z; t_flags1 : Z; t_flags2 : Z;
  t_base3 : Z; t_base4 : Z; t_reserved : Z;
}.

Definition gdt_entry_new (access flags : Z) : GdtEntry := mkGdtEntry 0 0 0 access flags 0.

Definition tss_entry_new (limit flags1 : Z) : TssEntry := mkTssEntry limit 0 0 flags1 0 0 0 0.

Definition set_base (self : TssEntry) (base : Z) : TssEntry :=
  mkTssEntry (t_limit self) (as_u u16 base) (as_u u8 (Z.shiftr base 16)) (t_flags1 self)
             (t_flags2 self) (as_u u8 (Z.shiftr base 24)) (as_u u32 (Z.shiftr base 32))
             (t_reserved self).

Record Gdt := mkGdt {
  gdt_null : GdtEntry;
  kernel_code : GdtEntry;
  kernel_data : GdtEntry;
  user_code : GdtEntry;
  user_data : GdtEntry;
  gdt_tss : TssEntry;
}.

Definition GDT : Gdt :=
  mkGdt (gdt_entry_new 0 0) (gdt_entry_new 0x9A 0x20) (gdt_entry_new 0x92 0)
        (gdt_entry_new 0xFA 0x20) (gdt_entry_new 0xF2 0) (tss_entry_new 104 0x89).

Record GdtDescriptor := mkGdtr { gdtr_limit : Z; gdtr_offset : Z }.

(** [GDT], its descriptor, and the registers [lgdt], [ltr] and the segment loads
    set. *)
Record gstate := mkG {
  s_gdt : Gdt;
  s_descriptor : GdtDescriptor;
  s_gdtr : option GdtDescriptor;
  s_cs : Z;
  s_data_segs : Z;
  s_tr : Z;
}.

Definition gstate_0 : gstate := mkG GDT (mkGdtr 55 0) None 0 0 0.

Module gdt.

(** [init]; [gdt_addr] is the address of the table. *)
Definition init (gdt_addr : Z) : M gstate unit :=
  do! modify (fun s => mkG (s_gdt s) (mkGdtr (gdtr_limit (s_descriptor s)) gdt_addr)
                           (s_gdtr s) (s_cs s) (s_data_segs s) (s_tr s)) in
  modify (fun s => mkG (s_gdt s) (s_descriptor s) (Some (s_descriptor s)) 0x8 0x10 (s_tr s)).

Definition load_tss (tss_addr : Z) : M gstate unit :=
  let tss_selector := 0x28 in
  do! modify (fun s =>
        let g := s_gdt s in
        mkG (mkGdt (gdt_null g) (kernel_code g) (kernel_data g) (user_code g) (user_data g)
                   (set_base (gdt_tss g) tss_addr))
            (s_descriptor s) (s_gdtr s) (s_cs s) (s_data_segs s) (s_tr s)) in
  modify (fun s => mkG (s_gdt s) (s_descriptor s) (s_gdtr s) (s_cs s) (s_data_segs s) tss_selector).

End gdt.

(** The packed structs as bytes. *)
Definition gdt_entry_bytes (e : GdtEntry) : list Z :=
  le_bytes 2 (g_limit1 e) ++ le_bytes 2 (g_base1 e) ++ [g_base2 e; g_access e; g_flags e; g_base3 e].

Definition tss_entry_bytes (e : TssEntry) : list Z :=
  le_bytes 2 (t_limit e) ++ le_bytes 2 (t_base1 e) ++
  [t_base2 e; t_flags1 e; t_flags2 e; t_base3 e] ++ le_bytes 4 (t_base4 e) ++ le_bytes 4 (t_reserved e).

Definition gdt_bytes (g : Gdt) : list Z :=
  gdt_entry_bytes (gdt_null g) ++ gdt_entry_bytes (kernel_code g) ++
  gdt_entry_bytes (kernel_data g) ++ gdt_entry_bytes (user_code g) ++
  gdt_entry_bytes (user_data g) ++ tss_entry_bytes (gdt_tss g).

(** ** [SelectorValues] of [proc/process.rs] *)

Inductive SelectorValues := KernelCs | KernelDs | UserCs | UserDs.

Definition sel (s : SelectorValues) : Z :=
  match s with KernelCs => 0x8 | KernelDs => 0x10 | UserCs => 0x1b | UserDs => 0x23 end.

(** ** What the processor makes of the table *)

(** The access byte of the descriptor a selector names. *)
Definition sel_byte (bytes : list Z) (selector off : Z) : option Z :=
  bytes !! Z.to_nat (8 * (selector / 8) + off).

Definition dpl (access : Z) : Z := Z.land (Z.shiftr access 5) 3.
Definition is_code (access : Z) : bool := Z.testbit access 3.
Definition present (access : Z) : bool := Z.testbit access 7.
Definition long_mode (flags : Z) : bool := Z.testbit flags 5.

(** The base of a system descriptor, from its bytes. *)
Definition tss_base (e : TssEntry) : Z :=
  t_base1 e + t_base2 e * 2 ^ 16 + t_base3 e * 2 ^ 24 + t_base4 e * 2 ^ 32.

Lemma tss_base_set_base e base : 0 <= base < 2 ^ 64 -> tss_base (set_base e base) = base.
Proof.
  intros Hb. unfold tss_base, set_base, as_u, u8, u16, u32.
  cbn [t_base1 t_base2 t_base3 t_base4]. rewrite !Z.shiftr_div_pow2 by lia.
  change (2 ^ 24) with (2 ^ 16 * 2 ^ 8) at 1. change (2 ^ 32) with (2 ^ 16 * 2 ^ 8 * 2 ^ 8) at 1.
  rewrite <- !Z.div_div by lia. set (a := base / 2 ^ 16). set (b := a / 2 ^ 8). set (c := b / 2 ^ 8).
  pose proof (Z.div_mod base (2 ^ 16)). pose proof (Z.div_mod a (2 ^ 8)).
  pose proof (Z.div_mod b (2 ^ 8)).
  assert (0 <= c < 2 ^ 32) as Hc.
  { unfold c, b, a. rewrite !Z.div_div by lia. split; [apply Z.div_pos; lia|].
    apply Z.div_lt_upper_bound; lia. }
  rewrite (Z.mod_small c) by done. lia.
Qed.

(** ** [cpu.rs]: [cpuid], CR4 and MSRs *)

Record Cpuid := mkCpuid { eax : Z; ebx : Z; ecx : Z; edx : Z }.

Definition shl1 (k : Z) : Z := Z.shiftl 1 k.

Section features.
(** The instruction: leaf and subleaf to the four registers. *)
Context (cpuid : Z -> Z -> Cpuid).

Definition raw (eax ecx : Z) : Cpuid := cpuid eax ecx.

Definition has_smap : bool :=
  let res := raw 7 0 in if negb (Z.land (ebx res) (shl1 20) =? 0) then true else false.
Definition has_smep : bool :=
  let res := raw 7 0 in if negb (Z.land (ebx res) (shl1 7) =? 0) then true else false.
Definition has_fsgsbase : bool :=
  let res := raw 7 0 in if negb (Z.land (ebx res) 1 =? 0) then true else false.
Definition has_umip : bool :=
  let res := raw 7 0 in if negb (Z.land (ecx res) (shl1 2) =? 0) then true else false.

(** [init_features] on the state [cr4]. *)
Definition init_features : M Z unit :=
  let! cr4 := gets id in
  let cr4 := if has_smap then Z.lor cr4 (shl1 21) else cr4 in
  let cr4 := if has_smep then Z.lor cr4 (shl1 20) else cr4 in
  let cr4 := if has_umip then Z.lor cr4 (shl1 11) else cr4 in
  let cr4 := if has_fsgsbase then Z.lor cr4 (shl1 16) else cr4 in
  modify (fun _ => cr4).

End features.

Inductive MsrList := ApicBase | GsBase.

Definition msr_index (m : MsrList) : Z :=
  match m with ApicBase => 0x1b | GsBase => 0xc0000101 end.

(** The processor's MSRs: the two halves at an index. *)
Abbreviation msrs := (gmap Z (Z * Z)).

Definition rdmsr (msr : MsrList) : M msrs Z :=
  let! v := gets (fun s : msrs => default (0, 0) (s !! msr_index msr)) in
  let '(low, high) := v in
  ret (Z.lor low (Z.shiftl high 32)).

Definition wrmsr (msr : MsrList) (value : Z) : M msrs unit :=
  modify (fun s : msrs => <[msr_index msr := (as_u u32 value, as_u u32 (Z.shiftr value 32))]> s).

(** ** Properties *)

(**  The GDT and the selectors agree: the table is 56 bytes, one more than
    its limit; each selector names a present descriptor whose privilege level is
    the selector's, which is a 64-bit code segment for the code selectors and a
    data segment for the others; [load_tss] puts the address of the TSS in the
    descriptor [ltr] loads, and changes no other descriptor. *)
Theorem gdt_selectors tss_addr :
  0 <= tss_addr < 2 ^ 64 ->
  Z.of_nat (length (gdt_bytes GDT)) = gdtr_limit (s_descriptor gstate_0) + 1 /\
  (forall s, exists a f, sel_byte (gdt_bytes GDT) (sel s) 5 = Some a /\
     sel_byte (gdt_bytes GDT) (sel s) 6 = Some f /\
     present a = true /\ dpl a = sel s mod 4 /\
     is_code a = long_mode f /\
     is_code a = match s with KernelCs | UserCs => true | _ => false end) /\
  exists s', gdt.load_tss tss_addr gstate_0 = (Ret tt, s') /\
    s_tr s' / 8 = 5 /\ tss_base (gdt_tss (s_gdt s')) = tss_addr /\
    take 40 (gdt_bytes (s_gdt s')) = take 40 (gdt_bytes GDT).
Proof.
  intros Ht. split_and!; [reflexivity| |].
  - intros []; eexists _, _; split_and!; reflexivity.
  - eexists. split; [reflexivity|]. split; [reflexivity|]. split; [|reflexivity].
    by apply tss_base_set_base.
Qed.

Lemma gdt_selectors_witness :
  exists s', gdt.load_tss 0xffff800000123456 gstate_0 = (Ret tt, s') /\
    tss_base (gdt_tss (s_gdt s')) = 0xffff800000123456.
Proof.
  destruct (gdt_selectors 0xffff800000123456) as (_ & _ & s' & E & _ & Hb & _); [lia|].
  exists s'. split; [exact E|exact Hb].
Defined.

(** Each feature bit of [cr4] is set exactly when it was or [cpuid] offers the
    feature; no other bit changes. *)
Theorem init_features_bits cpuid cr4 i :
  0 <= i ->
  match init_features cpuid cr4 with
  | (Ret tt, cr4') =>
      Z.testbit cr4' i = Z.testbit cr4 i || 
        ((i =? 21) && Z.testbit (ebx (cpuid 7 0)) 20) || ((i =? 20) && Z.testbit (ebx (cpuid 7 0)) 7) ||
        ((i =? 11) && Z.testbit (ecx (cpuid 7 0)) 2) || ((i =? 16) && Z.testbit (ebx (cpuid 7 0)) 0)
  | (Fault _, _) => False
  end.
Proof.
  intros Hi. unfold init_features, bind, gets, modify, has_smap, has_smep, has_umip, has_fsgsbase, raw.
  change 1 with (shl1 0). unfold shl1.
  assert (Hb : forall b k, 0 <= k -> (if negb (Z.land b (Z.shiftl 1 k) =? 0) then true else false) = Z.testbit b k).
  { intros b k Hk. rewrite land_bit_testbit by done. by destruct (Z.testbit b k). }
  rewrite !Hb by lia.
  assert (Hl : forall (c : bool) x k, 0 <= k -> Z.testbit (if c then Z.lor x (Z.shiftl 1 k) else x) i
    = Z.testbit x i || ((i =? k) && c)).
  { intros [] x k Hk; [|by rewrite andb_false_r, orb_false_r].
    rewrite Z.lor_spec, Z.shiftl_1_l, Z.pow2_bits_eqb, (Z.eqb_sym k), andb_true_r by lia. done. }
  rewrite !Hl by lia. unfold id. by rewrite <- !orb_assoc.
Qed.

(** Writing an MSR and reading it back. *)
Theorem wrmsr_rdmsr msr value s :
  0 <= value < 2 ^ 64 ->
  exists s', wrmsr msr value s = (Ret tt, s') /\ rdmsr msr s' = (Ret value, s').
Proof.
  intros Hv. eexists. split; [reflexivity|]. unfold rdmsr, bind, gets. cbv beta.
  rewrite lookup_insert_eq. cbn [default]. unfold ret, as_u, u32. repeat f_equal.
  rewrite Z.shiftr_div_pow2, Z.shiftl_mul_pow2 by lia.
  rewrite (Z.mod_small (value / 2 ^ 32)).
  - rewrite Z.lor_comm, lor_mul_pow2_small; [|lia|by apply Z.mod_pos_bound].
    pose proof (Z.div_mod value (2 ^ 32)). lia.
  - split; [apply Z.div_pos; lia|]. apply Z.div_lt_upper_bound; lia.
Qed.
