(* ===== verification/Start.v ===== *)
(** * [cpu::start]: the task state segment

    The rest of [arch/x86_64/cpu.rs]: [start] sets the control register, builds a
    TSS on the kernel heap with three stacks from the page allocator, and loads
    it.  Heap and page allocator are used side by side, so this file first shows
    that the heap keeps its invariant while others take frames and while objects
    are written. *)

From S2P Require Import Prelude Memory MathUtil Bitmap Pmm Slab Cpu.

(** ** The heap beside other clients of the page allocator *)

Definition with_hmem (h : kheap) (m : mem) : kheap :=
  mkH (mkP m (p_alloc (h_p h))) (h_caches h) (h_slabs h) (h_head h).

Section share.
Context (SZ : Z) (HSZ : 0 <= SZ <= PAGE_SIZE) (bm : Bitmap).
Context (Hmem : frames bm * PAGE_SIZE <= 2 ^ 46).
Implicit Types (m : mem) (h : kheap) (ks : list cls) (k : cls).

(** A heap is well formed over some initial state of the allocator: the frames of
    its classes are live, and in no other block. *)
Definition heap_ok ks h : Prop := exists m0, pmm_inv m0 bm /\ heap_inv SZ m0 bm ks h.

Lemma pmm_inv_fewer m m' :
  (forall q, 0 <= q < frames bm -> test m' bm q = true -> test m bm q = true) ->
  pmm_inv m bm -> pmm_inv m' bm.
Proof.
  intros Hb [H1 H2 H3 H4]. split; [done|done| |].
  - intros Hf. specialize (H3 Hf). destruct (test m' bm 0) eqn:E; [|done].
    apply Hb in E; [congruence|lia].
  - intros q Hq Ht. apply H4; [done|]. by apply Hb.
Qed.

(** What the heap knows of its classes depends on their bitmaps alone. *)
Lemma heap_agree m0 m1 ks h m' :
  heap_inv SZ m0 bm ks h -> hist_inv m1 bm (m', ks ≫= cls_runs SZ) ->
  (forall k, k ∈ ks -> agree (p_mem (h_p h)) m' (k_bits k * PAGE_SIZE) PAGE_SIZE) ->
  heap_inv SZ m1 bm ks (with_hmem h m').
Proof.
  intros Hh Hi Ha. split; try apply Hh; [exact Hi|]. intros k Hk. cbn.
  rewrite (hv_slabs _ _ _ _ _ Hh) by done. unfold the_slab. do 2 f_equal. symmetry.
  apply (free_cnt_agree SZ m0 bm Hmem _ ks (hv_hist _ _ _ _ _ Hh)); auto.
Qed.

Lemma used_kept m0 ks h m' k i :
  heap_inv SZ m0 bm ks h -> k ∈ ks -> 0 <= i < OBJS_PER_SLAB ->
  agree (p_mem (h_p h)) m' (k_bits k * PAGE_SIZE) PAGE_SIZE ->
  used m' k i = used (p_mem (h_p h)) k i.
Proof. intros Hh Hk Hi Ha. by apply (used_agree SZ m0 bm Hmem _ ks (hv_hist _ _ _ _ _ Hh)). Qed.

(** Frames that another client takes. *)
Lemma heap_other m0 ks h m' p n :
  pmm_inv m0 bm -> heap_inv SZ m0 bm ks h -> 0 < n ->
  first_fit (test (p_mem (h_p h)) bm) (frames bm) n = Some p ->
  taken (p_mem (h_p h)) m' bm p n -> pmm_inv m' bm ->
  heap_ok ks (with_hmem h m').
Proof.
  intros H0 Hh Hn Hf Ht Hi. pose proof (first_fit_bounds _ _ _ _ Hn Hf) as (Hp & Hle & _).
  pose proof (pi_wf _ _ H0) as Hwf. pose proof (bm_len_nonneg _ Hwf).
  pose proof (hist_inv_alloc _ _ _ _ _ _ _ (hv_hist _ _ _ _ _ Hh) Hn Hf Ht Hi) as [_ Hb Hc].
  set (m1 := upd_run (Z.to_nat n) m0 bm p false).
  assert (Hbits : forall q, 0 <= q < frames bm ->
    test m1 bm q = if decide (p <= q < p + n) then false else test m0 bm q).
  { intros q Hq. unfold m1, frames in *. rewrite test_upd_run by (auto; lia). by rewrite Z2Nat.id by lia. }
  exists m1. split.
  { apply (pmm_inv_fewer m0); [|done]. intros q Hq. rewrite Hbits by done. by case_decide. }
  apply (heap_agree m0); [done| |].
  - split; cbn [fst snd] in *.
    + done.
    + intros p' n' Hin. apply Hb. by right.
    + intros q Hq. specialize (Hc q Hq). simpl cover in Hc. rewrite Hbits by done.
      pose proof (cover_nonneg (ks ≫= cls_runs SZ) q).
      case_decide; destruct (test m' bm q), (test m0 bm q); simpl in *; lia.
  - intros k Hk. pose proof (taken_live m0 bm H0 _ _ m' (k_bits k) 1 p n (hv_hist _ _ _ _ _ Hh)) as Ha.
    rewrite Z.mul_1_l in Ha. apply Ha; auto. apply (runs_elem SZ ks k); [done|by left].
Qed.

(** Stores into the slab of a class. *)
Lemma heap_store ks h m' k a n :
  heap_ok ks h -> k ∈ ks -> only (p_mem (h_p h)) m' a n -> 0 <= n ->
  k_slab k * PAGE_SIZE <= a -> a + n <= (k_slab k + k_pages SZ (k_size k)) * PAGE_SIZE ->
  heap_ok ks (with_hmem h m') /\
  (forall k' i, k' ∈ ks -> 0 <= i < OBJS_PER_SLAB -> used m' k' i = used (p_mem (h_p h)) k' i) /\
  agree (p_mem (h_p h)) m' (bm_base bm) (bm_len bm).
Proof.
  intros (m0 & H0 & Hh) Hk Ho Hn Ha Hend. pose proof (hv_hist _ _ _ _ _ Hh) as Hhist.
  assert (Hrun : (k_slab k, k_pages SZ (k_size k)) ∈ (ks ≫= cls_runs SZ)).
  { apply (runs_elem SZ ks k); [done|right; by left]. }
  assert (Hoff : agree (p_mem (h_p h)) m' (bm_base bm) (bm_len bm)).
  { intros x Hx. apply Ho. intros Hin.
    apply (live_off_storage m0 bm _ _ _ _ x H0 Hhist Hrun); lia. }
  assert (Hbits : forall k', k' ∈ ks -> agree (p_mem (h_p h)) m' (k_bits k' * PAGE_SIZE) PAGE_SIZE).
  { intros k' Hk' x Hx. apply Ho. intros Hin.
    assert (Hq : k_slab k <= x / PAGE_SIZE < k_slab k + k_pages SZ (k_size k) /\ x / PAGE_SIZE = k_bits k').
    { unfold PAGE_SIZE in *. split.
      - split; [apply Z.div_le_lower_bound|apply Z.div_lt_upper_bound]; lia.
      - symmetry. apply (Z.div_unique_pos _ _ _ (x - k_bits k' * 4096)); lia. }
    destruct Hq as [Hq1 Hq2]. destruct (decide (k' = k)) as [->|Hne].
    - pose proof (class_runs_apart SZ m0 bm _ ks Hhist k (x / PAGE_SIZE) Hk) as Hc.
      unfold cls_runs in Hc. simpl cover in Hc. rewrite !decide_True in Hc by lia.
      case_decide; lia.
    - apply (classes_apart SZ m0 bm _ ks Hhist k k' (k_slab k) (k_pages SZ (k_size k)) (k_bits k') 1 (x / PAGE_SIZE));
        auto; [right; by left|by left|lia]. }
  split; [|split; [|exact Hoff]].
  - exists m0. split; [done|]. apply (heap_agree m0); [done| |done].
    destruct Hhist as [P1 P2 P3]. cbn [fst snd] in *. split; cbn [fst snd].
    + eapply pmm_inv_agree; [exact Hoff|done].
    + done.
    + intros q Hq. rewrite (test_agree (p_mem (h_p h))); [by apply P3|apply P1|done|done].
  - intros k' i Hk' Hi. apply (used_kept m0 ks); auto.
Qed.

End share.

(** ** [Tss] and [start] *)

(** The offsets of the packed struct. *)
Module Tss.
Definition rsp0 : Z := 4.
Definition ist1 : Z := 4 + 3 * 8 + 8.
Definition ist2 : Z := ist1 + 8.
Definition size : Z := 4 + 3 * 8 + 8 + 7 * 8 + 8 + 4.
End Tss.

Inductive Ists := PageFault | Nmi.
Definition ist_index (i : Ists) : Z := match i with PageFault => 1 | Nmi => 2 end.

(** Heap, CR4, and the segment registers with the GDT. *)
Record ustate := mkU { u_heap : kheap; u_cr4 : Z; u_gdt : gstate }.

Module cpu.

Definition on_heap {A} : M kheap A -> M ustate A :=
  zoom u_heap (fun h s => mkU h (u_cr4 s) (u_gdt s)).
Definition on_cr4 {A} : M Z A -> M ustate A :=
  zoom u_cr4 (fun c s => mkU (u_heap s) c (u_gdt s)).
Definition on_gdt {A} : M gstate A -> M ustate A :=
  zoom u_gdt (fun g s => mkU (u_heap s) (u_cr4 s) g).

(** [tss.f = pmm::get().calloc(2).expect(..).higher_half().as_u64()], for the
    field at offset [f]. *)
Definition set_stack (tss f : Z) : M kheap unit :=
  let! r := slab.on_p (pmm.get_calloc 2) in
  let! a := expect r in
  slab.on_mem (store64 (tss + f) (PhysAddr.higher_half a)).

(** [Box::new(Tss::default())] with its three stacks. *)
Definition new_tss (SZ : Z) : M kheap Z :=
  let! tss := slab.alloc SZ Tss.size in
  do! slab.on_mem (write_bytes tss 0 Tss.size) in
  do! set_stack tss Tss.rsp0 in
  do! set_stack tss Tss.ist1 in
  do! set_stack tss Tss.ist2 in
  ret tss.

(** [start]; [SZ] is [size_of::<Slab>()]. *)
Definition start (cpuid : Z -> Z -> Cpuid) (SZ : Z) : M ustate unit :=
  do! on_cr4 (init_features cpuid) in
  let! leaked_tss := on_heap (new_tss SZ) in
  on_gdt (gdt.load_tss leaked_tss).

End cpu.

(** ** What [start] leaves *)

Section start.
Context (SZ : Z) (HSZ : 0 <= SZ <= PAGE_SIZE) (bm : Bitmap) (m0 : mem) (Hm0 : pmm_inv m0 bm).
Context (Hmem : frames bm * PAGE_SIZE <= 2 ^ 46).
Context (ks : list cls) (k : cls) (i : Z) (Hk : k ∈ ks) (Hi : 0 <= i < OBJS_PER_SLAB).
Context (Hsize : Tss.size <= k_size k).
Implicit Types (m : mem) (h : kheap) (L : list (Z * Z)).

Abbreviation hm h := (p_mem (h_p h)).
Local Abbreviation tss := (obj SZ k i).
Local Abbreviation base := (obj SZ k i - PHYS_BASE).

(** Between the steps: the blocks [L] of other clients and the frames of the heap
    are live, and [r] frames are left. *)
Record sharing h L (a r : Z) : Prop := {
  sh_hist : hist_inv m0 bm (hm h, L ++ (ks ≫= cls_runs SZ));
  sh_heap : heap_ok SZ bm ks h;
  sh_room : room (hm h) bm a r;
}.

Lemma slab_run : (k_slab k, k_pages SZ (k_size k)) ∈ (ks ≫= cls_runs SZ).
Proof using Hk. apply (runs_elem SZ ks k); [done|right; by left]. Qed.

(** The TSS lies in the slab of its class. *)
Lemma tss_place h : heap_ok SZ bm ks h ->
  k_slab k * PAGE_SIZE <= base /\ base + 104 <= (k_slab k + k_pages SZ (k_size k)) * PAGE_SIZE /\
  0 <= base /\ base + 104 <= 2 ^ 46 /\ forall o, 0 <= o <= 104 -> phys_of (tss + o) = base + o.
Proof using HSZ Hmem Hk Hi Hsize.
  intros (m1 & H1 & Hh). pose proof (hv_hist _ _ _ _ _ Hh) as Hhist.
  change Tss.size with 104 in Hsize.
  pose proof (obj_bounds SZ HSZ m1 bm Hmem ks _ k i Hhist Hk ltac:(lia) Hi) as Hb.
  destruct (slab_bounds SZ m1 bm _ ks Hhist k Hk) as (Hs0 & Hs1 & Hs2).
  assert (0 <= base /\ base + 104 <= 2 ^ 46) as [Hb0 Hb1] by (unfold PAGE_SIZE in *; lia).
  split_and!; try (unfold PAGE_SIZE in *; lia).
  intros o Ho. replace (tss + o) with (base + PHYS_BASE + o) by lia. apply phys_of_base_add; lia.
Qed.

(** A block of another client and the slab have no byte in common. *)
Lemma blocks_off_slab h L a r p n x : sharing h L a r -> (p, n) ∈ L ->
  p * PAGE_SIZE <= x < (p + n) * PAGE_SIZE -> ~ (base <= x < base + 104).
Proof using HSZ Hmem Hk Hi Hsize.
  intros [Hh Hok _] Hin Hx Hb. destruct (tss_place h Hok) as (P1 & P2 & _).
  assert (Hq : p <= x / PAGE_SIZE < p + n /\ k_slab k <= x / PAGE_SIZE < k_slab k + k_pages SZ (k_size k)).
  { unfold PAGE_SIZE in *. split; (split; [apply Z.div_le_lower_bound|apply Z.div_lt_upper_bound]; lia). }
  destruct Hq as [Hq1 Hq2].
  destruct (live_frame _ _ _ _ p n (x / PAGE_SIZE) Hh) as (_ & _ & Hc); [apply elem_of_app; by left|done|].
  rewrite cover_app in Hc.
  pose proof (cover_elem _ _ _ _ Hin Hq1). pose proof (cover_elem _ _ _ _ slab_run Hq2). lia.
Qed.

Lemma hist_agree m m' L : hist_inv m0 bm (m, L) -> agree m m' (bm_base bm) (bm_len bm) ->
  hist_inv m0 bm (m', L).
Proof.
  intros [P1 P2 P3] Ha. cbn [fst snd] in *. split; cbn [fst snd]; [|done|].
  - by eapply pmm_inv_agree.
  - intros q Hq. rewrite (test_agree m); [by apply P3|apply P1|done|done].
Qed.

(** A store to the TSS. *)
Lemma tss_store h L a r m' : sharing h L a r -> only (hm h) m' base 104 ->
  sharing (with_hmem h m') L a r /\
  (forall p n, (p, n) ∈ L -> agree (hm h) m' (p * PAGE_SIZE) (n * PAGE_SIZE)) /\
  (forall k' j, k' ∈ ks -> 0 <= j < OBJS_PER_SLAB -> used m' k' j = used (hm h) k' j).
Proof using HSZ Hmem Hk Hi Hsize.
  intros Hs Ho. pose proof Hs as [Hh Hok Hr]. destruct (tss_place h Hok) as (P1 & P2 & P3 & P4 & _).
  destruct (heap_store SZ bm Hmem ks h m' k base 104 Hok Hk Ho) as (Hok' & Hu & Hag); [lia..|].
  split; [split; cbn [with_hmem h_p p_mem]|split; [|exact Hu]].
  - by eapply hist_agree.
  - done.
  - destruct Hr as (R1 & R2 & R3). split_and!; try done. intros j Hj.
    rewrite (test_agree (hm h)); [by apply R3|apply (hi_pmm _ _ _ Hh)|unfold frames in *; lia|done].
  - intros p n Hin x Hx. apply Ho. apply (blocks_off_slab h L a r p n x Hs Hin). lia.
Qed.

(** One stack: two fresh frames, full of zeros, whose lowest address goes to the
    field. *)
Lemma set_stack_run h L a r o :
  sharing h L a r -> 2 <= r -> 0 <= o -> o + 8 <= 104 ->
  exists p m', cpu.set_stack tss o h = (Ret tt, with_hmem h m') /\
    sharing (with_hmem h m') ((p, 2) :: L) (a + 2) (r - 2) /\
    rd64 m' (base + o) = fptr p /\
    (forall x, base <= x < base + 104 -> ~ (base + o <= x < base + o + 8) -> rd8 m' x = rd8 (hm h) x) /\
    (forall x, p * PAGE_SIZE <= x < (p + 2) * PAGE_SIZE -> rd8 m' x = 0) /\
    (forall p' n, (p', n) ∈ L -> agree (hm h) m' (p' * PAGE_SIZE) (n * PAGE_SIZE)) /\
    (forall k' j, k' ∈ ks -> 0 <= j < OBJS_PER_SLAB -> used m' k' j = used (hm h) k' j).
Proof using HSZ Hm0 Hmem Hk Hi Hsize.
  intros Hs Hr Ho0 Ho1. pose proof Hs as [Hh (m1 & H1 & Hhi) Hroom].
  pose proof (hi_pmm _ _ _ Hh) as Hp. cbn [fst] in Hp.
  destruct (calloc_room (h_p h) bm a r 2 (hv_alloc _ _ _ _ _ Hhi) Hp Hroom ltac:(lia))
    as (p & m2 & E & Hf & Ht & Hi2 & Hroom2).
  pose proof (hist_inv_alloc _ _ _ _ _ _ _ Hh (eq_refl : 0 < 2) Hf Ht Hi2) as Hh2.
  assert (Hs2 : sharing (with_hmem h m2) ((p, 2) :: L) (a + 2) (r - 2)).
  { split; [exact Hh2| |exact Hroom2]. by apply (heap_other SZ bm Hmem m1 ks h m2 p 2). }
  destruct (tss_place _ (sh_heap _ _ _ _ Hs2)) as (P1 & P2 & P3 & P4 & Hph).
  set (m3 := wr64 m2 (base + o) (fptr p)).
  assert (Honly : only m2 m3 (base + o) 8) by apply (wrn_only 8).
  destruct (tss_store _ _ _ _ m3 Hs2) as (Hs3 & Hag3 & Hu3).
  { eapply only_wider; [exact Honly|lia|lia]. }
  destruct (hi_blocks _ _ _ Hh2 p 2 ltac:(by left)) as (Hp0 & _ & Hp2).
  exists p, m3. split_and!.
  - unfold cpu.set_stack. rewrite (bind_run _ _ _ (Some (p * PAGE_SIZE)) (with_hmem h m2)).
    2:{ unfold slab.on_p, zoom. rewrite E. unfold with_hmem. by rewrite (hv_alloc _ _ _ _ _ Hhi). }
    unfold expect. rewrite (bind_run _ _ _ (p * PAGE_SIZE) (with_hmem h m2)) by done.
    unfold slab.on_mem, slab.on_p, Pmm.on_mem, zoom, store64, modify. cbn.
    rewrite Hph by lia. done.
  - exact Hs3.
  - apply rd64_wr64_eq. rewrite fptr_add by (unfold PAGE_SIZE in *; lia).
    unfold PHYS_BASE, PAGE_SIZE in *. lia.
  - intros x Hx Hne. rewrite Honly by done.
    apply (taken_live m0 bm Hm0 _ _ m2 (k_slab k) (k_pages SZ (k_size k)) p 2 Hh);
      [apply elem_of_app; right; apply slab_run|done|lia|done|]. unfold PAGE_SIZE in *. lia.
  - intros x Hx. transitivity (rd8 m2 x); [apply (Hag3 p 2); [by left|]|by apply (tk_zero _ _ _ _ _ Ht)].
    lia.
  - intros p' n Hin x Hx. transitivity (rd8 m2 x); [apply (Hag3 p' n); [by right|done]|].
    apply (taken_live m0 bm Hm0 _ _ m2 p' n p 2 Hh); [apply elem_of_app; by left|done|lia|done|done].
  - intros k' j Hk' Hj. rewrite Hu3 by done. apply (used_kept SZ bm Hmem m1 ks); auto.
    pose proof (taken_live m0 bm Hm0 _ _ m2 (k_bits k') 1 p 2 Hh) as Hb. rewrite Z.mul_1_l in Hb.
    apply Hb; try done. apply elem_of_app. right. apply (runs_elem SZ ks k'); [done|by left].
Qed.

(** The allocation of the TSS itself keeps the frames. *)
Lemma flip_sharing h a r : heap_inv SZ m0 bm ks h -> room (hm h) bm a r -> used (hm h) k i = false ->
  heap_inv SZ m0 bm ks (flip SZ h k i true) /\ sharing (flip SZ h k i true) [] a r.
Proof using HSZ Hm0 Hmem Hk Hi.
  intros Hh Hr Hu. assert (Hh' : heap_inv SZ m0 bm ks (flip SZ h k i true)) by (apply flip_inv; auto).
  split; [done|]. split; [apply (hv_hist _ _ _ _ _ Hh')|by exists m0|].
  destruct Hr as (R1 & R2 & R3). split_and!; try done. intros j Hj. specialize (R3 j Hj).
  pose proof (hi_count _ _ _ (hv_hist _ _ _ _ _ Hh) j ltac:(lia)) as C1.
  pose proof (hi_count _ _ _ (hv_hist _ _ _ _ _ Hh') j ltac:(lia)) as C2.
  cbn [fst snd] in C1, C2. rewrite R3 in C1.
  destruct (test (hm (flip SZ h k i true)) bm j); [done|simpl in *; lia].
Qed.

(** The fields of the TSS that [start] sets, with their stacks. *)
Definition tss_fields (p0 p1 p2 : Z) : list (Z * Z) :=
  [(Tss.rsp0, p0); (Tss.ist1, p1); (Tss.ist2, p2)].

Record tss_built h' (fs : list (Z * Z)) (a r : Z) : Prop := {
  tb_share : sharing h' (reverse ((fun f => (f.2, 2)) <$> fs)) a r;
  tb_field : forall o p, (o, p) ∈ fs -> rd64 (hm h') (base + o) = fptr p;
  tb_zero : forall x, base <= x < base + 104 ->
    (forall o p, (o, p) ∈ fs -> ~ (base + o <= x < base + o + 8)) -> rd8 (hm h') x = 0;
  tb_stack : forall o p x, (o, p) ∈ fs -> p * PAGE_SIZE <= x < (p + 2) * PAGE_SIZE -> rd8 (hm h') x = 0;
}.

(** One more field. *)
Lemma tss_built_step h fs a r o :
  tss_built h fs a r -> 2 <= r -> 0 <= o -> o + 8 <= 104 ->
  (forall o' p', (o', p') ∈ fs -> o + 8 <= o' \/ o' + 8 <= o) ->
  (forall o' p', (o', p') ∈ fs -> 0 <= o' /\ o' + 8 <= 104) ->
  exists p m', cpu.set_stack tss o h = (Ret tt, with_hmem h m') /\
    tss_built (with_hmem h m') (fs ++ [(o, p)]) (a + 2) (r - 2) /\
    (forall k' j, k' ∈ ks -> 0 <= j < OBJS_PER_SLAB -> used m' k' j = used (hm h) k' j).
Proof using HSZ Hm0 Hmem Hk Hi Hsize.
  intros [Hs Hf Hz Hst] Hr Ho0 Ho1 Hsep Hin104.
  destruct (set_stack_run h _ a r o Hs Hr Ho0 Ho1) as (p & m' & E & Hs' & Hp & Hkeep & Hzero & Hag & Hu).
  exists p, m'. split; [done|]. split; [|exact Hu]. split; cbn [with_hmem h_p p_mem].
  - rewrite fmap_app, reverse_app. exact Hs'.
  - intros o' p' [Hin|[= -> ->]%list_elem_of_singleton]%elem_of_app; [|done].
    rewrite <- (Hf o' p' Hin). apply (rdn_agree 8). intros x Hx.
    specialize (Hsep _ _ Hin). specialize (Hin104 _ _ Hin). apply Hkeep; lia.
  - intros x Hx Hne. rewrite Hkeep; [|done|].
    + apply Hz; [done|]. intros o' p' Hin. apply (Hne o' p'), elem_of_app. by left.
    + apply (Hne o p), elem_of_app. right. by apply list_elem_of_singleton.
  - intros o' p' x [Hin|[= -> ->]%list_elem_of_singleton]%elem_of_app Hx; [|by apply Hzero].
    transitivity (rd8 (hm h) x); [|by eapply Hst].
    apply (Hag p' 2); [|unfold PAGE_SIZE in *; lia].
    apply elem_of_reverse, list_elem_of_fmap. by exists (o', p').
Qed.

(** The whole of [Box::new] and the three stacks. *)
Lemma new_tss_run h a r : heap_inv SZ m0 bm ks h -> find_class Tss.size ks = Some k ->
  first_free (hm h) k = Some i -> room (hm h) bm a r -> 6 <= r ->
  exists h' p0 p1 p2, cpu.new_tss SZ h = (Ret tss, h') /\
    tss_built h' (tss_fields p0 p1 p2) (a + 6) (r - 6) /\
    forall k' j, k' ∈ ks -> 0 <= j < OBJS_PER_SLAB ->
      used (hm h') k' j = if decide (k' = k /\ j = i) then true else used (hm h) k' j.
Proof using HSZ Hm0 Hmem Hk Hi Hsize.
  intros Hh Hc Hff Hr H6. pose proof (first_free_range _ _ _ Hff) as [_ Hu].
  destruct (flip_sharing h a r Hh Hr Hu) as [Hh1 Hs1].
  pose proof (heap_alloc_eq SZ m0 bm Hmem ks h Tss.size k Hh Hc) as E. rewrite Hff in E.
  set (h1 := flip SZ h k i true) in *.
  destruct (tss_place h1 (sh_heap _ _ _ _ Hs1)) as (_ & _ & _ & _ & Hph).
  set (m2 := fill 104 (hm h1) base 0).
  destruct (tss_store _ _ _ _ m2 Hs1) as (Hs2 & _ & Hu2).
  { intros x Hx. unfold m2. rewrite rd8_fill. case_decide; [lia|done]. }
  assert (Hb0 : tss_built (with_hmem h1 m2) [] a r).
  { split; [exact Hs2|intros ?? []%elem_of_nil| |intros ??? []%elem_of_nil].
    intros x Hx _. cbn. unfold m2. rewrite rd8_fill. by rewrite decide_True by lia. }
  destruct (tss_built_step _ _ _ _ Tss.rsp0 Hb0) as (p0 & m3 & E3 & Hb1 & Hu3);
    [lia|done|done|intros ?? []%elem_of_nil..|].
  destruct (tss_built_step _ _ _ _ Tss.ist1 Hb1) as (p1 & m4 & E4 & Hb2 & Hu4);
    [lia|done|done|intros ?? [= -> ->]%list_elem_of_singleton; unfold Tss.ist1, Tss.rsp0; lia..|].
  destruct (tss_built_step _ _ _ _ Tss.ist2 Hb2) as (p2 & m5 & E5 & Hb3 & Hu5);
    [lia|done|done|
     intros ?? [[= -> ->]%list_elem_of_singleton|[= -> ->]%list_elem_of_singleton]%elem_of_app;
     unfold Tss.ist2, Tss.ist1, Tss.rsp0; lia..|].
  exists (with_hmem h1 m5), p0, p1, p2. split_and!.
  - unfold cpu.new_tss. rewrite (bind_run _ _ _ _ _ E).
    rewrite (bind_run _ _ _ tt (with_hmem h1 m2)).
    2:{ unfold slab.on_mem, slab.on_p, Pmm.on_mem, zoom, write_bytes, modify. cbn -[fill].
        rewrite <- (Z.add_0_r tss), Hph, Z.add_0_r by lia. done. }
    by rewrite (bind_run _ _ _ _ _ E3), (bind_run _ _ _ _ _ E4), (bind_run _ _ _ _ _ E5).
  - replace (a + 6) with (a + 2 + 2 + 2) by lia. by replace (r - 6) with (r - 2 - 2 - 2) by lia.
  - intros k' j Hk' Hj. cbn [with_hmem h_p p_mem]. rewrite Hu5, Hu4, Hu3, Hu2 by done.
    by apply (flip_used SZ HSZ m0 bm Hmem ks h k i true).
Qed.

End start.

(** Blocks that are live at once are apart. *)
Lemma blocks_apart m0 bm m L p n q r L' : hist_inv m0 bm (m, L) -> L ≡ₚ (p, n) :: (q, r) :: L' ->
  p + n <= q \/ q + r <= p.
Proof.
  intros Hh HL. destruct (decide (p + n <= q \/ q + r <= p)) as [|Hno]; [done|exfalso].
  assert (Hp : (p, n) ∈ L) by (rewrite HL; by left).
  assert (Hq : (q, r) ∈ L) by (rewrite HL; right; by left).
  destruct (hi_blocks _ _ _ Hh p n Hp) as (_ & ? & _), (hi_blocks _ _ _ Hh q r Hq) as (_ & ? & _).
  destruct (live_frame _ _ _ _ p n (Z.max p q) Hh Hp ltac:(lia)) as (_ & _ & Hc).
  rewrite HL in Hc. simpl in Hc. pose proof (cover_nonneg L' (Z.max p q)).
  rewrite !decide_True in Hc by lia. lia.
Qed.

(** ** Properties *)

Local Abbreviation hmem h := (p_mem (h_p h)).

(** [start]: the features of CR4 are set; the TSS is an object of the heap whose
    [rsp0], [ist1] and [ist2] hold the higher-half addresses of three disjoint
    blocks of two zeroed frames and whose other bytes are zero; its address is the
    base of the descriptor the task register selects.  The heap stays well formed
    with exactly that object newly used, and the frames of the stacks belong to
    nobody else.  The fields hold the lowest address of each block, although a
    stack grows down from there. *)
Theorem cpu_start_correct SZ m0 bm ks h k i cpuid cr4 g a r :
  setting SZ m0 bm ks h -> find_class Tss.size ks = Some k -> first_free (hmem h) k = Some i ->
  room (hmem h) bm a r -> 6 <= r ->
  exists h' cr4' g' p0 p1 p2,
    cpu.start cpuid SZ (mkU h cr4 g) = (Ret tt, mkU h' cr4' g') /\
    init_features cpuid cr4 = (Ret tt, cr4') /\
    s_tr g' = 0x28 /\ tss_base (gdt_tss (s_gdt g')) = obj SZ k i /\
    s_gdtr g' = s_gdtr g /\ s_cs g' = s_cs g /\
    tss_built SZ bm m0 ks k i h' (tss_fields p0 p1 p2) (a + 6) (r - 6) /\
    (forall p q, (p, q) ∈ [(p0, p1); (p0, p2); (p1, p2)] -> p + 2 <= q \/ q + 2 <= p) /\
    (forall k' j, k' ∈ ks -> 0 <= j < OBJS_PER_SLAB ->
       used (hmem h') k' j = if decide (k' = k /\ j = i) then true else used (hmem h) k' j).
Proof.
  intros [Hsz H0 Hmem Hh] Hc Hff Hr H6.
  destruct (find_class_split _ _ _ Hc) as (Hk & Hs & _).
  pose proof (first_free_range _ _ _ Hff) as [Hi _].
  destruct (new_tss_run SZ Hsz bm m0 H0 Hmem ks k i Hk Hi Hs h a r Hh Hc Hff Hr H6)
    as (h' & p0 & p1 & p2 & E & Hb & Hu).
  pose proof (tb_share _ _ _ _ _ _ _ _ _ _ Hb) as [Hhist Hok _].
  destruct (tss_place SZ Hsz bm Hmem ks k i Hk Hi Hs h' Hok) as (_ & _ & B0 & B1 & _).
  eexists h', _, _, p0, p1, p2. split_and!.
  - unfold cpu.start.
    rewrite (bind_run _ _ _ tt (mkU h (snd (init_features cpuid cr4)) g)) by done.
    rewrite (bind_run _ _ _ (obj SZ k i) (mkU h' (snd (init_features cpuid cr4)) g)).
    2:{ unfold cpu.on_heap, zoom. cbn [u_heap]. by rewrite E. }
    reflexivity.
  - done.
  - done.
  - apply tss_base_set_base. unfold PHYS_BASE in *. lia.
  - done.
  - done.
  - done.
  - intros p q Hpq. set (R := ks ≫= cls_runs SZ).
    assert (Hperm : exists L', (reverse ((fun f => (f.2, 2)) <$> tss_fields p0 p1 p2) ++ R)
                               ≡ₚ (p, 2) :: (q, 2) :: L').
    { unfold tss_fields. cbn. repeat (apply elem_of_cons in Hpq as [[= -> ->]|Hpq]);
        [exists ((p2, 2) :: R)|exists ((p1, 2) :: R)|exists ((p0, 2) :: R)|by apply elem_of_nil in Hpq];
        solve_Permutation. }
    destruct Hperm as [L' HL]. by apply (blocks_apart m0 bm _ _ p 2 q 2 L' Hhist).
  - done.
Qed.

Lemma cpu_start_correct_witness :
  exists ks h k p0 p1 p2 h' g', setting 72 mem_l bm_l ks h /\ find_class Tss.size ks = Some k /\
    cpu.start (fun _ _ => mkCpuid 0 0 0 0) 72 (mkU h 0x20 gstate_0) = (Ret tt, mkU h' 0x20 g') /\
    tss_built 72 bm_l mem_l ks k 0 h' (tss_fields p0 p1 p2) 549 475.
Proof.
  destruct heap_l_room as (ks & h & Hs & Ek & Hf & Hr).
  pose proof (find_class_map Tss.size ks) as Hm. rewrite Ek in Hm.
  destruct (find_class Tss.size ks) as [k|] eqn:Hc; [|discriminate Hm].
  destruct (find_class_split _ _ _ Hc) as (Hk & _).
  destruct (cpu_start_correct 72 mem_l bm_l ks h k 0 (fun _ _ => mkCpuid 0 0 0 0) 0x20 gstate_0 543 481
              Hs Hc (first_free_fresh _ ks k Hf Hk) Hr) as (h' & c & g & p0 & p1 & p2 & E & Ef & _ & _ & _ & _ & Hb & _).
  - lia.
  - exists ks, h, k, p0, p1, p2, h', g. injection Ef as <-.
    split; [exact Hs|]. split; [exact Hc|]. split; [exact E|exact Hb].
Defined.
