(* ===== verification/Apic.v ===== *)
(** * [arch/x86_64/apic.rs]: the interrupt controllers

    [init] moves the vectors of the two 8259 controllers away from the
    processor's exceptions, masks them, and enables the local APIC.  The chips
    are hardware: [IrqChips] says what their specifications promise, with the
    8259 as a state machine. *)

From S2P Require Import Prelude Memory Bitmap Pmm Vmm Io Acpi Hpet Cpu.

Inductive LapicRegisters := Eoi | Sivr | Dcr | LvtTimer | InitialCount | CurrCount.

#[export] Instance LapicRegisters_eq_dec : EqDecision LapicRegisters.
Proof. solve_decision. Defined.

(** [reg as u64]. *)
Definition reg_offset (r : LapicRegisters) : Z :=
  match r with
  | Eoi => 0xb0 | Sivr => 0xf0 | Dcr => 0x3e0
  | LvtTimer => 0x320 | InitialCount => 0x380 | CurrCount => 0x390
  end.

(** The state below, [LAPIC], the processor's MSRs and its interrupt flag.  An
    [Xapic] is its address. *)
Record lstate (F H : Type) := mkL {
  l_t : tstate F H;
  LAPIC : option Z;
  l_msrs : msrs;
  l_if : bool;
}.
Arguments mkL {F H} _ _ _ _.
Arguments l_t {F H} _.
Arguments LAPIC {F H} _.
Arguments l_msrs {F H} _.
Arguments l_if {F H} _.

Module apic.

(** [remap_pic]. *)
Definition remap_pic {H} `{!PortBus H} : M H unit :=
  do! io.outb 0x20 0x11 in
  do! io.outb 0xA0 0x11 in
  do! io.outb 0x21 0x20 in
  do! io.outb 0xA1 0x28 in
  do! io.outb 0x21 4 in
  do! io.outb 0xA1 2 in
  do! io.outb 0x21 0x01 in
  do! io.outb 0xA1 0x01 in
  do! io.outb 0x21 0xFF in
  io.outb 0xA1 0xFF.

Section apic.
Context {F H : Type} `{!MmioBus H, !PortBus H}.
Abbreviation L := (M (lstate F H)).

Definition on_t {X} : M (tstate F H) X -> L X :=
  zoom l_t (fun t s => mkL t (LAPIC s) (l_msrs s) (l_if s)).
Definition on_bus {X} (c : M (mem * H) X) : L X := on_t (hpet.on_bus c).
Definition on_hw {X} (c : M H X) : L X :=
  on_t (zoom t_hw (fun h t => mkT (t_v t) h (t_rsdp t) (HPET t)) c).
Definition on_msrs {X} : M msrs X -> L X :=
  zoom l_msrs (fun r s => mkL (l_t s) (LAPIC s) r (l_if s)).

(** [cpu::sti]. *)
Definition sti : L unit := modify (fun s => mkL (l_t s) (LAPIC s) (l_msrs s) true).

(** [Xapic::new]. *)
Definition new : L Z :=
  let! msr := on_msrs (rdmsr ApicBase) in
  uadd u64 (Z.land msr 0xfffff000) PHYS_BASE.

Definition read (self : Z) (reg : LapicRegisters) : L Z :=
  let! p := uadd u64 self (reg_offset reg) in
  on_bus (io.get u32 p).

Definition write (self : Z) (reg : LapicRegisters) (value : Z) : L unit :=
  let! p := uadd u64 self (reg_offset reg) in
  on_bus (io.set u32 p value).

Definition enable (self : Z) : L unit :=
  let! v := read self Sivr in
  write self Sivr (Z.lor v 0x1ff).

Definition calibrate_timer (fuel : nat) (self ms vector : Z) : L unit :=
  do! write self Dcr 0 in
  do! write self InitialCount (2 ^ 32 - 1) in
  do! on_t (hpet.sleep fuel ms) in
  let! curr := read self CurrCount in
  let! count := usub u32 (2 ^ 32 - 1) curr in
  do! write self LvtTimer (Z.lor (as_u u32 vector) (Z.shiftl 1 17)) in
  write self InitialCount count.

Definition eoi (self : Z) : L unit := write self Eoi 0.

Definition init : L unit :=
  do! on_hw remap_pic in
  do! sti in
  let! xapic := new in
  do! enable xapic in
  modify (fun s => mkL (l_t s) (Some xapic) (l_msrs s) (l_if s)).

(** [apic::get]. *)
Definition get : L Z := let! o := gets LAPIC in expect o.

End apic.
End apic.

(** ** The 8259, from its data sheet

    A write of ICW1 (bit 4 of the command port) starts an initialization that
    clears the mask and expects the other words at the data port: ICW2 (the
    vector base), ICW3 (the cascade) unless ICW1 has bit 1, and ICW4 when ICW1
    has bit 0.  Outside of it, the data port is the mask. *)

Inductive icw := Ready | Icw2 | Icw3 | Icw4.

Record pic := mkPic {
  pic_phase : icw;
  pic_single : bool;
  pic_needs4 : bool;
  pic_base : Z;
  pic_cascade : Z;
  pic_8086 : bool;
  pic_mask : Z;
}.

Definition pic_command (v : Z) (c : pic) : pic :=
  if Z.testbit v 4 then
    mkPic Icw2 (Z.testbit v 1) (Z.testbit v 0) (pic_base c) (pic_cascade c) false 0
  else c.

Definition after3 (c : pic) : icw := if pic_needs4 c then Icw4 else Ready.

Definition pic_data (v : Z) (c : pic) : pic :=
  match pic_phase c with
  | Ready => mkPic Ready (pic_single c) (pic_needs4 c) (pic_base c) (pic_cascade c) (pic_8086 c) v
  | Icw2 => mkPic (if pic_single c then after3 c else Icw3) (pic_single c) (pic_needs4 c)
              (Z.land v 0xf8) (pic_cascade c) (pic_8086 c) (pic_mask c)
  | Icw3 => mkPic (after3 c) (pic_single c) (pic_needs4 c) (pic_base c) v (pic_8086 c) (pic_mask c)
  | Icw4 => mkPic Ready (pic_single c) (pic_needs4 c) (pic_base c) (pic_cascade c)
              (Z.testbit v 0) (pic_mask c)
  end.

(** The pair at ports 0x20, 0x21 and 0xA0, 0xA1. *)
Definition pics_out (port v : Z) (ps : pic * pic) : pic * pic :=
  let '(master, slave) := ps in
  if port =? 0x20 then (pic_command v master, slave)
  else if port =? 0x21 then (pic_data v master, slave)
  else if port =? 0xA0 then (master, pic_command v slave)
  else if port =? 0xA1 then (master, pic_data v slave)
  else ps.

(** Both chips in operation, with their vectors from [base] and [base + 8] and
    all their interrupts masked. *)
Definition pics_at (ps : pic * pic) (base : Z) : Prop :=
  (forall c, c = fst ps \/ c = snd ps ->
     pic_phase c = Ready /\ pic_8086 c = true /\ pic_mask c = 0xff) /\
  pic_base (fst ps) = base /\ pic_base (snd ps) = base + 8 /\
  pic_cascade (fst ps) = 2 ^ 2 /\ pic_cascade (snd ps) = 2.

(** What the kernel relies on: writes to the ports of the 8259s are their
    transitions and leave the local APIC alone; the registers of the local APIC
    at [p] hold what is written to them, apart from memory. *)
Class IrqChips (H : Type) `{!PortBus H, !MmioBus H} := {
  ic_pics : H -> pic * pic;
  ic_lapic : Z -> H -> Prop;
  ic_reg : H -> LapicRegisters -> Z;
  ic_port : forall port v h, port = 0x20 \/ port = 0x21 \/ port = 0xA0 \/ port = 0xA1 ->
    exists h', port_out u8 port v h = (Ret tt, h') /\ ic_pics h' = pics_out port v (ic_pics h) /\
      (forall p, ic_lapic p h -> ic_lapic p h') /\ forall r, ic_reg h' r = ic_reg h r;
  ic_read : forall p m h, ic_lapic p h ->
    exists h', bus_read u32 (p + reg_offset Sivr) (m, h) = (Ret (ic_reg h Sivr), (m, h')) /\
      0 <= ic_reg h Sivr < 2 ^ 32 /\
      ic_lapic p h' /\ ic_pics h' = ic_pics h /\ ic_reg h' Sivr = ic_reg h Sivr;
  ic_write : forall p m h v, ic_lapic p h -> 0 <= v < 2 ^ 32 ->
    exists h', bus_write u32 (p + reg_offset Sivr) v (m, h) = (Ret tt, (m, h')) /\
      ic_lapic p h' /\ ic_pics h' = ic_pics h /\ ic_reg h' Sivr = v;
}.

Section chips.
Context {F H : Type} `{!PortBus H, !MmioBus H, !IrqChips H}.
Implicit Types (h : H) (s : lstate F H).

Definition pic_port (x : Z * Z) : Prop :=
  fst x = 0x20 \/ fst x = 0x21 \/ fst x = 0xA0 \/ fst x = 0xA1.

(** What a write to one of the ports does. *)
Definition pic_step (x : Z * Z) h h' : Prop :=
  ic_pics h' = pics_out (fst x) (snd x) (ic_pics h) /\
  (forall p, ic_lapic p h -> ic_lapic p h') /\ forall r, ic_reg h' r = ic_reg h r.

Lemma pic_steps l h h' : steps pic_step l h h' ->
  ic_pics h' = fold_left (fun ps y => pics_out (fst y) (snd y) ps) l (ic_pics h) /\
  (forall p, ic_lapic p h -> ic_lapic p h') /\ forall r, ic_reg h' r = ic_reg h r.
Proof.
  induction 1 as [|x l h h1 h' (Hp & Hla & Hr) _ (IHp & IHla & IHr)]; [done|].
  cbn [fold_left]. rewrite <- Hp. split_and!; [done|by auto|]. intros r. by rewrite IHr.
Qed.

Lemma remap_pic_run h :
  exists h', apic.remap_pic h = (Ret tt, h') /\ pics_at (ic_pics h') 0x20 /\
    (forall p, ic_lapic p h -> ic_lapic p h') /\ forall r, ic_reg h' r = ic_reg h r.
Proof.
  destruct (outs_steps pic_port pic_step (fun x h Hx => ic_port (fst x) (snd x) h Hx)
    [(0xA0, 0x11); (0x21, 0x20); (0xA1, 0x28); (0x21, 4); (0xA1, 2);
     (0x21, 1); (0xA1, 1); (0x21, 0xff); (0xA1, 0xff)] (0x20, 0x11) h) as (h' & E & Hs).
  { repeat (apply list.Forall_cons; split; [unfold pic_port; simpl; tauto|]). by apply list.Forall_nil. }
  apply pic_steps in Hs as (Hp & Hrest).
  exists h'. split; [exact E|]. split; [|done]. rewrite Hp.
  destruct (ic_pics h) as [m sl]. cbn. unfold pics_at. cbn.
  split_and!; try done. intros c [-> | ->]; done.
Qed.

(** ** The local APIC *)

Definition put_hw s h : lstate F H :=
  mkL (set_hw (l_t s) h) (LAPIC s) (l_msrs s) (l_if s).

Lemma lapic_bus_run {X} (c : M (mem * H) X) s a h' :
  c (p_mem (v_p (t_v (l_t s))), t_hw (l_t s)) = (Ret a, (p_mem (v_p (t_v (l_t s))), h')) ->
  apic.on_bus c s = (Ret a, put_hw s h').
Proof.
  intros E. unfold apic.on_bus, apic.on_t. erewrite zoom_ret; [|by apply reg_run]. done.
Qed.

Lemma sivr_ptr p : 0 <= p -> p + 0x1000 <= 2 ^ 47 ->
  0 <= p + PHYS_BASE + reg_offset Sivr < 2 ^ 64 /\
  phys_of (p + PHYS_BASE + reg_offset Sivr) = p + reg_offset Sivr.
Proof.
  intros H0 H1. cbn [reg_offset]. split; [unfold PHYS_BASE; lia|]. apply phys_of_base_add; lia.
Qed.

(** [enable] sets the low nine bits of the spurious interrupt register. *)
Lemma enable_run s p :
  0 <= p -> p + 0x1000 <= 2 ^ 47 -> ic_lapic p (t_hw (l_t s)) ->
  exists h', apic.enable (p + PHYS_BASE) s = (Ret tt, put_hw s h') /\ ic_lapic p h' /\
  ic_pics h' = ic_pics (t_hw (l_t s)) /\
  ic_reg h' Sivr = Z.lor (ic_reg (t_hw (l_t s)) Sivr) 0x1ff.
Proof.
  intros H0 H1 Hla. destruct (sivr_ptr p H0 H1) as [Hrange Hptr].
  destruct (ic_read p (p_mem (v_p (t_v (l_t s)))) _ Hla) as (h1 & E1 & Hv & Hla1 & Hp1 & Hr1).
  destruct (ic_write p (p_mem (v_p (t_v (l_t s)))) h1 (Z.lor (ic_reg (t_hw (l_t s)) Sivr) 0x1ff) Hla1)
    as (h2 & E2 & Hla2 & Hp2 & Hr2).
  { apply lor_range; lia. }
  exists h2. split_and!; [|done|congruence|done].
  unfold apic.enable. rewrite (bind_run _ _ _ (ic_reg (t_hw (l_t s)) Sivr) (put_hw s h1)).
  - unfold apic.write, uadd. rewrite (bind_run _ _ _ _ _ (chk_ok u64 _ _ Hrange)).
    apply (lapic_bus_run _ (put_hw s h1)). unfold io.set. rewrite Hptr. exact E2.
  - unfold apic.read, uadd. rewrite (bind_run _ _ _ _ _ (chk_ok u64 _ _ Hrange)).
    apply lapic_bus_run. unfold io.get. rewrite Hptr, (bind_run _ _ _ _ _ E1).
    unfold ret, as_u, u32. by rewrite Z.mod_small.
Qed.

(** The page of the local APIC, from its MSR. *)
Definition lapic_base (r : msrs) : Z :=
  let '(low, high) := default (0, 0) (r !! 0x1b) in
  Z.land (Z.lor low (Z.shiftl high 32)) 0xfffff000.

Lemma lapic_base_range r : 0 <= lapic_base r < 2 ^ 32.
Proof.
  unfold lapic_base. destruct (default _ _) as [lo hi]. set (x := Z.lor _ _).
  split; [apply Z.land_nonneg; lia|].
  assert (Z.land x 0xfffff000 = Z.land x 0xfffff000 mod 2 ^ 32) as ->.
  { rewrite <- Z.land_ones, <- Z.land_assoc by lia. f_equal. }
  by apply Z.mod_pos_bound.
Qed.

(** ** Properties *)

(** C32.  [apic::init], from any state of the two 8259 controllers: both end in
    operation, with the vectors 0x20 to 0x2f, past the 32 exceptions, cascaded
    through line 2, and with every line masked; the local APIC, at the page its
    MSR names, is enabled by bit 8 of its spurious interrupt register with vector
    0xff; interrupts are on; memory is as before. *)
Theorem apic_init_correct s :
  ic_lapic (lapic_base (l_msrs s)) (t_hw (l_t s)) ->
  exists h', apic.init s =
      (Ret tt, mkL (set_hw (l_t s) h') (Some (lapic_base (l_msrs s) + PHYS_BASE)) (l_msrs s) true) /\
  pics_at (ic_pics h') 32 /\
  Z.testbit (ic_reg h' Sivr) 8 = true /\ ic_reg h' Sivr mod 256 = 0xff /\
  forall i, 9 <= i -> Z.testbit (ic_reg h' Sivr) i = Z.testbit (ic_reg (t_hw (l_t s)) Sivr) i.
Proof.
  intros Hla. pose proof (lapic_base_range (l_msrs s)) as Hb.
  destruct (remap_pic_run (t_hw (l_t s))) as (h1 & E1 & Hp1 & Hla1 & Hr1).
  set (s1 := mkL (set_hw (l_t s) h1) (LAPIC s) (l_msrs s) true).
  destruct (enable_run s1 (lapic_base (l_msrs s))) as (h2 & E2 & _ & Hp2 & Hr2);
    [lia|lia|by apply Hla1|].
  exists h2. split_and!.
  - unfold apic.init. rewrite (bind_run _ _ _ tt (mkL (set_hw (l_t s) h1) (LAPIC s) (l_msrs s) (l_if s))).
    2:{ unfold apic.on_hw, apic.on_t, zoom. by rewrite E1. }
    rewrite (bind_run _ _ _ tt s1) by done.
    rewrite (bind_run _ _ _ (lapic_base (l_msrs s) + PHYS_BASE) s1).
    2:{ unfold apic.new, apic.on_msrs, zoom, rdmsr, bind at 1, bind at 1, gets.
        unfold lapic_base in *. cbn [l_msrs s1 msr_index].
        destruct (default (0, 0) (l_msrs s !! 27)) as [lo hi]. unfold ret, uadd.
        apply chk_ok. unfold PHYS_BASE, u64. lia. }
    by rewrite (bind_run _ _ _ _ _ E2).
  - by rewrite Hp2.
  - rewrite Hr2, Z.lor_spec. apply orb_true_r.
  - rewrite Hr2. change 256 with (2 ^ 8). rewrite <- Z.land_ones, Z.land_lor_distr_l by lia.
    rewrite (Z.land_ones 0x1ff), Z.land_ones by lia. change (0x1ff mod 2 ^ 8) with 0xff.
    apply Z.bits_inj'. intros i Hi. rewrite Z.lor_spec.
    destruct (Z.le_gt_cases 8 i).
    + rewrite Z.mod_pow2_bits_high by lia. done.
    + change 255 with (Z.ones 8). rewrite Z.ones_spec_low by lia. apply orb_true_r.
  - intros i Hi. rewrite Hr2, Z.lor_spec, (testbit_above 0x1ff 9 i) by lia.
    rewrite orb_false_r. cbn [s1 l_t set_hw t_hw]. by rewrite Hr1.
Qed.

End chips.

(** ** Controllers in software, as an instance *)

Record irqsim := mkIrq { is_pics : pic * pic; is_sivr : Z }.

Definition LAPIC_BASE : Z := 0xfee00000.

#[export] Instance irqsim_ports : PortBus irqsim := {
  port_in w p := ret 0;
  port_out w p v := fun h => (Ret tt, mkIrq (pics_out p v (is_pics h)) (is_sivr h));
}.

#[export] Instance irqsim_bus : MmioBus irqsim := {
  bus_read w p := fun s => (Ret (if p =? LAPIC_BASE + 0xf0 then is_sivr (snd s) else 0), s);
  bus_write w p v := fun s =>
    (Ret tt, (fst s, if p =? LAPIC_BASE + 0xf0 then mkIrq (is_pics (snd s)) v else snd s));
}.

#[export] Instance irqsim_chips : IrqChips irqsim.
Proof.
  refine {| ic_pics := is_pics;
            ic_lapic := fun p h => p = LAPIC_BASE /\ 0 <= is_sivr h < 2 ^ 32;
            ic_reg := fun h r => match r with Sivr => is_sivr h | _ => 0 end |}.
  - intros port v h _. eexists. split; [reflexivity|]. by split_and!.
  - intros p m h [-> Hv]. exists h. split_and!; try reflexivity; try apply Hv.
  - intros p m h v [-> _] Hv. exists (mkIrq (is_pics h) v). split_and!; try reflexivity; apply Hv.
Defined.

Definition irq_state : lstate unit irqsim :=
  mkL (mkT vs_w (mkIrq (mkPic Icw3 true false 0 0 false 0, mkPic Ready false true 8 0 true 7) 0xff) 0 None)
      None {[ 0x1b := (0xfee00900, 0) ]} false.

Lemma apic_init_correct_witness :
  exists s', apic.init irq_state = (Ret tt, s') /\ LAPIC s' = Some (LAPIC_BASE + PHYS_BASE).
Proof.
  destruct (apic_init_correct irq_state) as (h' & E & _).
  - split; [vm_compute; reflexivity|cbn; lia].
  - exists (mkL (set_hw (l_t irq_state) h') (Some (LAPIC_BASE + PHYS_BASE)) (l_msrs irq_state) true).
    split; [exact E|reflexivity].
Defined.
