(* ===== verification/Process.v ===== *)
(** * [proc/process.rs]: processes, threads and their identifiers

    Identifiers come from two bitmaps of one page each.  [Rc<RefCell<_>>] handles
    are values of a parameter type where they are only stored. *)

From S2P Require Import Prelude Memory MathUtil Bitmap Pmm Vfs Vmm Interrupts Cpu.
From stdpp Require Import strings.
Local Open Scope Z_scope.

Definition MAX_FDS_PER_PROCESS : Z := 128.

Inductive Status := Running | Waiting | Dying.

Record Process (F T : Type) := mkProcess {
  pid : Z;
  p_status : Status;
  name : string;
  p_pagemap : option (VirtualMemManager F);
  threads : list T;
  file_desc_list : list (option (FileDescription F));
  working_dir : option (FileDescription F);
}.
Arguments mkProcess {F T} _ _ _ _ _ _ _.
Arguments pid {F T} _.
Arguments file_desc_list {F T} _.

Record Thread (P : Type) := mkThread {
  tid : Z;
  t_status : Status;
  parent : P;
  kernel_stack : Z;
  regs : InterruptContext;
}.
Arguments mkThread {P} _ _ _ _ _.
Arguments tid {P} _.
Arguments t_status {P} _.
Arguments parent {P} _.
Arguments kernel_stack {P} _.
Arguments regs {P} _.

(** [PID_BITMAP] and [TID_BITMAP], beside memory and page allocator. *)
Record idstate := mkIds { d_p : pstate; d_pid : option Bitmap; d_tid : option Bitmap }.

(** [InterruptContext::default()]. *)
Definition context_default : InterruptContext := mkCtx 0 0 0 0 0 0 0 0 0 0 0 0 0 0 0 0 0 0 0 0.

Module process.

Definition on_p {A} : M pstate A -> M idstate A :=
  zoom d_p (fun p s => mkIds p (d_pid s) (d_tid s)).
Definition on_mem {A} (c : M mem A) : M idstate A := on_p (Pmm.on_mem c).

(** [Process::new]. *)
Definition process_new {F T} (nm : string) (rip : Z) (wd : option (FileDescription F)) : Process F T :=
  mkProcess 0 Running nm None [] (replicate (Z.to_nat MAX_FDS_PER_PROCESS) None) wd.

(** The loop of [alloc_pid] and [alloc_tid]. *)
Fixpoint alloc_loop (bm : Bitmap) (n : nat) (i : Z) : M mem (option Z) :=
  match n with
  | O => ret None
  | S n' =>
      let! b := bitmap.is_set bm i in
      if negb b then
        do! bitmap.set bm i in
        ret (Some i)
      else alloc_loop bm n' (i + 1)
  end.

Definition alloc_pid : M idstate (option Z) :=
  let! o := gets d_pid in
  let! bm := expect o in
  let! n := umul usize (bitmap.size bm) 8 in
  on_mem (alloc_loop bm (Z.to_nat n) 0).

Definition alloc_tid : M idstate (option Z) :=
  let! o := gets d_tid in
  let! bm := expect o in
  let! n := umul usize (bitmap.size bm) 8 in
  on_mem (alloc_loop bm (Z.to_nat n) 0).

(** [Thread::new]. *)
Definition thread_new {P} (rip : Z) (cs : SelectorValues) (par : P) : M idstate (Thread P) :=
  let! r := alloc_tid in
  let! t := expect r in
  let ss := if negb (Z.land (sel cs) 0x3 =? 0) then sel UserDs else sel KernelDs in
  let rflags := 0x202 in
  ret (mkThread t Running par 0
         (mkCtx 0 0 0 0 0 0 0 0 0 0 0 0 0 0 0 rip (sel cs) rflags 0 ss)).

Definition init_bitmaps : M idstate unit :=
  let! a := on_p (bitmap_alloc.new PAGE_SIZE) in
  let! b := on_p (bitmap_alloc.new PAGE_SIZE) in
  do! modify (fun s => mkIds (d_p s) (Some a) (d_tid s)) in
  modify (fun s => mkIds (d_p s) (d_pid s) (Some b)).

End process.

(** ** Identifiers *)

Section ids.
Implicit Types (m : mem) (bm : Bitmap).

(** The lowest identifier not in use. *)
Definition next_id (m : mem) (bm : Bitmap) : option Z :=
  List.find (fun i => negb (test m bm i)) (seqZ 0 (8 * bm_len bm)).

Lemma alloc_loop_eq bm m n : forall i,
  0 <= i -> i + Z.of_nat n <= 8 * bm_len bm ->
  process.alloc_loop bm n i m =
    match List.find (fun j => negb (test m bm j)) (seqZ i (Z.of_nat n)) with
    | Some j => (Ret (Some j), upd m bm j true)
    | None => (Ret None, m)
    end.
Proof.
  induction n as [|n IH]; intros i Hi Hn; [done|].
  rewrite seqZ_cons by lia. replace (Z.pred (Z.of_nat (S n))) with (Z.of_nat n) by lia.
  replace (Z.succ i) with (i + 1) by lia. simpl. unfold bind at 1.
  rewrite is_set_ok by lia. destruct (test m bm i) eqn:E; simpl.
  - rewrite IH by lia. done.
  - unfold bind. by rewrite set_ok by lia.
Qed.

(** Both allocators, on their bitmap. *)
Lemma alloc_ids_eq bm m :
  bm_wf bm -> 8 * bm_len bm < 2 ^ 64 ->
  process.alloc_loop bm (Z.to_nat (bm_size bm * 8)) 0 m =
    match next_id m bm with
    | Some j => (Ret (Some j), upd m bm j true)
    | None => (Ret None, m)
    end.
Proof.
  intros Hwf Hl. pose proof (bm_len_nonneg _ Hwf). rewrite (bm_size_len _ Hwf).
  rewrite alloc_loop_eq by lia. unfold next_id. by rewrite Z2Nat.id, (Z.mul_comm _ 8) by lia.
Qed.

Lemma next_id_range m bm j : bm_wf bm -> next_id m bm = Some j ->
  0 <= j < 8 * bm_len bm /\ test m bm j = false /\ forall i, 0 <= i < j -> test m bm i = true.
Proof.
  intros Hwf H. pose proof (bm_len_nonneg _ Hwf). unfold next_id in H.
  rewrite <- (Z2Nat.id (8 * bm_len bm)) in H by lia. apply find_seqZ_Some in H as (Hj & Hu & Hl).
  split; [lia|]. split; [by apply negb_true_iff|]. intros i Hi. by apply negb_false_iff, Hl.
Qed.

Lemma next_id_none m bm : next_id m bm = None ->
  forall i, 0 <= i < 8 * bm_len bm -> test m bm i = true.
Proof.
  intros H i Hi. unfold next_id in H. apply negb_false_iff.
  apply (List.find_none _ _ H), list_elem_of_In, elem_of_seqZ. lia.
Qed.

End ids.

(** ** Properties *)

(** C39.  [Thread::new] takes the lowest unused thread id and marks it used, and
    no other; the thread starts at [rip] with the code selector it was given, a
    stack selector of the same privilege level, interrupts enabled and every
    other register 0.  With no id left it panics. *)
Theorem thread_new_correct {P} rip cs (par : P) s bm :
  d_tid s = Some bm -> bm_wf bm -> 8 * bm_len bm < 2 ^ 64 ->
  match next_id (p_mem (d_p s)) bm with
  | None =>
      (forall i, 0 <= i < 8 * bm_len bm -> test (p_mem (d_p s)) bm i = true) /\
      process.thread_new rip cs par s = (Fault Expect, s)
  | Some j => exists t s', process.thread_new rip cs par s = (Ret t, s') /\
      tid t = j /\ parent t = par /\ t_status t = Running /\
      x_rip (regs t) = rip /\ x_cs (regs t) = sel cs /\ x_rflags (regs t) = 0x202 /\
      x_ss (regs t) mod 4 = sel cs mod 4 /\ x_rsp (regs t) = 0 /\
      d_tid s' = Some bm /\ d_pid s' = d_pid s /\
      only (p_mem (d_p s)) (p_mem (d_p s')) (bm_base bm) (bm_len bm) /\
      forall i, 0 <= i < 8 * bm_len bm ->
        test (p_mem (d_p s')) bm i = if decide (i = j) then true else test (p_mem (d_p s)) bm i
  end.
Proof.
  intros Hb Hwf Hl. pose proof (bm_len_nonneg _ Hwf). pose proof (bm_size_len _ Hwf) as Hsz.
  destruct s as [[m al] opid otid]. cbn [d_tid d_p d_pid p_mem] in *. subst otid.
  assert (E : process.alloc_tid (mkIds (mkP m al) opid (Some bm)) =
    match next_id m bm with
    | Some j => (Ret (Some j), mkIds (mkP (upd m bm j true) al) opid (Some bm))
    | None => (Ret None, mkIds (mkP m al) opid (Some bm))
    end).
  { unfold process.alloc_tid, bind, gets, expect, umul, bitmap.size. cbn [d_tid]. unfold ret.
    rewrite chk_ok by (unfold usize; lia). unfold process.on_mem, process.on_p, Pmm.on_mem, zoom.
    cbn [d_p p_mem]. rewrite alloc_ids_eq by done. by destruct (next_id m bm). }
  unfold process.thread_new, bind. rewrite E. destruct (next_id m bm) as [j|] eqn:Ej.
  - destruct (next_id_range _ _ _ Hwf Ej) as (Hj & _). eexists _, _. split; [reflexivity|].
    cbn [tid parent t_status regs x_rip x_cs x_rflags x_ss x_rsp d_tid d_pid d_p p_mem].
    split_and!; try done.
    + by destruct cs.
    + by apply upd_only.
    + intros i Hi. by apply test_upd.
  - split; [|done]. by apply next_id_none.
Qed.

Lemma thread_new_correct_witness :
  exists t s', process.thread_new 0x1000 UserCs tt (mkIds (mkP mem_w None) None (Some bm_w)) = (Ret t, s') /\
    tid t = 0 /\ x_ss (regs t) mod 4 = 3.
Proof.
  assert (Hwf : bm_wf bm_w) by apply mem_w_inv.
  pose proof (thread_new_correct 0x1000 UserCs tt (mkIds (mkP mem_w None) None (Some bm_w)) bm_w eq_refl Hwf
    ltac:(vm_compute; reflexivity)) as H.
  assert (E : next_id mem_w bm_w = Some 0) by (vm_compute; reflexivity).
  cbn [d_p p_mem] in H. rewrite E in H.
  destruct H as (t & s' & Hr & Ht & _ & _ & _ & _ & _ & Hss & _).
  exists t, s'. split; [exact Hr|]. split; [exact Ht|exact Hss].
Defined.

(** With two free frames in a row, [init_bitmaps] gives the processes and the
    threads a page of identifiers each, all unused, in different pages. *)
Theorem init_bitmaps_fresh s bm a r :
  p_alloc (d_p s) = Some bm -> pmm_inv (p_mem (d_p s)) bm -> room (p_mem (d_p s)) bm a r -> 2 <= r ->
  exists b1 b2 s', process.init_bitmaps s = (Ret tt, s') /\
    d_pid s' = Some b1 /\ d_tid s' = Some b2 /\ bm_len b1 = PAGE_SIZE /\ bm_len b2 = PAGE_SIZE /\
    (bm_base b1 + PAGE_SIZE <= bm_base b2 \/ bm_base b2 + PAGE_SIZE <= bm_base b1) /\
    forall i, 0 <= i < 8 * PAGE_SIZE ->
      test (p_mem (d_p s')) b1 i = false /\ test (p_mem (d_p s')) b2 i = false.
Proof.
  destruct s as [[m al] opid otid]. cbn [d_p p_alloc p_mem]. intros -> Hi Hroom Hr.
  destruct (calloc_room (mkP m (Some bm)) bm a r 1) as (p & m1 & E1 & F1 & T1 & I1 & R1);
    [done|done|done|lia|]. cbn [p_mem] in *.
  destruct (calloc_room (mkP m1 (Some bm)) bm (a + 1) (r - 1) 1) as (q & m2 & E2 & F2 & T2 & I2 & _);
    [done|done|done|lia|]. cbn [p_mem] in *.
  apply first_fit_bounds in F1 as (Hp & Hpf & Fp & _); [|lia].
  apply first_fit_bounds in F2 as (Hq & Hqf & Fq & _); [|lia].
  pose proof (pi_addr _ _ Hi).
  assert (p <> q) as Hne.
  { intros ->. specialize (Fq q ltac:(lia)). rewrite (tk_bits _ _ _ _ _ T1) in Fq by lia.
    by rewrite decide_True in Fq by lia. }
  exists (mkBitmap (PhysAddr.higher_half (p * PAGE_SIZE)) PAGE_SIZE PAGE_SIZE),
    (mkBitmap (PhysAddr.higher_half (q * PAGE_SIZE)) PAGE_SIZE PAGE_SIZE),
    (mkIds (mkP m2 (Some bm)) (Some (mkBitmap (PhysAddr.higher_half (p * PAGE_SIZE)) PAGE_SIZE PAGE_SIZE))
      (Some (mkBitmap (PhysAddr.higher_half (q * PAGE_SIZE)) PAGE_SIZE PAGE_SIZE))).
  assert (Hbase : forall f, 0 <= f -> f + 1 <= frames bm ->
    bm_base (mkBitmap (PhysAddr.higher_half (f * PAGE_SIZE)) PAGE_SIZE PAGE_SIZE) = f * PAGE_SIZE).
  { intros f ? ?. unfold bm_base. simpl. apply phys_higher_half. unfold PAGE_SIZE in *. lia. }
  split_and!; try done.
  - apply bitmap_new_page in E1, E2.
    unfold process.init_bitmaps, process.on_p, zoom, bind. cbn [d_p]. rewrite E1. cbn [d_p].
    rewrite E2. done.
  - rewrite !Hbase by lia. unfold PAGE_SIZE. lia.
  - intros i Hr'. cbn [d_p p_mem]. split; [|by apply (new_bitmap_clear m1 m2 bm q)].
    rewrite (test_agree m1).
    + by apply (new_bitmap_clear m m1 bm p).
    + split; [done|done|]. rewrite Hbase by lia. simpl. unfold PAGE_SIZE in *. lia.
    + done.
    + intros x Hx. rewrite Hbase in Hx by lia. simpl in Hx. apply (tk_frame _ _ _ _ _ T2).
      * unfold PAGE_SIZE in *. lia.
      * apply (run_off_storage m bm p 1); auto; unfold PAGE_SIZE in *; lia.
Qed.
