(* ===== verification/Console.v ===== *)
(** * [serial.rs] and [video/]: the kernel's output

    The serial writer drives a 16550 through ports; [UartLine] says what the chip
    does, as a state machine.  The video writer draws the glyphs of a PSF font,
    whose bytes are a parameter, into a framebuffer in memory.  A [char] is its
    code point, a string the list of its characters. *)

From S2P Require Import Prelude Memory Io.

(** ** [serial.rs] *)

Definition COM1 : Z := 0x3f8.

Module serial.
Section serial.
Context {H : Type} `{!PortBus H}.

Definition init : M H unit :=
  do! io.outb (COM1 + 1) 0x00 in
  do! io.outb (COM1 + 3) 0x80 in
  do! io.outb (COM1 + 0) 0x03 in
  do! io.outb (COM1 + 1) 0x00 in
  do! io.outb (COM1 + 3) 0x03 in
  do! io.outb (COM1 + 2) 0xC7 in
  io.outb (COM1 + 4) 0x0B.

Definition is_transmit_empty : M H Z :=
  let! b := io.inb (COM1 + 5) in ret (Z.land b 0x20).

(** [while is_transmit_empty() == 0 {}]. *)
Fixpoint wait_empty (fuel : nat) : M H unit :=
  let! e := is_transmit_empty in
  if e =? 0 then match fuel with O => throw OutOfFuel | S fuel' => wait_empty fuel' end
  else ret tt.

Definition send_char (fuel : nat) (c : Z) : M H unit :=
  do! wait_empty fuel in
  io.outb COM1 (as_u u8 c).

Fixpoint print (fuel : nat) (msg : list Z) : M H unit :=
  match msg with
  | [] => ret tt
  | c :: msg' => do! send_char fuel c in print fuel msg'
  end.

(** [Write::write_str], which [write!] and so the [print!] macro end in. *)
Definition write_str (fuel : nat) (s : list Z) : M H (option unit) :=
  do! print fuel s in ret (Some tt).

End serial.
End serial.

(** *** The 16550 *)

(** Divisor latch and its access bit, line control, interrupt enable, FIFO
    control, modem control, the bytes sent, the latest first, and how many more
    reads of the line status show the transmitter as busy. *)
Record uart := mkUart {
  ua_divisor : Z;
  ua_lcr : Z;
  ua_ier : Z;
  ua_fcr : Z;
  ua_mcr : Z;
  ua_sent : list Z;
  ua_busy : nat;
}.

Definition ua_dlab (u : uart) : bool := Z.testbit (ua_lcr u) 7.

(** A write to register [r], other than of a byte to send: registers 0 and 1 are
    the divisor while the access bit is set. *)
Definition uart_set (r v : Z) (u : uart) : uart :=
  if r =? 0 then mkUart (ua_divisor u / 256 * 256 + v) (ua_lcr u) (ua_ier u) (ua_fcr u) (ua_mcr u) (ua_sent u) (ua_busy u)
  else if r =? 1 then
    if ua_dlab u
    then mkUart (v * 256 + ua_divisor u mod 256) (ua_lcr u) (ua_ier u) (ua_fcr u) (ua_mcr u) (ua_sent u) (ua_busy u)
    else mkUart (ua_divisor u) (ua_lcr u) v (ua_fcr u) (ua_mcr u) (ua_sent u) (ua_busy u)
  else if r =? 2 then mkUart (ua_divisor u) (ua_lcr u) (ua_ier u) v (ua_mcr u) (ua_sent u) (ua_busy u)
  else if r =? 3 then mkUart (ua_divisor u) v (ua_ier u) (ua_fcr u) (ua_mcr u) (ua_sent u) (ua_busy u)
  else mkUart (ua_divisor u) (ua_lcr u) (ua_ier u) (ua_fcr u) v (ua_sent u) (ua_busy u).

(** A byte given to the transmitter, which is then busy for [n] reads; and the
    time one read of the line status takes. *)
Definition uart_send (v : Z) (n : nat) (u : uart) : uart :=
  mkUart (ua_divisor u) (ua_lcr u) (ua_ier u) (ua_fcr u) (ua_mcr u) (v :: ua_sent u) n.
Definition uart_wait (u : uart) : uart :=
  mkUart (ua_divisor u) (ua_lcr u) (ua_ier u) (ua_fcr u) (ua_mcr u) (ua_sent u) (pred (ua_busy u)).

(** The chip behind [COM1]: what the data sheet promises for writes of its
    registers, for a byte given to an empty transmitter, and for reads of the
    line status, whose bit 5 says that the transmitter is empty. *)
Class UartLine (H : Type) `{!PortBus H} := {
  ul_uart : H -> uart;
  ul_delay : nat;
  ul_set : forall r v h, 0 <= r <= 4 -> 0 <= v < 256 -> r <> 0 \/ ua_dlab (ul_uart h) = true ->
    exists h', port_out u8 (COM1 + r) v h = (Ret tt, h') /\ ul_uart h' = uart_set r v (ul_uart h);
  ul_send : forall v h, 0 <= v < 256 -> ua_dlab (ul_uart h) = false -> ua_busy (ul_uart h) = 0%nat ->
    exists h' n, port_out u8 COM1 v h = (Ret tt, h') /\ (n <= ul_delay)%nat /\
      ul_uart h' = uart_send v n (ul_uart h);
  ul_status : forall h, exists v h', port_in u8 (COM1 + 5) h = (Ret v, h') /\
    ul_uart h' = uart_wait (ul_uart h) /\
    Z.testbit v 5 = bool_decide (ua_busy (ul_uart h) = 0%nat);
}.

Section serial_props.
Context {H : Type} `{!PortBus H, !UartLine H}.
Implicit Types h : H.

(** The set-up: a divisor of 3, eight bits without parity, FIFOs on. *)
Definition configured (u : uart) : Prop :=
  ua_divisor u = 3 /\ ua_lcr u = 3 /\ ua_fcr u = 0xC7 /\ ua_mcr u = 0x0B.

(** Set-up from any state of the chip. *)
Lemma init_configures h :
  exists h', serial.init h = (Ret tt, h') /\ configured (ul_uart h') /\
    ua_sent (ul_uart h') = ua_sent (ul_uart h) /\ ua_busy (ul_uart h') = ua_busy (ul_uart h) /\
    (ua_dlab (ul_uart h) = false -> ua_ier (ul_uart h') = 0).
Proof.
  destruct (ul_set 1 0 h) as (h1 & E1 & U1); [lia..|].
  destruct (ul_set 3 0x80 h1) as (h2 & E2 & U2); [lia..|].
  destruct (ul_set 0 3 h2) as (h3 & E3 & U3); [lia|lia|right; by rewrite U2|].
  destruct (ul_set 1 0 h3) as (h4 & E4 & U4); [lia..|].
  destruct (ul_set 3 3 h4) as (h5 & E5 & U5); [lia..|].
  destruct (ul_set 2 0xC7 h5) as (h6 & E6 & U6); [lia..|].
  destruct (ul_set 4 0x0B h6) as (h7 & E7 & U7); [lia..|].
  exists h7. split; [|].
  - unfold serial.init, io.outb. by rewrite (bind_run _ _ _ _ _ E1), (bind_run _ _ _ _ _ E2),
      (bind_run _ _ _ _ _ E3), (bind_run _ _ _ _ _ E4), (bind_run _ _ _ _ _ E5), (bind_run _ _ _ _ _ E6).
  - destruct (ua_dlab (ul_uart h)) eqn:Hd; unfold uart_set in *; rewrite Hd in U1; cbn in U1;
      rewrite U1 in U2; cbn in U2; rewrite U2 in U3; cbn in U3; rewrite U3 in U4; cbn in U4;
      rewrite U4 in U5; cbn in U5; rewrite U5 in U6; cbn in U6; rewrite U6 in U7; cbn in U7;
      rewrite U7; unfold configured; cbn; split_and!; try done;
      Z.div_mod_to_equations; lia.
Qed.

(** The wait ends with an empty transmitter. *)
Lemma wait_empty_ends : forall fuel h, (ua_busy (ul_uart h) <= fuel)%nat ->
  exists h', serial.wait_empty fuel h = (Ret tt, h') /\ ua_busy (ul_uart h') = 0%nat /\
    ua_lcr (ul_uart h') = ua_lcr (ul_uart h) /\ ua_sent (ul_uart h') = ua_sent (ul_uart h).
Proof.
  assert (Hbit : forall v, (Z.land (as_u u8 v) 0x20 =? 0) = negb (Z.testbit v 5)).
  { intros v. change 0x20 with (Z.shiftl 1 5). rewrite <- (negb_involutive (_ =? 0)), land_bit_testbit by lia.
    unfold as_u, u8. by rewrite Z.mod_pow2_bits_low by lia. }
  induction fuel as [|fuel IH]; intros h Hf;
    destruct (ul_status h) as (v & h1 & E & Hu & Hb);
    cbn [serial.wait_empty]; rewrite (bind_run _ _ _ (Z.land (as_u u8 v) 0x20) h1)
      by (unfold serial.is_transmit_empty, io.inb, bind; by rewrite E);
    rewrite Hbit, Hb; case_bool_decide as H0; cbn [negb].
  - exists h1. rewrite Hu. cbn. split_and!; try done. by rewrite H0.
  - lia.
  - exists h1. rewrite Hu. cbn. split_and!; try done. by rewrite H0.
  - destruct (IH h1) as (h' & E' & Hb' & Hl & Hs'); [rewrite Hu; cbn; lia|].
    exists h'. rewrite Hl, Hs', Hu. by split_and!.
Qed.

Lemma print_sends fuel msg : forall h,
  (ul_delay <= fuel)%nat -> (ua_busy (ul_uart h) <= fuel)%nat -> ua_dlab (ul_uart h) = false ->
  exists h', serial.print fuel msg h = (Ret tt, h') /\
    ua_sent (ul_uart h') = rev (map (as_u u8) msg) ++ ua_sent (ul_uart h) /\
    ua_dlab (ul_uart h') = false.
Proof.
  induction msg as [|c msg IH]; intros h Hf Hb Hd; [by exists h|].
  destruct (wait_empty_ends fuel h) as (h1 & E1 & B1 & L1 & S1); [done|].
  assert (D1 : ua_dlab (ul_uart h1) = false) by (unfold ua_dlab in *; by rewrite L1).
  destruct (ul_send (as_u u8 c) h1) as (h2 & n & E2 & Hn & U2); [apply Z.mod_pos_bound; lia|done|done|].
  destruct (IH h2) as (h' & E' & Hs & Hd'); [done|rewrite U2; cbn; lia|by rewrite U2|].
  exists h'. split_and!; [| |done].
  - cbn [serial.print]. rewrite (bind_run _ _ _ tt h2); [done|].
    unfold serial.send_char. by rewrite (bind_run _ _ _ _ _ E1).
  - rewrite Hs, U2. cbn. by rewrite S1, <- app_assoc.
Qed.

(** [SerialWriter::init] then [print]: the line is set up and every character of the
    message is sent once and in order, truncated to a byte; the waits end. *)
Theorem serial_print_sends fuel msg h :
  (ul_delay <= fuel)%nat -> (ua_busy (ul_uart h) <= fuel)%nat ->
  exists h1 h', serial.init h = (Ret tt, h1) /\ configured (ul_uart h1) /\
    serial.print fuel msg h1 = (Ret tt, h') /\
    rev (ua_sent (ul_uart h')) = rev (ua_sent (ul_uart h)) ++ map (as_u u8) msg.
Proof.
  intros Hf Hb. destruct (init_configures h) as (h1 & E1 & C1 & S1 & B1 & _).
  destruct (print_sends fuel msg h1 Hf ltac:(by rewrite B1)) as (h' & E' & S' & _).
  { destruct C1 as (_ & Hl & _). unfold ua_dlab. by rewrite Hl. }
  exists h1, h'. split_and!; try done. by rewrite S', rev_app_distr, rev_involutive, S1.
Qed.

End serial_props.

(** A chip that is busy for two reads after every byte. *)
#[export] Instance uart_ports : PortBus uart := {
  port_in w p := fun u => (Ret (if p =? COM1 + 5 then if (ua_busy u =? 0)%nat then 0x60 else 0 else 0),
                           if p =? COM1 + 5 then uart_wait u else u);
  port_out w p v := fun u =>
    (Ret tt, if (p =? COM1) && negb (ua_dlab u) then uart_send v 2 u else uart_set (p - COM1) v u);
}.

#[export] Instance uart_line : UartLine uart.
Proof.
  refine {| ul_uart := id; ul_delay := 2 |}.
  - intros r v h Hr Hv Hd. eexists. split; [reflexivity|]. unfold id in *. cbn [port_out uart_ports].
    replace (COM1 + r - COM1) with r by lia.
    destruct (COM1 + r =? COM1) eqn:E; [|done]. destruct Hd as [Hd | ->]; [lia|done].
  - intros v h Hv Hd Hb. exists (uart_send v 2 h), 2%nat. split_and!; [|lia|done].
    unfold id in *. cbn [port_out uart_ports]. by rewrite Z.eqb_refl, Hd.
  - intros h. eexists _, (uart_wait h). split; [reflexivity|]. split; [done|]. unfold id. cbn.
    destruct (ua_busy h); done.
Defined.

Lemma serial_print_sends_witness :
  exists h1 h', serial.init (mkUart 0 0x80 7 0 0 [] 1) = (Ret tt, h1) /\
    serial.print 2 [72; 105; 0x263a] h1 = (Ret tt, h') /\ rev (ua_sent h') = [72; 105; 0x3a].
Proof.
  destruct (serial_print_sends 2 [72; 105; 0x263a] (mkUart 0 0x80 7 0 0 [] 1)) as (h1 & h' & E1 & _ & E2 & Hs).
  - apply le_n.
  - cbn. lia.
  - exists h1, h'. split; [exact E1|]. split; [exact E2|exact Hs].
Defined.

(** ** [video/fonts/mod.rs] *)

Definition PSF_MAGIC : Z := 0x864ab572.

(** The fields of [PsfHeader] that the code reads. *)
Module PsfHeader.
Definition magic : nat := 0.
Definition hdr_size : nat := 4 + 4.
Definition height : nat := 6 * 4.
Definition width : nat := 7 * 4.
End PsfHeader.

Record Font := mkFont { f_bitmap : list Z; f_height : Z; f_width : Z }.

(** A [u32] field of the header. *)
Definition psf_field (bytes : list Z) (off : nat) : Z := le_val (take 4 (drop off bytes)).

(** [Font::new]; [bytes] are those of the file [terminus.psf]. *)
Definition font_new {S} (bytes : list Z) : M S Font :=
  if negb (psf_field bytes PsfHeader.magic =? PSF_MAGIC) then throw Panicked
  else if Z.of_nat (length bytes) <? psf_field bytes PsfHeader.hdr_size then throw OutOfBounds
  else ret (mkFont (drop (Z.to_nat (psf_field bytes PsfHeader.hdr_size)) bytes)
              (psf_field bytes PsfHeader.height) (psf_field bytes PsfHeader.width)).

(** ** [video/mod.rs] *)

Record Video := mkVideo {
  cursor_x : Z;
  cursor_y : Z;
  fb_addr : Z;
  fb_height : Z;
  fb_width : Z;
  fb_pitch : Z;
  v_font : Font;
}.

Definition at_cursor (v : Video) (x y : Z) : Video :=
  mkVideo x y (fb_addr v) (fb_height v) (fb_width v) (fb_pitch v) (v_font v).

(** The writer and memory. *)
Definition vid : Type := Video * mem.

Module video.

(** [Video::new]; the arguments are the fields of the bootloader's tag. *)
Definition new {S} (bytes : list Z)
    (framebuffer_addr framebuffer_height framebuffer_width framebuffer_pitch : Z) : M S Video :=
  let! font := font_new bytes in
  ret (mkVideo 10 10 framebuffer_addr framebuffer_height framebuffer_width framebuffer_pitch font).

Definition on_mem {A} : M mem A -> M vid A := zoom snd (fun m s => (fst s, m)).
Definition set_cursor (x y : Z) : M vid unit := modify (fun s => (at_cursor (fst s) x y, snd s)).

(** The body of the inner loop. *)
Definition dot (v : Video) (index col color row : Z) : M vid unit :=
  let! k := uadd u32 index col in
  let! b := match f_bitmap (v_font v) !! Z.to_nat k with Some b => ret b | None => throw OutOfBounds end in
  let! sh := usub u32 7 row in
  if Z.land (Z.shiftr b sh) 1 =? 1 then
    let! x := uadd usize (cursor_x v) row in
    let! y := uadd usize (cursor_y v) col in
    let! o := umul usize y (fb_pitch v) in
    let! o := udiv o 4 in
    let! offset := uadd usize x o in
    on_mem (store32 (fb_addr v + 4 * offset) color)
  else ret tt.

Definition putc (character color : Z) : M vid unit :=
  let! v := gets fst in
  let font := v_font v in
  if character =? 10 then
    let! dy := uadd usize (f_height font) 2 in
    let! y := uadd usize (cursor_y v) dy in
    set_cursor 10 y
  else
    let! index := umul u32 character (f_height font) in
    do! for_range 0 (f_height font) (fun col =>
          for_range 0 (f_width font) (dot v index col color)) in
    let! char_width := uadd usize (f_width font) 2 in
    let! x := uadd usize (cursor_x v) char_width in
    do! set_cursor x (cursor_y v) in
    let! e := uadd usize x char_width in
    if fb_width v <=? e then
      let! dy := uadd usize (f_height font) 2 in
      let! y := uadd usize (cursor_y v) dy in
      set_cursor 10 y
    else ret tt.

Fixpoint print (msg : list Z) : M vid unit :=
  match msg with
  | [] => ret tt
  | c :: msg' => do! putc c 0xffffff in print msg'
  end.

End video.

(** ** What [putc] draws *)

Section drawing.
Context (v : Video) (color : Z).
Local Abbreviation P := (fb_pitch v / 4).
Local Abbreviation fb := (phys_of (fb_addr v)).
Local Abbreviation fw := (f_width (v_font v)).
Local Abbreviation fh := (f_height (v_font v)).

(** A framebuffer in memory with whole pixels per line, and an 8 pixel font. *)
Record screen : Prop := {
  sc_pitch : fb_pitch v mod 4 = 0 /\ 0 < fb_pitch v < 2 ^ 16;
  sc_height : 0 <= fb_height v < 2 ^ 16;
  sc_room : fb + fb_pitch v * fb_height v <= 2 ^ 47;
  sc_font : 0 <= fw <= 8 /\ 0 <= fh < 2 ^ 16;
}.

(** Pixel [x], [y] of the screen. *)
Definition pixel (m : mem) (x y : Z) : Z := rd32 m (fb + 4 * (x + y * P)).

(** Whether the glyph at [index] has the dot [row], [col]. *)
Definition lit (index row col : Z) : bool :=
  Z.testbit (default 0 (f_bitmap (v_font v) !! Z.to_nat (index + col))) (7 - row).

Context (Hs : screen) (Hc : 0 <= color < 2 ^ 32).

Lemma pixel_apart x y x' y' :
  0 <= x < P -> 0 <= x' < P -> x + y * P = x' + y' * P -> x = x' /\ y = y'.
Proof.
  intros Hx Hx' E.
  assert (x = x') as ->.
  { rewrite <- (Z.mod_small x P), <- (Z.mod_small x' P) by done.
    rewrite <- (Z_mod_plus_full x y P), <- (Z_mod_plus_full x' y' P). by f_equal. }
  split; [done|]. nia.
Qed.

(** A store to one pixel. *)
Lemma pixel_store m x y x' y' :
  0 <= x < P -> 0 <= y -> 0 <= x' < P -> 0 <= y' ->
  pixel (wr32 m (fb + 4 * (x + y * P)) color) x' y' =
    if decide (x' = x /\ y' = y) then color else pixel m x' y'.
Proof.
  intros Hx Hy Hx' Hy'. unfold pixel. case_decide as E.
  - destruct E as [-> ->]. by apply rd32_wr32_eq.
  - apply rdn_wrn_ne. cbn. destruct (Z.lt_trichotomy (x + y * P) (x' + y' * P)) as [|[E'|]]; [lia| |lia].
    exfalso. apply E. by destruct (pixel_apart x y x' y').
Qed.

Lemma pitch_pixels : fb_pitch v = 4 * P /\ 0 < P.
Proof. destruct Hs as [[H1 H2] _ _ _]. pose proof (Z.div_mod (fb_pitch v) 4). lia. Qed.

Section glyph.
Context (index : Z) (m : mem).
Context (Hi : 0 <= index) (Hg : index + fh <= Z.of_nat (length (f_bitmap (v_font v)))) (Hi' : index + fh < 2 ^ 32).
Context (Hx : 0 <= cursor_x v /\ cursor_x v + fw <= P) (Hy : 0 <= cursor_y v /\ cursor_y v + fh <= fb_height v).

(** One step of the inner loop. *)
Lemma dot_run col row m' :
  0 <= col < fh -> 0 <= row < fw ->
  video.dot v index col color row (v, m') = (Ret tt, (v,
    if lit index row col
    then wr32 m' (fb + 4 * (cursor_x v + row + (cursor_y v + col) * P)) color else m')).
Proof.
  intros Hcol Hrow. destruct Hs as [Hp Hh Hr [Hf1 Hf2]]. destruct pitch_pixels as [EP HP].
  unfold video.dot, uadd, usub, umul.
  rewrite (bind_run _ _ _ (index + col) (v, m')) by (apply chk_ok; unfold u32; lia).
  destruct (lookup_lt_is_Some_2 (f_bitmap (v_font v)) (Z.to_nat (index + col))) as [b Eb]; [lia|].
  rewrite (bind_run _ _ _ b (v, m')) by by rewrite Eb.
  rewrite (bind_run _ _ _ (7 - row) (v, m')) by (apply chk_ok; unfold u32; lia).
  unfold lit. rewrite Eb. change (default 0 (Some b)) with b.
  assert ((Z.land (Z.shiftr b (7 - row)) 1 =? 1) = Z.testbit b (7 - row)) as ->.
  { change 1 with (Z.ones 1) at 1. rewrite Z.land_ones by lia. change (2 ^ 1) with 2.
    rewrite Zmod_odd, <- Z.bit0_odd, Z.shiftr_spec, Z.add_0_l by lia. by destruct (Z.testbit b _). }
  destruct (Z.testbit b (7 - row)); [|done].
  rewrite (bind_run _ _ _ (cursor_x v + row) (v, m')) by (apply chk_ok; unfold usize; lia).
  rewrite (bind_run _ _ _ (cursor_y v + col) (v, m')) by (apply chk_ok; unfold usize; lia).
  rewrite (bind_run _ _ _ ((cursor_y v + col) * fb_pitch v) (v, m')) by (apply chk_ok; unfold usize; nia).
  rewrite (bind_run _ _ _ ((cursor_y v + col) * P) (v, m')).
  2:{ unfold udiv. cbn. unfold ret. do 2 f_equal. rewrite EP at 1. rewrite Z.mul_assoc, (Z.mul_comm _ 4), <- Z.mul_assoc.
      rewrite (Z.mul_comm 4), Z.div_mul by lia. done. }
  rewrite (bind_run _ _ _ (cursor_x v + row + (cursor_y v + col) * P) (v, m'))
    by (apply chk_ok; unfold usize; nia).
  unfold video.on_mem, zoom, store32, modify. cbn [fst snd].
  rewrite phys_of_add; [done|nia|nia].
Qed.

(** The loops: the dots in [d] are drawn, nothing else. *)
Definition drawn (d : Z -> Z -> bool) (s : vid) : Prop :=
  fst s = v /\ only m (snd s) fb (fb_pitch v * fb_height v) /\
  forall x y, 0 <= x < P -> 0 <= y < fb_height v ->
    pixel (snd s) x y =
      if d (x - cursor_x v) (y - cursor_y v) && lit index (x - cursor_x v) (y - cursor_y v)
      then color else pixel m x y.

Definition box (c r : Z) (row col : Z) : bool :=
  (0 <=? row) && (0 <=? col) &&
  ((row <? fw) && (col <? c) || (col =? c) && (row <? r)).

Lemma dot_drawn col row s :
  0 <= col < fh -> 0 <= row < fw -> drawn (box col row) s ->
  total (video.dot v index col color row) s (fun _ s' => drawn (box col (row + 1)) s').
Proof.
  intros Hcol Hrow (Hv & Ho & Hp). destruct s as [v' m']. cbn in Hv. subst v'.
  destruct Hs as [Hpi Hh Hr [Hf1 Hf2]]. destruct pitch_pixels as [EP HP].
  eapply wp_eq; [by apply dot_run|]. cbn [fst snd] in *. split; [done|].
  assert (Hin : fb <= fb + 4 * (cursor_x v + row + (cursor_y v + col) * P) /\
                fb + 4 * (cursor_x v + row + (cursor_y v + col) * P) + 4 <= fb + fb_pitch v * fb_height v) by nia.
  destruct (lit index row col) eqn:El; cbn [fst snd]; split.
  - eapply only_trans; [exact Ho|]. eapply only_wider; [apply (wrn_only 4)|cbn; lia|cbn; lia].
  - intros x y Hx' Hy'. rewrite pixel_store by lia. rewrite Hp by done. case_decide as E.
    + destruct E as [-> ->]. replace (cursor_x v + row - cursor_x v) with row by lia.
      replace (cursor_y v + col - cursor_y v) with col by lia. rewrite El.
      unfold box. replace (0 <=? row) with true by lia. replace (0 <=? col) with true by lia.
      replace (col =? col) with true by lia. replace (row <? row + 1) with true by lia.
      by rewrite orb_true_r.
    + assert (box col row (x - cursor_x v) (y - cursor_y v) = box col (row + 1) (x - cursor_x v) (y - cursor_y v)) as ->
        by (unfold box; lia). done.
  - done.
  - intros x y Hx' Hy'. rewrite Hp by done.
    destruct (decide (x = cursor_x v + row /\ y = cursor_y v + col)) as [[-> ->]|E].
    + replace (cursor_x v + row - cursor_x v) with row by lia.
      replace (cursor_y v + col - cursor_y v) with col by lia. by rewrite El, !andb_false_r.
    + assert (box col row (x - cursor_x v) (y - cursor_y v) = box col (row + 1) (x - cursor_x v) (y - cursor_y v)) as ->
        by (unfold box; lia). done.
Qed.

Lemma glyph_drawn :
  total (for_range 0 fh (fun col => for_range 0 fw (video.dot v index col color))) (v, m)
    (fun _ s' => drawn (box fh 0) s').
Proof.
  destruct Hs as [Hpi Hh Hr [Hf1 Hf2]].
  assert (Hext : forall c r c' r' s, (forall row col, box c r row col = box c' r' row col) ->
    drawn (box c r) s -> drawn (box c' r') s).
  { intros c r c' r' s E (H1 & H2 & H3). split_and!; [done|done|]. intros x y ? ?. by rewrite H3, E. }
  apply wp_for_range with (I := fun c s => drawn (box c 0) s); [lia| |].
  - split_and!; [done|apply only_refl|]. intros x y Hx' Hy'.
    replace (box 0 0 _ _) with false; [done|]. unfold box. lia.
  - intros col s Hcol Hd. eapply wp_total.
    + apply wp_for_range with (I := fun r s => drawn (box col r) s); [lia|exact Hd|].
      intros row s' Hrow Hd'. by apply dot_drawn.
    + intros [] s'. apply Hext. intros row c. unfold box. lia.
Qed.

End glyph.

(** [putc] of a character of the font at a place on the screen: the dots of its
    glyph get the colour, every other pixel and all memory outside the
    framebuffer stay as they were. *)
Theorem putc_draws_glyph c m :
  c <> 10 -> 0 <= c -> c * fh + fh <= Z.of_nat (length (f_bitmap (v_font v))) -> c * fh + fh < 2 ^ 32 ->
  0 <= cursor_x v -> cursor_x v + fw <= P -> 0 <= cursor_y v -> cursor_y v + fh <= fb_height v ->
  exists x' y' m', video.putc c color (v, m) = (Ret tt, (at_cursor v x' y', m')) /\
    (if fb_width v <=? cursor_x v + 2 * (fw + 2) then x' = 10 /\ y' = cursor_y v + fh + 2
     else x' = cursor_x v + fw + 2 /\ y' = cursor_y v) /\
    only m m' fb (fb_pitch v * fb_height v) /\
    forall x y, 0 <= x < P -> 0 <= y < fb_height v ->
      pixel m' x y =
        if bool_decide (0 <= x - cursor_x v < fw /\ 0 <= y - cursor_y v < fh)
           && lit (c * fh) (x - cursor_x v) (y - cursor_y v)
        then color else pixel m x y.
Proof.
  intros Hc10 Hc0 Hg Hg' Hx1 Hx2 Hy1 Hy2. destruct Hs as [Hpi Hh Hr [Hf1 Hf2]].
  destruct pitch_pixels as [EP HP].
  destruct (total_inv _ _ _ (glyph_drawn (c * fh) m ltac:(nia) Hg Hg' (conj Hx1 Hx2) (conj Hy1 Hy2)))
    as ([] & [v1 m1] & E & Hv & Ho & Hp). cbn in Hv, Ho, Hp. subst v1.
  assert (Hfin : forall x y, 0 <= x < P -> 0 <= y < fb_height v ->
    pixel m1 x y = if bool_decide (0 <= x - cursor_x v < fw /\ 0 <= y - cursor_y v < fh)
      && lit (c * fh) (x - cursor_x v) (y - cursor_y v) then color else pixel m x y).
  { intros x y Hx Hy. rewrite Hp by done.
    replace (box fh 0 _ _) with (bool_decide (0 <= x - cursor_x v < fw /\ 0 <= y - cursor_y v < fh)); [done|].
    unfold box. case_bool_decide; lia. }
  unfold video.putc, uadd, umul, bind at 1, gets. cbn [fst].
  replace (c =? 10) with false by lia.
  rewrite (bind_run _ _ _ (c * fh) (v, m)) by (apply chk_ok; unfold u32; nia).
  rewrite (bind_run _ _ _ _ _ E).
  rewrite (bind_run _ _ _ (fw + 2) (v, m1)) by (apply chk_ok; unfold usize; lia).
  rewrite (bind_run _ _ _ (cursor_x v + (fw + 2)) (v, m1)) by (apply chk_ok; unfold usize; lia).
  unfold video.set_cursor at 1, bind at 1, modify. cbn [fst snd].
  rewrite (bind_run _ _ _ (cursor_x v + (fw + 2) + (fw + 2)) (at_cursor v (cursor_x v + (fw + 2)) (cursor_y v), m1))
    by (apply chk_ok; unfold usize; lia).
  replace (cursor_x v + (fw + 2) + (fw + 2)) with (cursor_x v + 2 * (fw + 2)) by lia.
  case_bool.
  - erewrite bind_run by (apply chk_ok; unfold usize; lia).
    erewrite bind_run by (apply chk_ok; unfold usize; lia).
    exists 10, (cursor_y v + fh + 2), m1. split_and!; try done.
    cbn [cursor_y at_cursor]. by replace (cursor_y v + (fh + 2)) with (cursor_y v + fh + 2) by lia.
  - exists (cursor_x v + fw + 2), (cursor_y v), m1. split_and!; try done.
    by replace (cursor_x v + (fw + 2)) with (cursor_x v + fw + 2) by lia.
Qed.

End drawing.
