(* ===== verification/Spinlock.v ===== *)
(** * The spin lock

    [spinlock.rs]: the operations on one lock, and an interleaving semantics in
    which several processors run

      [let v = l.lock(); *v = f( *v ); l.unlock();]

    again and again.  Its steps are the atomic accesses of the code (one
    [compare_exchange] per turn of the loop of [lock], one [store] in [unlock])
    and the load and the store of the protected value, which are separate.  The
    interleavings are sequentially consistent: [Acquire] on a successful exchange
    and [Release] on the store order the accesses to the value between them. *)

From S2P Require Import Prelude.

Record Spinlock (T : Type) := mkSpin { locked : bool; value : T }.
Arguments mkSpin {T} _ _.
Arguments locked {T} _.
Arguments value {T} _.

(** [Result<bool, bool>] of [compare_exchange]. *)
Inductive exchange := Exchanged (old : bool) | Unchanged (old : bool).

Module spinlock.
Section spinlock.
Context {T : Type}.
Abbreviation L := (M (Spinlock T)).

Definition new (v : T) : Spinlock T := mkSpin false v.

(** [AtomicBool::compare_exchange]. *)
Definition compare_exchange (current new : bool) : L exchange := fun l =>
  if bool_decide (locked l = current) then (Ret (Exchanged (locked l)), mkSpin new (value l))
  else (Ret (Unchanged (locked l)), l).

(** [lock]: at most [fuel] more turns of the loop.  The reference it returns is
    to the field [value]. *)
Fixpoint lock (fuel : nat) : L unit :=
  let! r := compare_exchange false true in
  match r with
  | Exchanged _ => ret tt
  | Unchanged _ =>
      match fuel with
      | O => throw OutOfFuel
      | S fuel' => lock fuel'
      end
  end.

Definition unlock : L unit := modify (fun l => mkSpin false (value l)).

End spinlock.
End spinlock.

(** ** Processors that share a lock *)

Section threads.
Context {T : Type} (f : T -> T).
Implicit Types (l : Spinlock T).

(** Where a processor is: outside; in the loop of [lock]; with the lock, before
    the load; with the lock and the value it loaded; with the lock, after its
    store. *)
Inductive pc := Outside | Trying | Entered | Loaded (v : T) | Stored.

Definition holds (p : pc) : bool :=
  match p with Entered | Loaded _ | Stored => true | Outside | Trying => false end.

(** The lock, the processors, and the number of stores so far. *)
Record conf := mkConf { c_lock : Spinlock T; c_pcs : list pc; c_count : nat }.

Definition set_pc (i : nat) (p : pc) (c : conf) (l : Spinlock T) (n : nat) : conf :=
  mkConf l (<[i := p]> (c_pcs c)) n.

Inductive step (i : nat) (c : conf) : conf -> Prop :=
| st_call : c_pcs c !! i = Some Outside ->
    step i c (set_pc i Trying c (c_lock c) (c_count c))
| st_acquire old l : c_pcs c !! i = Some Trying ->
    spinlock.compare_exchange false true (c_lock c) = (Ret (Exchanged old), l) ->
    step i c (set_pc i Entered c l (c_count c))
| st_spin old l : c_pcs c !! i = Some Trying ->
    spinlock.compare_exchange false true (c_lock c) = (Ret (Unchanged old), l) ->
    step i c (set_pc i Trying c l (c_count c))
| st_load : c_pcs c !! i = Some Entered ->
    step i c (set_pc i (Loaded (value (c_lock c))) c (c_lock c) (c_count c))
| st_store v : c_pcs c !! i = Some (Loaded v) ->
    step i c (set_pc i Stored c (mkSpin (locked (c_lock c)) (f v)) (S (c_count c)))
| st_release l : c_pcs c !! i = Some Stored ->
    spinlock.unlock (c_lock c) = (Ret tt, l) ->
    step i c (set_pc i Outside c l (c_count c)).

Definition any_step (c c' : conf) : Prop := exists i, step i c c'.

Definition start (n : nat) (v : T) : conf := mkConf (spinlock.new v) (replicate n Outside) 0.

(** ** The invariant *)

(** The flag says whether some processor holds the lock, no two do, and a value
    that was loaded is still the current one. *)
Record lock_inv (v0 : T) (c : conf) : Prop := {
  li_free : locked (c_lock c) = false -> forall i p, c_pcs c !! i = Some p -> holds p = false;
  li_held : locked (c_lock c) = true -> exists i p, c_pcs c !! i = Some p /\ holds p = true;
  li_one : forall i j p q, c_pcs c !! i = Some p -> c_pcs c !! j = Some q ->
    holds p = true -> holds q = true -> i = j;
  li_loaded : forall i v, c_pcs c !! i = Some (Loaded v) -> v = value (c_lock c);
  li_value : value (c_lock c) = Nat.iter (c_count c) f v0;
}.

Lemma lock_inv_start n v0 : lock_inv v0 (start n v0).
Proof.
  assert (Hout : forall i p, replicate n Outside !! i = Some p -> p = Outside)
    by (intros i p [-> _]%lookup_replicate_1; done).
  split; simpl.
  - by intros _ i p ->%Hout.
  - done.
  - by intros i j p q ->%Hout.
  - by intros i v ?%Hout.
  - done.
Qed.

(** Everything but the store of a processor that already holds the lock, or goes
    on not holding it, is one argument: its own entry changes, the lock does not. *)
Lemma lock_inv_same v0 c i p p' :
  lock_inv v0 c -> c_pcs c !! i = Some p -> holds p' = holds p ->
  (forall v, p' = Loaded v -> v = value (c_lock c)) ->
  lock_inv v0 (set_pc i p' c (c_lock c) (c_count c)).
Proof.
  intros [H1 H2 H3 H4 H5] Hp Hh Hl. pose proof (lookup_lt_Some _ _ _ Hp) as Hlt.
  assert (Hold : forall j q, <[i := p']> (c_pcs c) !! j = Some q ->
    exists q', c_pcs c !! j = Some q' /\ holds q' = holds q).
  { intros j q. rewrite list_lookup_insert_Some. intros [(<- & <- & _)|[_ ?]]; eauto. }
  split; simpl.
  - intros Hf j q (q' & Hq & <-)%Hold. by eapply H1.
  - intros Ht. destruct (H2 Ht) as (j & q & Hq & Hhq). destruct (decide (i = j)) as [<-|Hne].
    + exists i, p'. rewrite list_lookup_insert_eq by done. split; [done|]. congruence.
    + exists j, q. by rewrite list_lookup_insert_ne.
  - intros j j' q q' (? & ? & <-)%Hold (? & ? & <-)%Hold. by eapply H3.
  - intros j v. rewrite list_lookup_insert_Some. intros [(<- & E & _)|[_ ?]]; eauto.
  - done.
Qed.

Lemma compare_exchange_eq l :
  spinlock.compare_exchange false true l =
    if locked l then (Ret (Unchanged true), l) else (Ret (Exchanged false), mkSpin true (value l)).
Proof. by destruct l as [[] v]. Qed.

(** The steps of a processor in the loop, taken alone, are [lock]: it ends having
    entered, or is still in the loop when the bound is reached. *)
Lemma lock_is_steps i fuel : forall c, c_pcs c !! i = Some Trying ->
  match spinlock.lock fuel (c_lock c) with
  | (Ret _, l) => rtc (step i) c (set_pc i Entered c l (c_count c))
  | (Fault _, l) => rtc (step i) c (set_pc i Trying c l (c_count c))
  end.
Proof.
  induction fuel as [|fuel IH]; intros c Hi; cbn [spinlock.lock]; unfold bind at 1;
    destruct (spinlock.compare_exchange false true (c_lock c)) as [r l] eqn:E;
    pose proof E as E'; rewrite compare_exchange_eq in E'; destruct (locked (c_lock c));
    injection E' as <- <-; cbn.
  - by eapply rtc_once, st_spin.
  - by eapply rtc_once, st_acquire.
  - by apply IH.
  - by eapply rtc_once, st_acquire.
Qed.

(** Taking a free lock. *)
Lemma lock_inv_acquire v0 c i :
  lock_inv v0 c -> c_pcs c !! i = Some Trying -> locked (c_lock c) = false ->
  lock_inv v0 (set_pc i Entered c (mkSpin true (value (c_lock c))) (c_count c)).
Proof.
  intros [H1 H2 H3 H4 H5] Hp Hf. pose proof (lookup_lt_Some _ _ _ Hp) as Hlt.
  assert (Honly : forall j q, <[i := Entered]> (c_pcs c) !! j = Some q -> holds q = true -> j = i).
  { intros j q. rewrite list_lookup_insert_Some. intros [(<- & _)|[_ Hq]] Hh; [done|].
    by rewrite (H1 Hf j q Hq) in Hh. }
  split; simpl.
  - done.
  - intros _. exists i, Entered. by rewrite list_lookup_insert_eq.
  - intros j j' q q' Hq Hq' Hh Hh'. by rewrite (Honly _ _ Hq Hh), (Honly _ _ Hq' Hh').
  - intros j v. rewrite list_lookup_insert_Some. intros [(_ & [=] & _)|[_ ?]]; eauto.
  - done.
Qed.

(** The store: no other processor has a loaded value. *)
Lemma lock_inv_store v0 c i v :
  lock_inv v0 c -> c_pcs c !! i = Some (Loaded v) ->
  lock_inv v0 (set_pc i Stored c (mkSpin (locked (c_lock c)) (f v)) (S (c_count c))).
Proof.
  intros Hi Hp. pose proof (lock_inv_same _ _ _ _ Stored Hi Hp eq_refl) as [H1 H2 H3 _ _]; [done|].
  destruct Hi as [_ _ G3 G4 G5]. split; simpl in *; [done..| |].
  - intros j w. rewrite list_lookup_insert_Some. intros [(_ & [=] & _)|[Hne Hj]].
    by destruct Hne; eapply G3.
  - by rewrite (G4 _ _ Hp), G5.
Qed.

Lemma lock_inv_release v0 c i p :
  lock_inv v0 c -> c_pcs c !! i = Some p -> holds p = true ->
  lock_inv v0 (set_pc i Outside c (mkSpin false (value (c_lock c))) (c_count c)).
Proof.
  intros [H1 H2 H3 H4 H5] Hp Hh.
  assert (Hno : forall j q, <[i := Outside]> (c_pcs c) !! j = Some q -> holds q = false).
  { intros j q. rewrite list_lookup_insert_Some. intros [(_ & <- & _)|[Hne Hq]]; [done|].
    destruct (holds q) eqn:Hhq; [|done]. by destruct Hne; eapply H3. }
  split; simpl.
  - by intros _ j q ?%Hno.
  - done.
  - intros j j' q q' Hq _ Hhq _. by rewrite (Hno _ _ Hq) in Hhq.
  - by intros j v ?%Hno.
  - done.
Qed.

Lemma lock_inv_step v0 c c' : lock_inv v0 c -> any_step c c' -> lock_inv v0 c'.
Proof.
  intros Hi [i Hs].
  destruct Hs as [Hp|old l Hp E|old l Hp E|Hp|v Hp|l Hp E].
  - by apply (lock_inv_same _ _ _ Outside).
  - rewrite compare_exchange_eq in E. destruct (locked (c_lock c)) eqn:Hl; simplify_eq.
    by apply lock_inv_acquire.
  - rewrite compare_exchange_eq in E. destruct (locked (c_lock c)); simplify_eq.
    by apply (lock_inv_same _ _ _ Trying).
  - apply (lock_inv_same _ _ _ Entered); try done. by intros v [= ->].
  - by apply lock_inv_store.
  - injection E as <-. by apply (lock_inv_release _ _ _ Stored).
Qed.

Lemma lock_inv_rtc v0 c c' : lock_inv v0 c -> rtc any_step c c' -> lock_inv v0 c'.
Proof. intros Hi Hr. induction Hr; [done|]. eauto using lock_inv_step. Qed.

(** ** Progress *)

(** The processor that holds the lock gets to the release by its own steps. *)
Lemma holder_releases v0 c i p :
  lock_inv v0 c -> c_pcs c !! i = Some p -> holds p = true ->
  exists c', rtc any_step c c' /\ c_pcs c' = <[i := Outside]> (c_pcs c) /\ locked (c_lock c') = false.
Proof.
  intros Hi Hp Hh. pose proof (lookup_lt_Some _ _ _ Hp) as Hlt.
  assert (Hrel : forall c, (i < length (c_pcs c))%nat -> c_pcs c !! i = Some Stored ->
    exists c', rtc any_step c c' /\ c_pcs c' = <[i := Outside]> (c_pcs c) /\ locked (c_lock c') = false).
  { intros d Hd Hs. eexists. split; [apply rtc_once; exists i; by eapply st_release|]. done. }
  assert (Hsto : forall c v, (i < length (c_pcs c))%nat -> c_pcs c !! i = Some (Loaded v) ->
    exists c', rtc any_step c c' /\ c_pcs c' = <[i := Outside]> (c_pcs c) /\ locked (c_lock c') = false).
  { intros d v Hd Hs. destruct (Hrel (set_pc i Stored d (mkSpin (locked (c_lock d)) (f v)) (S (c_count d))))
      as (c' & H1 & H2 & H3); simpl; [by rewrite length_insert|by rewrite list_lookup_insert_eq|].
    exists c'. split_and!; [|by rewrite H2; simpl; rewrite list_insert_insert_eq|done].
    eapply rtc_l; [|done]. exists i. by apply st_store. }
  destruct p as [| | |v|]; try done; [|by eapply Hsto|by apply Hrel].
  edestruct (Hsto (set_pc i (Loaded (value (c_lock c))) c (c_lock c) (c_count c)))
    as (c' & H1 & H2 & H3); simpl; [by rewrite length_insert|by rewrite list_lookup_insert_eq|].
  exists c'. split_and!; [|by rewrite H2; simpl; rewrite list_insert_insert_eq|done].
  eapply rtc_l; [|done]. exists i. by apply st_load.
Qed.

End threads.

(** ** Properties *)

(** C22.  Mutual exclusion: in whatever order the processors run, at most one holds
    the lock, the flag is set exactly while one does, and no update of the
    protected value is lost: it is [f] applied once per completed store. *)
Theorem spinlock_exclusion {T} (f : T -> T) n v0 c :
  rtc (any_step f) (start n v0) c ->
  (forall i j p q, c_pcs c !! i = Some p -> c_pcs c !! j = Some q ->
     holds p = true -> holds q = true -> i = j) /\
  (locked (c_lock c) = true <-> exists i p, c_pcs c !! i = Some p /\ holds p = true) /\
  value (c_lock c) = Nat.iter (c_count c) f v0.
Proof.
  intros Hr. destruct (lock_inv_rtc f v0 _ _ (lock_inv_start f n v0) Hr) as [H1 H2 H3 _ H5].
  split_and!; [exact H3| |exact H5]. split; [exact H2|]. intros (i & p & Hp & Hh).
  destruct (locked (c_lock c)) eqn:E; [done|]. by rewrite (H1 eq_refl i p Hp) in Hh.
Qed.

(** C23.  No deadlock: whatever has happened, a processor in the loop of [lock] can
    still get the lock, by steps that leave every other waiting processor where it
    is and make the holder, if there is one, release it. *)
Theorem spinlock_progress {T} (f : T -> T) n v0 c i :
  rtc (any_step f) (start n v0) c -> c_pcs c !! i = Some Trying ->
  exists c', rtc (any_step f) c c' /\ c_pcs c' !! i = Some Entered /\ locked (c_lock c') = true /\
    forall j p, j <> i -> c_pcs c !! j = Some p -> holds p = false -> c_pcs c' !! j = Some p.
Proof.
  intros Hr Hp. pose proof (lock_inv_rtc f v0 _ _ (lock_inv_start f n v0) Hr) as Hi.
  assert (Hfree : exists d, rtc (any_step f) c d /\ locked (c_lock d) = false /\
    forall j p, c_pcs c !! j = Some p -> holds p = false -> c_pcs d !! j = Some p).
  { destruct (locked (c_lock c)) eqn:El; [|by exists c; split; [apply rtc_refl|]].
    destruct (li_held _ _ _ Hi El) as (k & q & Hq & Hh).
    destruct (holder_releases f v0 c k q Hi Hq Hh) as (d & Hd & Ed & Hl).
    exists d. split_and!; [done..|]. intros j p Hj Hhp. rewrite Ed.
    rewrite list_lookup_insert_ne; [done|]. congruence. }
  destruct Hfree as (d & Hd & Hl & Hkeep). pose proof (Hkeep i Trying Hp eq_refl) as Hpd.
  eexists (set_pc i Entered d _ _). split_and!.
  - eapply rtc_r; [exact Hd|]. exists i. eapply st_acquire; [done|].
    rewrite compare_exchange_eq, Hl. reflexivity.
  - simpl. apply list_lookup_insert_eq. by eapply lookup_lt_Some.
  - done.
  - intros j p Hne Hj Hh. simpl. rewrite list_lookup_insert_ne by done. by apply Hkeep.
Qed.

(** A single call of [lock]: on a free lock the first exchange succeeds; on a
    taken one, with nobody else running, the loop does not end. *)
Theorem lock_alone {T} (l : Spinlock T) fuel :
  spinlock.lock fuel l = if locked l then (Fault OutOfFuel, l) else (Ret tt, mkSpin true (value l)).
Proof.
  destruct l as [[] v]; [|by destruct fuel].
  induction fuel as [|fuel IH]; [done|]. exact IH.
Qed.

(** [unlock] asks for no proof that the caller has the lock: after a stray
    [unlock] a second processor enters beside the first. *)
Theorem stray_unlock_breaks_exclusion :
  exists c l c', rtc (any_step Z.succ) (start 2 0) c /\ c_pcs c = [Entered; Trying] /\
    spinlock.unlock (c_lock c) = (Ret tt, l) /\
    any_step Z.succ (mkConf l (c_pcs c) (c_count c)) c' /\ c_pcs c' = [Entered; Entered].
Proof.
  exists (mkConf (mkSpin true 0) [Entered; Trying] 0), (mkSpin false 0),
    (set_pc 1 Entered (mkConf (mkSpin false 0) [Entered; Trying] 0) (mkSpin true 0) 0).
  split_and!; try done.
  - eapply rtc_l; [exists 0%nat; by apply st_call|].
    eapply rtc_l; [exists 1%nat; by apply st_call|].
    eapply rtc_l; [exists 0%nat; by eapply (st_acquire _ 0)|]. apply rtc_refl.
  - exists 1%nat. cbn [c_pcs c_count].
    by apply (st_acquire _ 1 (mkConf (mkSpin false 0) [Entered; Trying] 0) false (mkSpin true 0)).
Qed.

(** Two processors: the second waits while the first is inside. *)
Definition conf_w : conf := mkConf (mkSpin true 1) [Stored; Trying] 1.

Lemma conf_w_reachable : rtc (any_step Z.succ) (start 2 0) conf_w.
Proof.
  eapply rtc_l; [exists 0%nat; by apply st_call|].
  eapply rtc_l; [exists 0%nat; by eapply (st_acquire _ 0)|].
  eapply rtc_l; [exists 1%nat; by apply st_call|].
  eapply rtc_l; [exists 1%nat; by eapply (st_spin _ 1)|].
  eapply rtc_l; [exists 0%nat; by apply st_load|].
  eapply rtc_l; [exists 0%nat; by eapply (st_store _ 0)|]. apply rtc_refl.
Qed.

Lemma spinlock_exclusion_witness : value (c_lock conf_w) = Nat.iter 1 Z.succ 0.
Proof. apply (spinlock_exclusion Z.succ 2 0 conf_w conf_w_reachable). Defined.

Lemma spinlock_progress_witness :
  exists c', rtc (any_step Z.succ) conf_w c' /\ c_pcs c' !! 1%nat = Some Entered.
Proof.
  destruct (spinlock_progress Z.succ 2 0 conf_w 1%nat conf_w_reachable eq_refl) as (c' & H1 & H2 & _).
  exists c'. split; [exact H1|exact H2].
Defined.
