(* ===== verification/Boot.v ===== *)
(** * [main.rs]: the kernel's entry

    [_start] calls every component in turn.  Its state [kstate] is all of theirs
    side by side; a component runs on the part that it knows, through a [zoom].
    Memory and the page allocator are in it once, and so are the hardware and the
    interrupt flag. *)

From stdpp Require Import pretty.
From S2P Require Import Prelude Memory MathUtil Bitmap Pmm Vfs Vmm Slab Disk Ext2 Partitions.
From S2P Require Import Io Pci Ahci Acpi Hpet Interrupts Cpu Start Apic Process Console.

(** ** The state *)

(** Below the state of the interrupt controllers (address spaces, page allocator,
    memory, hardware, ACPI, HPET and MSRs): the heap's structs, CR4, segments, the
    IDT, what the drivers and the file systems keep, and the identifiers. *)
Record kstate (H : Type) := mkK {
  k_l : lstate Ext2Filesystem H;
  k_caches : gmap Z Cache;
  k_slabs : gmap Z Slab;
  k_head : Z;
  k_cr4 : Z;
  k_gdt : gstate;
  k_idt : list IdtGate * IdtDescriptor * option IdtDescriptor;
  k_devices : list Z;
  k_pci : list PciDevice;
  k_fs : option Ext2Filesystem;
  k_table : list (option Inode);
  k_mounts : list (MountPoint Ext2Filesystem);
  k_ids : option Bitmap * option Bitmap;
}.
Arguments mkK {H} _ _ _ _ _ _ _ _ _ _ _ _ _.
Arguments k_l {H} _.
Arguments k_caches {H} _.
Arguments k_slabs {H} _.
Arguments k_head {H} _.
Arguments k_cr4 {H} _.
Arguments k_gdt {H} _.
Arguments k_idt {H} _.
Arguments k_devices {H} _.
Arguments k_pci {H} _.
Arguments k_fs {H} _.
Arguments k_table {H} _.
Arguments k_mounts {H} _.
Arguments k_ids {H} _.

Section views.
Context {H : Type}.
Implicit Types (s : kstate H).
Abbreviation K := (M (kstate H)).

Definition k_v s : vstate Ext2Filesystem := t_v (l_t (k_l s)).
Definition k_p s : pstate := v_p (k_v s).
Definition k_hw s : H := t_hw (l_t (k_l s)).
Definition k_heap s : kheap := mkH (k_p s) (k_caches s) (k_slabs s) (k_head s).

Definition with_l (l : lstate Ext2Filesystem H) s : kstate H :=
  mkK l (k_caches s) (k_slabs s) (k_head s) (k_cr4 s) (k_gdt s) (k_idt s) (k_devices s)
      (k_pci s) (k_fs s) (k_table s) (k_mounts s) (k_ids s).
Definition with_t (t : tstate Ext2Filesystem H) s : kstate H :=
  let l := k_l s in with_l (mkL t (LAPIC l) (l_msrs l) (l_if l)) s.
Definition with_v (v : vstate Ext2Filesystem) s : kstate H :=
  let t := l_t (k_l s) in with_t (mkT v (t_hw t) (t_rsdp t) (HPET t)) s.
Definition with_p (p : pstate) s : kstate H :=
  let v := k_v s in with_v (mkVS p (v_kernel v) (v_cr3 v) (v_flushed v)) s.
Definition with_hw (h : H) s : kstate H :=
  let t := l_t (k_l s) in with_t (mkT (t_v t) h (t_rsdp t) (HPET t)) s.
Definition with_heap (h : kheap) s : kstate H :=
  let s := with_p (h_p h) s in
  mkK (k_l s) (h_caches h) (h_slabs h) (h_head h) (k_cr4 s) (k_gdt s) (k_idt s) (k_devices s)
      (k_pci s) (k_fs s) (k_table s) (k_mounts s) (k_ids s).
Definition with_cpu (c : Z) (g : gstate) s : kstate H :=
  mkK (k_l s) (k_caches s) (k_slabs s) (k_head s) c g (k_idt s) (k_devices s)
      (k_pci s) (k_fs s) (k_table s) (k_mounts s) (k_ids s).
Definition with_int (i : istate) s : kstate H :=
  let l := k_l s in
  let s := with_l (mkL (l_t l) (LAPIC l) (l_msrs l) (i_if i)) s in
  mkK (k_l s) (k_caches s) (k_slabs s) (k_head s) (k_cr4 s) (k_gdt s)
      (i_idt i, i_descriptor i, i_idtr i) (k_devices s)
      (k_pci s) (k_fs s) (k_table s) (k_mounts s) (k_ids s).
Definition with_a (a : astate Ext2Filesystem H) s : kstate H :=
  let s := with_hw (a_hw a) (with_v (a_v a) s) in
  mkK (k_l s) (k_caches s) (k_slabs s) (k_head s) (k_cr4 s) (k_gdt s) (k_idt s) (a_devices a)
      (a_pci a) (k_fs s) (k_table s) (k_mounts s) (k_ids s).
Definition with_f (f : fstate Ext2Filesystem (estate H)) s : kstate H :=
  let s := with_hw (e_disk (f_st f)) (with_p (e_p (f_st f)) s) in
  mkK (k_l s) (k_caches s) (k_slabs s) (k_head s) (k_cr4 s) (k_gdt s) (k_idt s) (k_devices s)
      (k_pci s) (e_fs (f_st f)) (e_table (f_st f)) (f_mounts f) (k_ids s).
Definition with_ids (d : idstate) s : kstate H :=
  let s := with_p (d_p d) s in
  mkK (k_l s) (k_caches s) (k_slabs s) (k_head s) (k_cr4 s) (k_gdt s) (k_idt s) (k_devices s)
      (k_pci s) (k_fs s) (k_table s) (k_mounts s) (d_pid d, d_tid d).

Definition on_l {A} : M (lstate Ext2Filesystem H) A -> K A := zoom k_l with_l.
Definition on_t {A} : M (tstate Ext2Filesystem H) A -> K A := zoom (fun s => l_t (k_l s)) with_t.
Definition on_v {A} : M (vstate Ext2Filesystem) A -> K A := zoom k_v with_v.
Definition on_p {A} : M pstate A -> K A := zoom k_p with_p.
Definition on_hw {A} : M H A -> K A := zoom k_hw with_hw.
Definition on_heap {A} : M kheap A -> K A := zoom k_heap with_heap.
Definition on_gdt {A} : M gstate A -> K A := zoom k_gdt (fun g s => with_cpu (k_cr4 s) g s).
(** The state of [cpu::start]. *)
Definition on_u {A} : M ustate A -> K A :=
  zoom (fun s => mkU (k_heap s) (k_cr4 s) (k_gdt s))
       (fun u s => with_cpu (u_cr4 u) (u_gdt u) (with_heap (u_heap u) s)).
Definition on_int {A} : M istate A -> K A :=
  zoom (fun s => mkI (k_idt s).1.1 (k_idt s).1.2 (k_idt s).2 (l_if (k_l s))) with_int.
Definition on_acpi {A} : M cstate A -> K A :=
  zoom (fun s => mkC (p_mem (k_p s)) (t_rsdp (l_t (k_l s))))
       (fun c s => let s := with_p (mkP (c_mem c) (p_alloc (k_p s))) s in
                   let t := l_t (k_l s) in with_t (mkT (t_v t) (t_hw t) (RSDP c) (HPET t)) s).
Definition on_a {A} : M (astate Ext2Filesystem H) A -> K A :=
  zoom (fun s => mkA (k_v s) (k_hw s) (k_devices s) (k_pci s)) with_a.
(** Mounts over the file system, whose disk is the hardware. *)
Definition on_f {A} : M (fstate Ext2Filesystem (estate H)) A -> K A :=
  zoom (fun s => mkF (k_mounts s) (mkE (k_p s) (k_hw s) (k_fs s) (k_table s))) with_f.
Definition on_e {A} (c : M (estate H) A) : K A :=
  on_f (zoom f_st (fun e f => mkF (f_mounts f) e) c).
Definition on_ids {A} : M idstate A -> K A :=
  zoom (fun s => mkIds (k_p s) (k_ids s).1 (k_ids s).2) with_ids.

(** [video] is a local of [_start]: it is passed along, with memory. *)
Definition on_video {A} (v : Video) (c : M vid A) : K (A * Video) := fun s =>
  match c (v, p_mem (k_p s)) with
  | (Ret a, (v', m)) => (Ret (a, v'), with_p (mkP m (p_alloc (k_p s))) s)
  | (Fault e, (_, m)) => (Fault e, with_p (mkP m (p_alloc (k_p s))) s)
  end.

End views.

(** ** [core::str::from_utf8] and [chars] *)

Definition between (lo hi b : Z) : bool := (lo <=? b) && (b <=? hi).
Definition continuation (b : Z) : bool := between 0x80 0xBF b.

(** What may follow the first byte of three and of four: no overlong forms, no
    surrogates, nothing above [0x10FFFF]. *)
Definition second3 (a b : Z) : bool :=
  between (if a =? 0xE0 then 0xA0 else 0x80) (if a =? 0xED then 0x9F else 0xBF) b.
Definition second4 (a b : Z) : bool :=
  between (if a =? 0xF0 then 0x90 else 0x80) (if a =? 0xF4 then 0x8F else 0xBF) b.

(** The characters of a byte string, [None] for [Err]. *)
Fixpoint utf8_chars (bs : list Z) : option (list Z) :=
  match bs with
  | [] => Some []
  | a :: bs =>
      if a <? 0x80 then cons a <$> utf8_chars bs
      else if between 0xC2 0xDF a then
        match bs with
        | b :: bs =>
            if continuation b then cons ((a - 0xC0) * 64 + (b - 0x80)) <$> utf8_chars bs else None
        | _ => None
        end
      else if between 0xE0 0xEF a then
        match bs with
        | b :: c :: bs =>
            if second3 a b && continuation c
            then cons (((a - 0xE0) * 64 + (b - 0x80)) * 64 + (c - 0x80)) <$> utf8_chars bs else None
        | _ => None
        end
      else if between 0xF0 0xF4 a then
        match bs with
        | b :: c :: d :: bs =>
            if second4 a b && continuation c && continuation d
            then cons ((((a - 0xF0) * 64 + (b - 0x80)) * 64 + (c - 0x80)) * 64 + (d - 0x80)) <$> utf8_chars bs
            else None
        | _ => None
        end
      else None
  end.

(** ** [_start] *)

(** What [_start] takes from the bootloader's struct. *)
Record FramebufferTag := mkFb { fbt_addr : Z; fbt_height : Z; fbt_width : Z; fbt_pitch : Z }.
Record StivaleStruct := mkStivale {
  framebuffer : option FramebufferTag;
  memory_map : option (list MemEntry);
  rsdp : option Z;
}.

(** What the build decides: [size_of::<Slab>()], the bytes of the font, and the
    addresses of the tables and of the two interrupt stubs. *)
Record image := mkImage {
  im_slab : Z;
  im_font : list Z;
  im_gdt : Z;
  im_idt : Z;
  im_int3 : Z;
  im_invalid_opcode : Z;
}.

Module kernel.
Section start.
Context {H : Type} `{!PortBus H, !MmioBus H, !Disk H}.
Context (cpuid : Z -> Z -> Cpuid) (im : image).
Abbreviation K := (M (kstate H)).

(** [serial::print!]: [write!] writes the pieces in turn, [unwrap] their result. *)
Fixpoint serial_print (fuel : nat) (pieces : list (list Z)) : K unit :=
  match pieces with
  | [] => ret tt
  | p :: pieces' =>
      let! r := on_hw (serial.write_str fuel p) in
      do! expect r in
      serial_print fuel pieces'
  end.

(** The calls that set up memory and the processor. *)
Definition bring_up (mmap : list MemEntry) : K unit :=
  do! on_p (pmm.init mmap) in
  do! on_heap (slab.init (im_slab im)) in
  do! on_gdt (gdt.init (im_gdt im)) in
  do! on_int (interrupts.init (im_idt im) (im_int3 im) (im_invalid_opcode im)) in
  do! on_v vmm.init in
  on_u (cpu.start cpuid (im_slab im)).

(** [_start], up to [cpu::halt], which does nothing more.  [fuel] bounds the waits
    for the serial port. *)
Definition _start (fuel : nat) (tags : StivaleStruct) : K unit :=
  let! framebuffer_tag := expect (framebuffer tags) in
  let! mmap_tag := expect (memory_map tags) in
  let! rsdp_tag := expect (rsdp tags) in
  do! on_hw serial.init in
  let! v := video.new (im_font im) (fbt_addr framebuffer_tag) (fbt_height framebuffer_tag)
              (fbt_width framebuffer_tag) (fbt_pitch framebuffer_tag) in
  let! (_, v) := on_video v (video.print (str_bytes "Hello, world, from Rust!" ++ [10])) in
  let! (_, v) := on_video v (video.print (str_bytes "Is everything fine?")) in
  do! bring_up mmap_tag in
  do! on_acpi (acpi.init rsdp_tag) in
  do! on_t hpet.init in
  do! on_l apic.init in
  do! on_a ahci.enumerate_devices in
  let! _ := on_e partitions.scan in
  let! fs := on_e ext2.fs_get in
  let! _ := on_f (vfs.mount fs "/") in
  let! r := on_f (vfs.open "/home/limine.cfg" 0 0) in
  let! fd := expect r in
  do! serial_print fuel [str_bytes "file index: "; str_bytes (pretty (fd_file_index fd)); [10]] in
  let! content := on_heap (slab.alloc (im_slab im) 50) in
  let! _ := on_f (vfs.read (fd_fs fd) (fd_file_index fd) content 50 (fd_offset fd)) in
  let! bytes := on_p (Pmm.on_mem (gets (fun m => rd_bytes 50 m (phys_of content)))) in
  let! text := expect (utf8_chars bytes) in
  do! serial_print fuel [str_bytes "res: "; text; [10]] in
  do! on_ids process.init_bitmaps in
  let p : Process Ext2Filesystem unit := process.process_new "crap" 0 None in
  serial_print fuel [str_bytes "hey!"; [10]].

End start.
End kernel.

(** ** What the bring-up leaves *)

Section bring_up.
Context {H : Type} (cpuid : Z -> Z -> Cpuid) (im : image).
Context (es1 : list MemEntry) (e : MemEntry) (es2 : list MemEntry).
Local Abbreviation es := (es1 ++ e :: es2).
Local Abbreviation bytes := (bitmap_bytes (es1 ++ e :: es2)).
Local Abbreviation SZ := (im_slab im).

(** The page allocator that [pmm::init] makes, and the first frame behind its
    bitmap. *)
Definition boot_bm : Bitmap := bitmap.from_raw_ptr (e_base e + PHYS_BASE) bytes.
Definition boot_first : Z := (e_base e + bytes) / PAGE_SIZE.
Definition boot_room : Z := (e_length e - bytes) / PAGE_SIZE.

(** The memory map, and enough of its entry for heap and stacks. *)
Record boot_ok : Prop := {
  bo_map : Pmm.map_ok es1 e es2;
  bo_mem : frames boot_bm * PAGE_SIZE <= 2 ^ 46;
  bo_slab : 0 <= SZ <= PAGE_SIZE;
  bo_room : heap_pages SZ + 6 <= boot_room;
}.

(** The statics before [_start]. *)
Record statics (s : kstate H) : Prop := {
  ss_caches : k_caches s = ∅;
  ss_slabs : k_slabs s = ∅;
  ss_head : k_head s = 0;
  ss_idt : length (k_idt s).1.1 = 256%nat;
}.

(** The frames of the entry behind the bitmap are free. *)
Lemma boot_room_free m : Pmm.map_ok es1 e es2 ->
  (forall p, 0 <= p < frames boot_bm -> test m boot_bm p = existsb (marks p) (es1 ++ shrink bytes e :: es2)) ->
  room m boot_bm boot_first boot_room.
Proof.
  intros [Hes _ Hs Hpg _ Hby] Ht.
  assert (Hin : e ∈ es) by (apply elem_of_app; right; by left).
  rewrite list.Forall_forall in Hes, Hpg. destruct (Hes e Hin) as (E1 & E2 & E3).
  unfold suits in Hs. apply andb_true_iff in Hs as [Hu Hl].
  destruct (Hpg e Hin Hu) as [[Pb Pl] _]. pose proof (peak_of_elem es e Hin Hu) as Hpk.
  assert (Hb0 : 0 <= bytes). { apply cdiv_nonneg; [apply Z.div_pos; unfold PAGE_SIZE; lia|lia]. }
  pose proof (cdiv_bounds (peak_of es / PAGE_SIZE) 8 ltac:(done)) as Hc. fold bytes in Hc.
  assert (Hend : boot_first + boot_room = (e_base e + e_length e) / PAGE_SIZE).
  { unfold boot_first, boot_room, PAGE_SIZE in *.
    rewrite (Z.div_mod (e_base e) 4096), (Z.div_mod (e_length e) 4096), (Z.div_mod bytes 4096) by lia.
    rewrite Pb, Pl, Hby, !Z.add_0_r. rewrite <- !Z.mul_add_distr_l, <- Z.mul_sub_distr_l.
    rewrite !(Z.mul_comm 4096), !Z.div_mul by lia. lia. }
  assert (Hle : (e_base e + e_length e) / PAGE_SIZE <= peak_of es / PAGE_SIZE)
    by (apply Z.div_le_mono; [done|lia]).
  assert (Hf0 : 0 <= boot_first) by (apply Z.div_pos; [lia|done]).
  assert (Hfr : boot_first + boot_room <= frames boot_bm) by (unfold frames, boot_bm; simpl; lia).
  split_and!; [done|done|]. intros j Hj. rewrite Ht by lia.
  apply existsb_marks. exists (shrink bytes e). split; [apply elem_of_app; right; by left|].
  unfold marks. change (is_usable (shrink bytes e)) with (is_usable e). rewrite Hu.
  cbn [shrink e_base e_length andb]. fold boot_first boot_room.
  apply andb_true_iff. split; [apply Z.leb_le|apply Z.ltb_lt]; lia.
Qed.

Lemma interrupts_init_eq (i : istate) a b c : length (i_idt i) = 256%nat ->
  interrupts.init a b c i =
    let d := mkIdtr (idtr_limit (i_descriptor i)) a in
    (Ret tt, mkI (<[6%nat := gate_new c 0 0x8e 0x8]> (<[3%nat := gate_new b 0 0x8e 0x8]> (i_idt i)))
                 d (Some d) (i_if i)).
Proof.
  intros Hl. unfold interrupts.init, interrupts.register_isr, bind, gets, modify.
  rewrite Hl. change (3 <? Z.of_nat 256) with true. cbn [i_idt].
  rewrite length_insert, Hl. reflexivity.
Qed.

(** The state of the whole machine after it.  [mr_frames]: a frame that the memory
    map gives out is free or in exactly one of the blocks of the heap's classes
    and the TSS, any other frame is neither. *)
Record machine_ready (s s' : kstate H) (ks : list cls) (k : cls) (p0 p1 p2 : Z) : Prop := {
  mr_alloc : p_alloc (k_p s') = Some boot_bm /\ pmm_inv (p_mem (k_p s')) boot_bm;
  mr_frames : forall q, 0 <= q < frames boot_bm ->
    Z.b2z (test (p_mem (k_p s')) boot_bm q) +
      cover ([(p2, 2); (p1, 2); (p0, 2)] ++ (ks ≫= cls_runs SZ)) q
    = Z.b2z (existsb (marks q) (es1 ++ shrink bytes e :: es2));
  mr_classes : k_size <$> ks = class_sizes;
  mr_tss : find_class Tss.size ks = Some k /\ exists m0, pmm_inv m0 boot_bm /\
    (forall q, 0 <= q < frames boot_bm ->
       test m0 boot_bm q = existsb (marks q) (es1 ++ shrink bytes e :: es2)) /\
    tss_built SZ boot_bm m0 ks k 0 (k_heap s') (tss_fields p0 p1 p2)
      (boot_first + heap_pages SZ + 6) (boot_room - heap_pages SZ - 6);
  mr_objects : forall k' j, k' ∈ ks -> 0 <= j < OBJS_PER_SLAB ->
    used (p_mem (k_p s')) k' j = bool_decide (k' = k /\ j = 0);
  mr_gdt : tss_base (gdt_tss (s_gdt (k_gdt s'))) = obj SZ k 0 /\ s_tr (k_gdt s') = 0x28 /\
    s_cs (k_gdt s') = 0x8 /\ option_map gdtr_offset (s_gdtr (k_gdt s')) = Some (im_gdt im);
  mr_idt : option_map idtr_offset (k_idt s').2 = Some (im_idt im) /\
    (k_idt s').1.1 = <[6%nat := gate_new (im_invalid_opcode im) 0 0x8e 0x8]>
                     (<[3%nat := gate_new (im_int3 im) 0 0x8e 0x8]> (k_idt s).1.1);
  mr_kernel : v_kernel (k_v s') = Some (mkVmm (v_cr3 (k_v s)) []);
  mr_hw : k_hw s' = k_hw s /\ l_if (k_l s') = l_if (k_l s);
}.

(** C24. The calls from [pmm::init] to [cpu::start], composed: on a memory map as in
    [boot_ok] (page-granular usable entries that do not overlap, frame 0 not
    usable, a bitmap of whole pages, room for heap and stacks) they all return.
    They leave the page allocator well formed, with the usable frames of the
    memory map outside the bitmap free except those of the blocks below, of
    which no two overlap: the heap's ten classes, of whose objects only the TSS
    is used, and three blocks of two zeroed frames, whose lowest addresses are in
    [rsp0], [ist1] and [ist2] of the TSS.  Segments and task register are set,
    the IDT has its two gates, the kernel its address space; devices and the
    interrupt flag are as before. *)
Theorem boot_bring_up s : boot_ok -> statics s ->
  exists s' ks k p0 p1 p2, kernel.bring_up cpuid im es s = (Ret tt, s') /\
    machine_ready s s' ks k p0 p1 p2.
Proof.
  intros [Hmap Hmem Hsz Hroom] [Sc Ss Sh Si].
  destruct (init_inv_ok es1 e es2 (k_p s) Hmap) as (m0 & E0 & Hm0 & Ht).
  fold boot_bm in E0, Hm0, Ht. pose proof (boot_room_free m0 Hmap Ht) as Hr.
  assert (Hh0 : heap_inv SZ m0 boot_bm [] (mkH (mkP m0 (Some boot_bm)) ∅ ∅ 0))
    by apply (heap_0_inv SZ m0 boot_bm Hm0).
  destruct (heap_init_ok SZ Hsz m0 boot_bm Hm0 Hmem _ boot_first boot_room Hh0 Hr)
    as (ks & [hp hc hs hh] & E1 & Hks & Hh & Hfr & Hr1); [lia|].
  set (h := mkH hp hc hs hh) in *.
  pose proof (find_class_map Tss.size ks) as Hfc. rewrite Hks in Hfc.
  destruct (find_class Tss.size ks) as [k|] eqn:Ek; [|done].
  destruct (find_class_split _ _ _ Ek) as (Hk & _).
  set (s1 := with_p (mkP m0 (Some boot_bm)) s).
  set (s2 := with_heap h s1).
  set (g := mkG (s_gdt (k_gdt s)) (mkGdtr (gdtr_limit (s_descriptor (k_gdt s))) (im_gdt im))
              (Some (mkGdtr (gdtr_limit (s_descriptor (k_gdt s))) (im_gdt im))) 0x8 0x10 (s_tr (k_gdt s))).
  destruct (cpu_start_correct SZ m0 boot_bm ks h k 0 cpuid (k_cr4 s) g
    (boot_first + heap_pages SZ) (boot_room - heap_pages SZ)) as
    ([hp' hc' hs' hh'] & c & g' & p0 & p1 & p2 & E5 & _ & Htr & Hbase & Hgr & Hcs & Hb & _ & Hu);
    [by split|done|by apply (first_free_fresh _ ks)|done|lia|].
  eexists _, ks, k, p0, p1, p2. split.
  - unfold kernel.bring_up.
    rewrite (bind_run _ _ _ tt s1) by (by apply zoom_ret).
    rewrite (bind_run _ _ _ tt s2).
    2:{ apply zoom_ret. unfold k_heap. cbn -[slab.init class_sizes]. rewrite Sc, Ss, Sh. exact E1. }
    rewrite (bind_run _ _ _ tt (with_cpu (k_cr4 s) g s2)) by done.
    erewrite bind_run by (apply zoom_ret, interrupts_init_eq; exact Si).
    erewrite bind_run by done.
    apply zoom_ret. exact E5.
  - pose proof (sh_hist _ _ _ _ _ _ _ _ (tb_share _ _ _ _ _ _ _ _ _ _ Hb)) as Hhist.
    pose proof (sh_heap _ _ _ _ _ _ _ _ (tb_share _ _ _ _ _ _ _ _ _ _ Hb)) as (m1 & _ & Hheap).
    split.
    + split; [exact (hv_alloc _ _ _ _ _ Hheap)|exact (hi_pmm _ _ _ Hhist)].
    + intros q Hq. rewrite <- Ht by exact Hq. exact (hi_count _ _ _ Hhist q Hq).
    + exact Hks.
    + split; [exact Ek|]. exists m0. split; [exact Hm0|]. split; [exact Ht|exact Hb].
    + intros k' j Hk' Hj. transitivity (used (p_mem hp') k' j); [done|].
      rewrite (Hu k' j Hk' Hj : used (p_mem hp') k' j = _), (Hfr k' j Hk' Hj).
      case_decide; [by rewrite bool_decide_true|by rewrite bool_decide_false].
    + cbn [k_gdt with_cpu u_gdt]. rewrite Hgr, Hcs. done.
    + done.
    + done.
    + done.
Qed.

End bring_up.

(** Without one of the three tags [_start] panics before it does anything. *)
Theorem start_needs_tags {H} `{!PortBus H, !MmioBus H, !Disk H} cpuid im fuel tags (s : kstate H) :
  framebuffer tags = None \/ memory_map tags = None \/ rsdp tags = None ->
  kernel._start cpuid im fuel tags s = (Fault Expect, s).
Proof.
  unfold kernel._start, expect. destruct tags as [[] [] []]; cbn [framebuffer memory_map rsdp]; try done.
  by intros [|[|]].
Qed.

(** ** 128 MiB *)

Definition entry_w : MemEntry := mkEntry 0x100000 0x7f00000 Usable.
Definition im_w : image := mkImage 72 [] 0xffffffff80010000 0xffffffff80011000 0xffffffff80001000 0xffffffff80002000.
Definition kstate_w : kstate unit :=
  mkK (mkL (mkT (mkVS (mkP ∅ None) None 0x7fff000 []) tt 0 None) None ∅ false) ∅ ∅ 0 0x20 gstate_0
      (i_idt istate_0, i_descriptor istate_0, None) [] [] None [] [] (None, None).

Lemma boot_bring_up_witness :
  exists s' ks k p0 p1 p2,
    kernel.bring_up (fun _ _ => mkCpuid 0 0 0 0) im_w [entry_w] kstate_w = (Ret tt, s') /\
    machine_ready im_w [] entry_w [] kstate_w s' ks k p0 p1 p2.
Proof.
  apply (boot_bring_up (fun _ _ => mkCpuid 0 0 0 0) im_w [] entry_w [] kstate_w).
  - split; [split|..]; [repeat constructor; simpl; lia|constructor|vm_compute; reflexivity|
      repeat constructor; simpl; lia|constructor|vm_compute; reflexivity|vm_compute; discriminate|
      unfold PAGE_SIZE; simpl; lia|vm_compute; discriminate].
  - split; reflexivity.
Defined.
